(* ===== verification/_CoqProject ===== *)
-Q . S2P
Prelude.v
Bytes.v
Sha1.v
Handshake.v
Decoder.v
Frames.v
Connection.v
Json.v
JsonText.v
Model.v
ModelInv.v
ModelRoles.v
ModelSpec.v
ModelDelayed.v
ModelWiring.v
ModelProperties.v
Identity.v
ObjectOperation.v
Messages.v
