(* ===== verification/Prelude.v ===== *)
(** * A verification development of the Enginio Qt client

    The repository (src/) is the Enginio Qt client library.  Its hardest part is
    [EnginioBackendConnection] (src/src/enginio_client/enginiobackendconnection.cpp):
    a client-side WebSocket engine that

    - asks the backend for a stream URL ([connectToBackend], [onEnginioFinished]),
    - opens a TCP socket to it and sends the RFC 6455 opening handshake
      ([onSocketStateChanged], [constructOpeningHandshake],
      [generateBase64EncodedUniqueKey], [computeBase64EncodedSha1VerificationKey]),
    - validates the server's handshake response with four regular expressions
      ([extractResponseStatus], [extractResponseHeader]),
    - then decodes the RFC 6455 base framing protocol from the byte stream,
      reassembling text messages ([onSocketReadyRead]), and
    - tears the connection down on any protocol error ([protocolError]).

    Beside it, [EnginioModel] (src/src/enginio_client/enginiomodel.cpp) is a
    list model that caches the objects of a query, forwards appends, removals
    and edits to the backend through an [EnginioClient], and reconciles the
    replies with the cache through per-object reference counts, and
    [EnginioAuthentication] (src/src/enginio_client/enginioidentity.cpp) logs
    in with a user name and a password and keeps the session token.  The
    components do not call each other; all talk to the [EnginioClient].

    ** Layout (one file per component, in dependency order)

    - [Prelude]   (this file): the notation scope [enginio_scope], the tactics
      and the hint database [enginio] shared by all files, and generic lemmas on
      lists and on bytes kept as integers [Z] in [0, 256).
    - [Bytes]     : ASCII/byte conversions, lowercase hex and Qt's
      [QByteArray::toBase64] (spec-modelled: Qt code, not under src/).
    - [Sha1]      : SHA-1 as used through [QCryptographicHash::hash]
      (spec-modelled from FIPS 180-4), with 32-bit wrap-around written out.
    - [Handshake] : the anonymous-namespace helpers of
      enginiobackendconnection.cpp, lines 16-101: the response regexes as
      leftmost-match searchers, the verification key, the nonce built from a
      [QUuid], and the opening request.
    - [Decoder]   : the connection object's fields as a record, [protocolError]
      and the body of [onSocketReadyRead] (one definition per [case] of its
      [switch]), the [while] loop with fuel computed from the buffered bytes.
    - [Frames]    : the RFC 6455 frame encoder and a message-level
      specification of the decoder, and the handshake case of the loop.
    - [Connection]: every slot of the class as a handler of an event, the
      transport as an environment, a step relation on states and its
      reachable states.
    - [Json]      : [QJsonValue], [QJsonObject] (a key-sorted association
      list) and [QJsonArray] from Qt's documentation, with the proofs that
      the object operations keep the keys sorted and are the operations of
      the finite map [obj_map] of the object, that a sorted list is the
      canonical representation of its map, and that [json_eqb] is equality.
    - [Model]     : [EnginioModelPrivate] as a record, its methods (the delayed
      operations and their [SwapNetworkReply] functors included) in a state,
      output and failure monad with a partial ([wp]) and a total ([twp])
      correctness calculus, the public [EnginioModel] methods and the
      signal-slot wiring as events ([mhandle], [mrun]).
    - [ModelInv]  : the reference-count invariant [model_inv], the reachable
      states [mreachable] and the proof that every event keeps the invariant.
    - [ModelRoles]: the numbering of roles by [syncRoles] ([roles_wf]) and
      [roleNames]/[data] read back through the role of a property.
    - [ModelSpec] : total specifications of the public methods and of the
      replies to them, and a checker building [mreachable] for concrete runs.
    - [ModelDelayed]: the replies to requests on single objects and the
      deferred operations ([swapNetworkReply], [SwapNetworkReplyForRemove],
      [SwapNetworkReplyForSetData]) when they meet a pending create, a
      failed create or a reset, for every state that meets the conditions.
    - [ModelWiring]: the [QObject] connections [setEnginio] makes as part
      of the state ([WModel]), Qt's emission running the connected functors
      in connection order, the destructor, and the proof that this wired
      model is the model of [Model] with the wiring read off the client.
    - [JsonText]  : [QJsonDocument::toJson] (compact) and
      [QJsonDocument::fromJson] (library code, from Qt's writer and parser):
      a writer from [json] to bytes and a recursive-descent parser on bytes
      in a result monad ([presult]: a value with an exactness flag, an
      error, or no fuel left), one definition per parser function.
    - [ModelProperties]: the [Q_PROPERTY] declarations of enginiomodel.h
      ([enginio], [query]) and the [operation] property as records of
      their READ and WRITE accessors and NOTIFY signal, and Qt's contract
      for a property as the record of laws [PropertyLaws].
    - [Identity]  : [EnginioAuthentication] as a record with its setters, the
      identify request and the [SessionSetterFunctor] that stores the token;
      [QJsonDocument::fromJson(...).object()] is a section variable.
    - [ObjectOperation]: the enumeration and the data members declared in
      enginioobjectoperation_p.h, with decidable equality and a countable
      encoding.
    - [Messages]  : the places the sources call [QJsonDocument] (the
      [dataReceived] emission and the reply body the identity reads),
      composing the decoder, the connection and the identity with
      [JsonText].

    ** State and effects

    The connection object keeps its state in fields ([_protocolDecodeState],
    [_payloadLength], [_applicationData], ...) and in a process-wide global
    ([gBase64EncodedSha1VerificationKey]); both are fields of one record,
    [Decoder.Conn], threaded through every handler.  Signals ([stateChanged],
    [dataReceived]) and [qWarning] lines are appended to an output trace.  The
    TCP socket is a record with its read buffer (what [bytesAvailable] counts),
    the bytes written and whether it is open; [close] empties the read buffer as
    [QIODevice::close] does and emits [stateChanged(UnconnectedState)]
    synchronously, so the slot runs inside [protocolError] as it does in Qt.
    The model's fields form [Model.Model]; its [QHash] and [QMap] are stdpp
    [gmap]s, the [EnginioClient] requests are a log of calls with the reply
    numbers they return, and undefined behaviour of a release build (null
    client, [end()] dereferenced, out-of-range [QJsonArray::replace]) is the
    result [None].

    ** What the theorems show

    - Decoder and frames: delivering any RFC 6455 encoding of well-formed
      frames emits exactly the messages of the message-level specification
      ([Frames.decode_frames]), however the stream is chunked
      ([Decoder.Chunking.deliver_chunks_concat]); the loop terminates
      ([Decoder.Loop.onSocketReadyRead_terminates]); text frames round-trip;
      masked, 64-bit and fragmented messages are refused.
    - Handshake: the RFC 6455 example key, the shape of every key, the
      acceptance condition of a server answer, and how the code departs from
      the RFC (hex nonce, case-sensitive header names, trailing bytes lost).
    - Connection: an invariant of every reachable state
      ([Connection.reachable_inv]); connecting from any reachable closed state
      and receiving the right answer and frames yields exactly the specified
      messages ([Connection.connect_then_messages]); a disconnection without
      [error()] in the middle of a frame leaves its payload length behind, so
      the header of the next connection's first frame is read as payload
      ([Connection.disconnect_keeps_payload_length]).
    - Model: the [uint ref] of every attached object counts its pending
      requests and waiting functors in every reachable state
      ([ModelInv.model_refcounts]), under the conditions [mreachable] puts on
      the order of replies, which [ModelDelayed] shows are needed; the role of a
      property reads it back ([ModelRoles.syncRoles_roundtrip]); total
      functional specifications of [append], [remove], [fetchMore] and
      [setQuery]; [setQuery] of a query with the same map is a no-op
      ([ModelSpec.setQuery_same_map]) but the same paged query is sent again
      ([ModelSpec.setQuery_paged_repeats]); a remove and its reply refine
      the removal of a row from a list, or restore the state on a network
      error ([ModelSpec.remove_reply_outcome]); a [setProperty] and its
      reply refine replacing one element, keeping the local edit when the
      reply's [updatedAt] is older ([ModelSpec.setProperty_reply_outcome]);
      [fetchMore] and its page refine appending to a list
      ([ModelSpec.fetchMore_page]).
    - Deferred operations: a remove of a row whose create is pending is sent
      once the create's reply gives the id, and after both replies the model
      is as it was before the append ([ModelDelayed.remove_pending_create]); a reset drops the attached
      data, so a later create reply overwrites row 0
      ([ModelDelayed.reset_overwrites_created_row]); a failed create keeps
      its row ([ModelDelayed.failed_create_kept]), and when the row was
      removed meanwhile it leaves the reference count at one with no request
      pending ([ModelDelayed.failed_create_leaks_ref]); a remove deferred on a
      pending create sends an object without its [objectType]
      ([ModelDelayed.delayed_remove_drops_objectType]).
    - Wiring: a run of calls and client signals delivered through the
      connections a wired model holds is the run of [Model.mrun], connection
      for connection ([ModelWiring.wrun_wired]); a destroyed model hears no
      signal of its old client.
    - JSON text: the text [toJson] writes for a well-formed object reads back
      as the same object ([JsonText.fromJson_toJson]); the parser never runs
      out of the fuel [fromJson] gives it and more fuel changes nothing
      ([JsonText.parseDocument_fuel]); text that opens neither an object nor
      an array is refused ([JsonText.fromJson_not_document]), and so is a
      document nested more than 1024 deep ([JsonText.fromJson_deep_nesting]).
    - Messages: an object sent as the JSON text of a text frame reaches the
      receivers of [dataReceived] as the same object, exactly once, however
      the frame is split across reads ([Messages.Messages.json_message_chunks]);
      a malformed message arrives as the empty object, indistinguishable from
      [{}] ([Messages.Messages.invalid_json_message_empty]); the identity
      reads the [sessionToken] string of a JSON reply and an empty token from
      any other body ([Messages.Messages.session_token_json]).
    - Properties: the [enginio] and [operation] properties keep Qt's
      contract on every value, the [query] property on the queries without
      a [pageSize] ([ModelProperties.ModelProperties.model_property_laws]);
      a paged query breaks it, [queryChanged] carrying the query written
      while [query()] returns the rewritten one
      ([ModelProperties.ModelProperties.query_property_contract]).
    - Identity: [sessionToken] returns a held token or sends one identify
      request and returns the reply's token
      ([Identity.Identity.sessionToken_spec]); the functor stores the reply's
      [sessionToken] and runs once; [setPassword] reports the password
      through [userChanged].

    ** Bounds and fuel

    Bytes are [Z] values in [0, 256); the 16-bit extended payload length is
    rebuilt with [Z.shiftl]/[Z.lor] and is below 65536.  The [while] loop of
    [onSocketReadyRead] runs with fuel [2 * bytesAvailable + 3]: every iteration
    either consumes two header bytes, or moves from [PayloadDataPending] to
    [FrameHeaderPending], or returns, so this fuel is always enough (theorem
    [Decoder.Loop.onSocketReadyRead_terminates]).  The model's [uint ref] is
    reduced modulo 2^32 at every [++] and [--]; its invariant assumes fewer
    than 2^32 - 1 requests and functors outstanding, the only way the count
    could wrap.  The JSON parser's five mutually recursive functions run on
    fuel [3 * length + 3]: each call either consumes a byte before recursing
    or is one of at most three calls made per byte consumed (value, then
    array or object, then their loop), which the lemma [parse_no_fuel]
    checks function by function; [parse_mono] shows that more fuel gives the
    same result.

    ** Not modelled

    Qt's event loop and signal dispatch (handlers run to completion, one event at
    a time, which is how a single-threaded Qt application runs them), the HTTP
    request to /v1/stream_url (its reply is an event carrying the URL or
    nothing), JSON values the model does not represent exactly (fractional
    and exponent numbers, integers beyond 2^53, characters beyond Latin-1:
    [fromJson] answers [NotModelled] for a text holding one), UTF-8 decoding of the
    handshake response (the response is taken to be ASCII, so code units and
    bytes coincide), the percent-encoding [QUrlQuery] applies to the
    filter [connectToBackend] puts in the stream URL's query (the query is
    the filter's text itself, which is what QUrl sends for ASCII text without
    '%', '#' or '&'), Qt's date parsing of [updatedAt] (a parameter of the
    model), JSON numbers other than integers, the nested [QEventLoop] of
    [EnginioAuthentication::sessionToken] (taken to deliver the reply of the
    identify request it sent), [qDebug] output and the debug stream
    operators, and of the headers: the [area] property enginiomodel.h
    declares (no accessor of it is defined in the sources; the sources
    define [operation] instead), the [enginio] property of the QML
    subclass in enginioqmlmodel.h and the methods of
    [EnginioObjectOperationPrivate] (all defined in files outside the
    sources).
*)

From Stdlib Require Export ZArith List Lia Bool.
Export ListNotations.

Declare Scope enginio_scope.
Delimit Scope enginio_scope with enginio.
Open Scope Z_scope.

(** ** Bytes as integers *)

(** A byte of a [QByteArray] or of a [char] buffer, seen unsigned. *)
Definition is_byte (z : Z) : bool := (0 <=? z) && (z <? 256).

Definition bytes_ok (l : list Z) : bool := forallb is_byte l.

Notation "l ‹ n ›" := (nth n l 0) (at level 1, format "l ‹ n ›") : enginio_scope.

Create HintDb enginio discriminated.
Create Rewrite HintDb enginio_rw.

Ltac inv H := inversion H; subst; clear H.

(** Turn the boolean tests of the code into propositions. *)
Ltac zbool :=
  repeat match goal with
  | H : (_ =? _) = true |- _ => apply Z.eqb_eq in H
  | H : (_ =? _) = false |- _ => apply Z.eqb_neq in H
  | H : (_ <? _) = true |- _ => apply Z.ltb_lt in H
  | H : (_ <? _) = false |- _ => apply Z.ltb_ge in H
  | H : (_ <=? _) = true |- _ => apply Z.leb_le in H
  | H : (_ <=? _) = false |- _ => apply Z.leb_gt in H
  | H : (_ && _) = true |- _ => apply andb_true_iff in H as [? ?]
  | H : (_ || _) = false |- _ => apply orb_false_iff in H as [? ?]
  end.

(** Linear arithmetic with [/] and [mod] by constants. *)
Ltac lia_div := Z.to_euclidean_division_equations; lia.

(** Case on every [if] of the goal, remembering the test. *)
Ltac case_ifs :=
  repeat match goal with
  | |- context [if ?b then _ else _] =>
      lazymatch b with
      | context [if _ then _ else _] => fail
      | _ => let E := fresh "E" in destruct b eqn:E
      end
  end.

(** The same on a hypothesis. *)
Ltac case_ifs_in H :=
  repeat match type of H with
  | context [if ?b then _ else _] =>
      lazymatch b with
      | context [if _ then _ else _] => fail
      | _ => let E := fresh "E" in destruct b eqn:E
      end
  end.

Lemma is_byte_spec z : is_byte z = true <-> 0 <= z < 256.
Proof. unfold is_byte. rewrite andb_true_iff, Z.leb_le, Z.ltb_lt. lia. Qed.

Lemma bytes_ok_app l1 l2 : bytes_ok (l1 ++ l2) = bytes_ok l1 && bytes_ok l2.
Proof. apply forallb_app. Qed.

Lemma bytes_ok_firstn n l : bytes_ok l = true -> bytes_ok (firstn n l) = true.
Proof.
  unfold bytes_ok. rewrite !forallb_forall. intros H x Hx.
  apply H. rewrite <- (firstn_skipn n l). apply in_or_app. now left.
Qed.

Lemma bytes_ok_skipn n l : bytes_ok l = true -> bytes_ok (skipn n l) = true.
Proof.
  unfold bytes_ok. rewrite !forallb_forall. intros H x Hx.
  apply H. rewrite <- (firstn_skipn n l). apply in_or_app. now right.
Qed.


(** ** Lists *)

Lemma forallb_firstn {A} (p : A -> bool) n l :
  forallb p l = true -> forallb p (firstn n l) = true.
Proof. rewrite <- (firstn_skipn n l) at 1. rewrite forallb_app. now intros [? _]%andb_true_iff. Qed.

Lemma firstn_skipn_app {A} (l1 l2 : list A) :
  firstn (length l1) (l1 ++ l2) = l1 /\ skipn (length l1) (l1 ++ l2) = l2.
Proof.
  split.
  - rewrite firstn_app, Nat.sub_diag, firstn_O, app_nil_r. apply firstn_all.
  - rewrite skipn_app, Nat.sub_diag, skipn_O, skipn_all. reflexivity.
Qed.

Lemma skipn_app_le {A} (n : nat) (l1 l2 : list A) :
  (n <= length l1)%nat -> skipn n (l1 ++ l2) = skipn n l1 ++ l2.
Proof.
  intros H. rewrite skipn_app.
  replace (n - length l1)%nat with 0%nat by lia. reflexivity.
Qed.

Lemma firstn_app_le {A} (n : nat) (l1 l2 : list A) :
  (n <= length l1)%nat -> firstn n (l1 ++ l2) = firstn n l1.
Proof.
  intros H. rewrite firstn_app.
  replace (n - length l1)%nat with 0%nat by lia. rewrite firstn_O, app_nil_r. reflexivity.
Qed.

#[export] Hint Resolve bytes_ok_firstn bytes_ok_skipn : enginio.
#[export] Hint Rewrite bytes_ok_app : enginio_rw.

(** ** Bit operations on bytes *)

(** Two bytes in network order: [(h << 8) | l]. *)
Lemma lor_shiftl_byte h l :
  0 <= h -> 0 <= l < 256 -> Z.lor (Z.shiftl h 8) l = h * 256 + l.
Proof.
  intros Hh Hl.
  assert (Hdisj : Z.land (Z.shiftl h 8) l = 0).
  { apply Z.bits_inj'. intros i Hi. rewrite Z.land_spec, Z.bits_0.
    destruct (Z.lt_ge_cases i 8) as [Hlt | Hge].
    - rewrite Z.shiftl_spec_low by lia. reflexivity.
    - rewrite <- (Z.mod_small l (2 ^ 8)) by (simpl; lia).
      rewrite Z.mod_pow2_bits_high by lia. apply andb_false_r. }
  rewrite Z.shiftl_mul_pow2 by lia.
  rewrite Z.shiftl_mul_pow2 in Hdisj by lia.
  pose proof (Z.add_lor_land (h * 2 ^ 8) l) as E. rewrite Hdisj in E. simpl in *. lia.
Qed.

(** A boolean fact about bytes is checked on the 256 values. *)
Definition all_bytes : list Z := map Z.of_nat (seq 0 256).

Lemma byte_forall (P : Z -> bool) :
  forallb P all_bytes = true -> forall x, 0 <= x < 256 -> P x = true.
Proof.
  unfold all_bytes. rewrite forallb_forall. intros H x Hx.
  apply H. rewrite <- (Z2Nat.id x) by lia. apply in_map, in_seq. lia.
Qed.

(** The masks of the frame header: [& 0x80], [& 0x0F], [& 0x7F]. *)
Lemma land_128_byte x : 0 <= x < 256 -> (Z.land x 128 =? 0) = (x <? 128).
Proof.
  intros Hx. apply Bool.eqb_prop.
  exact (byte_forall (fun x => Bool.eqb (Z.land x 128 =? 0) (x <? 128)) eq_refl x Hx).
Qed.

Lemma land_ones_mod x n : 0 <= n -> Z.land x (2 ^ n - 1) = x mod 2 ^ n.
Proof. intros Hn. rewrite <- Z.land_ones by lia. f_equal. rewrite Z.ones_equiv. lia. Qed.
