(* ===== verification/Bytes.v ===== *)
(** Byte strings as the code handles them: [QString]/[QByteArray] contents as
    lists of unsigned bytes ([Z] in [0, 256)), the character classes the
    handshake regexes use, ASCII lowercasing ([QString::toLower] on ASCII),
    lowercase hex digits ([QUuid::toByteArray]) and base64
    ([QByteArray::toBase64]).  The Qt routines are library code outside src/;
    they are modelled from their documentation. *)

From S2P Require Import Prelude.
From Stdlib Require Strings.String Strings.Ascii.
Import (notations) String.StringSyntax.

Open Scope Z_scope.

(** A string literal of the source, as the bytes [toUtf8] gives for ASCII text. *)
Definition bytes_of_string (s : String.string) : list Z :=
  map (fun a => Z.of_nat (Ascii.nat_of_ascii a)) (String.list_ascii_of_string s).


Definition CR : Z := 13.
Definition LF : Z := 10.

(** [#define CRLF "\r\n"] *)
Definition CRLF : list Z := [CR; LF].

(** PCRE's [\s] without Unicode properties: space, \t, \n, \v, \f, \r. *)
Definition is_space (c : Z) : bool :=
  (c =? 32) || ((9 <=? c) && (c <=? 13)).

(** [[0-9]] *)
Definition is_digit (c : Z) : bool := (48 <=? c) && (c <=? 57).

(** [QChar::toLower] on the ASCII range. *)
Definition ascii_lower (c : Z) : Z :=
  if (65 <=? c) && (c <=? 90) then c + 32 else c.

Definition toLower (s : list Z) : list Z := map ascii_lower s.

(** Decimal value of a string of digits, as [QString::toInt] gives it for the
    three digits the status regex captures; the empty capture of a failed
    match converts to 0. *)
Definition toInt (s : list Z) : Z :=
  if forallb is_digit s then fold_left (fun acc c => acc * 10 + (c - 48)) s 0 else 0.

(** ** Lowercase hex, as [QUuid::toByteArray] prints each byte *)

Definition hex_digit (n : Z) : Z := if n <? 10 then 48 + n else 87 + n.

Definition byte_to_hex (b : Z) : list Z :=
  [hex_digit (Z.shiftr b 4); hex_digit (Z.land b 15)].

Definition to_hex (l : list Z) : list Z := flat_map byte_to_hex l.

(** ** Base64 ([QByteArray::toBase64] with the default options) *)

Definition b64_char (n : Z) : Z :=
  if n <? 26 then 65 + n
  else if n <? 52 then 97 + (n - 26)
  else if n <? 62 then 48 + (n - 52)
  else if n =? 62 then 43 else 47.

Definition b64_pad : Z := 61.

Definition b64_quad (a b c : Z) : list Z :=
  let chunk := Z.lor (Z.shiftl a 16) (Z.lor (Z.shiftl b 8) c) in
  [b64_char (Z.land (Z.shiftr chunk 18) 63); b64_char (Z.land (Z.shiftr chunk 12) 63);
   b64_char (Z.land (Z.shiftr chunk 6) 63); b64_char (Z.land chunk 63)].

Fixpoint toBase64 (l : list Z) : list Z :=
  match l with
  | a :: b :: c :: rest => b64_quad a b c ++ toBase64 rest
  | [a; b] => firstn 3 (b64_quad a b 0) ++ [b64_pad]
  | [a] => firstn 2 (b64_quad a 0 0) ++ [b64_pad; b64_pad]
  | [] => []
  end.

(** ** Equality of byte strings ([QString::operator==]) *)

Fixpoint bytes_eqb (a b : list Z) : bool :=
  match a, b with
  | [], [] => true
  | x :: a', y :: b' => (x =? y) && bytes_eqb a' b'
  | _, _ => false
  end.

Lemma bytes_eqb_spec a b : bytes_eqb a b = true <-> a = b.
Proof.
  revert b; induction a as [|x a IH]; intros [|y b]; simpl; try (split; congruence).
  rewrite andb_true_iff, Z.eqb_eq, IH. split; [intros [-> ->] | intros H; inv H]; auto.
Qed.

Lemma bytes_eqb_refl a : bytes_eqb a a = true.
Proof. apply bytes_eqb_spec. reflexivity. Qed.

Lemma bytes_eqb_false a b : a <> b -> bytes_eqb a b = false.
Proof. intros H. apply not_true_iff_false. rewrite bytes_eqb_spec. exact H. Qed.

#[export] Hint Rewrite bytes_eqb_refl : enginio_rw.

Lemma bytes_of_string_ok s : bytes_ok (bytes_of_string s) = true.
Proof.
  unfold bytes_ok, bytes_of_string. apply forallb_forall. intros x Hx.
  apply in_map_iff in Hx as [a [<- _]]. apply is_byte_spec.
  pose proof (Ascii.nat_ascii_bounded a). lia.
Qed.
