(* ===== verification/Sha1.v ===== *)
(** SHA-1 (FIPS 180-4, section 6.1), the hash [QCryptographicHash::hash(...,
    QCryptographicHash::Sha1)] computes in
    [computeBase64EncodedSha1VerificationKey].  Qt library code, modelled from
    the standard: 32-bit words are [Z] values reduced modulo 2^32 after every
    addition and rotation, and the message is a list of bytes. *)

From S2P Require Import Prelude Bytes.

Open Scope Z_scope.

Module Sha1.

(** ** 32-bit words *)

Definition w32 (z : Z) : Z := z mod 2 ^ 32.

Definition rotl (n : Z) (x : Z) : Z := w32 (Z.lor (Z.shiftl x n) (Z.shiftr x (32 - n))).

Definition wnot (x : Z) : Z := Z.lxor x (2 ^ 32 - 1).

(** Big-endian bytes of a [k]-byte word. *)
Fixpoint be_bytes (k : nat) (x : Z) : list Z :=
  match k with
  | O => []
  | S k' => be_bytes k' (Z.shiftr x 8) ++ [Z.land x 255]
  end.

(** Big-endian words of a list of bytes, four at a time. *)
Fixpoint be_words (l : list Z) : list Z :=
  match l with
  | a :: b :: c :: d :: rest =>
      Z.lor (Z.shiftl a 24) (Z.lor (Z.shiftl b 16) (Z.lor (Z.shiftl c 8) d)) :: be_words rest
  | _ => []
  end.

(** ** Padding (section 5.1.1) *)

Definition pad (m : list Z) : list Z :=
  let len := length m in
  m ++ [128] ++ repeat 0 ((119 - len mod 64) mod 64)%nat
    ++ be_bytes 8 (8 * Z.of_nat len).

(** Split into 64-byte blocks. *)
Fixpoint blocks (fuel : nat) (l : list Z) : list (list Z) :=
  match fuel with
  | O => []
  | S fuel' =>
      match l with
      | [] => []
      | _ => firstn 64 l :: blocks fuel' (skipn 64 l)
      end
  end.

(** ** The compression function (section 6.1.2) *)

(** The message schedule: [W_t] for [t = 0 .. 79]. *)
Fixpoint schedule (n : nat) (w : list Z) : list Z :=
  match n with
  | O => w
  | S n' =>
      let t := length w in
      let x := Z.lxor (Z.lxor (nth (t - 3) w 0) (nth (t - 8) w 0))
                      (Z.lxor (nth (t - 14) w 0) (nth (t - 16) w 0)) in
      schedule n' (w ++ [rotl 1 x])
  end.

Definition f (t : nat) (b c d : Z) : Z :=
  if (t <? 20)%nat then Z.lor (Z.land b c) (Z.land (wnot b) d)
  else if (t <? 40)%nat then Z.lxor (Z.lxor b c) d
  else if (t <? 60)%nat then Z.lor (Z.lor (Z.land b c) (Z.land b d)) (Z.land c d)
  else Z.lxor (Z.lxor b c) d.

Definition K (t : nat) : Z :=
  if (t <? 20)%nat then 1518500249        (* 0x5A827999 *)
  else if (t <? 40)%nat then 1859775393   (* 0x6ED9EBA1 *)
  else if (t <? 60)%nat then 2400959708   (* 0x8F1BBCDC *)
  else 3395469782.                        (* 0xCA62C1D6 *)

Definition state := (Z * Z * Z * Z * Z)%type.

Definition round (w : list Z) (s : state) (t : nat) : state :=
  let '(a, b, c, d, e) := s in
  let temp := w32 (rotl 5 a + f t b c d + e + K t + nth t w 0) in
  (temp, a, rotl 30 b, c, d).

Definition compress (s : state) (block : list Z) : state :=
  let w := schedule 64 (be_words block) in
  let '(a, b, c, d, e) := fold_left (round w) (seq 0 80) s in
  let '(h0, h1, h2, h3, h4) := s in
  (w32 (h0 + a), w32 (h1 + b), w32 (h2 + c), w32 (h3 + d), w32 (h4 + e)).

Definition H0 : state := (1732584193, 4023233417, 2562383102, 271733878, 3285377520).

(** [QCryptographicHash::hash(data, QCryptographicHash::Sha1)]: 20 bytes. *)
Definition sha1 (m : list Z) : list Z :=
  let p := pad m in
  let '(h0, h1, h2, h3, h4) := fold_left compress (blocks (length p) p) H0 in
  be_bytes 4 h0 ++ be_bytes 4 h1 ++ be_bytes 4 h2 ++ be_bytes 4 h3 ++ be_bytes 4 h4.

(** ** Shape of the digest *)

Lemma length_be_bytes k x : length (be_bytes k x) = k.
Proof.
  revert x; induction k as [|k IH]; intros x; [reflexivity|].
  simpl. rewrite length_app, IH. simpl. lia.
Qed.

Lemma bytes_ok_be_bytes k x : bytes_ok (be_bytes k x) = true.
Proof.
  revert x; induction k as [|k IH]; intros x; [reflexivity|].
  simpl. rewrite bytes_ok_app, IH. simpl. rewrite andb_true_r.
  apply is_byte_spec. change 255 with (2 ^ 8 - 1). rewrite land_ones_mod by lia.
  apply Z.mod_pos_bound. reflexivity.
Qed.

(** The digest is 20 bytes. *)
Lemma length_sha1 m : length (sha1 m) = 20%nat.
Proof.
  unfold sha1. destruct (fold_left _ _ _) as [[[[h0 h1] h2] h3] h4].
  rewrite !length_app, !length_be_bytes. reflexivity.
Qed.

Lemma bytes_ok_sha1 m : bytes_ok (sha1 m) = true.
Proof.
  unfold sha1. destruct (fold_left _ _ _) as [[[[h0 h1] h2] h3] h4].
  rewrite !bytes_ok_app, !bytes_ok_be_bytes. reflexivity.
Qed.

(** The padded message is a whole number of 64-byte blocks. *)
Lemma pad_length m : (length (pad m) mod 64 = 0)%nat.
Proof.
  unfold pad. rewrite !length_app, repeat_length, length_be_bytes. simpl length.
  remember (length m) as n.
  pose proof (Nat.mod_upper_bound n 64 ltac:(lia)).
  rewrite (Nat.div_mod_eq n 64) at 1.
  set (r := (n mod 64)%nat) in *. set (q := (n / 64)%nat).
  assert (E : ((119 - r) mod 64 = if (r <=? 55)%nat then 55 - r else 119 - r)%nat).
  { destruct (Nat.leb_spec r 55).
    - rewrite <- (Nat.mod_small (55 - r) 64) by lia.
      replace (119 - r)%nat with (55 - r + 1 * 64)%nat by lia. apply Nat.Div0.mod_add.
    - apply Nat.mod_small. lia. }
  rewrite E. destruct (Nat.leb_spec r 55).
  - replace (64 * q + r + (1 + (55 - r + 8)))%nat with ((q + 1) * 64)%nat by lia.
    apply Nat.Div0.mod_mul.
  - replace (64 * q + r + (1 + (119 - r + 8)))%nat with ((q + 2) * 64)%nat by lia.
    apply Nat.Div0.mod_mul.
Qed.

End Sha1.
