(* ===== verification/Handshake.v ===== *)
(** The opening-handshake helpers of enginiobackendconnection.cpp (the
    anonymous namespace, lines 16-101).

    The response is inspected with four [QRegularExpression]s.  They are kept
    here as syntax trees of a regex fragment (literal characters, [.], [\s],
    [[0-9]], [{n}], greedy [+], one capture group) interpreted by a
    backtracking matcher written in continuation-passing style, which tries
    alternatives in the order PCRE does; [search] tries the start positions
    from left to right, so [captured1] is what [match.captured(1)] returns.
    [.] matches every character but LF (PCRE's default newline). *)

From S2P Require Import Prelude Bytes Sha1.
From Stdlib Require Strings.String.
Import (notations) String.StringSyntax.

Open Scope Z_scope.
Open Scope enginio_scope.
Open Scope string_scope.

Module Regex.

Inductive atom :=
| AChar (c : Z)   (** a literal character *)
| AAny            (** [.] *)
| ASpace          (** [\s] *)
| ADigit.         (** [[0-9]] *)

Inductive regex :=
| REmpty
| RAtom (a : atom)
| RSeq (r1 r2 : regex)
| RRep (n : nat) (a : atom)   (** [a{n}] *)
| RPlus (a : atom)            (** [a+], greedy *)
| RGroup (r : regex).         (** [( r )], capture group 1 *)

Definition atom_ok (a : atom) (c : Z) : bool :=
  match a with
  | AChar d => c =? d
  | AAny => negb (c =? LF)
  | ASpace => is_space c
  | ADigit => is_digit c
  end.

(** A literal string as a sequence of character atoms. *)
Fixpoint rlit (l : list Z) : regex :=
  match l with
  | [] => REmpty
  | c :: t => RSeq (RAtom (AChar c)) (rlit t)
  end.

(** The capture of group 1 so far. *)
Definition cap := option (list Z).

(** Length of the longest prefix of [s] whose characters all match [a]. *)
Fixpoint run (a : atom) (s : list Z) : nat :=
  match s with
  | c :: t => if atom_ok a c then S (run a t) else O
  | [] => O
  end.

(** Greedy repetition: try [f j] for [j = m, m-1, ..., 1]. *)
Fixpoint try_down (m : nat) (f : nat -> option cap) : option cap :=
  match m with
  | O => None
  | S j => match f m with Some x => Some x | None => try_down j f end
  end.

(** [mt r s n g k]: match [r] at the start of [s], [n] characters after the
    start of the match, then run the continuation [k] on the rest of the input
    and the new offset; backtrack into [r] when [k] fails.  A group records
    the characters between its start and end offsets, as PCRE's capture
    offsets do. *)
Fixpoint mt (r : regex) (s : list Z) (n : nat) (g : cap)
    (k : list Z -> nat -> cap -> option cap) : option cap :=
  match r with
  | REmpty => k s n g
  | RAtom a =>
      match s with
      | c :: t => if atom_ok a c then k t (S n) g else None
      | [] => None
      end
  | RSeq r1 r2 => mt r1 s n g (fun s' n' g' => mt r2 s' n' g' k)
  | RRep m a =>
      if (Nat.eqb (length (firstn m s)) m) && forallb (atom_ok a) (firstn m s)
      then k (skipn m s) (n + m)%nat g else None
  | RPlus a => try_down (run a s) (fun j => k (skipn j s) (n + j)%nat g)
  | RGroup r1 =>
      mt r1 s n g (fun s' n' _ => k s' n' (Some (firstn (n' - n) s)))
  end.

(** The whole-pattern continuation: the match succeeds with its capture. *)
Definition found : list Z -> nat -> cap -> option cap := fun _ _ g => Some g.

(** The leftmost match of [r] in [s] and the capture it makes. *)
Fixpoint search (r : regex) (s : list Z) : option cap :=
  match mt r s 0 None found with
  | Some g => Some g
  | None => match s with [] => None | _ :: t => search r t end
  end.

(** [re.match(s).captured(1)]: the empty string when nothing matched. *)
Definition captured1 (r : regex) (s : list Z) : list Z :=
  match search r s with
  | Some (Some g) => g
  | _ => []
  end.

(** *** Matcher lemmas *)

Lemma mt_rlit l s n g k : mt (rlit l) (l ++ s) n g k = k s (n + length l)%nat g.
Proof.
  revert s n g k; induction l as [|c l IH]; intros s n g k; simpl.
  - rewrite Nat.add_0_r. reflexivity.
  - rewrite Z.eqb_refl, IH, Nat.add_succ_r. reflexivity.
Qed.

Lemma mt_rep m a p s n g k :
  length p = m -> forallb (atom_ok a) p = true -> mt (RRep m a) (p ++ s) n g k = k s (n + m)%nat g.
Proof.
  intros Hl Ha. simpl. subst m.
  destruct (firstn_skipn_app p s) as [-> ->]. rewrite Nat.eqb_refl, Ha. reflexivity.
Qed.

Lemma mt_seq r1 r2 s n g k :
  mt (RSeq r1 r2) s n g k = mt r1 s n g (fun s' n' g' => mt r2 s' n' g' k).
Proof. reflexivity. Qed.

Lemma mt_group r s n g k :
  mt (RGroup r) s n g k = mt r s n g (fun s' n' _ => k s' n' (Some (firstn (n' - n) s))).
Proof. reflexivity. Qed.

Lemma mt_atom_cons a c s n g k :
  mt (RAtom a) (c :: s) n g k = if atom_ok a c then k s (S n) g else None.
Proof. reflexivity. Qed.

(** No match starts at any position of [p] (checked by computation when [p]
    is a concrete prefix). *)
Fixpoint no_match_in (r : regex) (p s : list Z) : bool :=
  match p with
  | [] => true
  | x :: p' =>
      match mt r (x :: p' ++ s) 0 None found with
      | None => no_match_in r p' s
      | Some _ => false
      end
  end.

Lemma search_skip r x s :
  mt r (x :: s) 0 None found = None -> search r (x :: s) = search r s.
Proof. intros H. simpl. rewrite H. reflexivity. Qed.

Lemma search_here r s g : mt r s 0 None found = Some g -> search r s = Some g.
Proof. intros H. destruct s; simpl; rewrite H; reflexivity. Qed.

Lemma search_app_skip r p s : no_match_in r p s = true -> search r (p ++ s) = search r s.
Proof.
  induction p as [|x p IH]; [reflexivity|]. intros H. cbn [no_match_in] in H.
  destruct (mt r (x :: p ++ s) 0 None found) eqn:E; [discriminate|].
  rewrite <- app_comm_cons, search_skip by exact E. apply IH, H.
Qed.

End Regex.

Import Regex.

(** [HttpResponseStatus]: ["HTTP/1\\.1\\s([0-9]{3})\\s"] *)
Definition HttpResponseStatus : regex :=
  RSeq (rlit (bytes_of_string "HTTP/1.1"))
    (RSeq (RAtom ASpace) (RSeq (RGroup (RRep 3 ADigit)) (RAtom ASpace))).

(** [SecWebSocketAcceptHeader]: ["Sec-WebSocket-Accept:\\s(.{28})" CRLF] *)
Definition SecWebSocketAcceptHeader : regex :=
  RSeq (rlit (bytes_of_string "Sec-WebSocket-Accept:"))
    (RSeq (RAtom ASpace) (RSeq (RGroup (RRep 28 AAny)) (rlit CRLF))).

(** A header whose value is the rest of its line: ["<name>\\s(.+)" CRLF]. *)
Definition line_header (name : list Z) : regex :=
  RSeq (rlit name) (RSeq (RAtom ASpace) (RSeq (RGroup (RPlus AAny)) (rlit CRLF))).

(** [UpgradeHeader]: ["Upgrade:\\s(.+)" CRLF] *)
Definition UpgradeHeader : regex := line_header (bytes_of_string "Upgrade:").

(** [ConnectionHeader]: ["Connection:\\s(.+)" CRLF] *)
Definition ConnectionHeader : regex := line_header (bytes_of_string "Connection:").

(** [int extractResponseStatus(QString responseString)] *)
Definition extractResponseStatus (response : list Z) : Z :=
  toInt (captured1 HttpResponseStatus response).

(** [const QString extractResponseHeader(QString pattern, QString responseString,
    bool ignoreCase = true)] *)
Definition extractResponseHeader (pattern : regex) (response : list Z) (ignoreCase : bool)
  : list Z :=
  let c := captured1 pattern response in
  if ignoreCase then toLower c else c.

(** The test of [onSocketReadyRead]'s [HandshakePending] case (lines 224-231):
    [true] when the handshake is accepted against the verification key. *)
Definition handshakeAccepted (key response : list Z) : bool :=
  let statusCode := extractResponseStatus response in
  let secWebSocketAccept := extractResponseHeader SecWebSocketAcceptHeader response false in
  let hasValidKey := bytes_eqb secWebSocketAccept key in
  negb ((negb (statusCode =? 101)) || negb hasValidKey
        || negb (bytes_eqb (extractResponseHeader UpgradeHeader response true)
                              (bytes_of_string "websocket"))
        || negb (bytes_eqb (extractResponseHeader ConnectionHeader response true)
                              (bytes_of_string "upgrade"))).

(** The parts of a [QUrl] the connection reads: [host()], [port(default)],
    [path()] and [query()] (fully encoded). *)
Record QUrl := mkQUrl {
  url_host : list Z;
  url_port : option Z;   (** [None]: no port in the URL, [port(8080)] gives 8080 *)
  url_path : list Z;
  url_query : list Z
}.

(** [QUrl()] *)
Definition emptyUrl : QUrl := mkQUrl [] None [] [].

(** [url.port(8080)] *)
Definition url_port_or (dflt : Z) (u : QUrl) : Z :=
  match url_port u with Some p => p | None => dflt end.

(** ** The opening request and the keys *)

(** The GUID of RFC 6455, section 1.3. *)
Definition webSocketMagicString : list Z :=
  bytes_of_string "258EAFA5-E914-47DA-95CA-C5AB0DC85B11".

(** [void computeBase64EncodedSha1VerificationKey(const QString &base64Key)]:
    the value it stores into [gBase64EncodedSha1VerificationKey]. *)
Definition computeBase64EncodedSha1VerificationKey (base64Key : list Z) : list Z :=
  toBase64 (Sha1.sha1 (base64Key ++ webSocketMagicString)).

(** A [QUuid]: its sixteen bytes, in the order [toByteArray] prints them. *)
Definition QUuid := list Z.

(** [QUuid::toByteArray()]: ["{xxxxxxxx-xxxx-xxxx-xxxx-xxxxxxxxxxxx}"]. *)
Definition uuid_toByteArray (u : QUuid) : list Z :=
  [123] ++ to_hex (firstn 4 u) ++ [45] ++ to_hex (firstn 2 (skipn 4 u)) ++ [45]
  ++ to_hex (firstn 2 (skipn 6 u)) ++ [45] ++ to_hex (firstn 2 (skipn 8 u)) ++ [45]
  ++ to_hex (skipn 10 u) ++ [125].

(** [QByteArray::chop(n)] *)
Definition chop (n : nat) (l : list Z) : list Z := firstn (length l - n) l.

(** [QByteArray::remove(pos, len)] *)
Definition qremove (pos len : nat) (l : list Z) : list Z := firstn pos l ++ skipn (pos + len) l.

(** [const QString generateBase64EncodedUniqueKey()]: the key it returns and
    the new value of the global verification key. *)
Definition generateBase64EncodedUniqueKey (u : QUuid) : list Z * list Z :=
  let nonce := uuid_toByteArray u in
  let nonce := chop 1 nonce in          (* } *)
  let nonce := qremove 0 1 nonce in     (* { *)
  let nonce := qremove 23 1 nonce in
  let nonce := qremove 18 1 nonce in
  let nonce := qremove 13 1 nonce in
  let nonce := qremove 8 1 nonce in
  let secWebSocketKeyBase64 := toBase64 nonce in
  (secWebSocketKeyBase64, computeBase64EncodedSha1VerificationKey secWebSocketKeyBase64).

(** [QString::number(n)] *)
Fixpoint digits (fuel : nat) (n : Z) : list Z :=
  match fuel with
  | O => []
  | S fuel' => if n <? 10 then [48 + n] else digits fuel' (n / 10) ++ [48 + n mod 10]
  end.

Definition number (n : Z) : list Z :=
  if n <? 0 then 45 :: digits 20 (- n) else digits 20 n.

(** [const QByteArray constructOpeningHandshake(const QUrl& url)]: the request
    and the new value of the global verification key. *)
Definition constructOpeningHandshake (url : QUrl) (u : QUuid) : list Z * list Z :=
  let '(key, verification) := generateBase64EncodedUniqueKey u in
  (bytes_of_string "GET " ++ url_path url ++ [63] ++ url_query url ++ bytes_of_string " HTTP/1.1"
     ++ CRLF ++ bytes_of_string "Host: " ++ url_host url ++ [58] ++ number (url_port_or 8080 url)
     ++ CRLF ++ bytes_of_string "Upgrade: websocket"
     ++ CRLF ++ bytes_of_string "Connection: upgrade"
     ++ CRLF ++ bytes_of_string "Sec-WebSocket-Key: " ++ key
     ++ CRLF ++ bytes_of_string "Sec-WebSocket-Version: 13"
     ++ CRLF ++ CRLF,
   verification).

(** *** Shape of base64 text *)

Lemma length_toBase64 l : length (toBase64 l) = (4 * ((length l + 2) / 3))%nat.
Proof.
  remember (length l) as n eqn:En. revert l En.
  induction n as [n IH] using lt_wf_ind. intros l En.
  destruct l as [|a [|b [|c rest]]]; subst; try reflexivity.
  change (toBase64 (a :: b :: c :: rest)) with (b64_quad a b c ++ toBase64 rest).
  rewrite length_app, (IH (length rest)) by (simpl; lia || reflexivity).
  simpl length. replace (S (S (S (length rest))) + 2)%nat with (length rest + 2 + 1 * 3)%nat by lia.
  rewrite Nat.div_add by lia. lia.
Qed.

Lemma b64_char_not_LF n : 0 <= n < 64 -> negb (b64_char n =? LF) = true.
Proof.
  intros H. unfold b64_char, LF.
  case_ifs; zbool; apply negb_true_iff, Z.eqb_neq; lia.
Qed.

Lemma land63_range x : 0 <= Z.land x 63 < 64.
Proof. change 63 with (2 ^ 6 - 1). rewrite land_ones_mod by lia. apply Z.mod_pos_bound. lia. Qed.

Lemma b64_quad_no_LF a b c : forallb (Regex.atom_ok Regex.AAny) (b64_quad a b c) = true.
Proof.
  unfold b64_quad. cbn [forallb Regex.atom_ok].
  rewrite !b64_char_not_LF by apply land63_range. reflexivity.
Qed.

(** Base64 text never contains a line feed, so [.] matches all of it. *)
Lemma toBase64_no_LF l : forallb (Regex.atom_ok Regex.AAny) (toBase64 l) = true.
Proof.
  remember (length l) as n eqn:En. revert l En.
  induction n as [n IH] using lt_wf_ind. intros l En.
  destruct l as [|a [|b [|c rest]]]; subst; try reflexivity;
    cbn [toBase64]; rewrite forallb_app, ?forallb_firstn by apply b64_quad_no_LF;
    try reflexivity.
  rewrite b64_quad_no_LF, (IH (length rest)); simpl; auto.
Qed.

(** The verification key of the example of RFC 6455, section 1.3: the
    nonce "dGhlIHNhbXBsZSBub25jZQ==" gives "s3pPLMBiTxaQ9kYGzzhZRbK+xOo=". *)
Theorem accept_key_rfc_example :
  computeBase64EncodedSha1VerificationKey (bytes_of_string "dGhlIHNhbXBsZSBub25jZQ==")
  = bytes_of_string "s3pPLMBiTxaQ9kYGzzhZRbK+xOo=".
Proof. vm_compute. reflexivity. Qed.

Lemma length_verification_key k :
  length (computeBase64EncodedSha1VerificationKey k) = 28%nat.
Proof.
  unfold computeBase64EncodedSha1VerificationKey.
  rewrite length_toBase64, Sha1.length_sha1. reflexivity.
Qed.

Lemma verification_key_no_LF k :
  forallb (Regex.atom_ok Regex.AAny) (computeBase64EncodedSha1VerificationKey k) = true.
Proof. apply toBase64_no_LF. Qed.

(** C17: the [Sec-WebSocket-Key] the client sends is the base64 text of the
    32 lowercase hex digits of the [QUuid] (the braces and dashes removed by
    [chop] and [remove]), 44 characters that decode to 32 bytes, where RFC 6455
    (section 4.1) asks for a 16-byte nonce; and the global key is set to the
    answer expected for it. *)
Theorem unique_key_is_hex_uuid u :
  length u = 16%nat ->
  generateBase64EncodedUniqueKey u =
    (toBase64 (to_hex u), computeBase64EncodedSha1VerificationKey (toBase64 (to_hex u))) /\
  length (to_hex u) = 32%nat /\ length (toBase64 (to_hex u)) = 44%nat.
Proof.
  intros Hl.
  do 16 (destruct u as [|? u]; [discriminate|]). destruct u; [|discriminate].
  unfold generateBase64EncodedUniqueKey.
  cbn -[toBase64 computeBase64EncodedSha1VerificationKey hex_digit Z.shiftr Z.land].
  split; [reflexivity|]. split; reflexivity.
Qed.

(** ** A server's answer to the opening handshake (RFC 6455, section 4.2.2) *)

Definition response_status_line : list Z :=
  bytes_of_string "HTTP/1.1 101 Switching Protocols" ++ CRLF.
Definition response_upgrade_line : list Z := bytes_of_string "Upgrade: websocket" ++ CRLF.
Definition response_connection_line : list Z := bytes_of_string "Connection: Upgrade" ++ CRLF.
Definition response_accept_name : list Z := bytes_of_string "Sec-WebSocket-Accept: ".

Definition server_response (accept : list Z) : list Z :=
  response_status_line ++ response_upgrade_line ++ response_connection_line
  ++ response_accept_name ++ accept ++ CRLF ++ CRLF.

Lemma server_response_app a extra :
  server_response a ++ extra =
  response_status_line ++ response_upgrade_line ++ response_connection_line
  ++ response_accept_name ++ a ++ CRLF ++ CRLF ++ extra.
Proof. unfold server_response. rewrite <- !app_assoc. reflexivity. Qed.

Lemma accept_header_match a rest :
  length a = 28%nat -> forallb (atom_ok AAny) a = true ->
  mt SecWebSocketAcceptHeader (response_accept_name ++ a ++ CRLF ++ rest) 0 None found
  = Some (Some a).
Proof.
  intros Hl Ha. unfold SecWebSocketAcceptHeader, response_accept_name.
  replace (bytes_of_string "Sec-WebSocket-Accept: ")
    with (bytes_of_string "Sec-WebSocket-Accept:" ++ [32]) by reflexivity.
  rewrite <- app_assoc, mt_seq, mt_rlit. cbv beta.
  rewrite mt_seq. change ([32] ++ ?x) with (32 :: x).
  rewrite mt_atom_cons. change (atom_ok ASpace 32) with true. cbv iota beta.
  rewrite mt_seq, mt_group, mt_rep by assumption. cbv beta.
  rewrite mt_rlit. unfold found. do 2 f_equal.
  match goal with |- firstn ?m _ = _ => replace m with (length a) by (rewrite Hl; reflexivity) end.
  apply (proj1 (firstn_skipn_app a _)).
Qed.

(** The handshake test on a well-formed answer compares the accept value with the key. *)
Lemma accept_response_check key a extra :
  length a = 28%nat -> forallb (atom_ok AAny) a = true ->
  handshakeAccepted key (server_response a ++ extra) = bytes_eqb a key.
Proof.
  intros Hl Ha. rewrite server_response_app.
  unfold handshakeAccepted, extractResponseStatus, extractResponseHeader, captured1.
  rewrite (search_here HttpResponseStatus _ (Some [49; 48; 49])) by reflexivity.
  rewrite (search_app_skip UpgradeHeader response_status_line) by reflexivity.
  rewrite (search_here UpgradeHeader _ (Some (bytes_of_string "websocket"))) by reflexivity.
  rewrite (search_app_skip ConnectionHeader response_status_line) by reflexivity.
  rewrite (search_app_skip ConnectionHeader response_upgrade_line) by reflexivity.
  rewrite (search_here ConnectionHeader _ (Some (bytes_of_string "Upgrade"))) by reflexivity.
  rewrite (search_app_skip SecWebSocketAcceptHeader response_status_line) by reflexivity.
  rewrite (search_app_skip SecWebSocketAcceptHeader response_upgrade_line) by reflexivity.
  rewrite (search_app_skip SecWebSocketAcceptHeader response_connection_line) by reflexivity.
  rewrite (search_here SecWebSocketAcceptHeader _ (Some a)) by (apply accept_header_match; auto).
  simpl. destruct (bytes_eqb a key); reflexivity.
Qed.

(** C12: a well-formed RFC 6455 answer is accepted exactly when it carries the
    expected key: for every 28-character accept value [a] (no line feed in
    it), the test of the [HandshakePending] case on [server_response a]
    followed by any bytes succeeds if and only if [a] is the verification
    key.  The status regex finds 101, the [Upgrade] and [Connection] values
    lowercase to "websocket" and "upgrade", and the accept regex captures
    exactly [a]. *)
Theorem server_response_accepted key a extra :
  length a = 28%nat -> forallb (atom_ok AAny) a = true ->
  handshakeAccepted key (server_response a ++ extra) = bytes_eqb a key.
Proof. exact (accept_response_check key a extra). Qed.

(** Header names are matched case-sensitively and with exactly one
    whitespace after the colon: an answer that writes its header names in
    lowercase, which HTTP allows, is refused even with the right key, and so is
    one with no space after [Upgrade:]. *)
Theorem header_names_case_sensitive :
  let key := bytes_of_string "s3pPLMBiTxaQ9kYGzzhZRbK+xOo=" in
  handshakeAccepted key
    (response_status_line ++ bytes_of_string "upgrade: websocket" ++ CRLF
     ++ bytes_of_string "connection: Upgrade" ++ CRLF
     ++ bytes_of_string "sec-websocket-accept: " ++ key ++ CRLF ++ CRLF) = false /\
  handshakeAccepted key
    (response_status_line ++ bytes_of_string "Upgrade:websocket" ++ CRLF
     ++ response_connection_line ++ response_accept_name ++ key ++ CRLF ++ CRLF) = false /\
  handshakeAccepted key (server_response key) = true.
Proof. vm_compute. auto. Qed.

Module HandshakeWitnesses.

Definition rfc_accept : list Z := bytes_of_string "s3pPLMBiTxaQ9kYGzzhZRbK+xOo=".

Lemma server_response_accepted_witness :
  length rfc_accept = 28%nat /\ forallb (atom_ok AAny) rfc_accept = true /\
  handshakeAccepted rfc_accept (server_response rfc_accept ++ [129; 0])
  = bytes_eqb rfc_accept rfc_accept.
Proof.
  split; [reflexivity|]. split; [reflexivity|].
  apply server_response_accepted; reflexivity.
Defined.

Definition sample_uuid : QUuid := [0; 1; 2; 3; 4; 5; 6; 7; 8; 9; 10; 11; 12; 254; 255; 171].

Lemma unique_key_is_hex_uuid_witness :
  length sample_uuid = 16%nat /\
  (generateBase64EncodedUniqueKey sample_uuid =
    (toBase64 (to_hex sample_uuid),
     computeBase64EncodedSha1VerificationKey (toBase64 (to_hex sample_uuid))) /\
   length (to_hex sample_uuid) = 32%nat /\ length (toBase64 (to_hex sample_uuid)) = 44%nat).
Proof. split; [reflexivity | apply unique_key_is_hex_uuid; reflexivity]. Defined.

End HandshakeWitnesses.
