(* ===== verification/Decoder.v ===== *)
(** The WebSocket frame decoder of [EnginioBackendConnection]: the object's
    fields as the record [Conn], the transport as the record [Socket] with the
    [QTcpSocket] calls the code makes, [protocolError], the three cases of the
    [switch] in [onSocketReadyRead] and its [while] loop.  A run of a handler
    returns the new state and the signals and warnings it emitted, in order. *)

From S2P Require Import Prelude Bytes Handshake.
From Stdlib Require Strings.String.
Import (notations) String.StringSyntax.

Open Scope Z_scope.
Open Scope enginio_scope.

(** ** Data (the enums of enginiobackendconnection_p.h, from RFC 6455) *)

Inductive ProtocolDecodeState := HandshakePending | FrameHeaderPending | PayloadDataPending.

Inductive ConnectionState := DisconnectedState | ConnectingState | ConnectedState.

(** [WebSocketOpcode] values are the 4-bit opcodes of RFC 6455. *)
Definition ContinuationFrameOp : Z := 0.
Definition TextFrameOp : Z := 1.

(** [#define FIN 0x80], [#define OPC 0x0F], [#define LEN 0x7F] *)
Definition FIN : Z := 128.
Definition OPC : Z := 15.
Definition LEN : Z := 127.

(** [const qint64 DefaultHeaderLength = 2;] *)
Definition DefaultHeaderLength : Z := 2.

(** What a handler makes observable: the two signals of the class and the
    [qWarning] lines. *)
Inductive Output :=
| StateChanged (s : ConnectionState)
| DataReceived (payload : list Z)
| Warning (msg : String.string)
| WarningOpcode (opcode : Z)
| WarningSocketError (error : Z).

(** ** The transport *)

Record Socket := mkSocket {
  rx : list Z;        (** bytes received and not yet read: [bytesAvailable()] *)
  tx : list Z;        (** bytes written with [write] *)
  sock_open : bool    (** not yet closed by [close()] *)
}.

Definition bytesAvailable (s : Socket) : Z := Z.of_nat (length (rx s)).

(** [read(maxSize)]: at most [n] bytes from the front of the buffer. *)
Definition sock_read (n : nat) (s : Socket) : list Z * Socket :=
  (firstn n (rx s), mkSocket (skipn n (rx s)) (tx s) (sock_open s)).

(** [readAll()] *)
Definition sock_readAll (s : Socket) : list Z * Socket :=
  (rx s, mkSocket [] (tx s) (sock_open s)).

(** [write(data)] *)
Definition sock_write (d : list Z) (s : Socket) : Socket :=
  mkSocket (rx s) (tx s ++ d) (sock_open s).

(** [close()]: [QIODevice::close] drops the read buffer. *)
Definition sock_close (s : Socket) : Socket := mkSocket [] (tx s) false.

(** Bytes arriving from the network; a closed socket receives nothing. *)
Definition sock_receive (d : list Z) (s : Socket) : Socket :=
  if sock_open s then mkSocket (rx s ++ d) (tx s) true else s.

(** ** The connection object *)

Record Conn := mkConn {
  protocolOpcode : Z;                       (** [_protocolOpcode] *)
  protocolDecodeState : ProtocolDecodeState;  (** [_protocolDecodeState] *)
  isFinalFragment : bool;                   (** [_isFinalFragment] *)
  isPayloadMasked : bool;                   (** [_isPayloadMasked] *)
  payloadLength : Z;                        (** [_payloadLength] (quint64) *)
  applicationData : list Z;                 (** [_applicationData] *)
  tcpSocket : Socket;                       (** [*_tcpSocket] *)
  socketUrl : QUrl;                         (** [_socketUrl] *)
  verificationKey : list Z                  (** the global [gBase64EncodedSha1VerificationKey] *)
}.

Definition set_decodeState (st : ProtocolDecodeState) (c : Conn) : Conn :=
  mkConn (protocolOpcode c) st (isFinalFragment c) (isPayloadMasked c) (payloadLength c)
    (applicationData c) (tcpSocket c) (socketUrl c) (verificationKey c).

Definition set_payloadLength (n : Z) (c : Conn) : Conn :=
  mkConn (protocolOpcode c) (protocolDecodeState c) (isFinalFragment c) (isPayloadMasked c) n
    (applicationData c) (tcpSocket c) (socketUrl c) (verificationKey c).

Definition set_applicationData (d : list Z) (c : Conn) : Conn :=
  mkConn (protocolOpcode c) (protocolDecodeState c) (isFinalFragment c) (isPayloadMasked c)
    (payloadLength c) d (tcpSocket c) (socketUrl c) (verificationKey c).

Definition set_socket (s : Socket) (c : Conn) : Conn :=
  mkConn (protocolOpcode c) (protocolDecodeState c) (isFinalFragment c) (isPayloadMasked c)
    (payloadLength c) (applicationData c) s (socketUrl c) (verificationKey c).

(** The four header fields decoded from the first two bytes of a frame. *)
Definition set_header (fin : bool) (opc : Z) (masked : bool) (len : Z) (c : Conn) : Conn :=
  mkConn opc (protocolDecodeState c) fin masked len
    (applicationData c) (tcpSocket c) (socketUrl c) (verificationKey c).

Definition set_socketUrl (u : QUrl) (c : Conn) : Conn :=
  mkConn (protocolOpcode c) (protocolDecodeState c) (isFinalFragment c) (isPayloadMasked c)
    (payloadLength c) (applicationData c) (tcpSocket c) u (verificationKey c).

Definition set_verificationKey (k : list Z) (c : Conn) : Conn :=
  mkConn (protocolOpcode c) (protocolDecodeState c) (isFinalFragment c) (isPayloadMasked c)
    (payloadLength c) (applicationData c) (tcpSocket c) (socketUrl c) k.

(** The constructor's initializer list (lines 112-120); the socket is not
    connected and the global key is still the empty [QString]. *)
Definition initialConn : Conn :=
  mkConn ContinuationFrameOp HandshakePending false false 0 [] (mkSocket [] [] false)
    emptyUrl [].

(** The [UnconnectedState] case of [onSocketStateChanged] (lines 186-188). *)
Definition onSocketUnconnected (c : Conn) : Conn * list Output :=
  (set_decodeState HandshakePending c, [StateChanged DisconnectedState]).

(** [_tcpSocket->close()]: [QAbstractSocket::close] drops the buffer and, on a
    connected socket, emits [stateChanged(UnconnectedState)] before it
    returns, which runs the slot [onSocketStateChanged] (a direct
    connection, line 129). *)
Definition closeSocket (c : Conn) : Conn * list Output :=
  let c' := set_socket (sock_close (tcpSocket c)) c in
  if sock_open (tcpSocket c) then onSocketUnconnected c' else (c', []).

(** [void EnginioBackendConnection::protocolError(const char* message)] *)
Definition protocolError (message : String.string) (c : Conn) : Conn * list Output :=
  let c1 := set_payloadLength 0 (set_applicationData [] (set_decodeState HandshakePending c)) in
  let '(c2, o) := closeSocket c1 in
  (c2, Warning message :: o).

(** ** One pass of the [while] body *)

(** How a pass of the loop body ends: [break] (back to the loop test) or
    [return]. *)
Inductive Flow := Continue | Return.

Definition step_result := (Conn * list Output * Flow)%type.

Definition error_return (message : String.string) (c : Conn) : step_result :=
  let '(c', o) := protocolError message c in (c', o, Return).

(** [case FrameHeaderPending:] (lines 238-279) *)
Definition caseFrameHeaderPending (c : Conn) : step_result :=
  if bytesAvailable (tcpSocket c) <? DefaultHeaderLength then (c, [], Return)
  else
    let '(data, s) := sock_read (Z.to_nat DefaultHeaderLength) (tcpSocket c) in
    let c := set_socket s c in
    if negb (Z.of_nat (length data) =? DefaultHeaderLength) then
      error_return "Reading header failed!" c
    else if payloadLength c =? 0 then
      (* This is the initial frame header data. *)
      let c := set_header (negb (Z.land data‹0› FIN =? 0)) (Z.land data‹0› OPC)
                 (negb (Z.land data‹1› FIN =? 0)) (Z.land data‹1› LEN) c in
      if isPayloadMasked c then error_return "Masked payload not supported." c
      else if payloadLength c =? 127 then error_return "Large payload not supported." c
      else if payloadLength c <? 126 then (set_decodeState PayloadDataPending c, [], Continue)
      else (c, [], Continue)
    else
      (* Normal sized payload: 2 bytes in network byte order. *)
      (set_decodeState PayloadDataPending
         (set_payloadLength (Z.lor (Z.shiftl data‹0› 8) data‹1›) c), [], Continue).

(** [case PayloadDataPending:] (lines 281-303) *)
Definition casePayloadDataPending (c : Conn) : step_result :=
  if bytesAvailable (tcpSocket c) <? payloadLength c then (c, [], Return)
  else
    let '(data, s) := sock_read (Z.to_nat (payloadLength c)) (tcpSocket c) in
    let c := set_payloadLength 0 (set_decodeState FrameHeaderPending
               (set_applicationData (applicationData c ++ data) (set_socket s c))) in
    if negb (isFinalFragment c) then (c, [], Continue)
    else
      let '(c, o) :=
        if protocolOpcode c =? TextFrameOp then (c, [DataReceived (applicationData c)])
        else
          let '(c', o') := protocolError "WebSocketOpcode not yet supported" c in
          (c', o' ++ [WarningOpcode (protocolOpcode c)]) in
      (set_applicationData [] c, o, Continue).

(** [case HandshakePending:] (lines 221-236), which falls through into the
    [FrameHeaderPending] case once the handshake is accepted. *)
Definition caseHandshakePending (c : Conn) : step_result :=
  let '(response, s) := sock_readAll (tcpSocket c) in
  let c := set_socket s c in
  if negb (handshakeAccepted (verificationKey c) response) then
    error_return "Handshake failed!" c
  else
    let '(c', o, fl) := caseFrameHeaderPending (set_decodeState FrameHeaderPending c) in
    (c', StateChanged ConnectedState :: o, fl).

(** [switch (_protocolDecodeState)] *)
Definition readyReadBody (c : Conn) : step_result :=
  match protocolDecodeState c with
  | HandshakePending => caseHandshakePending c
  | FrameHeaderPending => caseFrameHeaderPending c
  | PayloadDataPending => casePayloadDataPending c
  end.

(** ** The loop *)

(** [while (_tcpSocket->bytesAvailable()) { ... }] with [fuel] passes. *)
Fixpoint readyReadLoop (fuel : nat) (c : Conn) : option (Conn * list Output) :=
  match fuel with
  | O => None
  | S fuel =>
      if bytesAvailable (tcpSocket c) =? 0 then Some (c, [])
      else
        let '(c1, o1, fl) := readyReadBody c in
        match fl with
        | Return => Some (c1, o1)
        | Continue =>
            match readyReadLoop fuel c1 with
            | Some (c2, o2) => Some (c2, o1 ++ o2)
            | None => None
            end
        end
  end.

(** The fuel: every pass either consumes two header bytes, or leaves
    [PayloadDataPending], or returns. *)
Definition readyReadFuel (c : Conn) : nat := (2 * length (rx (tcpSocket c)) + 3)%nat.

(** [void EnginioBackendConnection::onSocketReadyRead()] *)
Definition onSocketReadyRead (c : Conn) : Conn * list Output :=
  match readyReadLoop (readyReadFuel c) c with
  | Some r => r
  | None => (c, [])
  end.

(** Bytes arrive on the socket. *)
Definition feed (d : list Z) (c : Conn) : Conn := set_socket (sock_receive d (tcpSocket c)) c.

(** Bytes arrive on the socket and [readyRead()] is emitted. *)
Definition deliver (d : list Z) (c : Conn) : Conn * list Output :=
  onSocketReadyRead (feed d c).

(** A sequence of deliveries, in order. *)
Fixpoint deliver_chunks (ds : list (list Z)) (c : Conn) : Conn * list Output :=
  match ds with
  | [] => (c, [])
  | d :: ds =>
      let '(c1, o1) := deliver d c in
      let '(c2, o2) := deliver_chunks ds c1 in
      (c2, o1 ++ o2)
  end.

(** ** [protocolError] in closed form *)

(** What [protocolError] leaves: the decoder reset, the socket closed, the
    warning and, if the socket was connected, [DisconnectedState]. *)
Definition closed_output (c : Conn) : list Output :=
  if sock_open (tcpSocket c) then [StateChanged DisconnectedState] else [].

Lemma protocolError_eq m c :
  protocolError m c =
    (mkConn (protocolOpcode c) HandshakePending (isFinalFragment c) (isPayloadMasked c) 0 []
       (sock_close (tcpSocket c)) (socketUrl c) (verificationKey c),
     Warning m :: closed_output c).
Proof.
  unfold protocolError, closeSocket, onSocketUnconnected, closed_output. simpl.
  destruct (sock_open (tcpSocket c)); reflexivity.
Qed.

Lemma error_return_eq m c :
  error_return m c = (fst (protocolError m c), snd (protocolError m c), Return).
Proof. unfold error_return. rewrite protocolError_eq. reflexivity. Qed.

#[export] Hint Rewrite protocolError_eq error_return_eq : enginio_rw.

(** ** Termination of the loop *)

Module Loop.

(** Twice the buffered bytes, plus one in [PayloadDataPending]. *)
Definition measure (c : Conn) : nat :=
  (2 * length (rx (tcpSocket c))
   + match protocolDecodeState c with PayloadDataPending => 1 | _ => 0 end)%nat.

Lemma header_suspends c :
  (length (rx (tcpSocket c)) < 2)%nat -> caseFrameHeaderPending c = (c, [], Return).
Proof.
  intros H. unfold caseFrameHeaderPending, bytesAvailable.
  replace (Z.of_nat _ <? DefaultHeaderLength) with true by (symmetry; apply Z.ltb_lt; unfold DefaultHeaderLength; lia).
  reflexivity.
Qed.

(** The header case once two bytes are buffered (its read cannot fail). *)
Lemma header_read c b0 b1 rest :
  rx (tcpSocket c) = b0 :: b1 :: rest ->
  caseFrameHeaderPending c =
    let c := set_socket (mkSocket rest (tx (tcpSocket c)) (sock_open (tcpSocket c))) c in
    if payloadLength c =? 0 then
      let c := set_header (negb (Z.land b0 FIN =? 0)) (Z.land b0 OPC)
                 (negb (Z.land b1 FIN =? 0)) (Z.land b1 LEN) c in
      if isPayloadMasked c then error_return "Masked payload not supported." c
      else if payloadLength c =? 127 then error_return "Large payload not supported." c
      else if payloadLength c <? 126 then (set_decodeState PayloadDataPending c, [], Continue)
      else (c, [], Continue)
    else
      (set_decodeState PayloadDataPending
         (set_payloadLength (Z.lor (Z.shiftl b0 8) b1) c), [], Continue).
Proof.
  intros E. unfold caseFrameHeaderPending, bytesAvailable, sock_read.
  rewrite E. cbn [length].
  replace (Z.of_nat (S (S (length rest))) <? DefaultHeaderLength) with false
    by (symmetry; apply Z.ltb_ge; unfold DefaultHeaderLength; lia).
  reflexivity.
Qed.

Lemma body_continue_measure c c1 o :
  readyReadBody c = (c1, o, Continue) -> (measure c1 < measure c)%nat.
Proof.
  intros H. unfold measure.
  destruct (protocolDecodeState c) eqn:Est.
  - unfold readyReadBody in H. rewrite Est in H. unfold caseHandshakePending in H.
    cbn -[caseFrameHeaderPending handshakeAccepted] in H.
    destruct (handshakeAccepted _ _); cbn -[caseFrameHeaderPending error_return] in H;
      [|rewrite error_return_eq in H; discriminate].
    rewrite header_suspends in H by (simpl; lia). discriminate.
  - unfold readyReadBody in H. rewrite Est in H.
    destruct (rx (tcpSocket c)) as [|b0 [|b1 rest]] eqn:Erx;
      [rewrite header_suspends in H by (rewrite Erx; simpl; lia); discriminate..|].
    rewrite (header_read c b0 b1 rest Erx) in H.
    cbv zeta in H; case_ifs_in H; rewrite ?error_return_eq in H;
      simpl in H; try discriminate; inv H; simpl; rewrite ?Est; lia.
  - unfold readyReadBody in H. rewrite Est in H.
    unfold casePayloadDataPending, bytesAvailable, sock_read in H.
    simpl in H. rewrite ?protocolError_eq in H.
    destruct (_ <? payloadLength c) eqn:E1; [discriminate|].
    destruct (isFinalFragment c); simpl in H;
      [destruct (protocolOpcode c =? TextFrameOp); simpl in H|]; inv H; simpl;
      try rewrite length_skipn; lia.
Qed.

Lemma loop_mono fuel c r :
  readyReadLoop fuel c = Some r -> readyReadLoop (S fuel) c = Some r.
Proof.
  revert c r; induction fuel as [|fuel IH]; intros c r H; [discriminate|].
  remember (S fuel) as f eqn:Ef. simpl. simpl in H. rewrite Ef in H. simpl in H.
  destruct (bytesAvailable _ =? 0); [exact H|].
  destruct (readyReadBody c) as [[c1 o1] []]; [|exact H].
  destruct (readyReadLoop fuel c1) as [[c2 o2]|] eqn:E; [|discriminate].
  rewrite (IH _ _ E). exact H.
Qed.

Lemma loop_mono_le fuel fuel' c r :
  (fuel <= fuel')%nat -> readyReadLoop fuel c = Some r -> readyReadLoop fuel' c = Some r.
Proof. induction 1; auto using loop_mono. Qed.

Lemma loop_some fuel c :
  (measure c + 2 <= fuel)%nat -> exists r, readyReadLoop fuel c = Some r.
Proof.
  revert c; induction fuel as [|fuel IH]; intros c Hf; [lia|].
  simpl. destruct (bytesAvailable _ =? 0); [eauto|].
  destruct (readyReadBody c) as [[c1 o1] []] eqn:Eb; [|eauto].
  apply body_continue_measure in Eb.
  destruct (IH c1) as [[c2 o2] ->]; [lia|eauto].
Qed.

Lemma loop_agree fuel c :
  (measure c + 2 <= fuel)%nat -> readyReadLoop fuel c = Some (onSocketReadyRead c).
Proof.
  intros Hf. unfold onSocketReadyRead.
  destruct (loop_some fuel c Hf) as [r Er].
  destruct (loop_some (readyReadFuel c) c) as [r' Er'].
  { unfold measure, readyReadFuel. destruct (protocolDecodeState c); lia. }
  rewrite Er'.
  assert (E1 := loop_mono_le _ _ _ _ (Nat.le_max_l fuel (readyReadFuel c)) Er).
  assert (E2 := loop_mono_le _ _ _ _ (Nat.le_max_r fuel (readyReadFuel c)) Er').
  congruence.
Qed.

(** The [while] loop unrolled once. *)
Lemma onSocketReadyRead_unfold c :
  onSocketReadyRead c =
    if bytesAvailable (tcpSocket c) =? 0 then (c, [])
    else
      let '(c1, o1, fl) := readyReadBody c in
      match fl with
      | Return => (c1, o1)
      | Continue => let '(c2, o2) := onSocketReadyRead c1 in (c2, o1 ++ o2)
      end.
Proof.
  assert (E := loop_agree (S (measure c + 2)) c ltac:(lia)).
  simpl in E. destruct (bytesAvailable _ =? 0); [congruence|].
  destruct (readyReadBody c) as [[c1 o1] []] eqn:Eb; [|congruence].
  apply body_continue_measure in Eb.
  rewrite (loop_agree (measure c + 2) c1) in E by lia.
  destruct (onSocketReadyRead c1). congruence.
Qed.

(** A property kept by every pass of the body that has bytes to read is kept
    by the whole loop. *)
Lemma run_preserves (P : Conn -> Prop) :
  (forall c, P c -> rx (tcpSocket c) <> [] -> P (fst (fst (readyReadBody c)))) ->
  forall c, P c -> P (fst (onSocketReadyRead c)).
Proof.
  intros Hbody c. remember (measure c) as m eqn:Em. revert c Em.
  induction m as [m IH] using lt_wf_ind. intros c Em Hc.
  rewrite onSocketReadyRead_unfold.
  destruct (bytesAvailable (tcpSocket c) =? 0) eqn:Eb; [exact Hc|].
  assert (Hne : rx (tcpSocket c) <> [])
    by (unfold bytesAvailable in Eb; destruct (rx _); [discriminate | congruence]).
  specialize (Hbody c Hc Hne).
  destruct (readyReadBody c) as [[c1 o1] []] eqn:E; [|exact Hbody].
  apply body_continue_measure in E.
  specialize (IH (measure c1) ltac:(lia) c1 eq_refl Hbody).
  destruct (onSocketReadyRead c1). exact IH.
Qed.

(** C6: the [while] loop of [onSocketReadyRead] terminates: from any state,
    with any bytes buffered, the loop returns within [readyReadFuel] passes,
    and any larger fuel gives the same result, the one [onSocketReadyRead]
    returns. *)
Theorem onSocketReadyRead_terminates c fuel :
  (readyReadFuel c <= fuel)%nat -> readyReadLoop fuel c = Some (onSocketReadyRead c).
Proof.
  intros Hf. apply loop_agree.
  unfold measure, readyReadFuel in *. destruct (protocolDecodeState c); lia.
Qed.

End Loop.

(** ** Chunk boundaries do not matter once the handshake is done *)

Module Chunking.
Import Loop.

(** The states in which bytes are decoded as frames: an open socket past the
    handshake, or a closed socket, which has nothing buffered. *)
Definition decodingb (c : Conn) : bool :=
  if sock_open (tcpSocket c) then
    match protocolDecodeState c with HandshakePending => false | _ => true end
  else match rx (tcpSocket c) with [] => true | _ => false end.

Definition decoding (c : Conn) : Prop :=
  (sock_open (tcpSocket c) = true -> protocolDecodeState c <> HandshakePending) /\
  (sock_open (tcpSocket c) = false -> rx (tcpSocket c) = []).

Lemma feed_closed d c : sock_open (tcpSocket c) = false -> feed d c = c.
Proof. intros H. unfold feed, sock_receive. rewrite H. destruct c as [? ? ? ? ? ? [] ? ?]; reflexivity. Qed.

Lemma feed_open_rx d c :
  sock_open (tcpSocket c) = true -> rx (tcpSocket (feed d c)) = rx (tcpSocket c) ++ d.
Proof. intros H. unfold feed, sock_receive. rewrite H. reflexivity. Qed.

Lemma feed_app d1 d2 c : feed (d1 ++ d2) c = feed d2 (feed d1 c).
Proof.
  unfold feed, sock_receive. destruct (sock_open (tcpSocket c)) eqn:E; simpl; rewrite ?E;
    [rewrite app_assoc|]; reflexivity.
Qed.

Lemma decoding_feed d c : decoding c -> decoding (feed d c).
Proof.
  unfold decoding, feed, sock_receive. destruct (sock_open (tcpSocket c)) eqn:E; simpl;
    rewrite ?E; intuition congruence.
Qed.

(** What one pass of the loop body does, past the handshake: it suspends
    without touching anything, or it acts the same way whatever bytes come
    after the buffered ones. *)
Definition classified (c : Conn) (r : step_result) : Prop :=
  let '(c1, o, fl) := r in
  (fl = Return /\ c1 = c /\ o = []) \/
  ((forall d, readyReadBody (feed d c) = (feed d c1, o, fl)) /\ decoding c1 /\
   (fl = Return -> sock_open (tcpSocket c1) = false)).

Lemma feed_fields d c :
  protocolDecodeState (feed d c) = protocolDecodeState c /\
  payloadLength (feed d c) = payloadLength c /\
  isFinalFragment (feed d c) = isFinalFragment c /\
  protocolOpcode (feed d c) = protocolOpcode c /\
  applicationData (feed d c) = applicationData c.
Proof. repeat split. Qed.

Lemma header_classified c :
  sock_open (tcpSocket c) = true -> protocolDecodeState c = FrameHeaderPending ->
  classified c (caseFrameHeaderPending c).
Proof.
  intros Ho Hs.
  destruct (rx (tcpSocket c)) as [|b0 [|b1 rest]] eqn:Erx;
    [rewrite header_suspends by (rewrite Erx; simpl; lia); left; auto..|].
  assert (Erx' : forall d, rx (tcpSocket (feed d c)) = b0 :: b1 :: rest ++ d)
    by (intros d; rewrite feed_open_rx, Erx by exact Ho; reflexivity).
  unfold classified. rewrite (header_read c b0 b1 rest Erx). cbv zeta.
  rewrite ?error_return_eq, ?protocolError_eq. simpl.
  case_ifs; right; split.
  all: try (intros d; unfold readyReadBody; simpl; rewrite Hs;
            rewrite (header_read _ _ _ _ (Erx' d)); cbv zeta;
            rewrite ?error_return_eq, ?protocolError_eq; simpl;
            rewrite ?E, ?E0, ?E1, ?E2;
            unfold closed_output, feed, sock_receive; simpl; rewrite ?Ho;
            reflexivity).
  all: split; [unfold decoding; simpl; rewrite ?Ho, ?Hs; split; intros; try discriminate; auto
              | intros; try discriminate; reflexivity].
Qed.

(** The payload case once the whole payload is buffered. *)
Lemma payload_read c :
  payloadLength c <= bytesAvailable (tcpSocket c) ->
  casePayloadDataPending c =
    let n := Z.to_nat (payloadLength c) in
    let c := set_payloadLength 0 (set_decodeState FrameHeaderPending
               (set_applicationData (applicationData c ++ firstn n (rx (tcpSocket c)))
                  (set_socket (mkSocket (skipn n (rx (tcpSocket c))) (tx (tcpSocket c))
                                (sock_open (tcpSocket c))) c))) in
    if negb (isFinalFragment c) then (c, [], Continue)
    else
      let '(c, o) :=
        if protocolOpcode c =? TextFrameOp then (c, [DataReceived (applicationData c)])
        else
          let '(c', o') := protocolError "WebSocketOpcode not yet supported" c in
          (c', o' ++ [WarningOpcode (protocolOpcode c)]) in
      (set_applicationData [] c, o, Continue).
Proof.
  intros H. unfold casePayloadDataPending.
  replace (bytesAvailable (tcpSocket c) <? payloadLength c) with false
    by (symmetry; apply Z.ltb_ge; exact H).
  reflexivity.
Qed.

Lemma payload_classified c :
  sock_open (tcpSocket c) = true -> protocolDecodeState c = PayloadDataPending ->
  classified c (casePayloadDataPending c).
Proof.
  intros Ho Hs. unfold classified.
  destruct (bytesAvailable (tcpSocket c) <? payloadLength c) eqn:Elt.
  { unfold casePayloadDataPending. rewrite Elt. left. auto. }
  zbool. rewrite (payload_read c Elt).
  assert (Hn : (Z.to_nat (payloadLength c) <= length (rx (tcpSocket c)))%nat)
    by (unfold bytesAvailable in Elt; lia).
  assert (Ef : forall d, casePayloadDataPending (feed d c) =
               let n := Z.to_nat (payloadLength c) in
               let c := set_payloadLength 0 (set_decodeState FrameHeaderPending
                 (set_applicationData (applicationData c ++ firstn n (rx (tcpSocket c)))
                   (set_socket (mkSocket (skipn n (rx (tcpSocket c)) ++ d) (tx (tcpSocket c))
                                 true) c))) in
               if negb (isFinalFragment c) then (c, [], Continue)
               else
                 let '(c, o) :=
                   if protocolOpcode c =? TextFrameOp then (c, [DataReceived (applicationData c)])
                   else
                     let '(c', o') := protocolError "WebSocketOpcode not yet supported" c in
                     (c', o' ++ [WarningOpcode (protocolOpcode c)]) in
                 (set_applicationData [] c, o, Continue)).
  { intros d. rewrite payload_read.
    - cbv zeta. rewrite !feed_open_rx by exact Ho.
      change (payloadLength (feed d c)) with (payloadLength c).
      rewrite firstn_app_le, skipn_app_le by exact Hn.
      unfold feed, sock_receive. simpl. rewrite Ho. reflexivity.
    - unfold bytesAvailable. rewrite feed_open_rx, length_app by exact Ho.
      change (payloadLength (feed d c)) with (payloadLength c).
      unfold bytesAvailable in Elt. lia. }
  cbv zeta. rewrite ?protocolError_eq. simpl. case_ifs; right; split.
  all: try (intros d; unfold readyReadBody; simpl; rewrite Hs, Ef; cbv zeta;
            rewrite ?protocolError_eq; simpl;
            rewrite ?E, ?E0; unfold closed_output, feed, sock_receive; simpl; rewrite ?Ho;
            reflexivity).
  all: split; [unfold decoding; simpl; rewrite ?Ho; split; intros; try discriminate; auto
              | intros; try discriminate].
Qed.

Lemma body_classified c :
  decoding c -> rx (tcpSocket c) <> [] -> classified c (readyReadBody c).
Proof.
  intros [Hd Hc] Hne.
  destruct (sock_open (tcpSocket c)) eqn:Ho; [|tauto].
  specialize (Hd eq_refl). unfold readyReadBody.
  destruct (protocolDecodeState c) eqn:Hs; [congruence| |].
  - apply header_classified; auto.
  - apply payload_classified; auto.
Qed.

Lemma rx_nil_run c : rx (tcpSocket c) = [] -> onSocketReadyRead c = (c, []).
Proof. intros H. rewrite onSocketReadyRead_unfold. unfold bytesAvailable. now rewrite H. Qed.

Lemma decoding_run c : decoding c -> decoding (fst (onSocketReadyRead c)).
Proof.
  remember (measure c) as m eqn:Em. revert c Em.
  induction m as [m IH] using lt_wf_ind. intros c Em Hd.
  destruct (rx (tcpSocket c)) eqn:Erx; [now rewrite rx_nil_run|].
  assert (Hcl := body_classified c Hd ltac:(congruence)).
  rewrite onSocketReadyRead_unfold. unfold bytesAvailable. rewrite Erx. simpl.
  destruct (readyReadBody c) as [[c1 o1] fl] eqn:Eb.
  destruct Hcl as [(-> & -> & ->) | (_ & Hd1 & _)]; [exact Hd|].
  destruct fl; [|exact Hd1].
  destruct (onSocketReadyRead c1) as [c2 o2] eqn:E2.
  change c2 with (fst (c2, o2)). rewrite <- E2.
  apply (IH (measure c1)); auto. subst. eapply body_continue_measure; eauto.
Qed.

(** Running the loop on more bytes is running it on the buffered ones, then
    on the rest. *)
Lemma run_feed c d :
  decoding c ->
  onSocketReadyRead (feed d c) =
    let '(c1, o1) := onSocketReadyRead c in
    let '(c2, o2) := onSocketReadyRead (feed d c1) in
    (c2, o1 ++ o2).
Proof.
  remember (measure c) as m eqn:Em. revert c Em.
  induction m as [m IH] using lt_wf_ind. intros c Em Hd.
  destruct (rx (tcpSocket c)) eqn:Erx.
  { rewrite (rx_nil_run c Erx). destruct (onSocketReadyRead (feed d c)). reflexivity. }
  assert (Hcl := body_classified c Hd ltac:(congruence)).
  assert (Ho : sock_open (tcpSocket c) = true)
    by (destruct (sock_open _) eqn:E; [reflexivity|]; rewrite (proj2 Hd E) in Erx; discriminate).
  rewrite (onSocketReadyRead_unfold c). unfold bytesAvailable at 1. rewrite Erx. simpl.
  destruct (readyReadBody c) as [[c1 o1] fl] eqn:Eb.
  destruct Hcl as [(-> & -> & ->) | (Hfeed & Hd1 & Hret)].
  { destruct (onSocketReadyRead (feed d c)). reflexivity. }
  rewrite (onSocketReadyRead_unfold (feed d c)).
  unfold bytesAvailable at 1. rewrite feed_open_rx, Erx by exact Ho. simpl.
  rewrite Hfeed. destruct fl.
  - rewrite (IH (measure c1)) by (subst; eauto using body_continue_measure).
    destruct (onSocketReadyRead c1) as [c2 o2].
    destruct (onSocketReadyRead (feed d c2)) as [c3 o3].
    rewrite app_assoc. reflexivity.
  - rewrite feed_closed by auto. rewrite rx_nil_run by (apply (proj2 Hd1); auto).
    rewrite app_nil_r. reflexivity.
Qed.

Lemma decodingb_spec c : decodingb c = true -> decoding c.
Proof.
  unfold decodingb, decoding. destruct (sock_open _); split; intros; try discriminate.
  - destruct (protocolDecodeState c); congruence.
  - destruct (rx _); congruence.
Qed.

Lemma deliver_app c d1 d2 :
  decoding c ->
  deliver (d1 ++ d2) c =
    let '(c1, o1) := deliver d1 c in
    let '(c2, o2) := deliver d2 c1 in
    (c2, o1 ++ o2).
Proof.
  intros Hd. unfold deliver at 1. rewrite feed_app, run_feed by (apply decoding_feed, Hd).
  reflexivity.
Qed.

(** C2: how the bytes of a stream are split into deliveries does not
    matter once the handshake is over: delivering [d] and then each chunk of
    [ds] gives the same final state and the same signals and warnings, in the
    same order, as delivering all of [d ++ concat ds] at once. *)
Theorem deliver_chunks_concat c d ds :
  decodingb c = true ->
  deliver_chunks (d :: ds) c = deliver (d ++ concat ds) c.
Proof.
  intros Hd. apply decodingb_spec in Hd.
  revert c d Hd; induction ds as [|d' ds IH]; intros c d Hd; simpl.
  - rewrite app_nil_r. destruct (deliver d c). now rewrite app_nil_r.
  - rewrite deliver_app by exact Hd.
    destruct (deliver d c) as [c1 o1] eqn:E1.
    assert (Hd1 : decoding c1).
    { change c1 with (fst (c1, o1)). rewrite <- E1. apply decoding_run, decoding_feed, Hd. }
    specialize (IH c1 d' Hd1). simpl in IH. rewrite IH. reflexivity.
Qed.

End Chunking.

(** ** Witnesses at concrete inputs *)

Module Witnesses.

(** An open connection past the handshake, with nothing buffered. *)
Definition connected : Conn :=
  set_decodeState FrameHeaderPending (set_socket (mkSocket [] [] true) initialConn).

Lemma deliver_chunks_concat_witness :
  Chunking.decodingb connected = true /\
  deliver_chunks [[129]; [126; 0]; [3; 65]; [66; 67; 129]] connected
  = deliver ([129] ++ concat [[126; 0]; [3; 65]; [66; 67; 129]]) connected.
Proof. split; [reflexivity | apply Chunking.deliver_chunks_concat; reflexivity]. Defined.

Lemma onSocketReadyRead_terminates_witness :
  Nat.le (readyReadFuel (feed [129; 3; 65] connected)) 9 /\
  readyReadLoop 9 (feed [129; 3; 65] connected)
  = Some (onSocketReadyRead (feed [129; 3; 65] connected)).
Proof. split; [vm_compute; lia | apply Loop.onSocketReadyRead_terminates; vm_compute; lia]. Defined.

End Witnesses.
