(* ===== verification/Frames.v ===== *)
(** The decoder against the wire format: an encoder of RFC 6455 server frames
    (unmasked, 7-bit or 16-bit length), what one pass of [onSocketReadyRead]
    does on an encoded frame, and a message-level specification of the
    decoder that the byte-level loop refines. *)

From S2P Require Import Prelude Bytes Handshake Decoder.
From Stdlib Require Strings.String.
Import (notations) String.StringSyntax.

Open Scope Z_scope.
Open Scope enginio_scope.

Import Loop Chunking.

#[local] Arguments onSocketReadyRead : simpl never.

(** ** Frames and their encoding *)

Record Frame := mkFrame {
  fr_fin : bool;
  fr_opcode : Z;
  fr_payload : list Z
}.

(** What the decoder is meant to receive: a 4-bit opcode and a payload of
    bytes shorter than 65536. *)
Definition frame_ok (f : Frame) : bool :=
  (0 <=? fr_opcode f) && (fr_opcode f <? 16) && bytes_ok (fr_payload f)
  && (Z.of_nat (length (fr_payload f)) <? 65536).

(** The first header byte: FIN bit and opcode. *)
Definition frame_b0 (f : Frame) : Z := (if fr_fin f then 128 else 0) + fr_opcode f.

(** A server frame: no mask, the shortest length encoding. *)
Definition encode_frame (f : Frame) : list Z :=
  let n := Z.of_nat (length (fr_payload f)) in
  (if n <? 126 then [frame_b0 f; n] else [frame_b0 f; 126; n / 256; n mod 256])
  ++ fr_payload f.

(** ** The header bytes decode to the frame's fields *)

Lemma frame_ok_spec f :
  frame_ok f = true ->
  0 <= fr_opcode f < 16 /\ bytes_ok (fr_payload f) = true /\
  Z.of_nat (length (fr_payload f)) < 65536.
Proof. unfold frame_ok. intros H. zbool. repeat split; auto; lia. Qed.

Lemma b0_fin f :
  0 <= fr_opcode f < 16 -> negb (Z.land (frame_b0 f) FIN =? 0) = fr_fin f.
Proof.
  intros H. unfold frame_b0, FIN.
  rewrite land_128_byte by (destruct (fr_fin f); lia).
  destruct (fr_fin f); cbv beta iota.
  - replace (128 + fr_opcode f <? 128) with false by (symmetry; apply Z.ltb_ge; lia). reflexivity.
  - replace (0 + fr_opcode f <? 128) with true by (symmetry; apply Z.ltb_lt; lia). reflexivity.
Qed.

Lemma b0_opcode f : 0 <= fr_opcode f < 16 -> Z.land (frame_b0 f) OPC = fr_opcode f.
Proof.
  intros H. unfold frame_b0, OPC. change 15 with (2 ^ 4 - 1). rewrite land_ones_mod by lia.
  change (2 ^ 4) with 16. destruct (fr_fin f); cbv beta iota; lia_div.
Qed.

(** The second header byte of a short frame: no mask bit, the length. *)
Lemma b1_short n : 0 <= n < 126 -> negb (Z.land n FIN =? 0) = false /\ Z.land n LEN = n.
Proof.
  intros H. unfold FIN, LEN. rewrite land_128_byte by lia. split.
  - replace (n <? 128) with true by (symmetry; apply Z.ltb_lt; lia). reflexivity.
  - change 127 with (2 ^ 7 - 1). rewrite land_ones_mod by lia. apply Z.mod_small. simpl. lia.
Qed.

(** The two bytes of the extended length give the length back. *)
Lemma ext_length n : 0 <= n < 65536 -> Z.lor (Z.shiftl (n / 256) 8) (n mod 256) = n.
Proof.
  intros H. rewrite lor_shiftl_byte.
  - pose proof (Z.div_mod n 256). lia.
  - apply Z.div_pos; lia.
  - apply Z.mod_pos_bound. lia.
Qed.

(** ** One frame through the loop *)

(** The state once a frame's payload is read: header fields of [f], back to
    [FrameHeaderPending], the message so far [acc], [rest] still buffered. *)
Definition frame_done (c : Conn) (f : Frame) (acc rest : list Z) : Conn :=
  mkConn (fr_opcode f) FrameHeaderPending (fr_fin f) false 0 acc
    (mkSocket rest (tx (tcpSocket c)) true) (socketUrl c) (verificationKey c).

(** The state after a final frame whose opcode is not text. *)
Definition frame_failed (c : Conn) (f : Frame) : Conn :=
  mkConn (fr_opcode f) HandshakePending (fr_fin f) false 0 []
    (mkSocket [] (tx (tcpSocket c)) false) (socketUrl c) (verificationKey c).

Lemma run_payload c p rest :
  sock_open (tcpSocket c) = true -> protocolDecodeState c = PayloadDataPending ->
  payloadLength c = Z.of_nat (length p) -> rx (tcpSocket c) = p ++ rest -> p ++ rest <> [] ->
  onSocketReadyRead c =
    let c1 := mkConn (protocolOpcode c) FrameHeaderPending (isFinalFragment c)
                (isPayloadMasked c) 0 (applicationData c ++ p)
                (mkSocket rest (tx (tcpSocket c)) true) (socketUrl c) (verificationKey c) in
    if negb (isFinalFragment c) then onSocketReadyRead c1
    else if protocolOpcode c =? TextFrameOp then
      let '(c2, o2) := onSocketReadyRead
        (mkConn (protocolOpcode c) FrameHeaderPending (isFinalFragment c) (isPayloadMasked c) 0 []
           (mkSocket rest (tx (tcpSocket c)) true) (socketUrl c) (verificationKey c)) in
      (c2, DataReceived (applicationData c ++ p) :: o2)
    else
      (mkConn (protocolOpcode c) HandshakePending (isFinalFragment c) (isPayloadMasked c) 0 []
         (mkSocket [] (tx (tcpSocket c)) false) (socketUrl c) (verificationKey c),
       [Warning "WebSocketOpcode not yet supported"; StateChanged DisconnectedState;
        WarningOpcode (protocolOpcode c)]).
Proof.
  intros Ho Hs Hn Hrx Hne.
  rewrite onSocketReadyRead_unfold.
  replace (bytesAvailable (tcpSocket c) =? 0) with false
    by (unfold bytesAvailable; rewrite Hrx; destruct (p ++ rest); [congruence | reflexivity]).
  unfold readyReadBody. rewrite Hs.
  rewrite payload_read by (unfold bytesAvailable; rewrite Hrx, Hn, length_app; lia).
  cbv zeta. rewrite Hn, Nat2Z.id, Hrx.
  destruct (firstn_skipn_app p rest) as [-> ->]. rewrite Ho, ?protocolError_eq.
  unfold set_applicationData, set_payloadLength, set_decodeState, set_socket, closed_output. simpl.
  destruct (isFinalFragment c); simpl; [destruct (protocolOpcode c =? TextFrameOp); simpl|].
  all: try (rewrite rx_nil_run by reflexivity); try reflexivity.
  destruct (onSocketReadyRead _). reflexivity.
Qed.

(** A pass of the body that reports nothing and goes on leaves the rest of the
    run to the new state. *)
Lemma run_continue c c1 :
  rx (tcpSocket c) <> [] -> readyReadBody c = (c1, [], Continue) ->
  onSocketReadyRead c = onSocketReadyRead c1.
Proof.
  intros Hne Hb. rewrite (onSocketReadyRead_unfold c).
  replace (bytesAvailable (tcpSocket c) =? 0) with false
    by (unfold bytesAvailable; destruct (rx _); [congruence | reflexivity]).
  rewrite Hb. destruct (onSocketReadyRead c1). reflexivity.
Qed.

(** The state once the header of [f] is decoded, [r] still buffered. *)
Definition frame_header_state (c : Conn) (f : Frame) (len : Z) (st : ProtocolDecodeState)
    (r : list Z) : Conn :=
  mkConn (fr_opcode f) st (fr_fin f) false len (applicationData c)
    (mkSocket r (tx (tcpSocket c)) true) (socketUrl c) (verificationKey c).

Section Header.
Context (c : Conn) (f : Frame).
Hypothesis Hok : frame_ok f = true.
Hypothesis Ho : sock_open (tcpSocket c) = true.
Hypothesis Hs : protocolDecodeState c = FrameHeaderPending.

Let n := Z.of_nat (length (fr_payload f)).

Lemma header_short r :
  payloadLength c = 0 -> n < 126 -> rx (tcpSocket c) = frame_b0 f :: n :: r ->
  readyReadBody c = (frame_header_state c f n PayloadDataPending r, [], Continue).
Proof.
  intros Hpl Hn Hrx. destruct (frame_ok_spec f Hok) as (Hop & _ & _).
  destruct (b1_short n ltac:(unfold n in *; lia)) as [Hm Hl].
  unfold readyReadBody. rewrite Hs, (header_read c _ _ _ Hrx). cbv zeta. simpl.
  rewrite Hpl, b0_fin, b0_opcode, Hm, Hl by exact Hop. simpl.
  replace (n =? 127) with false by (symmetry; apply Z.eqb_neq; lia).
  replace (n <? 126) with true by (symmetry; apply Z.ltb_lt; lia).
  unfold frame_header_state. rewrite Ho. reflexivity.
Qed.

Lemma header_long r :
  payloadLength c = 0 -> rx (tcpSocket c) = frame_b0 f :: 126 :: r ->
  readyReadBody c = (frame_header_state c f 126 FrameHeaderPending r, [], Continue).
Proof.
  intros Hpl Hrx. destruct (frame_ok_spec f Hok) as (Hop & _ & _).
  unfold readyReadBody. rewrite Hs, (header_read c _ _ _ Hrx). cbv zeta. simpl.
  rewrite Hpl, b0_fin, b0_opcode by exact Hop. simpl.
  unfold frame_header_state, set_header, set_socket. simpl. rewrite ?Ho, ?Hs. reflexivity.
Qed.

End Header.

Lemma header_ext c f r :
  frame_ok f = true ->
  let n := Z.of_nat (length (fr_payload f)) in
  readyReadBody (frame_header_state c f 126 FrameHeaderPending (n / 256 :: n mod 256 :: r)) =
    (frame_header_state c f n PayloadDataPending r, [], Continue).
Proof.
  intros Hok n. destruct (frame_ok_spec f Hok) as (_ & _ & Hlen).
  unfold readyReadBody. simpl. rewrite (header_read _ (n / 256) (n mod 256) r) by reflexivity.
  cbn -[Z.shiftl Z.lor Z.div Z.modulo]. rewrite ext_length by (unfold n in *; lia). reflexivity.
Qed.

(** What the loop does on a whole frame at the front of the buffer. *)
Lemma run_frame c f rest :
  frame_ok f = true -> sock_open (tcpSocket c) = true ->
  protocolDecodeState c = FrameHeaderPending -> payloadLength c = 0 ->
  rx (tcpSocket c) = encode_frame f ++ rest -> fr_payload f ++ rest <> [] ->
  onSocketReadyRead c =
    if negb (fr_fin f) then onSocketReadyRead (frame_done c f (applicationData c ++ fr_payload f) rest)
    else if fr_opcode f =? TextFrameOp then
      let '(c2, o2) := onSocketReadyRead (frame_done c f [] rest) in
      (c2, DataReceived (applicationData c ++ fr_payload f) :: o2)
    else
      (frame_failed c f, [Warning "WebSocketOpcode not yet supported"; StateChanged DisconnectedState;
        WarningOpcode (fr_opcode f)]).
Proof.
  intros Hok Ho Hs Hpl Hrx Hne.
  destruct (frame_ok_spec f Hok) as (_ & _ & Hlen).
  set (n := Z.of_nat (length (fr_payload f))) in *.
  unfold encode_frame in Hrx. fold n in Hrx.
  destruct (n <? 126) eqn:En; zbool; cbn [app] in Hrx.
  - rewrite (run_continue c _ ltac:(rewrite Hrx; discriminate)
               (header_short c f Hok Ho Hs _ Hpl En Hrx)).
    rewrite (run_payload _ (fr_payload f) rest) by (simpl; auto).
    simpl. reflexivity.
  - rewrite (run_continue c _ ltac:(rewrite Hrx; discriminate)
               (header_long c f Hok Ho Hs _ Hpl Hrx)).
    rewrite (run_continue
               (frame_header_state c f 126 FrameHeaderPending
                  (n / 256 :: n mod 256 :: fr_payload f ++ rest)) _
               ltac:(simpl; discriminate) (header_ext c f (fr_payload f ++ rest) Hok)).
    rewrite (run_payload _ (fr_payload f) rest) by (simpl; auto).
    simpl. reflexivity.
Qed.

(** ** The message-level specification *)

(** What the decoder promises at the level of frames: payloads accumulate
    until a final frame; a final frame ends the message, which is delivered if
    that final frame is a text frame, and is a protocol error otherwise. *)
Inductive MsgState := MOpen (acc : list Z) | MFailed.

Fixpoint messages (acc : list Z) (fs : list Frame) : list Output * MsgState :=
  match fs with
  | [] => ([], MOpen acc)
  | f :: fs =>
      let acc' := acc ++ fr_payload f in
      if fr_fin f then
        if fr_opcode f =? TextFrameOp then
          let '(o, st) := messages [] fs in (DataReceived acc' :: o, st)
        else ([Warning "WebSocketOpcode not yet supported"; StateChanged DisconnectedState;
        WarningOpcode (fr_opcode f)], MFailed)
      else messages acc' fs
  end.

(** The decoder state seen at the message level. *)
Definition msg_state (c : Conn) : MsgState :=
  if sock_open (tcpSocket c) then MOpen (applicationData c) else MFailed.

(** Between frames: open, waiting for a header, nothing half-read. *)
Definition at_frame_boundary (c : Conn) : bool :=
  sock_open (tcpSocket c)
  && match protocolDecodeState c with FrameHeaderPending => true | _ => false end
  && (payloadLength c =? 0).

(** The last frame carries data (see [Frames.empty_final_frame_stalls] for why). *)
Definition last_payload_nonempty (fs : list Frame) : bool :=
  match fs with
  | [] => true
  | _ => match fr_payload (last fs (mkFrame true TextFrameOp [0])) with [] => false | _ => true end
  end.

Lemma boundary_spec c :
  at_frame_boundary c = true ->
  sock_open (tcpSocket c) = true /\ protocolDecodeState c = FrameHeaderPending /\ payloadLength c = 0.
Proof.
  unfold at_frame_boundary. intros H. zbool.
  destruct (protocolDecodeState c); try discriminate. auto.
Qed.

Lemma frame_tail_nonempty f fs :
  last_payload_nonempty (f :: fs) = true ->
  fr_payload f ++ concat (map encode_frame fs) <> [].
Proof.
  destruct fs as [|g fs]; simpl.
  - destruct (fr_payload f); simpl; [discriminate | congruence].
  - intros _. unfold encode_frame at 1. destruct (_ <? 126); simpl;
      destruct (fr_payload f); simpl; discriminate.
Qed.

Lemma last_payload_nonempty_tail f fs :
  last_payload_nonempty (f :: fs) = true -> last_payload_nonempty fs = true.
Proof. destruct fs; [reflexivity | exact (fun H => H)]. Qed.

Lemma deliver_frame_done c f acc d :
  deliver d (frame_done c f acc []) = onSocketReadyRead (frame_done c f acc d).
Proof. reflexivity. Qed.

(** The byte-level loop refines [messages]. *)
Lemma frames_refine c fs :
  at_frame_boundary c = true -> rx (tcpSocket c) = [] ->
  forallb frame_ok fs = true -> last_payload_nonempty fs = true ->
  let '(c', o) := deliver (concat (map encode_frame fs)) c in
  o = fst (messages (applicationData c) fs) /\
  msg_state c' = snd (messages (applicationData c) fs) /\
  rx (tcpSocket c') = [] /\
  (sock_open (tcpSocket c') = true -> at_frame_boundary c' = true).
Proof.
  revert c; induction fs as [|f fs IH]; intros c Hb Hrx Hok Hlast.
  - apply boundary_spec in Hb as (Ho & Hs & Hpl).
    assert (Ef : feed [] c = c).
    { unfold feed, sock_receive. rewrite Ho.
      destruct c as [? ? ? ? ? ? [? ? ?] ? ?]; simpl in *; subst; reflexivity. }
    unfold deliver. simpl concat. rewrite Ef, rx_nil_run by exact Hrx. simpl.
    unfold msg_state, at_frame_boundary. rewrite Ho, Hs, Hpl, ?Hrx. auto.
  - simpl in Hok. apply andb_true_iff in Hok as [Hf Hok].
    apply boundary_spec in Hb as (Ho & Hs & Hpl).
    simpl concat. unfold deliver.
    rewrite (run_frame (feed _ c) f (concat (map encode_frame fs)) Hf);
      [| unfold feed, sock_receive; rewrite Ho; reflexivity | exact Hs | exact Hpl
       | rewrite feed_open_rx, Hrx by exact Ho; reflexivity
       | apply frame_tail_nonempty, Hlast].
    apply last_payload_nonempty_tail in Hlast.
    change (applicationData (feed _ c)) with (applicationData c).
    simpl messages. destruct (fr_fin f); simpl.
    + destruct (fr_opcode f =? TextFrameOp).
      * rewrite <- deliver_frame_done.
        specialize (IH (frame_done (feed (encode_frame f ++ concat (map encode_frame fs)) c) f [] [])
                      eq_refl eq_refl Hok Hlast).
        destruct (deliver _ _) as [c2 o2]. simpl in IH.
        destruct (messages [] fs) as [o st]. simpl in *. intuition congruence.
      * unfold msg_state, at_frame_boundary. simpl. intuition discriminate.
    + rewrite <- deliver_frame_done.
      exact (IH (frame_done (feed (encode_frame f ++ concat (map encode_frame fs)) c) f
                   (applicationData c ++ fr_payload f) []) eq_refl eq_refl Hok Hlast).
Qed.

(** C1: refinement of the message-level specification.  From a connection
    between frames with nothing buffered, delivering the encoding of a stream
    of well-formed frames whose last frame carries data emits exactly the
    signals and warnings of [messages], and leaves the decoder in the message
    state [messages] predicts: the partial message so far, or failed. *)
Theorem decode_frames c fs :
  at_frame_boundary c = true -> rx (tcpSocket c) = [] ->
  forallb frame_ok fs = true -> last_payload_nonempty fs = true ->
  let '(c', o) := deliver (concat (map encode_frame fs)) c in
  o = fst (messages (applicationData c) fs) /\
  msg_state c' = snd (messages (applicationData c) fs) /\
  rx (tcpSocket c') = [] /\
  (sock_open (tcpSocket c') = true -> at_frame_boundary c' = true).
Proof. exact (frames_refine c fs). Qed.

(** ** Fragmented messages *)

(** C7: a text message split into a non-final text frame and a final
    continuation frame, as RFC 6455 fragments a message, is refused: the code
    tests the opcode of the frame that ends the message (the continuation
    opcode 0), not of the frame that began it, so no message is delivered and
    the socket is closed. *)
Theorem fragmented_text_rejected c p1 p2 :
  at_frame_boundary c = true -> rx (tcpSocket c) = [] ->
  frame_ok (mkFrame false TextFrameOp p1) = true ->
  frame_ok (mkFrame true ContinuationFrameOp p2) = true -> p2 <> [] ->
  let '(c', o) := deliver (encode_frame (mkFrame false TextFrameOp p1)
                           ++ encode_frame (mkFrame true ContinuationFrameOp p2)) c in
  o = [Warning "WebSocketOpcode not yet supported"; StateChanged DisconnectedState;
        WarningOpcode ContinuationFrameOp] /\
  sock_open (tcpSocket c') = false.
Proof.
  intros Hb Hrx H1 H2 Hne.
  pose proof (frames_refine c [mkFrame false TextFrameOp p1; mkFrame true ContinuationFrameOp p2]
                Hb Hrx) as D.
  simpl in D. rewrite H1, H2, app_nil_r in D. specialize (D eq_refl).
  destruct p2 as [|x p2]; [congruence|]. specialize (D eq_refl).
  destruct (deliver _ c) as [c' o]. destruct D as (-> & Hst & _).
  split; [reflexivity|]. unfold msg_state in Hst. destruct (sock_open _); [discriminate|reflexivity].
Qed.

(** ** Frames the decoder refuses *)

Section Refused.
Context (c : Conn) (b0 b1 : Z) (rest : list Z).
Hypothesis Hb : at_frame_boundary c = true.
Hypothesis Hrx : rx (tcpSocket c) = [].
Hypothesis Hb0 : 0 <= b0 < 256.

(** The connection after [protocolError]: the decoder reset and the socket
    closed. *)
Definition reset_closed (c' : Conn) : Prop :=
  protocolDecodeState c' = HandshakePending /\ applicationData c' = [] /\
  payloadLength c' = 0 /\ sock_open (tcpSocket c') = false /\ rx (tcpSocket c') = [].

Lemma refused_header msg :
  (forall c0, rx (tcpSocket c0) = b0 :: b1 :: rest -> payloadLength c0 = 0 ->
     caseFrameHeaderPending c0 = error_return msg (set_header (negb (Z.land b0 FIN =? 0))
       (Z.land b0 OPC) (negb (Z.land b1 FIN =? 0)) (Z.land b1 LEN)
       (set_socket (mkSocket rest (tx (tcpSocket c0)) (sock_open (tcpSocket c0))) c0))) ->
  let '(c', o) := deliver (b0 :: b1 :: rest) c in
  o = [Warning msg; StateChanged DisconnectedState] /\ reset_closed c'.
Proof.
  intros Hcase. apply boundary_spec in Hb as (Ho & Hs & Hpl).
  unfold deliver. rewrite onSocketReadyRead_unfold.
  replace (bytesAvailable (tcpSocket (feed (b0 :: b1 :: rest) c)) =? 0) with false
    by (unfold bytesAvailable; rewrite feed_open_rx, Hrx by exact Ho; reflexivity).
  unfold readyReadBody.
  change (protocolDecodeState (feed _ c)) with (protocolDecodeState c). rewrite Hs.
  rewrite Hcase by first [exact Hpl | rewrite feed_open_rx, Hrx by exact Ho; reflexivity].
  rewrite error_return_eq, protocolError_eq.
  unfold reset_closed, closed_output, feed, sock_receive. simpl. rewrite Ho. simpl. auto 6.
Qed.
End Refused.

(** C8: a frame whose mask bit is set is refused: between frames, two header
    bytes with the mask bit set make [onSocketReadyRead] log "Masked payload not
    supported.", deliver nothing, reset the decoder and close the socket,
    whatever follows them. *)
Theorem masked_frame_refused c b0 b1 rest :
  at_frame_boundary c = true -> rx (tcpSocket c) = [] ->
  0 <= b0 < 256 -> 128 <= b1 < 256 ->
  let '(c', o) := deliver (b0 :: b1 :: rest) c in
  o = [Warning "Masked payload not supported."; StateChanged DisconnectedState] /\ reset_closed c'.
Proof.
  intros Hb Hrx Hb0 Hb1. apply refused_header; auto.
  intros c0 Hrx0 Hpl0. rewrite (header_read c0 b0 b1 rest Hrx0). cbv zeta. simpl.
  rewrite Hpl0, land_128_byte by lia.
  replace (b1 <? 128) with false by (symmetry; apply Z.ltb_ge; lia). reflexivity.
Qed.

(** C9: a frame announcing a 64-bit extended length (length field 127) is
    refused: "Large payload not supported.", nothing delivered, the decoder
    reset and the socket closed. *)
Theorem large_frame_refused c b0 rest :
  at_frame_boundary c = true -> rx (tcpSocket c) = [] -> 0 <= b0 < 256 ->
  let '(c', o) := deliver (b0 :: 127 :: rest) c in
  o = [Warning "Large payload not supported."; StateChanged DisconnectedState] /\ reset_closed c'.
Proof.
  intros Hb Hrx Hb0. apply refused_header; auto.
  intros c0 Hrx0 Hpl0. rewrite (header_read c0 b0 127 rest Hrx0). cbv zeta. simpl.
  rewrite Hpl0. reflexivity.
Qed.

(** C10: encode/decode round trip of a text message in one frame, for every
    payload length from 1 to 65535 (the 7-bit and the 16-bit big-endian length
    encodings): the decoder consumes exactly the frame, delivers the payload
    appended to the message so far, and is back between frames with nothing
    buffered and an empty message buffer. *)
Theorem text_frame_roundtrip c p :
  at_frame_boundary c = true -> rx (tcpSocket c) = [] ->
  bytes_ok p = true -> p <> [] -> Z.of_nat (length p) < 65536 ->
  deliver (encode_frame (mkFrame true TextFrameOp p)) c =
    (frame_done c (mkFrame true TextFrameOp p) [] [], [DataReceived (applicationData c ++ p)]).
Proof.
  intros Hb Hrx Hp Hne Hlen.
  assert (Hok : frame_ok (mkFrame true TextFrameOp p) = true)
    by (unfold frame_ok; simpl; rewrite Hp; simpl; apply Z.ltb_lt; exact Hlen).
  apply boundary_spec in Hb as (Ho & Hs & Hpl).
  unfold deliver. rewrite (run_frame _ _ [] Hok);
    [| unfold feed, sock_receive; rewrite Ho; reflexivity | exact Hs | exact Hpl
     | rewrite feed_open_rx, Hrx, app_nil_r by exact Ho; reflexivity
     | rewrite app_nil_r; exact Hne].
  simpl. unfold frame_done, feed, sock_receive. rewrite Ho. reflexivity.
Qed.

(** C15: a final frame with an empty payload that ends a delivery is not
    processed: the loop stops on [bytesAvailable() == 0] in
    [PayloadDataPending] although no byte is needed, so the (empty) message is
    not delivered until more bytes arrive. *)
Theorem empty_final_frame_stalls c :
  at_frame_boundary c = true -> rx (tcpSocket c) = [] ->
  let '(c', o) := deliver (encode_frame (mkFrame true TextFrameOp [])) c in
  o = [] /\ protocolDecodeState c' = PayloadDataPending /\ payloadLength c' = 0 /\
  rx (tcpSocket c') = [] /\ sock_open (tcpSocket c') = true.
Proof.
  intros Hb Hrx. apply boundary_spec in Hb as (Ho & Hs & Hpl).
  assert (Hok : frame_ok (mkFrame true TextFrameOp []) = true) by reflexivity.
  set (f := mkFrame true TextFrameOp []) in *.
  set (c0 := feed (encode_frame f) c). unfold deliver. fold c0.
  assert (Ho0 : sock_open (tcpSocket c0) = true)
    by (unfold c0, feed, sock_receive; rewrite Ho; reflexivity).
  assert (Hrx0 : rx (tcpSocket c0) = frame_b0 f :: 0 :: [])
    by (unfold c0; rewrite feed_open_rx, Hrx by exact Ho; reflexivity).
  rewrite (run_continue c0 _ ltac:(rewrite Hrx0; discriminate)
             (header_short c0 f Hok Ho0 Hs [] Hpl ltac:(simpl; lia) Hrx0)).
  rewrite rx_nil_run by reflexivity. simpl. auto.
Qed.

(** ** Witnesses at concrete inputs *)

Module FrameWitnesses.
Import Witnesses.

Definition two_frames : list Frame :=
[mkFrame false TextFrameOp [123; 34]; mkFrame false ContinuationFrameOp [];
 mkFrame true TextFrameOp [125]; mkFrame true TextFrameOp (repeat 48 200)].

Lemma decode_frames_witness :
at_frame_boundary connected = true /\ rx (tcpSocket connected) = [] /\
forallb frame_ok two_frames = true /\ last_payload_nonempty two_frames = true /\
(let '(c', o) := deliver (concat (map encode_frame two_frames)) connected in
 o = fst (messages (applicationData connected) two_frames) /\
 msg_state c' = snd (messages (applicationData connected) two_frames) /\
 rx (tcpSocket c') = [] /\
 (sock_open (tcpSocket c') = true -> at_frame_boundary c' = true)).
Proof.
split; [reflexivity|]. split; [reflexivity|]. split; [vm_compute; reflexivity|].
split; [reflexivity|]. apply decode_frames; vm_compute; reflexivity.
Defined.

Lemma fragmented_text_rejected_witness :
at_frame_boundary connected = true /\ rx (tcpSocket connected) = [] /\
frame_ok (mkFrame false TextFrameOp [123]) = true /\
frame_ok (mkFrame true ContinuationFrameOp [125]) = true /\ [125] <> [] /\
(let '(c', o) := deliver (encode_frame (mkFrame false TextFrameOp [123])
                          ++ encode_frame (mkFrame true ContinuationFrameOp [125])) connected in
 o = [Warning "WebSocketOpcode not yet supported"; StateChanged DisconnectedState;
        WarningOpcode ContinuationFrameOp] /\
 sock_open (tcpSocket c') = false).
Proof.
split; [reflexivity|]. split; [reflexivity|]. split; [reflexivity|]. split; [reflexivity|].
split; [discriminate|]. apply fragmented_text_rejected; try reflexivity. discriminate.
Defined.

Lemma masked_frame_refused_witness :
at_frame_boundary connected = true /\ rx (tcpSocket connected) = [] /\
0 <= 129 < 256 /\ 128 <= 133 < 256 /\
(let '(c', o) := deliver [129; 133; 1; 2; 3; 4; 65] connected in
 o = [Warning "Masked payload not supported."; StateChanged DisconnectedState] /\ reset_closed c').
Proof.
split; [reflexivity|]. split; [reflexivity|]. split; [lia|]. split; [lia|].
apply masked_frame_refused; first [reflexivity | lia].
Defined.

Lemma large_frame_refused_witness :
at_frame_boundary connected = true /\ rx (tcpSocket connected) = [] /\ 0 <= 130 < 256 /\
(let '(c', o) := deliver [130; 127; 0; 0; 0; 0; 0; 1; 0; 0] connected in
 o = [Warning "Large payload not supported."; StateChanged DisconnectedState] /\ reset_closed c').
Proof.
split; [reflexivity|]. split; [reflexivity|]. split; [lia|].
apply large_frame_refused; first [reflexivity | lia].
Defined.

Lemma text_frame_roundtrip_witness :
at_frame_boundary connected = true /\ rx (tcpSocket connected) = [] /\
bytes_ok (repeat 97 300) = true /\ repeat 97 300 <> [] /\
Z.of_nat (length (repeat 97 300)) < 65536 /\
deliver (encode_frame (mkFrame true TextFrameOp (repeat 97 300))) connected =
  (frame_done connected (mkFrame true TextFrameOp (repeat 97 300)) [] [],
   [DataReceived (applicationData connected ++ repeat 97 300)]).
Proof.
split; [reflexivity|]. split; [reflexivity|]. split; [vm_compute; reflexivity|].
split; [discriminate|]. split; [vm_compute; reflexivity|].
apply text_frame_roundtrip; first [reflexivity | discriminate | vm_compute; reflexivity].
Defined.

Lemma empty_final_frame_stalls_witness :
at_frame_boundary connected = true /\ rx (tcpSocket connected) = [] /\
(let '(c', o) := deliver (encode_frame (mkFrame true TextFrameOp [])) connected in
 o = [] /\ protocolDecodeState c' = PayloadDataPending /\ payloadLength c' = 0 /\
 rx (tcpSocket c') = [] /\ sock_open (tcpSocket c') = true).
Proof.
split; [reflexivity|]. split; [reflexivity|]. apply empty_final_frame_stalls; reflexivity.
Defined.

End FrameWitnesses.

(** ** The handshake case *)

(** The connection once the handshake is accepted: frame headers expected,
    the read buffer emptied by [readAll]. *)
Definition handshake_done (c : Conn) : Conn :=
  set_decodeState FrameHeaderPending
    (set_socket (mkSocket [] (tx (tcpSocket c)) (sock_open (tcpSocket c))) c).

Lemma run_handshake c :
  protocolDecodeState c = HandshakePending -> rx (tcpSocket c) <> [] ->
  onSocketReadyRead c =
    if handshakeAccepted (verificationKey c) (rx (tcpSocket c))
    then (handshake_done c, [StateChanged ConnectedState])
    else protocolError "Handshake failed!"
           (set_socket (mkSocket [] (tx (tcpSocket c)) (sock_open (tcpSocket c))) c).
Proof.
  intros Hs Hne. rewrite onSocketReadyRead_unfold.
  replace (bytesAvailable (tcpSocket c) =? 0) with false
    by (unfold bytesAvailable; destruct (rx _); [congruence | reflexivity]).
  unfold readyReadBody. rewrite Hs. unfold caseHandshakePending, sock_readAll.
  cbn -[caseFrameHeaderPending handshakeAccepted].
  destruct (handshakeAccepted _ _); cbn -[caseFrameHeaderPending].
  - rewrite header_suspends by (simpl; lia). reflexivity.
  - rewrite error_return_eq. simpl. destruct (protocolError _ _). reflexivity.
Qed.

(** C14: the bytes that arrive with the handshake response are lost: when a
    delivery holds a well-formed server answer carrying the right key followed
    by any bytes (for instance the first frames), [readAll] takes all of it as
    the response, the connection reports [ConnectedState] and waits for a frame
    header with an empty buffer, and nothing of the trailing bytes is
    decoded. *)
Theorem handshake_drops_trailing_bytes c extra :
  protocolDecodeState c = HandshakePending ->
  length (verificationKey c) = 28%nat ->
  forallb (Regex.atom_ok Regex.AAny) (verificationKey c) = true ->
  rx (tcpSocket c) = server_response (verificationKey c) ++ extra ->
  onSocketReadyRead c = (handshake_done c, [StateChanged ConnectedState]).
Proof.
  intros Hs Hl Ha Hrx.
  rewrite run_handshake by (rewrite ?Hrx; auto; unfold server_response; discriminate).
  rewrite Hrx, accept_response_check, bytes_eqb_refl by assumption. reflexivity.
Qed.

(** C13: a response whose status code is not 101 fails the handshake:
    "Handshake failed!" is logged, no [ConnectedState] is reported, the
    decoder is reset and the socket closed. *)
Theorem handshake_bad_status c :
  protocolDecodeState c = HandshakePending -> sock_open (tcpSocket c) = true ->
  rx (tcpSocket c) <> [] ->
  extractResponseStatus (rx (tcpSocket c)) <> 101 ->
  let '(c', o) := onSocketReadyRead c in o = [Warning "Handshake failed!"; StateChanged DisconnectedState] /\ reset_closed c'.
Proof.
  intros Hs Ho Hne Hst. rewrite run_handshake by assumption.
  unfold handshakeAccepted. apply Z.eqb_neq in Hst. rewrite Hst. simpl.
  rewrite protocolError_eq. unfold reset_closed, closed_output. simpl. rewrite Ho. auto 6.
Qed.

(** A well-formed answer that carries another accept value fails the
    handshake in the same way. *)
Theorem handshake_wrong_key c a extra :
  protocolDecodeState c = HandshakePending -> sock_open (tcpSocket c) = true ->
  length a = 28%nat -> forallb (Regex.atom_ok Regex.AAny) a = true -> a <> verificationKey c ->
  rx (tcpSocket c) = server_response a ++ extra ->
  let '(c', o) := onSocketReadyRead c in o = [Warning "Handshake failed!"; StateChanged DisconnectedState] /\ reset_closed c'.
Proof.
  intros Hs Ho Hl Ha Hk Hrx.
  rewrite run_handshake by (rewrite ?Hrx; auto; unfold server_response; discriminate).
  rewrite Hrx, accept_response_check, bytes_eqb_false by assumption.
  rewrite protocolError_eq. unfold reset_closed, closed_output. simpl. rewrite Ho. auto 6.
Qed.

Module HandshakeCaseWitnesses.
Import HandshakeWitnesses.

(** A connection that has sent its handshake with the key of RFC 6455's example. *)
Definition handshaking (d : list Z) : Conn :=
  set_verificationKey rfc_accept (set_socket (mkSocket d [] true) initialConn).

Definition hello_frame : list Z := encode_frame (mkFrame true TextFrameOp [123; 125]).

Lemma handshake_drops_trailing_bytes_witness :
  protocolDecodeState (handshaking (server_response rfc_accept ++ hello_frame)) = HandshakePending /\
  length (verificationKey (handshaking (server_response rfc_accept ++ hello_frame))) = 28%nat /\
  forallb (Regex.atom_ok Regex.AAny)
    (verificationKey (handshaking (server_response rfc_accept ++ hello_frame))) = true /\
  rx (tcpSocket (handshaking (server_response rfc_accept ++ hello_frame)))
  = server_response (verificationKey (handshaking (server_response rfc_accept ++ hello_frame)))
    ++ hello_frame /\
  onSocketReadyRead (handshaking (server_response rfc_accept ++ hello_frame))
  = (handshake_done (handshaking (server_response rfc_accept ++ hello_frame)),
     [StateChanged ConnectedState]).
Proof.
  do 4 (split; [reflexivity|]).
  apply (handshake_drops_trailing_bytes _ hello_frame); reflexivity.
Defined.

Definition not_found_response : list Z :=
  bytes_of_string "HTTP/1.1 404 Not Found" ++ CRLF ++ CRLF.

Lemma handshake_bad_status_witness :
  protocolDecodeState (handshaking not_found_response) = HandshakePending /\
  sock_open (tcpSocket (handshaking not_found_response)) = true /\
  rx (tcpSocket (handshaking not_found_response)) <> [] /\
  extractResponseStatus (rx (tcpSocket (handshaking not_found_response))) <> 101 /\
  (let '(c', o) := onSocketReadyRead (handshaking not_found_response) in
   o = [Warning "Handshake failed!"; StateChanged DisconnectedState] /\ reset_closed c').
Proof.
  do 2 (split; [reflexivity|]). split; [discriminate|]. split; [vm_compute; discriminate|].
  apply handshake_bad_status; [reflexivity | reflexivity | discriminate | vm_compute; discriminate].
Defined.

Definition other_accept : list Z := bytes_of_string "AAAAAAAAAAAAAAAAAAAAAAAAAAA=".

Lemma handshake_wrong_key_witness :
  protocolDecodeState (handshaking (server_response other_accept)) = HandshakePending /\
  sock_open (tcpSocket (handshaking (server_response other_accept))) = true /\
  length other_accept = 28%nat /\ forallb (Regex.atom_ok Regex.AAny) other_accept = true /\
  other_accept <> verificationKey (handshaking (server_response other_accept)) /\
  rx (tcpSocket (handshaking (server_response other_accept))) = server_response other_accept ++ [] /\
  (let '(c', o) := onSocketReadyRead (handshaking (server_response other_accept)) in
   o = [Warning "Handshake failed!"; StateChanged DisconnectedState] /\ reset_closed c').
Proof.
  do 4 (split; [reflexivity|]). split; [vm_compute; discriminate|].
  split; [rewrite app_nil_r; reflexivity|].
  apply (handshake_wrong_key _ other_accept []); first [reflexivity | vm_compute; discriminate
                                            | rewrite app_nil_r; reflexivity].
Defined.

End HandshakeCaseWitnesses.
