(* ===== verification/Connection.v ===== *)
(** The connection controller: the slots of [EnginioBackendConnection] other
    than [onSocketReadyRead] ([connectToBackend], [setServiceUrl],
    [onEnginioFinished], [onEnginioError], [onSocketConnectionError],
    [onSocketStateChanged]), the [EnginioClient] calls they make, and the
    signals of [QTcpSocket] and [EnginioClient] as events of one handler.
    Reachability is an inductive relation over the events Qt can deliver. *)

From S2P Require Import Prelude Bytes Handshake Decoder Frames.
Import Loop Chunking.
From Stdlib Require Strings.String.
Import (notations) String.StringSyntax.

Open Scope Z_scope.
Open Scope enginio_scope.

(** [QAbstractSocket::SocketState] *)
Module QAbstractSocket.
Inductive SocketState :=
  UnconnectedState | HostLookupState | ConnectingState | ConnectedState
| BoundState | ListeningState | ClosingState.
End QAbstractSocket.

(** ** The collaborators *)

(** A request made with [EnginioClient::customRequest(url, "GET", data)];
    [data] holds the [Accept] header. *)
Record CustomRequest := mkRequest {
  req_url : QUrl;
  req_method : list Z;
  req_accept : list Z
}.

(** The [EnginioClient] owned by the connection ([_client]), as far as the
    connection uses it. *)
Record Client := mkClient {
  backendId : list Z;
  backendSecret : list Z;
  serviceUrl : QUrl;
  requests : list CustomRequest   (** requests issued, oldest first *)
}.

(** The whole object: the decoder fields, the client, and the
    [connectToHost(host, port)] calls made on the socket. *)
Record Ctl := mkCtl {
  conn : Conn;
  client : Client;
  hostConnects : list (list Z * Z)
}.

Definition initialCtl : Ctl := mkCtl initialConn (mkClient [] [] emptyUrl []) [].

Definition set_conn (c : Conn) (s : Ctl) : Ctl := mkCtl c (client s) (hostConnects s).

(** ** The slots *)

(** [void EnginioBackendConnection::setServiceUrl(const QUrl &serviceUrl)] *)
Definition setServiceUrl (u : QUrl) (s : Ctl) : Ctl :=
  let cl := client s in
  mkCtl (conn s) (mkClient (backendId cl) (backendSecret cl) u (requests cl)) (hostConnects s).

(** [void EnginioBackendConnection::connectToBackend(backendId, backendSecret,
    messageFilter)]; [filter] is [QJsonDocument(messageFilter).toJson(Compact)].
    [url.setQuery(QString::fromUtf8(filter))] is kept as the bytes
    themselves: this is what [QUrl] gives back for ASCII text without [%]
    (which [QUrl] reads as the start of an escape); the percent-encoding
    [QUrl] applies when the request is sent is not modelled. *)
Definition connectToBackend (id secret filter : list Z) (s : Ctl) : Ctl * list Output :=
  let su := serviceUrl (client s) in
  let url := mkQUrl (url_host su) (url_port su) (bytes_of_string "/v1/stream_url")
               (bytes_of_string "filter=" ++ filter) in
  let req := mkRequest url (bytes_of_string "GET") (bytes_of_string "application/json") in
  (mkCtl (conn s) (mkClient id secret su (requests (client s) ++ [req])) (hostConnects s),
   [StateChanged ConnectingState]).

(** [void EnginioBackendConnection::onEnginioFinished(EnginioReply *reply)];
    [expiringUrl] is [QUrl(urlValue.toString())] when [urlValue.isString()]. *)
Definition onEnginioFinished (expiringUrl : option QUrl) (s : Ctl) : Ctl :=
  match expiringUrl with
  | None => s
  | Some u =>
      mkCtl (set_socketUrl u (conn s)) (client s)
        (hostConnects s ++ [(url_host u, url_port_or 8080 u)])
  end.

(** [void EnginioBackendConnection::onEnginioError(EnginioReply *reply)]:
    debug output only. *)
Definition onEnginioError (s : Ctl) : Ctl := s.

(** [void EnginioBackendConnection::onSocketConnectionError(error)] *)
Definition onSocketConnectionError (error : Z) (c : Conn) : Conn * list Output :=
  let '(c', o) := protocolError "Socket connection error." c in
  (c', o ++ [WarningSocketError error]).

(** [void EnginioBackendConnection::onSocketStateChanged(socketState)]; [u] is
    the [QUuid::createUuid()] drawn by [generateBase64EncodedUniqueKey]. *)
Definition onSocketStateChanged (st : QAbstractSocket.SocketState) (u : QUuid) (c : Conn)
    : Conn * list Output :=
  match st with
  | QAbstractSocket.ConnectedState =>
      let c := set_decodeState HandshakePending c in
      let '(request, key) := constructOpeningHandshake (socketUrl c) u in
      (set_socket (sock_write request (tcpSocket c)) (set_verificationKey key c), [])
  | QAbstractSocket.UnconnectedState => onSocketUnconnected c
  | _ => (c, [])
  end.

(** ** Events *)

(** The signals that reach the object, each with the change of the socket
    that comes with it: a socket that connects starts with an empty buffer, a
    socket that disconnects drops its buffer. *)
Inductive Event :=
| EvConnectToBackend (id secret filter : list Z)
| EvSetServiceUrl (u : QUrl)
| EvEnginioFinished (expiringUrl : option QUrl)
| EvEnginioError
| EvSocketStateChanged (st : QAbstractSocket.SocketState) (u : QUuid)
| EvSocketError (error : Z)
| EvReadyRead (d : list Z).

(** The socket as Qt leaves it when it reports the state [st]. *)
Definition socket_enter (st : QAbstractSocket.SocketState) (so : Socket) : Socket :=
  match st with
  | QAbstractSocket.ConnectedState => mkSocket [] (tx so) true
  | QAbstractSocket.UnconnectedState => sock_close so
  | _ => so
  end.

Definition handle (ev : Event) (s : Ctl) : Ctl * list Output :=
  match ev with
  | EvConnectToBackend id secret filter => connectToBackend id secret filter s
  | EvSetServiceUrl u => (setServiceUrl u s, [])
  | EvEnginioFinished e => (onEnginioFinished e s, [])
  | EvEnginioError => (onEnginioError s, [])
  | EvSocketStateChanged st u =>
      let c := set_socket (socket_enter st (tcpSocket (conn s))) (conn s) in
      let '(c', o) := onSocketStateChanged st u c in (set_conn c' s, o)
  | EvSocketError e =>
      let '(c', o) := onSocketConnectionError e (conn s) in (set_conn c' s, o)
  | EvReadyRead d =>
      let '(c', o) := deliver d (conn s) in (set_conn c' s, o)
  end.

(** The events Qt can deliver in a state: a socket connects only when it is
    not connected and disconnects only when it is; bytes are bytes and arrive
    on a connected socket. *)
Definition enabled (ev : Event) (s : Ctl) : bool :=
  let so := tcpSocket (conn s) in
  match ev with
  | EvSocketStateChanged QAbstractSocket.ConnectedState _ => negb (sock_open so)
  | EvSocketStateChanged QAbstractSocket.UnconnectedState _ => sock_open so
  | EvReadyRead d => sock_open so && bytes_ok d
  | _ => true
  end.

(** A connected socket reports [UnconnectedState] without [error()] first only
    when the code closes it itself; every other way down (the peer closing,
    a network error) emits [error()], whose slot closes the socket. *)
Definition orderly (ev : Event) : bool :=
  match ev with
  | EvSocketStateChanged QAbstractSocket.UnconnectedState _ => false
  | _ => true
  end.

(** A run of events, with the signals and warnings they produce. *)
Fixpoint run (evs : list Event) (s : Ctl) : Ctl * list Output :=
  match evs with
  | [] => (s, [])
  | ev :: evs =>
      let '(s1, o1) := handle ev s in
      let '(s2, o2) := run evs s1 in (s2, o1 ++ o2)
  end.

Inductive reachable : Ctl -> Prop :=
| reach_init : reachable initialCtl
| reach_step s ev : reachable s -> enabled ev s = true -> orderly ev = true ->
    reachable (fst (handle ev s)).

(** A run of events Qt can deliver in order. *)
Fixpoint run_ok (evs : list Event) (s : Ctl) : bool :=
  match evs with
  | [] => true
  | ev :: evs => enabled ev s && orderly ev && run_ok evs (fst (handle ev s))
  end.

(** ** The invariant *)

(** Nothing of an earlier frame or message is left. *)
Definition clean (c : Conn) : Prop :=
  protocolDecodeState c = HandshakePending /\ payloadLength c = 0 /\ applicationData c = [].

(** The buffer holds bytes; a closed connection is clean and has nothing
    buffered; before the handshake no frame is under way; a frame header is
    read with [_payloadLength] 0 or 126 (the [Q_ASSERT] of line 271); a
    payload is shorter than 65536 bytes. *)
Definition conn_inv (c : Conn) : Prop :=
  bytes_ok (rx (tcpSocket c)) = true /\
  (sock_open (tcpSocket c) = false -> rx (tcpSocket c) = [] /\ clean c) /\
  match protocolDecodeState c with
  | HandshakePending => payloadLength c = 0 /\ applicationData c = []
  | FrameHeaderPending => payloadLength c = 0 \/ payloadLength c = 126
  | PayloadDataPending => 0 <= payloadLength c < 65536
  end.

(** ** The invariant is kept *)

Lemma protocolError_inv m c : conn_inv (fst (protocolError m c)).
Proof. rewrite protocolError_eq. unfold conn_inv, clean. simpl. intuition reflexivity. Qed.

Lemma land_LEN_range b : 0 <= Z.land b LEN < 128.
Proof.
  unfold LEN. change 127 with (2 ^ 7 - 1). rewrite land_ones_mod by lia.
  apply Z.mod_pos_bound. reflexivity.
Qed.

Lemma body_inv c :
  conn_inv c -> rx (tcpSocket c) <> [] -> conn_inv (fst (fst (readyReadBody c))).
Proof.
  intros Hinv Hne. pose proof Hinv as (Hb & Hcl & Hst).
  destruct (sock_open (tcpSocket c)) eqn:Ho;
    [| destruct (Hcl eq_refl); contradiction].
  unfold readyReadBody. destruct (protocolDecodeState c) eqn:Es.
  - destruct Hst as [Hpl Had].
    unfold caseHandshakePending, sock_readAll.
    cbn -[caseFrameHeaderPending handshakeAccepted error_return].
    destruct (handshakeAccepted _ _).
    + rewrite header_suspends by (simpl; lia).
      unfold conn_inv. simpl. rewrite Ho. split; [reflexivity|]. split; [discriminate | auto].
    + rewrite error_return_eq. apply protocolError_inv.
  - destruct (rx (tcpSocket c)) as [|b0 [|b1 rest]] eqn:Erx; [contradiction| |].
    { rewrite header_suspends by (rewrite Erx; simpl; lia). exact Hinv. }
    unfold bytes_ok in Hb. simpl in Hb. apply andb_true_iff in Hb as [Hb0 Hb].
    apply andb_true_iff in Hb as [Hb1 Hrest].
    apply is_byte_spec in Hb0. apply is_byte_spec in Hb1.
    pose proof (land_LEN_range b1).
    rewrite (header_read c b0 b1 rest Erx). cbv zeta. cbn -[Z.shiftl Z.lor Z.land].
    case_ifs; rewrite ?error_return_eq; try apply protocolError_inv;
      unfold conn_inv; cbn -[Z.shiftl Z.lor Z.land]; rewrite ?Ho, ?Es; zbool;
      (split; [exact Hrest|]); (split; [discriminate|]).
    + lia.
    + right. lia.
    + destruct Hst as [Hpl|Hpl]; [lia|]. rewrite lor_shiftl_byte by lia. lia.
  - destruct (bytesAvailable (tcpSocket c) <? payloadLength c) eqn:Elt.
    { unfold casePayloadDataPending. rewrite Elt. exact Hinv. }
    zbool. rewrite (payload_read c Elt). cbv zeta. simpl. rewrite ?protocolError_eq.
    assert (Hr : bytes_ok (skipn (Z.to_nat (payloadLength c)) (rx (tcpSocket c))) = true)
      by auto with enginio.
    case_ifs; unfold conn_inv, clean; simpl; rewrite ?Ho, ?Hr; auto.
    all: intuition (try discriminate; reflexivity).
Qed.

Lemma feed_inv c d :
  conn_inv c -> (sock_open (tcpSocket c) = true -> bytes_ok d = true) -> conn_inv (feed d c).
Proof.
  intros Hinv Hd. destruct (sock_open (tcpSocket c)) eqn:Ho.
  - destruct Hinv as (Hb & _ & Hst). unfold conn_inv. rewrite feed_open_rx by exact Ho.
    rewrite bytes_ok_app, Hb, Hd by reflexivity. split; [reflexivity|].
    unfold feed, sock_receive. rewrite Ho. simpl. split; [intros; discriminate | exact Hst].
  - rewrite feed_closed by exact Ho. exact Hinv.
Qed.

Lemma deliver_inv c d :
  conn_inv c -> (sock_open (tcpSocket c) = true -> bytes_ok d = true) ->
  conn_inv (fst (deliver d c)).
Proof. intros Hinv Hd. apply (run_preserves conn_inv body_inv), feed_inv; assumption. Qed.

Lemma handle_inv s ev :
  conn_inv (conn s) -> enabled ev s = true -> orderly ev = true ->
  conn_inv (conn (fst (handle ev s))).
Proof.
  intros Hinv Hen Hord. destruct ev as [| |[u|]| |st u|e|d]; simpl; try exact Hinv.
  - destruct Hinv as (Hb & Hcl & Hst). simpl in Hen.
    destruct st; simpl in Hen, Hord; try discriminate; simpl;
      try (unfold conn_inv; simpl; auto; fail).
    apply negb_true_iff in Hen. destruct (Hcl Hen) as (_ & Hs & Hpl & Had).
    destruct (constructOpeningHandshake (socketUrl (conn s)) u). unfold conn_inv. simpl.
    split; [reflexivity|]. split; [intros; discriminate|]. auto.
  - unfold onSocketConnectionError. pose proof (protocolError_inv "Socket connection error." (conn s)).
    destruct (protocolError _ _). exact H.
  - simpl in Hen. pose proof (deliver_inv (conn s) d Hinv) as H.
    destruct (deliver d (conn s)). apply H.
    intros Ho. rewrite Ho in Hen. exact Hen.
Qed.

Lemma reachable_conn_inv s : reachable s -> conn_inv (conn s).
Proof.
  induction 1 as [|s ev _ IH Hen Hord].
  - unfold conn_inv, clean. simpl. intuition reflexivity.
  - apply handle_inv; assumption.
Qed.

(** C5: in every state Qt can drive the object into (any events, in any
    order, as long as the socket reports [UnconnectedState] only through
    [error()] or the code's own [close()]), the buffer holds bytes, a closed
    connection is clean, the [Q_ASSERT(_payloadLength == 126)] of the
    [FrameHeaderPending] case holds whenever it is reached, and a pending
    payload is shorter than 65536 bytes. *)
Theorem reachable_inv s : reachable s -> conn_inv (conn s).
Proof. exact (reachable_conn_inv s). Qed.

(** ** Connecting, the handshake, then frames *)

Lemma connect_event s u :
  let c := conn s in
  handle (EvSocketStateChanged QAbstractSocket.ConnectedState u) s =
    (set_conn (mkConn (protocolOpcode c) HandshakePending (isFinalFragment c) (isPayloadMasked c)
                 (payloadLength c) (applicationData c)
                 (mkSocket [] (tx (tcpSocket c) ++ fst (constructOpeningHandshake (socketUrl c) u))
                    true)
                 (socketUrl c) (snd (constructOpeningHandshake (socketUrl c) u))) s, []).
Proof. simpl. destruct (constructOpeningHandshake (socketUrl (conn s)) u). reflexivity. Qed.

Lemma accept_self k :
  handshakeAccepted (computeBase64EncodedSha1VerificationKey k)
    (server_response (computeBase64EncodedSha1VerificationKey k)) = true.
Proof.
  rewrite <- (app_nil_r (server_response _)).
  rewrite accept_response_check, bytes_eqb_refl
    by (apply length_verification_key || apply verification_key_no_LF).
  reflexivity.
Qed.

(** A connection waiting for the handshake, with nothing buffered, accepts
    the answer RFC 6455 prescribes for the key it sent. *)
Lemma handshake_event c k :
  protocolDecodeState c = HandshakePending -> sock_open (tcpSocket c) = true ->
  rx (tcpSocket c) = [] -> verificationKey c = computeBase64EncodedSha1VerificationKey k ->
  deliver (server_response (computeBase64EncodedSha1VerificationKey k)) c =
    (set_decodeState FrameHeaderPending c, [StateChanged ConnectedState]).
Proof.
  intros Hs Ho Hrx Hk. unfold deliver.
  rewrite run_handshake.
  - rewrite feed_open_rx, Hrx by exact Ho. simpl app.
    change (verificationKey (feed _ c)) with (verificationKey c). rewrite Hk, accept_self.
    unfold handshake_done, feed, sock_receive. rewrite Ho. simpl.
    destruct c as [? ? ? ? ? ? [r t o] ? ?]. simpl in *. subst. reflexivity.
  - exact Hs.
  - rewrite feed_open_rx, Hrx by exact Ho. unfold server_response. simpl. discriminate.
Qed.

(** Decoding never writes to the socket. *)
Lemma body_tx c : tx (tcpSocket (fst (fst (readyReadBody c)))) = tx (tcpSocket c).
Proof.
  unfold readyReadBody, caseHandshakePending, caseFrameHeaderPending, casePayloadDataPending,
    sock_readAll, sock_read.
  destruct (protocolDecodeState c); simpl; case_ifs; rewrite ?error_return_eq, ?protocolError_eq;
    reflexivity.
Qed.

Lemma deliver_tx c d : tx (tcpSocket (fst (deliver d c))) = tx (tcpSocket c).
Proof.
  unfold deliver.
  apply (run_preserves (fun c' => tx (tcpSocket c') = tx (tcpSocket c))).
  - intros c' H _. rewrite body_tx. exact H.
  - unfold feed, sock_receive. destruct (sock_open _); reflexivity.
Qed.

Lemma run_three e1 e2 e3 s :
  run [e1; e2; e3] s =
    let '(s1, o1) := handle e1 s in
    let '(s2, o2) := handle e2 s1 in
    let '(s3, o3) := handle e3 s2 in (s3, o1 ++ o2 ++ o3).
Proof.
  simpl. destruct (handle e1 s) as [s1 o1]. destruct (handle e2 s1) as [s2 o2].
  destruct (handle e3 s2) as [s3 o3]. rewrite !app_nil_r. reflexivity.
Qed.

(** C4: from any reachable state with the socket down (the initial state,
    after a protocol error, after a disconnection), when the socket connects,
    the server answers the request the code wrote with the accept value RFC
    6455 prescribes for its [Sec-WebSocket-Key], and then sends well-formed
    frames, the object writes the opening request, reports [ConnectedState]
    and emits exactly the messages of the frame-level specification
    [messages], starting from an empty message: nothing of an earlier
    connection is left over. *)
Theorem connect_then_messages s u fs :
  reachable s -> sock_open (tcpSocket (conn s)) = false ->
  forallb frame_ok fs = true -> last_payload_nonempty fs = true ->
  let url := socketUrl (conn s) in
  let key := fst (generateBase64EncodedUniqueKey u) in
  let evs := [EvSocketStateChanged QAbstractSocket.ConnectedState u;
              EvReadyRead (server_response (computeBase64EncodedSha1VerificationKey key));
              EvReadyRead (concat (map encode_frame fs))] in
  let '(s', o) := run evs s in
  tx (tcpSocket (conn s')) = tx (tcpSocket (conn s)) ++ fst (constructOpeningHandshake url u) /\
  o = StateChanged ConnectedState :: fst (messages [] fs).
Proof.
  intros Hr Ho Hok Hlast. cbv zeta.
  destruct (reachable_conn_inv s Hr) as (_ & Hcl & _).
  destruct (Hcl Ho) as (Hrx & Hs & Hpl & Had).
  rewrite run_three, connect_event. cbv zeta.
  unfold handle at 1. simpl conn.
  rewrite handshake_event with (k := fst (generateBase64EncodedUniqueKey u));
    [| reflexivity.. | unfold constructOpeningHandshake;
                       destruct (generateBase64EncodedUniqueKey u) eqn:E;
                       unfold generateBase64EncodedUniqueKey in E; inv E; reflexivity].
  unfold handle. simpl conn.
  match goal with |- context [deliver ?d ?c] =>
    pose proof (frames_refine c fs) as R; pose proof (deliver_tx c d) as T;
    remember c as c2 eqn:Ec2 end.
  assert (Hb : at_frame_boundary c2 = true)
    by (subst c2; unfold at_frame_boundary; simpl; rewrite Hpl; reflexivity).
  specialize (R Hb ltac:(subst c2; reflexivity) Hok Hlast).
  destruct (deliver _ c2) as [c3 o3]. destruct R as (Ho3 & _).
  subst c2. simpl in Ho3, T |- *. rewrite Had in Ho3. subst o3.
  split; [exact T | reflexivity].
Qed.

Lemma reachable_run evs s : reachable s -> run_ok evs s = true -> reachable (fst (run evs s)).
Proof.
  revert s; induction evs as [|ev evs IH]; intros s Hr Hok; [exact Hr|].
  simpl in Hok. apply andb_true_iff in Hok as [Hok Hrest]. apply andb_true_iff in Hok as [Hen Hord].
  specialize (IH _ (reach_step s ev Hr Hen Hord) Hrest). simpl.
  destruct (handle ev s) as [s1 o1]. simpl in IH |- *.
  destruct (run evs s1) as [s2 o2]. exact IH.
Qed.

(** ** A disconnection the decoder does not see *)

Module Stale.
Import HandshakeWitnesses FrameWitnesses.

Definition stream_url : QUrl :=
  mkQUrl (bytes_of_string "staging.engin.io") None (bytes_of_string "/v1/stream")
    (bytes_of_string "token=42").

(** [connectToBackend] and the reply with the stream URL. *)
Definition opening : list Event :=
  [EvConnectToBackend (bytes_of_string "5f9b") (bytes_of_string "secret") (bytes_of_string "{}");
   EvEnginioFinished (Some stream_url)].

Definition accept_for (u : QUuid) : list Z :=
  computeBase64EncodedSha1VerificationKey (fst (generateBase64EncodedUniqueKey u)).

(** Connected and past the handshake, then the header of a 5-byte text
    frame and one byte of its payload. *)
Definition mid_payload : list Event :=
  opening ++
  [EvSocketStateChanged QAbstractSocket.ConnectedState sample_uuid;
   EvReadyRead (server_response (accept_for sample_uuid));
   EvReadyRead [129; 5; 104]].

End Stale.

Lemma handshake_verification_key url u :
  snd (constructOpeningHandshake url u) =
    computeBase64EncodedSha1VerificationKey (fst (generateBase64EncodedUniqueKey u)).
Proof.
  unfold constructOpeningHandshake.
  destruct (generateBase64EncodedUniqueKey u) eqn:E.
  unfold generateBase64EncodedUniqueKey in E. inv E. reflexivity.
Qed.

(** A connection reading frame headers with a nonzero [_payloadLength] takes
    the first two bytes of a short final frame for the extended length. *)
Lemma stale_header c f :
  protocolDecodeState c = FrameHeaderPending -> sock_open (tcpSocket c) = true ->
  rx (tcpSocket c) = [] -> payloadLength c <> 0 ->
  frame_ok f = true -> fr_fin f = true -> (length (fr_payload f) < 126)%nat ->
  deliver (encode_frame f) c =
    (set_decodeState PayloadDataPending
       (set_payloadLength (frame_b0 f * 256 + Z.of_nat (length (fr_payload f)))
          (set_socket (mkSocket (fr_payload f) (tx (tcpSocket c)) true) c)), []).
Proof.
  intros Hs Ho Hrx Hp Hok Hfin Hn. apply frame_ok_spec in Hok as (Hop & _ & _).
  destruct c as [op st fi ma p ad [r t o] url k]; cbn in Hs, Ho, Hrx, Hp |- *; subst.
  assert (Hb0 : 128 <= frame_b0 f < 256) by (unfold frame_b0; rewrite Hfin; lia).
  unfold deliver, feed, sock_receive, encode_frame. cbn [sock_open tcpSocket].
  replace (Z.of_nat (length (fr_payload f)) <? 126) with true by (symmetry; apply Z.ltb_lt; lia).
  set (n := Z.of_nat (length (fr_payload f))).
  rewrite onSocketReadyRead_unfold. unfold bytesAvailable. cbn [set_socket tcpSocket rx tx app length].
  replace (Z.of_nat _ =? 0) with false by (symmetry; apply Z.eqb_neq; lia).
  unfold readyReadBody. cbn [protocolDecodeState set_socket].
  rewrite (header_read _ (frame_b0 f) n (fr_payload f)) by reflexivity.
  cbn [payloadLength tcpSocket tx sock_open set_socket].
  replace (p =? 0) with false by (symmetry; apply Z.eqb_neq; exact Hp).
  rewrite lor_shiftl_byte by (unfold n; lia).
  cbv zeta. rewrite onSocketReadyRead_unfold. unfold bytesAvailable.
  cbn [set_socket tcpSocket rx tx set_decodeState set_payloadLength].
  destruct (Z.of_nat (length (fr_payload f)) =? 0) eqn:E0; [reflexivity|].
  unfold readyReadBody, casePayloadDataPending, bytesAvailable. cbn.
  replace (Z.of_nat (length (fr_payload f)) <? frame_b0 f * 256 + n) with true
    by (symmetry; apply Z.ltb_lt; unfold n; lia).
  reflexivity.
Qed.

(** C16: [onSocketStateChanged(UnconnectedState)] resets only the decode
    state: whenever an open connection with a nonzero [_payloadLength] (a
    frame under way) reports [UnconnectedState] without [error()] first,
    reconnects and has its handshake accepted, the two header bytes of the
    next final frame with a payload shorter than 126 bytes are taken as a
    16-bit extended length ([b0 * 256 + n], at least 32768), the frame's
    payload stays buffered and no message is delivered. *)
Theorem disconnect_keeps_payload_length s u f :
  sock_open (tcpSocket (conn s)) = true -> payloadLength (conn s) <> 0 ->
  frame_ok f = true -> fr_fin f = true -> (length (fr_payload f) < 126)%nat ->
  let key := fst (generateBase64EncodedUniqueKey u) in
  let evs := [EvSocketStateChanged QAbstractSocket.UnconnectedState u;
              EvSocketStateChanged QAbstractSocket.ConnectedState u;
              EvReadyRead (server_response (computeBase64EncodedSha1VerificationKey key));
              EvReadyRead (encode_frame f)] in
  let '(s', o) := run evs s in
  o = [StateChanged DisconnectedState; StateChanged ConnectedState] /\
  protocolDecodeState (conn s') = PayloadDataPending /\
  payloadLength (conn s') = frame_b0 f * 256 + Z.of_nat (length (fr_payload f)) /\
  rx (tcpSocket (conn s')) = fr_payload f.
Proof.
  intros Ho Hp Hok Hfin Hn. cbv zeta.
  destruct s as [[op st fi ma p ad [r t o] url k] cl hc]; cbn in Ho, Hp; subst o.
  pose proof (handshake_verification_key (socketUrl (mkConn op st fi ma p ad (mkSocket r t true) url k)) u) as Hk.
  cbn -[constructOpeningHandshake deliver] in Hk |- *.
  destruct (constructOpeningHandshake url u) as [req key2]. cbn in Hk. subst key2.
  cbn -[deliver].
  rewrite handshake_event with (k := fst (generateBase64EncodedUniqueKey u)) by reflexivity.
  cbn -[deliver].
  rewrite stale_header by (reflexivity || assumption).
  cbn. repeat split; reflexivity.
Qed.

Module ConnectionWitnesses.
Import HandshakeWitnesses Stale.

Lemma reachable_inv_witness :
  reachable (fst (run mid_payload initialCtl)) /\ conn_inv (conn (fst (run mid_payload initialCtl))).
Proof.
  assert (H : reachable (fst (run mid_payload initialCtl)))
    by (apply reachable_run; [exact reach_init | vm_compute; reflexivity]).
  split; [exact H | apply reachable_inv; exact H].
Defined.


Lemma connect_then_messages_witness :
  reachable (fst (run opening initialCtl)) /\
  sock_open (tcpSocket (conn (fst (run opening initialCtl)))) = false /\
  forallb frame_ok [mkFrame true TextFrameOp [104; 105]] = true /\
  last_payload_nonempty [mkFrame true TextFrameOp [104; 105]] = true /\
  (let url := socketUrl (conn (fst (run opening initialCtl))) in
   let key := fst (generateBase64EncodedUniqueKey sample_uuid) in
   let evs := [EvSocketStateChanged QAbstractSocket.ConnectedState sample_uuid;
               EvReadyRead (server_response (computeBase64EncodedSha1VerificationKey key));
               EvReadyRead (concat (map encode_frame [mkFrame true TextFrameOp [104; 105]]))] in
   let '(s', o) := run evs (fst (run opening initialCtl)) in
   tx (tcpSocket (conn s')) = tx (tcpSocket (conn (fst (run opening initialCtl))))
                              ++ fst (constructOpeningHandshake url sample_uuid) /\
   o = StateChanged ConnectedState :: fst (messages [] [mkFrame true TextFrameOp [104; 105]])).
Proof.
  assert (H : reachable (fst (run opening initialCtl)))
    by (apply reachable_run; [exact reach_init | vm_compute; reflexivity]).
  split; [exact H|]. do 3 (split; [reflexivity|]).
  apply connect_then_messages; [exact H | reflexivity..].
Defined.

Lemma disconnect_keeps_payload_length_witness :
  sock_open (tcpSocket (conn (fst (run mid_payload initialCtl)))) = true /\
  payloadLength (conn (fst (run mid_payload initialCtl))) = 5 /\
  (let f := mkFrame true TextFrameOp [104; 105] in
   let key := fst (generateBase64EncodedUniqueKey sample_uuid) in
   let evs := [EvSocketStateChanged QAbstractSocket.UnconnectedState sample_uuid;
               EvSocketStateChanged QAbstractSocket.ConnectedState sample_uuid;
               EvReadyRead (server_response (computeBase64EncodedSha1VerificationKey key));
               EvReadyRead (encode_frame f)] in
   let '(s', o) := run evs (fst (run mid_payload initialCtl)) in
   o = [StateChanged DisconnectedState; StateChanged ConnectedState] /\
   protocolDecodeState (conn s') = PayloadDataPending /\
   payloadLength (conn s') = frame_b0 f * 256 + Z.of_nat (length (fr_payload f)) /\
   rx (tcpSocket (conn s')) = fr_payload f).
Proof.
  split; [vm_compute; reflexivity|]. split; [vm_compute; reflexivity|].
  apply disconnect_keeps_payload_length;
    [vm_compute; reflexivity | vm_compute; discriminate | reflexivity.. | simpl; lia].
Defined.

End ConnectionWitnesses.
