(* ===== verification/Json.v ===== *)
(** Qt's JSON values as the model and the identity use them: [QJsonValue] as
    the inductive [json], [QJsonObject] as an association list sorted by key
    (Qt 5 keeps the keys of an object sorted and binary-searches them),
    [QJsonArray] as a list.  The operations are those of Qt's documentation;
    the lemmas relate them to each other, show that they keep an object
    well formed (keys strictly sorted), and that on well-formed objects they
    behave as the finite map [gmap string json] of the object's entries. *)

From S2P Require Import Prelude.
From stdpp Require Import base gmap strings.
From Stdlib Require Strings.String.

Open Scope Z_scope.


(** ** JSON values *)

Inductive json :=
| JUndefined
| JNull
| JBool (b : bool)
| JNum (n : Z)
| JStr (s : string)
| JArr (l : list json)
| JObj (o : list (string * json)).

(** A [QJsonObject]: keys sorted, each at most once. *)
Definition jobj := list (string * json).

(** [QJsonObject::insert] and the assignment [object[key] = value]. *)
Fixpoint obj_insert (k : string) (v : json) (o : jobj) : jobj :=
  match o with
  | [] => [(k, v)]
  | (k', v') :: o' =>
      match String.compare k k' with
      | Lt => (k, v) :: o
      | Eq => (k, v) :: o'
      | Gt => (k', v') :: obj_insert k v o'
      end
  end.

(** [QJsonObject::value], and [operator[]] on a const object. *)
Fixpoint obj_value (k : string) (o : jobj) : json :=
  match o with
  | [] => JUndefined
  | (k', v) :: o' => if String.eqb k k' then v else obj_value k o'
  end.

Definition obj_contains (k : string) (o : jobj) : bool :=
  existsb (fun p => String.eqb (fst p) k) o.

(** [QJsonObject::remove] *)
Definition obj_remove (k : string) (o : jobj) : jobj :=
  filter (fun p => negb (String.eqb (fst p) k)) o.

(** [operator[]] read on a non-const object: a missing key is inserted with
    the value [Null]. *)
Definition obj_index (k : string) (o : jobj) : json * jobj :=
  if obj_contains k o then (obj_value k o, o) else (JNull, obj_insert k JNull o).

(** [QJsonValue::toDouble], [toString], [toArray], [toObject], [isNull]; the
    model keeps integral numbers. *)
Definition toDouble (v : json) : Z := match v with JNum n => n | _ => 0 end.
Definition toString (v : json) : string := match v with JStr s => s | _ => String.EmptyString end.
Definition toArray (v : json) : list json := match v with JArr l => l | _ => [] end.
Definition toObject (v : json) : jobj := match v with JObj o => o | _ => [] end.
Definition isNull (v : json) : bool := match v with JNull => true | _ => false end.

(** [QJsonArray::at]: [Undefined] out of range. *)
Definition arr_at (l : list json) (i : Z) : json :=
  if (0 <=? i) && (i <? Z.of_nat (length l)) then nth (Z.to_nat i) l JUndefined else JUndefined.

(** [QJsonArray::replace]: only defined in range. *)
Definition arr_replace (l : list json) (i : Z) (v : json) : option (list json) :=
  if (0 <=? i) && (i <? Z.of_nat (length l)) then Some (<[Z.to_nat i := v]> l) else None.

(** [QJsonArray::removeAt]: does nothing out of range. *)
Definition arr_removeAt (l : list json) (i : Z) : list json :=
  if (0 <=? i) && (i <? Z.of_nat (length l)) then delete (Z.to_nat i) l else l.


(** [QJsonValue::operator==] *)
Fixpoint json_eqb (a b : json) : bool :=
  match a, b with
  | JUndefined, JUndefined | JNull, JNull => true
  | JBool x, JBool y => Bool.eqb x y
  | JNum x, JNum y => x =? y
  | JStr x, JStr y => String.eqb x y
  | JArr l1, JArr l2 =>
      (fix go (l1 l2 : list json) : bool :=
         match l1, l2 with
         | [], [] => true
         | x :: l1, y :: l2 => json_eqb x y && go l1 l2
         | _, _ => false
         end) l1 l2
  | JObj o1, JObj o2 =>
      (fix go (o1 o2 : jobj) : bool :=
         match o1, o2 with
         | [], [] => true
         | (k1, x) :: o1, (k2, y) :: o2 => String.eqb k1 k2 && json_eqb x y && go o1 o2
         | _, _ => false
         end) o1 o2
  | _, _ => false
  end.

(** ** JSON objects *)


(** A well-formed [QJsonObject]: each key is below the next, so the keys are
    strictly increasing (proved below with the transitivity of
    [String.compare]); Qt keeps the keys of an object in this order. *)
Fixpoint obj_sorted (o : jobj) : bool :=
  match o with
  | (k, _) :: (((k', _) :: _) as o') =>
      match String.compare k k' with Lt => obj_sorted o' | _ => false end
  | _ => true
  end.

(** The finite map an object stands for: its first binding of each key. *)
Definition obj_map (o : jobj) : gmap string json := list_to_map o.

(** Induction on [json] with the hypothesis for the elements of arrays and
    the values of objects. *)
Section JsonInd.
Variable P : json -> Prop.
Hypothesis HUndefined : P JUndefined.
Hypothesis HNull : P JNull.
Hypothesis HBool : forall b, P (JBool b).
Hypothesis HNum : forall n, P (JNum n).
Hypothesis HStr : forall s, P (JStr s).
Hypothesis HArr : forall l, Forall P l -> P (JArr l).
Hypothesis HObj : forall o, Forall (fun p => P p.2) o -> P (JObj o).

Fixpoint json_ind' (v : json) : P v :=
  match v with
  | JUndefined => HUndefined
  | JNull => HNull
  | JBool b => HBool b
  | JNum n => HNum n
  | JStr s => HStr s
  | JArr l =>
      HArr l ((fix go (l : list json) : Forall P l :=
                 match l with
                 | [] => @List.Forall_nil json P
                 | x :: l' => @List.Forall_cons json P x l' (json_ind' x) (go l')
                 end) l)
  | JObj o =>
      HObj o ((fix go (o : jobj) : Forall (fun p => P p.2) o :=
                 match o with
                 | [] => @List.Forall_nil (string * json) (fun p => P p.2)
                 | (k, x) :: o' => @List.Forall_cons (string * json) (fun p => P p.2) (k, x) o' (json_ind' x) (go o')
                 end) o)
  end.
End JsonInd.

(** ** Lemmas *)

Lemma string_compare_refl s : String.compare s s = Eq.
Proof.
  induction s as [|c s IH]; [reflexivity|]. simpl.
  unfold Ascii.compare. rewrite N.compare_refl. exact IH.
Qed.

Lemma obj_value_insert_same k v o : obj_value k (obj_insert k v o) = v.
Proof.
  induction o as [|[k' v'] o IH]; simpl; [rewrite String.eqb_refl; reflexivity|].
  destruct (String.compare k k') eqn:E; simpl; rewrite ?String.eqb_refl; try reflexivity.
  assert (Hne : String.eqb k k' = false).
  { apply String.eqb_neq. intros Heq. subst.
    rewrite string_compare_refl in E. discriminate. }
  rewrite Hne. exact IH.
Qed.

Lemma obj_value_notin k o : obj_contains k o = false -> obj_value k o = JUndefined.
Proof.
  induction o as [|[k' v'] o IH]; simpl; [reflexivity|].
  intros H. apply orb_false_iff in H as [H1 H2]. rewrite String.eqb_sym in H1.
  simpl in H1. rewrite H1. apply IH, H2.
Qed.

(** The id read with [operator[]] is the id the updated object holds. *)
Lemma obj_index_id k o :
  toString (obj_value k (snd (obj_index k o))) = toString (fst (obj_index k o)).
Proof.
  unfold obj_index. destruct (obj_contains k o); simpl; [reflexivity|].
  rewrite obj_value_insert_same. reflexivity.
Qed.

Lemma obj_index_fst k o : toString (fst (obj_index k o)) = toString (obj_value k o).
Proof.
  unfold obj_index. destruct (obj_contains k o) eqn:E; simpl; [reflexivity|].
  rewrite obj_value_notin by exact E. reflexivity.
Qed.

Lemma obj_value_insert_other k k' v o : k <> k' -> obj_value k (obj_insert k' v o) = obj_value k o.
Proof.
  intros Hne. assert (E : String.eqb k k' = false) by (apply String.eqb_neq, Hne).
  induction o as [|[k1 v1] o IH]; simpl; [rewrite E; reflexivity|].
  destruct (String.compare k' k1) eqn:C; simpl; rewrite ?E; try reflexivity.
  - apply String.compare_eq_iff in C. subst k1. rewrite E. reflexivity.
  - rewrite IH. reflexivity.
Qed.

Lemma obj_contains_insert k k' v o :
  obj_contains k (obj_insert k' v o) = String.eqb k' k || obj_contains k o.
Proof.
  induction o as [|[k1 v1] o IH]; simpl; [rewrite orb_false_r; reflexivity|].
  destruct (String.compare k' k1) eqn:C; simpl; try reflexivity.
  - apply String.compare_eq_iff in C. subst k1. destruct (String.eqb k' k); reflexivity.
  - rewrite IH. destruct (String.eqb k' k), (String.eqb k1 k); reflexivity.
Qed.

Lemma obj_index_insert_same k v o : obj_index k (obj_insert k v o) = (v, obj_insert k v o).
Proof.
  unfold obj_index. rewrite obj_contains_insert, String.eqb_refl. simpl.
  rewrite obj_value_insert_same. reflexivity.
Qed.

Lemma obj_insert_nonempty k v o : obj_insert k v o <> [].
Proof. destruct o as [|[k' v'] o]; simpl; [discriminate|]. destruct (String.compare k k'); discriminate. Qed.

Lemma obj_index_other k k' o : k <> k' -> obj_value k (snd (obj_index k' o)) = obj_value k o.
Proof.
  intros Hne. unfold obj_index. destruct (obj_contains k' o); [reflexivity|].
  apply obj_value_insert_other, Hne.
Qed.

Lemma toDouble_obj_index k o : toDouble (fst (obj_index k o)) = toDouble (obj_value k o).
Proof.
  unfold obj_index. destruct (obj_contains k o) eqn:E; [reflexivity|].
  rewrite obj_value_notin by exact E. reflexivity.
Qed.

(** A key with a non-empty string is present, and [operator[]] reads it
    without changing the object. *)
Lemma obj_index_present k o :
  toString (obj_value k o) <> String.EmptyString -> obj_index k o = (obj_value k o, o).
Proof.
  intros Hne. unfold obj_index. destruct (obj_contains k o) eqn:E; [reflexivity|].
  rewrite obj_value_notin in Hne by exact E. simpl in Hne. congruence.
Qed.

Lemma arr_replace_length l i v l' : arr_replace l i v = Some l' -> length l' = length l.
Proof.
  unfold arr_replace. destruct (_ && _); [|discriminate]. intros H. inv H. apply length_insert.
Qed.

Lemma arr_at_out l i : ~ (0 <= i < Z.of_nat (length l)) -> arr_at l i = JUndefined.
Proof.
  intros H. unfold arr_at. destruct (0 <=? i) eqn:E1; destruct (i <? _) eqn:E2; simpl;
    try reflexivity. zbool. lia.
Qed.


(** ** Well-formed objects *)

Lemma string_compare_lt_trans s1 s2 s3 :
  String.compare s1 s2 = Lt -> String.compare s2 s3 = Lt -> String.compare s1 s3 = Lt.
Proof.
  revert s2 s3. induction s1 as [|c1 s1 IH]; intros [|c2 s2] [|c3 s3]; simpl; try congruence.
  unfold Ascii.compare.
  destruct (N.compare_spec (Ascii.N_of_ascii c1) (Ascii.N_of_ascii c2));
  destruct (N.compare_spec (Ascii.N_of_ascii c2) (Ascii.N_of_ascii c3)); intros H1 H2;
  try discriminate;
  destruct (N.compare_spec (Ascii.N_of_ascii c1) (Ascii.N_of_ascii c3)); try lia; eauto.
Qed.

Lemma string_compare_gt_lt s1 s2 : String.compare s1 s2 = Gt -> String.compare s2 s1 = Lt.
Proof. intros H. rewrite String.compare_antisym, H. reflexivity. Qed.

Lemma string_compare_lt_ne s1 s2 : String.compare s1 s2 = Lt -> s1 <> s2.
Proof. intros H ->. rewrite string_compare_refl in H. discriminate. Qed.

Lemma obj_sorted_cons2 k v k1 v1 o :
  obj_sorted ((k, v) :: (k1, v1) :: o) =
  match String.compare k k1 with Lt => obj_sorted ((k1, v1) :: o) | _ => false end.
Proof. reflexivity. Qed.

(** A sorted object is its head below every later key, and a sorted tail. *)
Lemma obj_sorted_cons k v o :
  obj_sorted ((k, v) :: o) = true <->
  obj_sorted o = true /\ forall k' v', In (k', v') o -> String.compare k k' = Lt.
Proof.
  revert k v. induction o as [|[k1 v1] o IH]; intros k v.
  - split; [intros _; split; [reflexivity | contradiction] | reflexivity].
  - rewrite obj_sorted_cons2. destruct (String.compare k k1) eqn:E.
    + split; [discriminate|]. intros [_ H]. specialize (H k1 v1 (or_introl eq_refl)). congruence.
    + split.
      * intros Hs. split; [exact Hs|]. apply IH in Hs as [_ Hk1].
        intros k' v' [Heq | Hin]; [inv Heq; exact E|].
        eapply string_compare_lt_trans; [exact E | eapply Hk1; exact Hin].
      * intros [Hs _]. exact Hs.
    + split; [discriminate|]. intros [_ H]. specialize (H k1 v1 (or_introl eq_refl)). congruence.
Qed.

Lemma In_obj_insert k v o x y :
  In (x, y) (obj_insert k v o) -> (x, y) = (k, v) \/ In (x, y) o.
Proof.
  induction o as [|[k' v'] o IH]; simpl; [intuition congruence|].
  destruct (String.compare k k'); simpl; intuition.
Qed.

Lemma In_obj_remove k o x y : In (x, y) (obj_remove k o) -> In (x, y) o /\ x <> k.
Proof.
  unfold obj_remove. intros Hin. apply list_elem_of_In, list_elem_of_filter in Hin as [Hk Hin].
  split; [apply list_elem_of_In, Hin|].
  simpl in Hk. intros ->. rewrite String.eqb_refl in Hk. destruct Hk.
Qed.

#[export] Hint Resolve string_compare_gt_lt : enginio.

(** [insert], [remove] and [operator[]] keep an object well formed. *)
Lemma obj_insert_sorted k v o : obj_sorted o = true -> obj_sorted (obj_insert k v o) = true.
Proof.
  induction o as [|[k' v'] o IH]; intros Hs; [reflexivity|]. cbn [obj_insert].
  apply obj_sorted_cons in Hs as [Hs Hlt].
  destruct (String.compare k k') eqn:E; apply obj_sorted_cons.
  - apply String.compare_eq_iff in E. subst. split; assumption.
  - split; [apply obj_sorted_cons; split; assumption|].
    intros x y [H|H]; [inv H; exact E|].
    eapply string_compare_lt_trans; [exact E | eapply Hlt; exact H].
  - split; [apply IH, Hs|]. intros x y Hin.
    apply In_obj_insert in Hin as [H|H]; [inv H; apply string_compare_gt_lt, E | eapply Hlt; exact H].
Qed.

Lemma obj_remove_sorted k o : obj_sorted o = true -> obj_sorted (obj_remove k o) = true.
Proof.
  induction o as [|[k' v'] o IH]; intros Hs; [reflexivity|].
  apply obj_sorted_cons in Hs as [Hs Hlt]. unfold obj_remove, jobj. rewrite filter_cons.
  case_decide.
  - apply obj_sorted_cons. split; [apply IH, Hs|].
    intros x y Hin. apply (Hlt x y), (In_obj_remove k o x y Hin).
  - apply IH, Hs.
Qed.

Lemma obj_index_sorted k o : obj_sorted o = true -> obj_sorted (obj_index k o).2 = true.
Proof. intros Hs. unfold obj_index. destruct (obj_contains k o); [exact Hs | apply obj_insert_sorted, Hs]. Qed.

#[export] Hint Resolve obj_insert_sorted obj_remove_sorted obj_index_sorted : enginio.

(** ** Objects as finite maps *)

(** [value], [insert], [remove] and [contains] are lookup, insertion,
    deletion and membership in the map of the object. *)
Lemma obj_value_map k o : obj_value k o = default JUndefined (obj_map o !! k).
Proof.
  induction o as [|[k' v'] o IH]; [reflexivity|]. unfold obj_map in *.
  rewrite list_to_map_cons. simpl obj_value.
  destruct (String.eqb_spec k k') as [->|Hne].
  - rewrite lookup_insert_eq. reflexivity.
  - rewrite lookup_insert_ne by congruence. exact IH.
Qed.

Lemma obj_map_insert k v o : obj_map (obj_insert k v o) = <[k:=v]> (obj_map o).
Proof.
  induction o as [|[k' v'] o IH]; [reflexivity|]. cbn [obj_insert].
  unfold obj_map in *. destruct (String.compare k k') eqn:E; rewrite !list_to_map_cons.
  - apply String.compare_eq_iff in E. subst. rewrite insert_insert_eq. reflexivity.
  - reflexivity.
  - rewrite IH, insert_insert_ne; [reflexivity|].
    intros ->. rewrite string_compare_refl in E. discriminate.
Qed.

Lemma obj_map_remove k o : obj_map (obj_remove k o) = delete k (obj_map o).
Proof.
  induction o as [|[k' v'] o IH]; [symmetry; apply delete_empty|].
  unfold obj_map, obj_remove, jobj in *. rewrite filter_cons, list_to_map_cons.
  destruct (String.eqb_spec k' k) as [->|Hne]; case_decide as Hd; simpl in Hd.
  - rewrite String.eqb_refl in Hd. destruct Hd.
  - rewrite IH, delete_insert_eq. reflexivity.
  - rewrite list_to_map_cons, IH, delete_insert_ne by congruence. reflexivity.
  - apply (proj2 (String.eqb_neq k' k)) in Hne. rewrite Hne in Hd. destruct (Hd I).
Qed.

Lemma obj_contains_map k o : obj_contains k o = true <-> is_Some (obj_map o !! k).
Proof.
  induction o as [|[k' v'] o IH].
  - simpl. rewrite lookup_empty. split; [discriminate | intros [? ?]; discriminate].
  - unfold obj_map in *. rewrite list_to_map_cons. unfold obj_contains in *. simpl.
    destruct (String.eqb_spec k' k) as [->|Hne].
    + rewrite lookup_insert_eq. split; [eauto | reflexivity].
    + rewrite lookup_insert_ne by congruence. exact IH.
Qed.

Lemma obj_map_In o k x : obj_map o !! k = Some x -> In (k, x) o.
Proof. intros H. apply list_elem_of_In, elem_of_list_to_map_2, H. Qed.

(** In a well-formed object, a key below the head is absent, and the tail
    is the map without the head's key. *)
Lemma obj_map_below k v o k' :
  obj_sorted ((k, v) :: o) = true -> String.compare k' k = Lt -> obj_map ((k, v) :: o) !! k' = None.
Proof.
  intros Hs Hlt. apply obj_sorted_cons in Hs as [_ Hk].
  destruct (obj_map ((k, v) :: o) !! k') as [x|] eqn:E; [|reflexivity].
  apply obj_map_In in E as [E|E].
  - inv E. rewrite string_compare_refl in Hlt. discriminate.
  - pose proof (string_compare_lt_trans _ _ _ Hlt (Hk _ _ E)) as H.
    rewrite string_compare_refl in H. discriminate.
Qed.

Lemma obj_map_tail k v o :
  obj_sorted ((k, v) :: o) = true -> obj_map o = delete k (obj_map ((k, v) :: o)).
Proof.
  intros Hs. apply obj_sorted_cons in Hs as [_ Hk]. unfold obj_map.
  rewrite list_to_map_cons, delete_insert_id; [reflexivity|].
  destruct (list_to_map o !! k) as [x|] eqn:E; [|reflexivity].
  apply obj_map_In, Hk in E. rewrite string_compare_refl in E. discriminate.
Qed.

Lemma obj_map_head k v o : obj_map ((k, v) :: o) !! k = Some v.
Proof. unfold obj_map. rewrite list_to_map_cons. apply lookup_insert_eq. Qed.

(** Two well-formed objects with the same map are the same list: the sorted
    association list is a canonical representation. *)
Lemma obj_map_inj o1 o2 :
  obj_sorted o1 = true -> obj_sorted o2 = true -> obj_map o1 = obj_map o2 -> o1 = o2.
Proof.
  revert o2. induction o1 as [|[k1 v1] o1 IH]; intros [|[k2 v2] o2] S1 S2 E; [reflexivity|..].
  - pose proof (obj_map_head k2 v2 o2) as H. rewrite <- E in H. discriminate.
  - pose proof (obj_map_head k1 v1 o1) as H. rewrite E in H. discriminate.
  - destruct (String.compare k1 k2) eqn:C.
    + apply String.compare_eq_iff in C. subst k2.
      pose proof (obj_map_head k1 v1 o1) as H. rewrite E, obj_map_head in H. inv H.
      f_equal. apply IH.
      * apply obj_sorted_cons in S1. apply S1.
      * apply obj_sorted_cons in S2. apply S2.
      * rewrite (obj_map_tail _ _ _ S1), (obj_map_tail _ _ _ S2), E. reflexivity.
    + pose proof (obj_map_head k1 v1 o1) as H. rewrite E, obj_map_below in H by assumption.
      discriminate.
    + pose proof (obj_map_head k2 v2 o2) as H. rewrite <- E, obj_map_below in H by auto with enginio.
      discriminate.
Qed.

(** ** Equality of values *)

Lemma json_eqb_arr x l y l' :
  json_eqb (JArr (x :: l)) (JArr (y :: l')) = json_eqb x y && json_eqb (JArr l) (JArr l').
Proof. reflexivity. Qed.

Lemma json_eqb_obj k x o k' y o' :
  json_eqb (JObj ((k, x) :: o)) (JObj ((k', y) :: o')) =
  String.eqb k k' && json_eqb x y && json_eqb (JObj o) (JObj o').
Proof. reflexivity. Qed.

(** [QJsonValue::operator==] is equality of the values. *)
Lemma json_eqb_spec a b : json_eqb a b = true <-> a = b.
Proof.
  revert b. induction a as [| |b1|n1|s1|l1 Hl|o1 Ho] using json_ind'; intros [| |b2|n2|s2|l2|o2];
    try (split; [discriminate | congruence]); try (split; reflexivity).
  - destruct b1, b2; simpl; split; congruence.
  - simpl. rewrite Z.eqb_eq. split; congruence.
  - simpl. rewrite String.eqb_eq. split; congruence.
  - revert l2. induction Hl as [|x l1 Hx Hl IH]; intros [|y l2];
      try (split; [discriminate | congruence]); [split; reflexivity|].
    rewrite json_eqb_arr, andb_true_iff, Hx, IH. split; [intros [-> E]; inv E; reflexivity | intros E; inv E; auto].
  - revert o2. induction Ho as [|[k x] o1 Hx Ho IH]; intros [|[k' y] o2];
      try (split; [discriminate | congruence]); [split; reflexivity|].
    simpl in Hx. rewrite json_eqb_obj, !andb_true_iff, String.eqb_eq, Hx, IH.
    split; [intros [[-> ->] E]; inv E; reflexivity | intros E; inv E; auto].
Qed.

(** On well-formed objects, [QJsonObject::operator==] compares the maps. *)
Lemma obj_eqb_map o1 o2 :
  obj_sorted o1 = true -> obj_sorted o2 = true ->
  json_eqb (JObj o1) (JObj o2) = true <-> obj_map o1 = obj_map o2.
Proof.
  intros S1 S2. rewrite json_eqb_spec.
  split; [congruence | intros E; f_equal; apply obj_map_inj; assumption].
Qed.

(** Replacing an element by itself. *)
Lemma arr_replace_same l i o : arr_at l i = JObj o -> arr_replace l i (JObj o) = Some l.
Proof.
  unfold arr_at, arr_replace. destruct ((0 <=? i) && (i <? Z.of_nat (length l))) eqn:E; [|discriminate].
  intros H. f_equal. apply list_insert_id.
  apply andb_true_iff in E as [E1 E2]. zbool.
  destruct (lookup_lt_is_Some_2 l (Z.to_nat i)) as [x Hx]; [lia|].
  rewrite Hx, <- H, nth_lookup, Hx. reflexivity.
Qed.

Lemma arr_replace_at l i v l' : arr_replace l i v = Some l' -> arr_at l' i = v.
Proof.
  unfold arr_replace, arr_at. destruct ((0 <=? i) && (i <? Z.of_nat (length l))) eqn:E; [|discriminate].
  intros H. inv H. rewrite length_insert, E. apply andb_true_iff in E as [E1 E2]. zbool.
  rewrite nth_lookup, list_lookup_insert_eq by lia. reflexivity.
Qed.

Lemma arr_replace_replace l i v v' l' :
  arr_replace l i v = Some l' -> arr_replace l' i v' = arr_replace l i v'.
Proof.
  unfold arr_replace. destruct ((0 <=? i) && (i <? Z.of_nat (length l))) eqn:E; [|discriminate].
  intros H. inv H. rewrite length_insert, E, list_insert_insert_eq. reflexivity.
Qed.

Lemma arr_replace_defined l i v v' l' : arr_replace l i v = Some l' -> arr_replace l i v' <> None.
Proof. unfold arr_replace. destruct (_ && _); congruence. Qed.
