(* ===== verification/JsonText.v ===== *)
(** The text form of Qt 5's JSON documents: the writer of
    [QJsonDocument::toJson(QJsonDocument::Compact)] (qjsonwriter.cpp) and
    the parser of [QJsonDocument::fromJson] (qjsonparser.cpp), on the bytes
    of a [QByteArray].  The sources call them on the message filter of
    [connectToBackend] (enginiobackendconnection.cpp, line 341), on the
    payload of a text message (line 294) and on the body of an identify
    reply (enginioidentity.cpp, line 67).

    The values are those of Json.v, whose strings hold characters of code
    0-255 and whose numbers are integers.  The writer prints a character of
    code 128-255 as its two UTF-8 bytes and a number as its decimal digits
    ([QByteArray::number(d, 'g', 17)] prints every digit of an integer below
    10^17).  The parser is Qt's, byte for byte, with one addition: a
    document it accepts whose strings hold a code point above 255, or whose
    numbers have a fraction, an exponent or more than 53 bits, is
    [NotModelled] rather than a value.  Like Qt's, the parser counts the
    arrays and objects open ([nestingLevel]) and refuses a document that
    nests more than [nestingLimit] (1024) of them.  The parser's recursion
    is bounded by fuel; [fromJson] gives [3 * length + 3], which never runs
    out. *)

From S2P Require Import Prelude.
From stdpp Require Import base strings.
From S2P Require Import Bytes Json.
From Stdlib Require Strings.String Strings.Ascii.

Open Scope Z_scope.

(** ** The writer *)

Definition char_code (a : Ascii.ascii) : Z := Z.of_nat (Ascii.nat_of_ascii a).

(** [escapedString]: one character of the key or the string. *)
Definition escape_char (u : Z) : list Z :=
  if u <? 128 then
    if (u <? 32) || (u =? 34) || (u =? 92) then
      92 :: (if u =? 34 then [34]
             else if u =? 92 then [92]
             else if u =? 8 then [98]
             else if u =? 12 then [102]
             else if u =? 10 then [110]
             else if u =? 13 then [114]
             else if u =? 9 then [116]
             else [117; 48; 48; hex_digit (Z.shiftr u 4); hex_digit (Z.land u 15)])
    else [u]
  else [Z.lor 192 (Z.shiftr u 6); Z.lor 128 (Z.land u 63)].

Definition escapedString (s : string) : list Z :=
  flat_map (fun a => escape_char (char_code a)) (String.list_ascii_of_string s).

(** The decimal digits of [n >= 0], most significant first, before [acc];
    [fuel] bounds the number of digits. *)
Fixpoint dec_go (fuel : nat) (n : Z) (acc : list Z) : list Z :=
  match fuel with
  | O => acc
  | S f => if n <? 10 then (48 + n) :: acc else dec_go f (n / 10) ((48 + n mod 10) :: acc)
  end.

Definition dec_digits (n : Z) : list Z := dec_go (S (Z.to_nat (Z.log2 n))) n [].

(** [QByteArray::number(d, 'g', 17)] on an integral double. *)
Definition number_text (n : Z) : list Z :=
  if n <? 0 then 45 :: dec_digits (- n) else dec_digits n.

(** [valueToJson], [arrayContentToJson] and [objectContentToJson] in
    compact mode: members and elements separated by [','], a member as
    ["key":value]; an undefined value prints as [null]. *)
Fixpoint valueToJson (v : json) : list Z :=
  match v with
  | JUndefined | JNull => [110; 117; 108; 108]
  | JBool true => [116; 114; 117; 101]
  | JBool false => [102; 97; 108; 115; 101]
  | JNum n => number_text n
  | JStr s => 34 :: escapedString s ++ [34]
  | JArr l =>
      91 :: match l with
            | [] => []
            | x :: l' => valueToJson x ++ flat_map (fun y => 44 :: valueToJson y) l'
            end ++ [93]
  | JObj o =>
      123 :: match o with
             | [] => []
             | (k, x) :: o' =>
                 (34 :: escapedString k ++ [34; 58] ++ valueToJson x) ++
                 flat_map (fun '(k', y) => 44 :: 34 :: escapedString k' ++ [34; 58] ++ valueToJson y) o'
             end ++ [125]
  end.

(** [QJsonDocument(o).toJson(QJsonDocument::Compact)] *)
Definition toJson (o : jobj) : list Z := valueToJson (JObj o).

(** ** The parser *)

(** A step of the parser: a value with the bytes after it, and whether the
    value is exactly Qt's ([false] when a string holds a code point above
    255 or a number is not an integer of at most 53 bits); an error of
    [QJsonParseError]; or the fuel spent. *)
Inductive presult (A : Type) :=
| POk (x : A) (exact : bool) (rest : list Z)
| PErr
| PFuel.

Arguments POk {A} x exact rest.
Arguments PErr {A}.
Arguments PFuel {A}.

Definition PR (A : Type) := list Z -> presult A.

Definition pret {A} (x : A) : PR A := fun s => POk x true s.

Definition pbind {A B} (p : PR A) (k : A -> PR B) : PR B :=
  fun s => match p s with
           | POk x e s' =>
               match k x s' with
               | POk y e' s'' => POk y (e && e') s''
               | PErr => PErr
               | PFuel => PFuel
               end
           | PErr => PErr
           | PFuel => PFuel
           end.

#[export] Instance PR_ret : MRet PR := @pret.
#[export] Instance PR_bind : MBind PR := fun A B k p => pbind p k.

Definition perr {A} : PR A := fun _ => PErr.

(** A value the model does not represent. *)
Definition inexact : PR unit := fun s => POk tt false s.

(** [eatSpace]: blanks, tabs, line feeds and carriage returns. *)
Definition is_json_space (c : Z) : bool := (c =? 32) || (c =? 9) || (c =? 10) || (c =? 13).

Fixpoint eatSpace (s : list Z) : list Z :=
  match s with
  | c :: s' => if is_json_space c then eatSpace s' else s
  | [] => []
  end.

(** [eatBOM]: the UTF-8 byte order mark. *)
Definition eatBOM (s : list Z) : list Z :=
  match s with
  | a :: b :: c :: s' => if (a =? 239) && (b =? 187) && (c =? 191) then s' else s
  | _ => s
  end.

Definition is_structural (c : Z) : bool :=
  (c =? 91) || (c =? 123) || (c =? 58) || (c =? 44) || (c =? 93) || (c =? 125).

(** [nextToken]: the next structural character or quote, 0 for anything
    else (consumed) or for the end of the input; after a structural
    character the blanks are eaten. *)
Definition nextToken : PR Z := fun s =>
  match eatSpace s with
  | [] => POk 0 true []
  | c :: s' =>
      if is_structural c then POk c true (eatSpace s')
      else if c =? 34 then POk c true s'
      else POk 0 true s'
  end.

(** [addHexDigit] *)
Definition hex_value (c : Z) : option Z :=
  if (48 <=? c) && (c <=? 57) then Some (c - 48)
  else if (97 <=? c) && (c <=? 102) then Some (c - 87)
  else if (65 <=? c) && (c <=? 70) then Some (c - 55)
  else None.

(** [scanEscapeSequence], from the byte after the backslash: the escapes of
    RFC 4627, [\uXXXX], and any other byte standing for itself. *)
Definition scanEscapeSequence (s : list Z) : option (Z * list Z) :=
  match s with
  | [] => None
  | e :: s' =>
      if e =? 117 then
        match s' with
        | h1 :: h2 :: h3 :: h4 :: s'' =>
            match hex_value h1, hex_value h2, hex_value h3, hex_value h4 with
            | Some a, Some b, Some c, Some d => Some (((a * 16 + b) * 16 + c) * 16 + d, s'')
            | _, _, _, _ => None
            end
        | _ => None
        end
      else Some (if e =? 34 then 34 else if e =? 92 then 92 else if e =? 47 then 47
                 else if e =? 98 then 8 else if e =? 102 then 12 else if e =? 110 then 10
                 else if e =? 114 then 13 else if e =? 116 then 9 else e, s')
  end.

(** [isUnicodeNonCharacter] *)
Definition nonCharacter (u : Z) : bool :=
  (Z.land u 65534 =? 65534) || ((64976 <=? u) && (u <=? 65007)).

(** The continuation bytes of a UTF-8 sequence. *)
Fixpoint utf8_cont (need : nat) (uc : Z) (s : list Z) : option (Z * list Z) :=
  match need with
  | O => Some (uc, s)
  | S n =>
      match s with
      | ch :: s' =>
          if Z.land ch 192 =? 128 then utf8_cont n (Z.lor (Z.shiftl uc 6) (Z.land ch 63)) s'
          else None
      | [] => None
      end
  end.

(** [scanUtf8Char]: one character of one to four bytes, which must not end
    the input; overlong forms, surrogates, non-characters and code points
    above U+10FFFF are refused. *)
Definition scanUtf8Char (s : list Z) : option (Z * list Z) :=
  match s with
  | [] => None
  | ch :: s' =>
      if ch <? 128 then Some (ch, s')
      else
        match (if Z.land ch 224 =? 192 then Some (Z.land ch 31, 1%nat, 128)
               else if Z.land ch 240 =? 224 then Some (Z.land ch 15, 2%nat, 2048)
               else if Z.land ch 248 =? 240 then Some (Z.land ch 7, 3%nat, 65536)
               else None) with
        | None => None
        | Some (uc, need, min_uc) =>
            if (length s' <=? need)%nat then None
            else
              match utf8_cont need uc s' with
              | Some (uc, s'') =>
                  if nonCharacter uc || (1114112 <=? uc) || (uc <? min_uc) || ((55296 <=? uc) && (uc <=? 57343))
                  then None else Some (uc, s'')
              | None => None
              end
        end
  end.

(** The characters of a string up to its closing quote, and the bytes after
    the quote; [fuel] is the number of bytes left. *)
Fixpoint scanString (fuel : nat) (s : list Z) : option (list Z * list Z) :=
  match fuel with
  | O => None
  | S f =>
      match s with
      | [] => None
      | c :: s' =>
          if c =? 34 then Some ([], s')
          else
            match (if c =? 92 then scanEscapeSequence s' else scanUtf8Char s) with
            | Some (ch, s'') =>
                match scanString f s'' with
                | Some (cs, r) => Some (ch :: cs, r)
                | None => None
                end
            | None => None
            end
      end
  end.

Definition string_of_codes (cs : list Z) : string :=
  String.string_of_list_ascii (map (fun c => Ascii.ascii_of_nat (Z.to_nat c)) cs).

(** [parseString], after the opening quote: the quote must not end the
    input. *)
Definition parseString : PR string := fun s =>
  match scanString (length s) s with
  | Some (cs, r) =>
      match r with
      | [] => PErr
      | _ => POk (string_of_codes cs) (forallb (fun c => c <=? 255) cs) r
      end
  | None => PErr
  end.

(** The longest prefix of digits. *)
Fixpoint span_digits (s : list Z) : list Z * list Z :=
  match s with
  | c :: s' => if is_digit c then let '(d, r) := span_digits s' in (c :: d, r) else ([], s)
  | [] => ([], [])
  end.

Definition digits_value (acc : Z) (ds : list Z) : Z := fold_left (fun a c => a * 10 + (c - 48)) ds acc.

(** The parts of a number: the sign, the integer part ([0] or digits),
    the fraction and the exponent, each with the bytes after it. *)
Definition number_sign (s : list Z) : bool * list Z :=
  match s with c :: s1 => if c =? 45 then (true, s1) else (false, s) | [] => (false, s) end.

Definition number_int (s1 : list Z) : list Z * list Z :=
  match s1 with c :: s2 => if c =? 48 then ([c], s2) else span_digits s1 | [] => ([], []) end.

Definition number_frac (s2 : list Z) : bool * list Z :=
  match s2 with
  | c :: s3 => if c =? 46 then (true, snd (span_digits s3)) else (false, s2)
  | [] => (false, [])
  end.

Definition number_exp (s3 : list Z) : bool * list Z :=
  match s3 with
  | c :: s4 =>
      if (c =? 101) || (c =? 69) then
        (true, snd (span_digits (match s4 with
                                | d :: s5 => if (d =? 45) || (d =? 43) then s5 else s4
                                | [] => []
                                end)))
      else (false, s3)
  | [] => (false, [])
  end.

(** [parseNumber]: [-], then [0] or digits, then a fraction and an
    exponent; the number must not end the input.  An integer is
    [QByteArray::toInt] or, past 2^25, [toDouble], exact up to 2^53; a
    number with no digit before the fraction and exponent fails both. *)
Definition parseNumber : PR json := fun s =>
  let '(neg, s1) := number_sign s in
  let '(ds, s2) := number_int s1 in
  let '(frac, s3) := number_frac s2 in
  let '(ex, s4) := number_exp s3 in
  match s4 with
  | [] => PErr
  | _ =>
      if frac || ex then POk (JNum 0) false s4
      else match ds with
           | [] => PErr
           | _ => let n := digits_value 0 ds in
                  POk (JNum (if neg then - n else n)) (n <=? 2 ^ 53) s4
           end
  end.

(** A literal's remaining bytes. *)
Fixpoint strip_prefix (lit s : list Z) : option (list Z) :=
  match lit, s with
  | [], _ => Some s
  | a :: lit', b :: s' => if a =? b then strip_prefix lit' s' else None
  | _ :: _, [] => None
  end.

(** [null], [true] and [false]: [min] more bytes must follow the first. *)
Definition parseLiteral (min : nat) (lit : list Z) (v : json) : PR json := fun s =>
  if (length s <? min)%nat then PErr
  else match strip_prefix lit s with Some r => POk v true r | None => PErr end.

(** [nestingLimit]: an array or an object may be nested in at most 1023
    others. *)
Definition nestingLimit : nat := 1024.
Arguments nestingLimit : simpl never.

(** [parseValue], [parseArray] (after its [[]), its loop, [parseObject]
    (after its [{]) and its loop from the quote that opens a member's key
    ([parseMember] and the insertion into the object, a later duplicate
    replacing an earlier one).  [lvl] is [nestingLevel], the number of
    arrays and objects open; [parseArray] and [parseObject] begin with
    [if (++nestingLevel > nestingLimit)] and fail with [DeepNesting]. *)
Fixpoint parseValue (fuel lvl : nat) : PR json := fun s =>
  match fuel with
  | O => PFuel
  | S f =>
      match s with
      | [] => PErr
      | c :: s' =>
          if c =? 110 then parseLiteral 4 [117; 108; 108] JNull s'
          else if c =? 116 then parseLiteral 4 [114; 117; 101] (JBool true) s'
          else if c =? 102 then parseLiteral 5 [97; 108; 115; 101] (JBool false) s'
          else if c =? 34 then (x ← parseString; mret (JStr x)) s'
          else if c =? 91 then parseArray f lvl s'
          else if c =? 123 then parseObject f lvl s'
          else if c =? 93 then PErr
          else parseNumber s
      end
  end
with parseArray (fuel lvl : nat) : PR json := fun s =>
  match fuel with
  | O => PFuel
  | S f =>
      if (nestingLimit <? S lvl)%nat then PErr
      else match eatSpace s with
           | [] => PErr
           | c :: _ => if c =? 93 then (_ ← nextToken; mret (JArr [])) (eatSpace s)
                       else parseElements f (S lvl) [] (eatSpace s)
           end
  end
with parseElements (fuel lvl : nat) (acc : list json) : PR json := fun s =>
  match fuel with
  | O => PFuel
  | S f =>
      (v ← parseValue f lvl;
       t ← nextToken;
       if t =? 93 then mret (JArr (rev (v :: acc)))
       else if t =? 44 then parseElements f lvl (v :: acc)
       else perr) s
  end
with parseObject (fuel lvl : nat) : PR json := fun s =>
  match fuel with
  | O => PFuel
  | S f =>
      if (nestingLimit <? S lvl)%nat then PErr
      else (t ← nextToken;
            if t =? 34 then parseMembers f (S lvl) []
            else if t =? 125 then mret (JObj [])
            else perr) s
  end
with parseMembers (fuel lvl : nat) (acc : jobj) : PR json := fun s =>
  match fuel with
  | O => PFuel
  | S f =>
      (k ← parseString;
       t ← nextToken;
       if negb (t =? 58) then perr
       else
         v ← parseValue f lvl;
         let acc := obj_insert k v acc in
         t ← nextToken;
         if t =? 44 then
           t ← nextToken;
           if t =? 34 then parseMembers f lvl acc else perr
         else if t =? 125 then mret (JObj acc)
         else perr) s
  end.

(** [QJsonDocument::fromJson]: an object or an array, then only blanks. *)
Inductive parsed :=
| Parsed (v : json)
| ParseFailed
| NotModelled.

Definition atEnd : PR unit := fun s => match eatSpace s with [] => POk tt true [] | _ => PErr end.

Definition parseDocument (fuel : nat) : PR json := fun s =>
  (t ← nextToken;
   v ← (if t =? 91 then parseArray fuel 0
        else if t =? 123 then parseObject fuel 0
        else perr);
   atEnd ;;
   mret v) (eatBOM s).

(** The document a parse gives: its value when it is exact, a null
    document when it fails. *)
Definition document_of (r : presult json) : parsed :=
  match r with
  | POk v true _ => Parsed v
  | POk _ false _ => NotModelled
  | _ => ParseFailed
  end.

Definition fromJson (b : list Z) : parsed := document_of (parseDocument (3 * length b + 3) b).

(** [QJsonDocument::object()]: the object of a document holding one, else
    an empty object (a failed parse gives a null document). *)
Definition documentObject (p : parsed) : option jobj :=
  match p with
  | Parsed (JObj o) => Some o
  | Parsed _ | ParseFailed => Some []
  | NotModelled => None
  end.

(** ** Well-formed values *)

(** The values the writer and the parser agree on: objects with strictly
    sorted keys (as Qt stores them), numbers of at most 53 bits, no
    undefined value. *)
Fixpoint json_wf (v : json) : bool :=
  match v with
  | JUndefined => false
  | JNull | JBool _ | JStr _ => true
  | JNum n => Z.abs n <=? 2 ^ 53
  | JArr l => forallb json_wf l
  | JObj o => obj_sorted o && forallb (fun p => json_wf p.2) o
  end.

(** The nesting depth of a value: the arrays and objects opened on the way
    to its deepest part. *)
Fixpoint json_depth (v : json) : nat :=
  match v with
  | JArr l => S (list_max (map json_depth l))
  | JObj o => S (list_max (map (fun '(_, y) => json_depth y) o))
  | _ => 0
  end.

(** ** Lemmas on the parser's steps *)

Lemma pbind_ok {A B} (p : PR A) (k : A -> PR B) s x e s' :
  p s = POk x e s' ->
  pbind p k s = match k x s' with
                | POk y e' s'' => POk y (e && e') s''
                | PErr => PErr
                | PFuel => PFuel
                end.
Proof. unfold pbind. intros ->. reflexivity. Qed.

Lemma eatSpace_nonspace c t : is_json_space c = false -> eatSpace (c :: t) = c :: t.
Proof. simpl. intros ->. reflexivity. Qed.

(** The bytes that may follow a value inside an array or an object. *)
Definition follows (c : Z) : bool := (c =? 44) || (c =? 93) || (c =? 125).

Lemma follows_nonspace c : follows c = true -> is_json_space c = false.
Proof. unfold follows, is_json_space. intros H. repeat rewrite orb_true_iff in H. zbool. lia. Qed.

Lemma nextToken_structural c t :
  is_structural c = true -> t = [] \/ (exists c' t', t = c' :: t' /\ is_json_space c' = false) ->
  nextToken (c :: t) = POk c true t.
Proof.
  intros Hc Ht. unfold nextToken.
  assert (Hs : is_json_space c = false) by (unfold is_structural, is_json_space in *; zbool; lia).
  rewrite eatSpace_nonspace by exact Hs. rewrite Hc. f_equal.
  destruct Ht as [->|(c' & t' & -> & Hc')]; [reflexivity|]. apply eatSpace_nonspace, Hc'.
Qed.

(** Every character the writer escapes reads back as itself (checked on
    the 256 codes). *)
Lemma scanString_escape_char u f m t :
  0 <= u < 256 ->
  scanString (S f) (escape_char u ++ m :: t) =
  match scanString f (m :: t) with Some (cs, r) => Some (u :: cs, r) | None => None end.
Proof.
  intros Hu. assert (Hin : In u all_bytes)
    by (unfold all_bytes; rewrite <- (Z2Nat.id u) by lia; apply in_map, in_seq; lia).
  unfold all_bytes in Hin. simpl in Hin.
  repeat (destruct Hin as [<-|Hin]; [reflexivity|]). destruct Hin.
Qed.

Lemma char_code_range a : 0 <= char_code a < 256.
Proof. unfold char_code. pose proof (Ascii.nat_ascii_bounded a). lia. Qed.

Definition codes (s : string) : list Z := map char_code (String.list_ascii_of_string s).

Lemma scanString_escaped s f m t :
  (String.length s < f)%nat ->
  scanString f (escapedString s ++ 34 :: m :: t) = Some (codes s, m :: t).
Proof.
  revert f. induction s as [|a s IH]; intros [|f] Hf; simpl in Hf; try lia; [reflexivity|].
  change (escapedString (String a s)) with (escape_char (char_code a) ++ escapedString s).
  rewrite <- app_assoc. specialize (IH f ltac:(lia)).
  destruct (escapedString s ++ 34 :: m :: t) as [|m' t'] eqn:E; [destruct (escapedString s); discriminate|].
  rewrite scanString_escape_char by apply char_code_range. rewrite IH. reflexivity.
Qed.

Lemma string_of_codes_codes s : string_of_codes (codes s) = s.
Proof.
  unfold string_of_codes, codes. rewrite map_map.
  erewrite map_ext by (intros a; unfold char_code; rewrite Nat2Z.id; apply Ascii.ascii_nat_embedding).
  rewrite map_id. apply String.string_of_list_ascii_of_string.
Qed.

Lemma codes_latin1 s : forallb (fun c => c <=? 255) (codes s) = true.
Proof.
  apply forallb_forall. intros c Hc. unfold codes in Hc. apply in_map_iff in Hc as (a & <- & _).
  pose proof (char_code_range a). zbool. lia.
Qed.

Lemma length_escapedString s : (String.length s <= length (escapedString s))%nat.
Proof.
  induction s as [|a s IH]; simpl; [lia|]. unfold escapedString. simpl. fold (escapedString s).
  rewrite length_app. assert (1 <= length (escape_char (char_code a)))%nat; [|lia].
  unfold escape_char. repeat (destruct (_ : bool)); simpl; lia.
Qed.

(** A key or a string reads back as itself. *)
Lemma parseString_escaped s m t :
  parseString (escapedString s ++ 34 :: m :: t) = POk s true (m :: t).
Proof.
  unfold parseString. rewrite scanString_escaped.
  - rewrite string_of_codes_codes, codes_latin1. reflexivity.
  - rewrite length_app. simpl. pose proof (length_escapedString s). lia.
Qed.

(** ** Numbers *)

Lemma dec_go_value f n acc :
  0 <= n < 10 ^ Z.of_nat f -> digits_value 0 (dec_go f n acc) = digits_value n acc.
Proof.
  revert n acc. induction f as [|f IH]; intros n acc Hn; simpl.
  - simpl in Hn. replace n with 0 by lia. reflexivity.
  - rewrite Nat2Z.inj_succ, Z.pow_succ_r in Hn by lia.
    destruct (n <? 10) eqn:E; zbool.
    + unfold digits_value. simpl. do 2 f_equal. lia.
    + rewrite IH by (split; [apply Z.div_pos | apply Z.div_lt_upper_bound]; lia).
      unfold digits_value. simpl. f_equal. pose proof (Z.div_mod n 10). pose proof (Z.mod_pos_bound n 10). lia.
Qed.

Lemma dec_go_digits f n acc :
  0 <= n -> forallb is_digit acc = true -> forallb is_digit (dec_go f n acc) = true.
Proof.
  revert n acc. induction f as [|f IH]; intros n acc Hn Hacc; simpl; [exact Hacc|].
  destruct (n <? 10) eqn:E; zbool; simpl.
  - rewrite Hacc, andb_true_r. unfold is_digit. zbool. lia.
  - apply IH; [apply Z.div_pos; lia|]. simpl. rewrite Hacc, andb_true_r.
    unfold is_digit. pose proof (Z.mod_pos_bound n 10). zbool. lia.
Qed.

(** The first digit is [0] only for 0, and there is one. *)
Lemma dec_go_head f n acc :
  0 <= n < 10 ^ Z.of_nat f -> (0 < f)%nat ->
  exists d ds, dec_go f n acc = d :: ds /\ (d =? 48) = (n =? 0).
Proof.
  revert n acc. induction f as [|f IH]; intros n acc Hn Hf; [lia|simpl].
  rewrite Nat2Z.inj_succ, Z.pow_succ_r in Hn by lia.
  destruct (n <? 10) eqn:E; zbool.
  - eexists _, _. split; [reflexivity|]. apply Bool.eq_iff_eq_true. rewrite !Z.eqb_eq. lia.
  - destruct f as [|f]; [simpl in Hn; lia|].
    destruct (IH (n / 10) ((48 + n mod 10) :: acc)) as (d & ds & -> & Hd).
    + split; [apply Z.div_pos | apply Z.div_lt_upper_bound]; lia.
    + lia.
    + exists d, ds. split; [reflexivity|]. rewrite Hd.
      replace (n / 10 =? 0) with false by (symmetry; apply Z.eqb_neq; intros H0;
        pose proof (Z.div_mod n 10); pose proof (Z.mod_pos_bound n 10); lia).
      symmetry. apply Z.eqb_neq. lia.
Qed.

Lemma dec_digits_fuel n : 0 <= n -> n < 10 ^ Z.of_nat (S (Z.to_nat (Z.log2 n))).
Proof.
  intros Hn. rewrite Nat2Z.inj_succ, Z2Nat.id by apply Z.log2_nonneg.
  destruct (Z.eq_dec n 0) as [->|Hn0]; [reflexivity|].
  pose proof (Z.log2_spec n ltac:(lia)) as [_ H]. eapply Z.lt_le_trans; [exact H|].
  apply Z.pow_le_mono_l. split; [lia|lia].
Qed.

Lemma span_digits_app ds c t :
  forallb is_digit ds = true -> is_digit c = false -> span_digits (ds ++ c :: t) = (ds, c :: t).
Proof.
  induction ds as [|d ds IH]; intros Hds Hc; simpl in *; [rewrite Hc; reflexivity|].
  apply andb_true_iff in Hds as [Hd Hds]. rewrite Hd, IH by assumption. reflexivity.
Qed.

Lemma follows_not_digit c : follows c = true -> is_digit c = false.
Proof. unfold follows, is_digit. intros H. repeat rewrite orb_true_iff in H. zbool. lia. Qed.

(** A printed integer reads back as itself, exactly when it is a double's. *)
Lemma parseNumber_text n c t :
  follows c = true ->
  parseNumber (number_text n ++ c :: t) = POk (JNum n) (Z.abs n <=? 2 ^ 53) (c :: t).
Proof.
  intros Hc. pose proof (follows_not_digit c Hc) as Hcd.
  assert (Hc' : (c =? 46) = false /\ ((c =? 101) || (c =? 69)) = false /\ (c =? 45) = false)
    by (unfold follows in Hc; repeat rewrite orb_true_iff in Hc; rewrite orb_false_iff; zbool; lia).
  destruct Hc' as (H46 & Hexp & H45).
  assert (Hd : forall m, 0 <= m -> exists d ds, dec_digits m = d :: ds /\ (d =? 48) = (m =? 0) /\
                 forallb is_digit (dec_digits m) = true /\ digits_value 0 (dec_digits m) = m).
  { intros m Hm. destruct (dec_go_head (S (Z.to_nat (Z.log2 m))) m [] (conj Hm (dec_digits_fuel m Hm)) ltac:(lia))
      as (d & ds & E & Hd0). exists d, ds. unfold dec_digits. rewrite E. split; [reflexivity|].
    split; [exact Hd0|]. rewrite <- E. split; [apply dec_go_digits; auto|].
    rewrite dec_go_value by (split; [lia | apply dec_digits_fuel, Hm]). reflexivity. }
  unfold number_text. destruct (n <? 0) eqn:Hn; [apply Z.ltb_lt in Hn | apply Z.ltb_ge in Hn].
  - destruct (Hd (- n) ltac:(lia)) as (d & ds & E & Hd0 & Hdig & Hval).
    rewrite E in Hdig, Hval |- *. unfold parseNumber, number_sign, number_int, number_frac, number_exp. cbn -[span_digits digits_value].
    replace (d =? 48) with false by (rewrite Hd0; symmetry; apply Z.eqb_neq; lia).
    change (span_digits (d :: ds ++ c :: t)) with (span_digits ((d :: ds) ++ c :: t)).
    rewrite span_digits_app by assumption. rewrite H46. cbn -[digits_value span_digits]. rewrite Hexp, Hval.
    replace (Z.abs n) with (- n) by lia. do 2 f_equal. lia.
  - destruct (Hd n ltac:(lia)) as (d & ds & E & Hd0 & Hdig & Hval).
    rewrite E in Hdig, Hval |- *. unfold parseNumber, number_sign, number_int, number_frac, number_exp. cbn -[span_digits digits_value].
    destruct (d =? 45) eqn:H45'.
    { apply Z.eqb_eq in H45'. subst d. discriminate. }
    destruct (d =? 48) eqn:H48.
    + assert (Hn0 : n = 0) by (symmetry in Hd0; apply Z.eqb_eq in Hd0; exact Hd0). rewrite Hn0 in E |- *.
      assert (Hds : ds = []) by (unfold dec_digits in E; simpl in E; congruence). subst ds.
      apply Z.eqb_eq in H48. subst d. cbn -[span_digits]. rewrite H46. cbn -[span_digits]. rewrite Hexp. reflexivity.
    + change (span_digits (d :: ds ++ c :: t)) with (span_digits ((d :: ds) ++ c :: t)).
      rewrite span_digits_app by assumption. rewrite H46. cbn -[digits_value span_digits]. rewrite Hexp, Hval.
      replace (Z.abs n) with n by lia. reflexivity.
Qed.

(** ** Printed values read back *)

(** The parser gives [x] and leaves [rest], unless it runs out of fuel. *)
Definition yields {A} (r : presult A) (x : A) (rest : list Z) : Prop := r = POk x true rest \/ r = PFuel.

Lemma pbind_true {A B} (p : PR A) (k : A -> PR B) s x s' :
  p s = POk x true s' -> pbind p k s = k x s'.
Proof. unfold pbind. intros ->. destruct (k x s'); reflexivity. Qed.

Lemma pbind_yields {A B} (p : PR A) (k : A -> PR B) s x s' y s'' :
  yields (p s) x s' -> yields (k x s') y s'' -> yields (pbind p k s) y s''.
Proof.
  intros [H|H] Hk; [rewrite (pbind_true _ _ _ _ _ H); exact Hk|].
  right. unfold pbind. rewrite H. reflexivity.
Qed.

Lemma yields_fuel {A} (x : A) rest : yields PFuel x rest.
Proof. right. reflexivity. Qed.

Lemma yields_ok {A} (x : A) rest : yields (POk x true rest) x rest.
Proof. left. reflexivity. Qed.

#[local] Hint Resolve yields_fuel yields_ok : core.

(** A printed value starts with a byte that is not blank and not [']']. *)
Lemma valueToJson_head v :
  exists c t, valueToJson v = c :: t /\ is_json_space c = false /\ (c =? 93) = false /\
              ((c =? 45) = false -> is_digit c = false -> (c =? 110) || (c =? 116) || (c =? 102) || (c =? 34) ||
                                                        (c =? 91) || (c =? 123) = true).
Proof.
  destruct v as [| |[]|n|s|l|o]; simpl; try (eexists _, _; split; [reflexivity | split; [reflexivity | split; [reflexivity | reflexivity]]]).
  unfold number_text. destruct (n <? 0) eqn:Hn.
  - eexists _, _. split; [reflexivity|]. repeat split; intros; discriminate.
  - assert (Hn' : 0 <= n) by (apply Z.ltb_ge, Hn).
    destruct (dec_go_head (S (Z.to_nat (Z.log2 n))) n [] (conj Hn' (dec_digits_fuel n Hn')) ltac:(lia))
      as (d & ds & E & _).
    pose proof (dec_go_digits (S (Z.to_nat (Z.log2 n))) n [] Hn' eq_refl) as Hdig.
    unfold dec_digits. rewrite E in Hdig |- *. simpl in Hdig. apply andb_true_iff in Hdig as [Hd _].
    exists d, ds. unfold is_digit in Hd. unfold is_json_space. repeat split; zbool; try lia.
    intros _ Hnd. unfold is_digit in Hnd. rewrite andb_false_iff in Hnd. zbool. lia.
Qed.

Lemma obj_insert_last k v acc :
  (forall k' v', In (k', v') acc -> String.compare k' k = Lt) -> obj_insert k v acc = acc ++ [(k, v)].
Proof.
  induction acc as [|[k0 v0] acc IH]; intros H; simpl; [reflexivity|].
  rewrite String.compare_antisym, (H k0 v0 (or_introl eq_refl)). simpl.
  rewrite IH by (intros; eapply H; right; eassumption). reflexivity.
Qed.

(** The property of a value that its text reads back before any byte that
    may follow it. *)
Definition reads_back (v : json) : Prop :=
  forall f lvl c t, (lvl + json_depth v <= nestingLimit)%nat -> follows c = true ->
    yields (parseValue f lvl (valueToJson v ++ c :: t)) v (c :: t).

Lemma limit_ok lvl : (S lvl <= nestingLimit)%nat -> (nestingLimit <? S lvl)%nat = false.
Proof. intros H. apply Nat.ltb_ge, H. Qed.

(** The elements of an array and the members of an object at the level
    inside it. *)
Lemma depth_elems l lvl :
  (lvl + json_depth (JArr l) <= nestingLimit)%nat -> Forall (fun y => (S lvl + json_depth y <= nestingLimit)%nat) l.
Proof.
  simpl. intros H. apply List.Forall_forall. intros y Hy.
  pose proof (proj1 (list_max_le (map json_depth l) _) (le_n _)) as Hm.
  rewrite List.Forall_forall in Hm. specialize (Hm (json_depth y) (in_map _ _ _ Hy)). lia.
Qed.

Lemma depth_members o lvl :
  (lvl + json_depth (JObj o) <= nestingLimit)%nat -> Forall (fun p => (S lvl + json_depth p.2 <= nestingLimit)%nat) o.
Proof.
  simpl. intros H. apply List.Forall_forall. intros [k y] Hy.
  pose proof (proj1 (list_max_le (map (fun '(_, y) => json_depth y) o) _) (le_n _)) as Hm.
  rewrite List.Forall_forall in Hm. specialize (Hm (json_depth y) (in_map (fun '(_, y) => json_depth y) _ _ Hy)).
  simpl. lia.
Qed.

Lemma nextToken_before c c' t :
  is_structural c = true -> is_json_space c' = false -> nextToken (c :: c' :: t) = POk c true (c' :: t).
Proof. intros Hc Hc'. apply nextToken_structural; [exact Hc | right; eauto]. Qed.

Lemma nextToken_value c v t :
  is_structural c = true -> nextToken (c :: valueToJson v ++ t) = POk c true (valueToJson v ++ t).
Proof.
  intros Hc. destruct (valueToJson_head v) as (c' & t' & E & Hs & _). rewrite E. apply nextToken_before; assumption.
Qed.

(** What may follow a closing bracket: the end of the input or a byte that
    is not blank. *)
Definition settled (r : list Z) : Prop := r = [] \/ exists c t, r = c :: t /\ is_json_space c = false.

Lemma follows_settled c t : follows c = true -> settled (c :: t).
Proof. intros Hc. right. exists c, t. split; [reflexivity | apply follows_nonspace, Hc]. Qed.

Lemma nextToken_quote t : nextToken (34 :: t) = POk 34 true t.
Proof. reflexivity. Qed.

Ltac pstep := unfold mbind, PR_bind, mret, PR_ret, pret.

Lemma parseElements_text l x acc f lvl r :
  settled r -> reads_back x -> Forall reads_back l ->
  (lvl + json_depth x <= nestingLimit)%nat -> Forall (fun y => (lvl + json_depth y <= nestingLimit)%nat) l ->
  yields (parseElements f lvl acc (valueToJson x ++ flat_map (fun y => 44 :: valueToJson y) l ++ 93 :: r))
         (JArr (rev acc ++ x :: l)) r.
Proof.
  revert x acc f. induction l as [|y l IH]; intros x acc [|f] Hc Hx Hl Hdx Hdl; try apply yields_fuel; simpl; pstep.
  - eapply pbind_yields; [apply Hx; [exact Hdx | reflexivity]|].
    rewrite (pbind_true _ _ _ _ _ (nextToken_structural 93 r eq_refl Hc)).
    simpl. left. reflexivity.
  - inv Hl. inv Hdl. eapply pbind_yields; [apply Hx; [exact Hdx | reflexivity]|].
    rewrite <- app_assoc, (pbind_true _ _ _ _ _ (nextToken_value 44 y _ eq_refl)). simpl.
    replace (rev acc ++ x :: y :: l) with (rev (x :: acc) ++ y :: l) by (simpl; rewrite <- app_assoc; reflexivity).
    apply IH; assumption.
Qed.

Lemma parseMembers_text o k x acc f lvl r :
  settled r -> reads_back x -> Forall (fun p => reads_back p.2) o ->
  (lvl + json_depth x <= nestingLimit)%nat -> Forall (fun p => (lvl + json_depth p.2 <= nestingLimit)%nat) o ->
  obj_sorted ((k, x) :: o) = true ->
  (forall k' v', In (k', v') acc -> String.compare k' k = Lt) ->
  yields (parseMembers f lvl acc
            (escapedString k ++ 34 :: 58 :: valueToJson x ++
             flat_map (fun '(k', y) => 44 :: 34 :: escapedString k' ++ 34 :: 58 :: valueToJson y) o ++
             125 :: r))
         (JObj (acc ++ (k, x) :: o)) r.
Proof.
  revert k x acc f. induction o as [|[k' y] o IH]; intros k x acc [|f] Hc Hx Ho Hdx Hdo Hs Hacc;
    try apply yields_fuel; simpl; pstep.
  all: rewrite (pbind_true _ _ _ _ _ (parseString_escaped _ _ _)),
         (pbind_true _ _ _ _ _ (nextToken_value 58 x _ eq_refl)); simpl.
  - eapply pbind_yields; [apply Hx; [exact Hdx | reflexivity]|].
    rewrite (pbind_true _ _ _ _ _ (nextToken_structural 125 r eq_refl Hc)). simpl.
    rewrite obj_insert_last by exact Hacc. left. reflexivity.
  - inv Ho. inv Hdo. apply obj_sorted_cons in Hs as [Hs Hlt].
    eapply pbind_yields; [apply Hx; [exact Hdx | reflexivity]|].
    rewrite (pbind_true _ _ _ _ _ (nextToken_before 44 34 _ eq_refl eq_refl)). simpl.
    rewrite (pbind_true _ _ _ _ _ (nextToken_quote _)). simpl.
    rewrite <- app_assoc. simpl.
    replace (acc ++ (k, x) :: (k', y) :: o) with ((acc ++ [(k, x)]) ++ (k', y) :: o)
      by (rewrite <- app_assoc; reflexivity).
    rewrite obj_insert_last by exact Hacc. rewrite <- (app_assoc (escapedString k')). simpl.
    apply IH; try assumption.
    intros k0 v0 Hin. apply in_app_or in Hin as [Hin|[[= <- <-]|[]]].
    + eapply string_compare_lt_trans; [apply (Hacc _ _ Hin) | apply (Hlt k' y); left; reflexivity].
    + apply (Hlt k' y). left. reflexivity.
Qed.

Lemma number_text_head n : exists c t, number_text n = c :: t /\ (c = 45 \/ 48 <= c <= 57).
Proof.
  destruct (valueToJson_head (JNum n)) as (c & t & E & _ & _ & H). simpl in E. exists c, t. split; [exact E|].
  unfold number_text in E. destruct (n <? 0) eqn:Hn; [left; congruence|right].
  assert (Hn' : 0 <= n) by (apply Z.ltb_ge, Hn).
  pose proof (dec_go_digits (S (Z.to_nat (Z.log2 n))) n [] Hn' eq_refl) as Hdig.
  fold (dec_digits n) in Hdig. rewrite E in Hdig. simpl in Hdig. apply andb_true_iff in Hdig as [Hd _].
  unfold is_digit in Hd. zbool. lia.
Qed.

Lemma forallb_Forall_reads {A} (g : A -> json) (l : list A) :
  Forall (fun a => json_wf (g a) = true -> reads_back (g a)) l -> forallb (fun a => json_wf (g a)) l = true ->
  Forall (fun a => reads_back (g a)) l.
Proof.
  intros H Hw. apply List.Forall_forall. intros a Ha. rewrite List.Forall_forall in H. apply H; [exact Ha|].
  rewrite forallb_forall in Hw. apply Hw, Ha.
Qed.

Lemma parseArray_value f lvl x r :
  (S lvl <= nestingLimit)%nat ->
  parseArray (S f) lvl (valueToJson x ++ r) = parseElements f (S lvl) [] (valueToJson x ++ r).
Proof.
  intros Hl. destruct (valueToJson_head x) as (c0 & t0 & E & Hs & H93 & _). rewrite E. simpl.
  rewrite limit_ok by exact Hl. rewrite Hs, H93. reflexivity.
Qed.

Lemma parseArray_empty f lvl r :
  (S lvl <= nestingLimit)%nat -> settled r -> yields (parseArray (S f) lvl (93 :: r)) (JArr []) r.
Proof.
  intros Hl Hc. simpl. rewrite limit_ok by exact Hl. pstep.
  rewrite (pbind_true _ _ _ _ _ (nextToken_structural 93 r eq_refl Hc)). left. reflexivity.
Qed.

Lemma parseObject_empty f lvl r :
  (S lvl <= nestingLimit)%nat -> settled r -> yields (parseObject (S f) lvl (125 :: r)) (JObj []) r.
Proof.
  intros Hl Hc. simpl. rewrite limit_ok by exact Hl. pstep.
  rewrite (pbind_true _ _ _ _ _ (nextToken_structural 125 r eq_refl Hc)). left. reflexivity.
Qed.

(** A well-formed object's text after its opening brace reads back,
    whatever settled bytes follow it. *)
Lemma parseObject_text o f lvl r :
  obj_sorted o = true -> Forall (fun p => reads_back p.2) o ->
  (lvl + json_depth (JObj o) <= nestingLimit)%nat -> settled r ->
  yields (parseObject f lvl (tl (valueToJson (JObj o)) ++ r)) (JObj o) r.
Proof.
  intros Hs Ho Hd Hr. pose proof (depth_members o lvl Hd) as Hdo.
  assert (Hl : (S lvl <= nestingLimit)%nat) by (simpl in Hd; lia).
  destruct f as [|f]; [apply yields_fuel|].
  destruct o as [|[k x] o]; [apply parseObject_empty; assumption|].
  inv Ho. inv Hdo. cbn [tl valueToJson parseObject app]. rewrite limit_ok by exact Hl. pstep.
  rewrite (pbind_true _ _ _ _ _ (nextToken_quote _)). rewrite <- !app_assoc. cbn [app].
  apply (parseMembers_text o k x [] f (S lvl) r Hr); auto. intros ? ? [].
Qed.

(** Every well-formed value reads back. *)
Lemma parseValue_text v : json_wf v = true -> reads_back v.
Proof.
  induction v as [| |b|n|s|l Hl|o Ho] using json_ind'; intros Hwf f lvl c t Hdep Hc; try discriminate;
    destruct f as [|f]; try apply yields_fuel.
  - left. reflexivity.
  - destruct b; left; reflexivity.
  - destruct (number_text_head n) as (c0 & t0 & E & Hc0). simpl valueToJson.
    assert (Hd : parseValue (S f) lvl (number_text n ++ c :: t) = parseNumber (number_text n ++ c :: t)).
    { rewrite E. simpl app. cbn -[parseNumber parseArray parseObject parseString parseLiteral].
      repeat match goal with |- context [c0 =? ?b] =>
        replace (c0 =? b) with false by (symmetry; apply Z.eqb_neq; lia) end. reflexivity. }
    rewrite Hd, parseNumber_text by exact Hc. simpl in Hwf. rewrite Hwf. left. reflexivity.
  - simpl. pstep. rewrite <- app_assoc. simpl.
    rewrite (pbind_true _ _ _ _ _ (parseString_escaped _ _ _)). left. reflexivity.
  - pose proof (depth_elems l lvl Hdep) as Hdl. assert (Hlim : (S lvl <= nestingLimit)%nat) by (simpl in Hdep; lia).
    simpl valueToJson. cbn [app]. rewrite <- app_assoc. cbn -[parseArray parseObject parseNumber parseString parseLiteral].
    destruct f as [|f]; [apply yields_fuel|]. simpl in Hwf.
    destruct l as [|x l]; [apply parseArray_empty; [exact Hlim | apply follows_settled, Hc]|].
    inv Hl. inv Hdl. apply andb_true_iff in Hwf as [Hx Hwf]. rewrite <- !app_assoc. cbn [app].
    rewrite parseArray_value by exact Hlim.
    apply (parseElements_text l x [] f (S lvl) (c :: t) (follows_settled _ _ Hc)); [auto| |assumption|assumption].
    apply (forallb_Forall_reads (fun v => v)); assumption.
  - simpl in Hwf. apply andb_true_iff in Hwf as [Hs Hwf].
    change (valueToJson (JObj o)) with (123 :: tl (valueToJson (JObj o))).
    set (b := tl (valueToJson (JObj o))). simpl. subst b.
    apply parseObject_text; [exact Hs | | exact Hdep | apply follows_settled, Hc].
    apply (forallb_Forall_reads snd); assumption.
Qed.

(** ** The parser consumes what it reads *)

Lemma eatSpace_length s : (length (eatSpace s) <= length s)%nat.
Proof. induction s as [|c s IH]; simpl; [lia|]. destruct (is_json_space c); simpl; lia. Qed.

Lemma nextToken_length s t e r :
  nextToken s = POk t e r -> (length r <= length s)%nat /\ (s <> [] -> (length r < length s)%nat).
Proof.
  unfold nextToken. pose proof (eatSpace_length s) as Hl.
  destruct s as [|c0 s0]; simpl in *.
  - intros [= <- <- <-]. simpl. split; [lia | congruence].
  - destruct (is_json_space c0) eqn:Hc0.
    + destruct (eatSpace s0) as [|c s'] eqn:E; [intros [= <- <- <-]; simpl; lia|].
      pose proof (eatSpace_length s'). simpl in Hl.
      destruct (is_structural c); [|destruct (c =? 34)]; intros [= <- <- <-]; lia.
    + destruct (is_structural c0); [|destruct (c0 =? 34)]; intros [= <- <- <-];
        try pose proof (eatSpace_length s0); lia.
Qed.

Lemma utf8_cont_length need uc s uc' r :
  utf8_cont need uc s = Some (uc', r) -> (length r <= length s)%nat.
Proof.
  revert uc s. induction need as [|n IH]; intros uc [|ch s]; simpl; try congruence.
  - intros [= _ <-]. reflexivity.
  - intros [= _ <-]. simpl. lia.
  - destruct (Z.land ch 192 =? 128); [|congruence]. intros H. apply IH in H. lia.
Qed.

Lemma scanEscapeSequence_length s ch r :
  scanEscapeSequence s = Some (ch, r) -> (length r < length s)%nat.
Proof.
  unfold scanEscapeSequence. destruct s as [|e s]; [congruence|].
  destruct (e =? 117).
  - destruct s as [|h1 [|h2 [|h3 [|h4 s]]]]; try congruence.
    destruct (hex_value h1), (hex_value h2), (hex_value h3), (hex_value h4); try congruence.
    intros [= _ <-]. simpl. lia.
  - intros [= _ <-]. simpl. lia.
Qed.

Lemma scanUtf8Char_length s ch r : scanUtf8Char s = Some (ch, r) -> (length r < length s)%nat.
Proof.
  unfold scanUtf8Char. destruct s as [|c s]; [congruence|].
  destruct (c <? 128); [intros [= _ <-]; simpl; lia|].
  destruct (if Z.land c 224 =? 192 then _ else _) as [[[uc need] min_uc]|]; [|congruence].
  destruct (length s <=? need)%nat; [congruence|].
  destruct (utf8_cont need uc s) as [[uc' r']|] eqn:E; [|congruence].
  apply utf8_cont_length in E. destruct (_ || _); [congruence|]. intros [= _ <-]. simpl. lia.
Qed.

Lemma scanString_length f s cs r : scanString f s = Some (cs, r) -> (length r < length s)%nat.
Proof.
  revert s cs. induction f as [|f IH]; intros s cs; simpl; [congruence|].
  destruct s as [|c s']; [congruence|].
  destruct (c =? 34); [intros [= _ <-]; simpl; lia|].
  destruct (if c =? 92 then scanEscapeSequence s' else scanUtf8Char (c :: s')) as [[ch s'']|] eqn:E; [|congruence].
  assert (Hs : (length s'' < length (c :: s'))%nat).
  { destruct (c =? 92); [apply scanEscapeSequence_length in E; simpl; lia | apply scanUtf8Char_length in E; exact E]. }
  destruct (scanString f s'') as [[cs' r']|] eqn:E2; [|congruence]. intros [= _ <-]. apply IH in E2. lia.
Qed.

Lemma parseString_length s k e r : parseString s = POk k e r -> (length r < length s)%nat.
Proof.
  unfold parseString. destruct (scanString (length s) s) as [[cs r']|] eqn:E; [|congruence].
  destruct r'; [congruence|]. intros [= _ _ <-]. eapply scanString_length, E.
Qed.

Lemma span_digits_app_eq s : s = fst (span_digits s) ++ snd (span_digits s).
Proof.
  induction s as [|c s IH]; simpl; [reflexivity|].
  destruct (is_digit c); [|reflexivity]. destruct (span_digits s) as [d r]. simpl in *. rewrite IH at 1. reflexivity.
Qed.

Lemma span_digits_length s : (length (snd (span_digits s)) <= length s)%nat.
Proof. rewrite (span_digits_app_eq s) at 2. rewrite length_app. lia. Qed.

Lemma number_sign_length s neg s1 :
  number_sign s = (neg, s1) -> (length s1 <= length s)%nat.
Proof. unfold number_sign. destruct s as [|c s]; [intros [= _ <-]; lia|]. destruct (c =? 45); intros [= _ <-]; simpl; lia. Qed.

Lemma number_int_length s1 ds s2 :
  number_int s1 = (ds, s2) -> (length s2 <= length s1)%nat /\ (ds = [] \/ (length s2 < length s1)%nat).
Proof.
  unfold number_int. destruct s1 as [|c s1']; [intros [= <- <-]; auto|].
  destruct (c =? 48); [intros [= <- <-]; simpl; lia|].
  intros E. pose proof (span_digits_app_eq (c :: s1')) as H. rewrite E in H. simpl in H.
  rewrite H, length_app. destruct ds; simpl; (split; [lia|]); [left; reflexivity | right; lia].
Qed.

Lemma number_frac_length s2 frac s3 :
  number_frac s2 = (frac, s3) -> (length s3 <= length s2)%nat /\ (frac = false \/ (length s3 < length s2)%nat).
Proof.
  unfold number_frac. destruct s2 as [|c s]; [intros [= <- <-]; auto|].
  destruct (c =? 46); intros [= <- <-]; [pose proof (span_digits_length s); simpl; lia | auto].
Qed.

Lemma number_exp_length s3 ex s4 :
  number_exp s3 = (ex, s4) -> (length s4 <= length s3)%nat /\ (ex = false \/ (length s4 < length s3)%nat).
Proof.
  unfold number_exp. destruct s3 as [|c s]; [intros [= <- <-]; auto|].
  destruct ((c =? 101) || (c =? 69)); intros [= <- <-]; [|auto].
  pose proof (span_digits_length (match s with d :: s5 => if (d =? 45) || (d =? 43) then s5 else s | [] => [] end)).
  destruct s as [|d s5]; simpl in *; [lia|]. destruct ((d =? 45) || (d =? 43)); simpl in *; lia.
Qed.

Lemma parseNumber_length s v e r : parseNumber s = POk v e r -> (length r < length s)%nat.
Proof.
  unfold parseNumber.
  destruct (number_sign s) as [neg s1] eqn:E1. destruct (number_int s1) as [ds s2] eqn:E2.
  destruct (number_frac s2) as [frac s3] eqn:E3. destruct (number_exp s3) as [ex s4] eqn:E4.
  apply number_sign_length in E1. apply number_int_length in E2.
  apply number_frac_length in E3. apply number_exp_length in E4.
  destruct s4 as [|c4 s4']; [congruence|].
  destruct frac, ex; simpl; try (intros [= _ _ <-]; lia).
  destruct ds; [congruence|]. intros [= _ _ <-]. destruct E2 as [_ [Hd|Hd]]; [discriminate|lia].
Qed.

Lemma pbind_inv {A B} (p : PR A) (k : A -> PR B) s y e r :
  pbind p k s = POk y e r -> exists x e1 s', p s = POk x e1 s' /\ exists e2, k x s' = POk y e2 r.
Proof.
  unfold pbind. destruct (p s) as [x e1 s'| |]; try congruence.
  destruct (k x s') as [y' e2 r'| |] eqn:E; try congruence. intros [= <- _ <-]. eauto 6.
Qed.

Lemma strip_prefix_length lit s r : strip_prefix lit s = Some r -> (length r <= length s)%nat.
Proof.
  revert s. induction lit as [|a lit IH]; intros [|b s]; simpl; try congruence.
  - intros [= <-]. reflexivity.
  - intros [= <-]. reflexivity.
  - destruct (a =? b); [|congruence]. intros H. apply IH in H. lia.
Qed.

Lemma parseLiteral_length min lit v s x e r :
  parseLiteral min lit v s = POk x e r -> (length r <= length s)%nat.
Proof.
  unfold parseLiteral. destruct (length s <? min)%nat; [congruence|].
  destruct (strip_prefix lit s) eqn:E; [|congruence]. intros [= _ _ <-]. eapply strip_prefix_length, E.
Qed.

Ltac pinv H :=
  repeat match type of H with
  | pbind _ _ _ = POk _ _ _ =>
      let x := fresh "x" in let e := fresh "e" in let s := fresh "s" in
      let H1 := fresh "H" in let e2 := fresh "e" in
      apply pbind_inv in H as (x & e & s & H1 & e2 & H)
  end.

Ltac plengths :=
  repeat match goal with
  | H : nextToken (_ :: _) = POk _ _ _ |- _ =>
      apply nextToken_length in H as [_ H]; specialize (H ltac:(discriminate))
  | H : nextToken _ = POk _ _ _ |- _ => apply nextToken_length in H as [H _]
  | H : parseString _ = POk _ _ _ |- _ => apply parseString_length in H
  | H : parseNumber _ = POk _ _ _ |- _ => apply parseNumber_length in H
  | H : parseLiteral _ _ _ _ = POk _ _ _ |- _ => apply parseLiteral_length in H
  | H : mret _ _ = POk _ _ _ |- _ => injection H as _ _ <-
  end.

(** Every step that succeeds consumes at least one byte. *)
Lemma parse_consumes f :
  (forall lvl s x e r, parseValue f lvl s = POk x e r -> (length r < length s)%nat) /\
  (forall lvl s x e r, parseArray f lvl s = POk x e r -> (length r < length s)%nat) /\
  (forall lvl acc s x e r, parseElements f lvl acc s = POk x e r -> (length r < length s)%nat) /\
  (forall lvl s x e r, parseObject f lvl s = POk x e r -> (length r < length s)%nat) /\
  (forall lvl acc s x e r, parseMembers f lvl acc s = POk x e r -> (length r < length s)%nat).
Proof.
  induction f as [|f (IHv & IHa & IHe & IHo & IHm)];
    [repeat split; intros; simpl in *; congruence|].
  repeat split.
  - intros lvl [|c s] x e r H; simpl in H; [congruence|].
    repeat match type of H with context [if ?b then _ else _] => destruct b end;
      unfold mbind, PR_bind in H; pinv H; plengths; simpl in *; try lia; try congruence.
    all: first [apply IHa in H | apply IHo in H]; lia.
  - intros lvl s x e r H. simpl in H. pose proof (eatSpace_length s).
    destruct (nestingLimit <? S lvl)%nat; [congruence|].
    destruct (eatSpace s) as [|c s'] eqn:Es; [congruence|].
    destruct (c =? 93); unfold mbind, PR_bind in H; pinv H; plengths; try (apply IHe in H); simpl in *; lia.
  - intros lvl acc s x e r H. simpl in H. unfold mbind, PR_bind, perr in H. pinv H.
    match goal with H : parseValue f _ _ = _ |- _ => apply IHv in H end.
    repeat match type of H with context [if ?b then _ else _] => destruct b end; try congruence;
      plengths; try lia.
    apply IHe in H. lia.
  - intros lvl [|b s] x e r H; simpl in H; (destruct (nestingLimit <? S lvl)%nat; [congruence|]);
      unfold mbind, PR_bind, perr in H; [unfold pbind in H; simpl in H; congruence|]. pinv H.
    repeat match type of H with context [if ?b then _ else _] => destruct b end; try congruence;
      plengths; try lia.
    apply IHm in H. lia.
  - intros lvl acc s x e r H. simpl in H. unfold mbind, PR_bind, perr in H. pinv H.
    destruct (negb _); [congruence|]. pinv H.
    match goal with H : parseValue f _ _ = _ |- _ => apply IHv in H end.
    repeat match type of H with context [if ?b then _ else _] => destruct b end; try congruence;
      pinv H; plengths; try lia.
    destruct (_ =? 34); [|congruence]. apply IHm in H. lia.
Qed.

(** ** The fuel [fromJson] gives is enough *)

Lemma pbind_nofuel {A B} (p : PR A) (k : A -> PR B) s :
  p s <> PFuel -> (forall x e s', p s = POk x e s' -> k x s' <> PFuel) -> pbind p k s <> PFuel.
Proof.
  unfold pbind. intros Hp Hk. destruct (p s) as [x e s'| |] eqn:E; [|discriminate|contradiction].
  specialize (Hk x e s' eq_refl). destruct (k x s'); congruence.
Qed.

Lemma nextToken_nofuel s : nextToken s <> PFuel.
Proof.
  unfold nextToken. destruct (eatSpace s) as [|c s']; [discriminate|].
  destruct (is_structural c); [|destruct (c =? 34)]; discriminate.
Qed.

Lemma parseString_nofuel s : parseString s <> PFuel.
Proof. unfold parseString. destruct (scanString _ _) as [[cs [|]]|]; discriminate. Qed.

Lemma parseNumber_nofuel s : parseNumber s <> PFuel.
Proof.
  unfold parseNumber. destruct (number_sign s) as [neg s1]. destruct (number_int s1) as [ds s2].
  destruct (number_frac s2) as [frac s3]. destruct (number_exp s3) as [ex s4].
  destruct s4; [discriminate|]. destruct (frac || ex); [discriminate|]. destruct ds; discriminate.
Qed.

Lemma parseLiteral_nofuel min lit v s : parseLiteral min lit v s <> PFuel.
Proof. unfold parseLiteral. destruct (length s <? min)%nat; [discriminate|]. destruct (strip_prefix lit s); discriminate. Qed.

#[local] Hint Resolve nextToken_nofuel parseString_nofuel parseNumber_nofuel parseLiteral_nofuel : core.

(** Walks a chain of binds, proving each step does not run out of fuel. *)
Ltac nofuel_tac :=
  repeat first
    [ discriminate
    | apply pbind_nofuel; [try solve [auto] | intros ? ? ? ?]
    | progress unfold mbind, PR_bind, mret, PR_ret, pret, perr
    | match goal with |- (if ?b then _ else _) _ <> _ => destruct b end
    | match goal with |- (if ?b then _ else _) <> _ => destruct b end ].

Lemma parse_no_fuel f :
  (forall lvl s, (3 * length s + 1 <= f)%nat -> parseValue f lvl s <> PFuel) /\
  (forall lvl s, (3 * length s + 3 <= f)%nat -> parseArray f lvl s <> PFuel) /\
  (forall lvl acc s, (3 * length s + 2 <= f)%nat -> parseElements f lvl acc s <> PFuel) /\
  (forall lvl s, (3 * length s + 3 <= f)%nat -> parseObject f lvl s <> PFuel) /\
  (forall lvl acc s, (3 * length s + 1 <= f)%nat -> parseMembers f lvl acc s <> PFuel).
Proof.
  induction f as [|f (IHv & IHa & IHe & IHo & IHm)]; [repeat split; intros; lia|].
  destruct (parse_consumes f) as (Cv & _ & _ & _ & _).
  repeat split.
  - intros lvl [|c s] Hf; simpl; [discriminate|]. simpl in Hf.
    repeat match goal with |- context [if ?b then _ else _] => destruct b end; nofuel_tac; auto.
    + apply IHa. lia.
    + apply IHo. lia.
  - intros lvl s Hf. simpl. pose proof (eatSpace_length s).
    destruct (nestingLimit <? S lvl)%nat; [discriminate|].
    destruct (eatSpace s) as [|c s'] eqn:Es; [discriminate|]. destruct (c =? 93); nofuel_tac.
    apply IHe. simpl in *. lia.
  - intros lvl acc s Hf. simpl. nofuel_tac.
    + apply IHv. lia.
    + match goal with H : parseValue f _ _ = _ |- _ => apply Cv in H end.
      match goal with H : nextToken _ = _ |- _ => apply nextToken_length in H as [H _] end.
      apply IHe. lia.
  - intros lvl s Hf. simpl. nofuel_tac.
    match goal with H : nextToken _ = _ |- _ => apply nextToken_length in H as [H _] end.
    apply IHm. lia.
  - intros lvl acc s Hf. simpl. nofuel_tac.
    all: repeat match goal with
         | H : nextToken _ = POk _ _ _ |- _ => apply nextToken_length in H as [H _]
         | H : parseString _ = POk _ _ _ |- _ => apply parseString_length in H
         | H : parseValue _ _ _ = POk _ _ _ |- _ => apply Cv in H
         end.
    + apply IHv. lia.
    + apply IHm. lia.
Qed.

(** ** More fuel gives the same answer *)

Lemma pbind_ext_nofuel {A B} (p p' : PR A) (k k' : A -> PR B) s :
  (p s <> PFuel -> p' s = p s) ->
  (forall x e s', p s = POk x e s' -> k x s' <> PFuel -> k' x s' = k x s') ->
  pbind p k s <> PFuel -> pbind p' k' s = pbind p k s.
Proof.
  unfold pbind. intros Hp Hk H. destruct (p s) as [x e s'| |] eqn:E; [|rewrite Hp by discriminate; reflexivity|contradiction].
  rewrite Hp by discriminate. rewrite (Hk x e s' eq_refl); [reflexivity|].
  destruct (k x s'); congruence.
Qed.

(** Walks two chains of binds that differ only in the fuel of their
    recursive calls, [t] proving the recursive calls equal. *)
Ltac mono_tac t :=
  repeat first
    [ reflexivity
    | solve [t]
    | apply pbind_ext_nofuel; [intros ?; first [solve [t] | reflexivity] | intros ? ? ? ? ? | eassumption]
    | progress unfold mbind, PR_bind, mret, PR_ret, pret, perr in *
    | match goal with |- (if ?b then _ else _) _ = _ => destruct b end ].

(** A recursive call with more fuel, by one of the induction hypotheses. *)
Ltac rec_call IHv IHa IHe IHo IHm :=
  first [eapply IHv | eapply IHa | eapply IHe | eapply IHo | eapply IHm]; [lia | assumption].

Lemma parse_mono f :
  (forall f' lvl s, (f <= f')%nat -> parseValue f lvl s <> PFuel -> parseValue f' lvl s = parseValue f lvl s) /\
  (forall f' lvl s, (f <= f')%nat -> parseArray f lvl s <> PFuel -> parseArray f' lvl s = parseArray f lvl s) /\
  (forall f' lvl acc s, (f <= f')%nat -> parseElements f lvl acc s <> PFuel ->
                        parseElements f' lvl acc s = parseElements f lvl acc s) /\
  (forall f' lvl s, (f <= f')%nat -> parseObject f lvl s <> PFuel -> parseObject f' lvl s = parseObject f lvl s) /\
  (forall f' lvl acc s, (f <= f')%nat -> parseMembers f lvl acc s <> PFuel ->
                        parseMembers f' lvl acc s = parseMembers f lvl acc s).
Proof.
  induction f as [|f (IHv & IHa & IHe & IHo & IHm)]; [repeat split; intros; contradiction|].
  assert (Hle : forall f', (S f <= f')%nat -> exists g, f' = S g /\ (f <= g)%nat)
    by (intros [|g] H; [lia | exists g; split; [reflexivity | lia]]).
  repeat split; intros f' lvl; [intros s | intros s | intros acc s | intros s | intros acc s];
    intros [g [-> Hg]]%Hle H; revert H.
  - destruct s as [|c s]; [reflexivity|]. cbn [parseValue].
    repeat match goal with |- context [if ?b then _ else _] => destruct b end; auto.
    all: intros; rec_call IHv IHa IHe IHo IHm.
  - cbn [parseArray]. destruct (nestingLimit <? S lvl)%nat; [reflexivity|].
    destruct (eatSpace s) as [|c s']; [reflexivity|].
    destruct (c =? 93); [reflexivity|]. intros; rec_call IHv IHa IHe IHo IHm.
  - cbn [parseElements]. intros H. mono_tac ltac:(rec_call IHv IHa IHe IHo IHm).
  - cbn [parseObject]. destruct (nestingLimit <? S lvl)%nat; [reflexivity|].
    intros H. mono_tac ltac:(rec_call IHv IHa IHe IHo IHm).
  - cbn [parseMembers]. intros H. mono_tac ltac:(rec_call IHv IHa IHe IHo IHm).
Qed.

Lemma parseDocument_mono f f' b :
  (f <= f')%nat -> parseDocument f b <> PFuel -> parseDocument f' b = parseDocument f b.
Proof.
  destruct (parse_mono f) as (_ & Ha & _ & Ho & _). intros Hf H. unfold parseDocument in *.
  unfold mbind, PR_bind in *. apply pbind_ext_nofuel; [reflexivity | intros t e s' _ Hk | exact H].
  apply pbind_ext_nofuel; [| intros; reflexivity | exact Hk].
  destruct (t =? 91); [auto|]. destruct (t =? 123); [auto | reflexivity].
Qed.

Lemma parseDocument_nofuel b : parseDocument (3 * length b + 3) b <> PFuel.
Proof.
  destruct (parse_no_fuel (3 * length b + 3)) as (_ & Ha & _ & Ho & _).
  unfold parseDocument, mbind, PR_bind. apply pbind_nofuel; [apply nextToken_nofuel | intros t e s Ht].
  apply nextToken_length in Ht as [Ht _].
  assert (Hb : (length (eatBOM b) <= length b)%nat)
    by (destruct b as [|x [|y [|z b']]]; simpl; try lia; destruct (_ && _ && _); simpl; lia).
  apply pbind_nofuel.
  - destruct (t =? 91); [apply Ha; lia|]. destruct (t =? 123); [apply Ho; lia | discriminate].
  - intros. apply pbind_nofuel; [unfold atEnd; destruct (eatSpace _); discriminate|]. discriminate.
Qed.

(** [fromJson] never runs out of fuel: with any fuel from
    [3 * length b + 3] on, the document parser gives the same answer, and
    that answer is not a lack of fuel. *)
Theorem parseDocument_fuel b f :
  (3 * length b + 3 <= f)%nat ->
  parseDocument f b = parseDocument (3 * length b + 3) b /\ parseDocument f b <> PFuel.
Proof.
  intros Hf. pose proof (parseDocument_nofuel b) as H.
  rewrite (parseDocument_mono _ _ b Hf H). split; [reflexivity | exact H].
Qed.

Lemma eatBOM_brace t : eatBOM (123 :: t) = 123 :: t.
Proof. destruct t as [|x [|y t]]; reflexivity. Qed.

Lemma settled_members o : settled (tl (valueToJson (JObj o))).
Proof. right. destruct o as [|[k x] o]; eexists _, _; split; reflexivity. Qed.

(** The text [toJson] writes for a well-formed object nested at most
    [nestingLimit] deep parses back to the same object, exactly. *)
Theorem fromJson_toJson o :
  json_wf (JObj o) = true -> (json_depth (JObj o) <= nestingLimit)%nat -> fromJson (toJson o) = Parsed (JObj o).
Proof.
  intros Hwf Hdep. pose proof Hwf as Hw. simpl in Hwf. apply andb_true_iff in Hwf as [Hs Hwf].
  unfold fromJson. set (F := (3 * length (toJson o) + 3)%nat).
  pose proof (parseDocument_nofuel (toJson o)) as Hnf. fold F in Hnf.
  assert (Hy : yields (parseObject F 0 (tl (valueToJson (JObj o)) ++ [])) (JObj o) []).
  { apply parseObject_text; [exact Hs | | exact Hdep | left; reflexivity].
    apply (forallb_Forall_reads snd); [|exact Hwf].
    apply List.Forall_forall. intros p _. apply parseValue_text. }
  rewrite app_nil_r in Hy.
  unfold parseDocument, toJson in Hnf |- *.
  change (valueToJson (JObj o)) with (123 :: tl (valueToJson (JObj o))) in Hnf at 1.
  change (valueToJson (JObj o)) with (123 :: tl (valueToJson (JObj o))) at 1.
  rewrite eatBOM_brace in Hnf |- *. unfold mbind, PR_bind in Hnf |- *.
  rewrite (pbind_true _ _ _ _ _ (nextToken_structural 123 _ eq_refl (settled_members o))) in Hnf |- *.
  cbn [Z.eqb Pos.eqb] in Hnf |- *. destruct Hy as [Hy|Hy].
  - rewrite (pbind_true _ _ _ _ _ Hy). reflexivity.
  - unfold pbind in Hnf. rewrite Hy in Hnf. contradiction.
Qed.

(** The objects whose text reads back: well formed and nested at most
    [nestingLimit] deep. *)
Definition document_ok (o : jobj) : bool := json_wf (JObj o) && (json_depth (JObj o) <=? nestingLimit)%nat.

Lemma fromJson_toJson_ok o : document_ok o = true -> fromJson (toJson o) = Parsed (JObj o).
Proof. unfold document_ok. intros [H1 H2%Nat.leb_le]%andb_true_iff. apply fromJson_toJson; assumption. Qed.

Lemma fromJson_toJson_witness :
  json_wf (JObj [("id"%string, JNum 7); ("name"%string, JArr [JStr "x"; JBool true])]) = true /\
  (json_depth (JObj [("id"%string, JNum 7); ("name"%string, JArr [JStr "x"; JBool true])]) <= nestingLimit)%nat /\
  fromJson (toJson [("id"%string, JNum 7); ("name"%string, JArr [JStr "x"; JBool true])]) =
    Parsed (JObj [("id"%string, JNum 7); ("name"%string, JArr [JStr "x"; JBool true])]).
Proof.
  split; [vm_compute; reflexivity|]. split; [vm_compute; lia|].
  apply fromJson_toJson; [vm_compute; reflexivity | vm_compute; lia].
Defined.

Lemma parseDocument_fuel_witness :
  (3 * length (toJson []) + 3 <= 100)%nat /\
  parseDocument 100 (toJson []) = parseDocument (3 * length (toJson []) + 3) (toJson []) /\
  parseDocument 100 (toJson []) <> PFuel.
Proof. split; [vm_compute; lia | apply parseDocument_fuel; vm_compute; lia]. Defined.

(** ** The writer writes bytes *)

Lemma bytes_ok_flat_map {A} (g : A -> list Z) l :
  Forall (fun a => bytes_ok (g a) = true) l -> bytes_ok (flat_map g l) = true.
Proof. induction 1; simpl; [reflexivity|]. rewrite bytes_ok_app. apply andb_true_iff. auto. Qed.

Lemma escapedString_bytes s : bytes_ok (escapedString s) = true.
Proof.
  apply bytes_ok_flat_map, List.Forall_forall. intros a _.
  apply (byte_forall (fun u => bytes_ok (escape_char u))); [vm_compute; reflexivity | apply char_code_range].
Qed.

Lemma digits_bytes l : forallb is_digit l = true -> bytes_ok l = true.
Proof.
  unfold bytes_ok. rewrite !forallb_forall. intros H x Hx. specialize (H x Hx).
  unfold is_digit, is_byte in *. zbool. lia.
Qed.

Lemma number_text_bytes n : bytes_ok (number_text n) = true.
Proof.
  unfold number_text, dec_digits. destruct (n <? 0) eqn:Hn; zbool.
  - change (bytes_ok (45 :: dec_go (S (Z.to_nat (Z.log2 (- n)))) (- n) [])) with
      (is_byte 45 && bytes_ok (dec_go (S (Z.to_nat (Z.log2 (- n)))) (- n) [])).
    rewrite digits_bytes by (apply dec_go_digits; [lia | reflexivity]). reflexivity.
  - apply digits_bytes, dec_go_digits; [lia | reflexivity].
Qed.

Lemma bytes_ok_cons a l : bytes_ok (a :: l) = is_byte a && bytes_ok l.
Proof. reflexivity. Qed.

Ltac bytes_tac := repeat rewrite ?bytes_ok_cons, ?bytes_ok_app, ?escapedString_bytes.

(** Every byte [toJson] writes is a byte. *)
Lemma valueToJson_bytes v : bytes_ok (valueToJson v) = true.
Proof.
  induction v as [| |[]|n|s|l Hl|o Ho] using json_ind'; try reflexivity.
  - apply number_text_bytes.
  - simpl valueToJson. bytes_tac. reflexivity.
  - simpl valueToJson. destruct l as [|x l]; [reflexivity|]. inv Hl. bytes_tac.
    rewrite H1, bytes_ok_flat_map; [reflexivity|].
    eapply Forall_impl; [exact H2|]. intros y Hy. simpl. bytes_tac. rewrite Hy. reflexivity.
  - simpl valueToJson. destruct o as [|[k x] o]; [reflexivity|]. inv Ho. bytes_tac.
    simpl in H1. rewrite H1, bytes_ok_flat_map; [reflexivity|].
    eapply Forall_impl; [exact H2|]. intros [k' y] Hy. simpl in Hy |- *. bytes_tac. rewrite Hy. reflexivity.
Qed.

(** Text that does not open with [[] or [{] (after a byte order mark and
    blanks) is not a document: [fromJson] fails. *)
Theorem fromJson_not_document b :
  match eatSpace (eatBOM b) with c :: _ => c <> 91 /\ c <> 123 | [] => True end ->
  fromJson b = ParseFailed.
Proof.
  intros Hc. unfold fromJson, parseDocument, mbind, PR_bind.
  assert (Ht : match nextToken (eatBOM b) with POk t _ _ => t <> 91 /\ t <> 123 | _ => True end).
  { unfold nextToken. destruct (eatSpace (eatBOM b)) as [|c s]; [lia|].
    destruct (is_structural c); [exact Hc|]. destruct (c =? 34); lia. }
  unfold pbind at 1. destruct (nextToken (eatBOM b)) as [t e r| |]; [|reflexivity|reflexivity].
  destruct Ht as [H1 H2]. apply Z.eqb_neq in H1, H2. rewrite H1, H2. reflexivity.
Qed.

Lemma fromJson_not_document_witness :
  match eatSpace (eatBOM [60; 104; 116; 109; 108; 62]) with c :: _ => c <> 91 /\ c <> 123 | [] => True end /\
  fromJson [60; 104; 116; 109; 108; 62] = ParseFailed.
Proof. split; [simpl; lia | apply fromJson_not_document; simpl; lia]. Defined.

(** ** Nesting deeper than [nestingLimit] *)

Lemma pbind_not_ok {A B} (p : PR A) (k : A -> PR B) s :
  (forall x e r, p s <> POk x e r) -> forall y e r, pbind p k s <> POk y e r.
Proof.
  unfold pbind. intros H y e r. destruct (p s) as [x e1 s'| |] eqn:E; [|discriminate|discriminate].
  exfalso. eapply H. reflexivity.
Qed.

Lemma document_of_not_ok r : (forall x e rest, r <> POk x e rest) -> document_of r = ParseFailed.
Proof. destruct r as [x e rest| |]; [intros H; exfalso; eapply H; reflexivity | reflexivity | reflexivity]. Qed.

(** [S k] opening brackets at level [lvl] that pass the limit: no value. *)
Lemma parseValue_deep k f lvl s :
  (nestingLimit < lvl + S k)%nat -> forall x e r, parseValue f lvl (repeat 91 (S k) ++ s) <> POk x e r.
Proof.
  revert f lvl. induction k as [|k IH]; intros [|[|[|f]]] lvl Hk x e r; try discriminate;
    cbn [repeat app parseValue]; cbn -[parseArray parseElements nestingLimit]; cbn [parseArray].
  all: destruct (nestingLimit <? S lvl)%nat eqn:El; try discriminate.
  all: apply Nat.ltb_ge in El; try lia.
  rewrite eatSpace_nonspace by reflexivity. cbn -[parseValue]. unfold mbind, PR_bind.
  apply pbind_not_ok, IH. lia.
Qed.

(** A document that opens more than [nestingLimit] arrays is refused
    ([QJsonParseError::DeepNesting]), whatever follows. *)
Theorem fromJson_deep_nesting n b : (nestingLimit < n)%nat -> fromJson (repeat 91 n ++ b) = ParseFailed.
Proof.
  intros Hn. destruct n as [|[|m]]; [unfold nestingLimit in Hn; lia | unfold nestingLimit in Hn; lia|].
  unfold fromJson. apply document_of_not_ok.
  set (F := (3 * length (repeat 91%Z (S (S m)) ++ b) + 3)%nat).
  assert (HF : exists F2, F = S (S F2)) by (exists (3 * length (repeat 91%Z (S (S m)) ++ b) + 1)%nat; unfold F; lia).
  destruct HF as [F2 ->]. intros x e rest.
  unfold parseDocument. cbn [repeat app].
  replace (eatBOM (91 :: 91 :: repeat 91 m ++ b)) with (91 :: 91 :: repeat 91 m ++ b)
    by (destruct (repeat 91 m ++ b); reflexivity).
  unfold mbind, PR_bind.
  rewrite (pbind_true _ _ _ _ _ (nextToken_before 91 91 _ eq_refl eq_refl)). cbn [Z.eqb Pos.eqb].
  apply pbind_not_ok. intros x' e' r'. cbn [parseArray].
  rewrite limit_ok by (unfold nestingLimit; lia).
  rewrite eatSpace_nonspace by reflexivity. cbn -[parseValue]. unfold mbind, PR_bind.
  apply pbind_not_ok. apply (parseValue_deep m F2 1 b). lia.
Qed.
