(* ===== verification/Model.v ===== *)
(** [EnginioModel] (enginiomodel.cpp): the list model that caches the objects
    of a query and forwards edits to the backend.  The private class
    [EnginioModelPrivate] is the record [Model]; its [AttachedDataContainer]
    (a [QHash] from object id to a [uint] reference count, a row and the
    create reply) is a [gmap]; [_dataChanged] (a [QMap] from pending replies
    to the row and the object they concern) is a [gmap] from reply numbers;
    the functors [removeDelayed] and [setDataDelyed] connect to a create
    reply are the list [swaps].  JSON values are the inductive [json]; a
    [QJsonObject] is an association list sorted by key, as Qt 5 stores it,
    and [operator[]] on a non-const object inserts [Null].  Methods run in a
    state, output and failure monad [ST]: the [EnginioClient] calls are
    logged with the reply number they return, the model's signals and
    [qWarning] lines are an output trace, and [None] is undefined behaviour
    of a release build (a null [_enginio], [end()] dereferenced, an
    out-of-range [QJsonArray::replace]); [Q_ASSERT]s are compiled out.
    [mhandle] wires the public methods and the signals of the client and of
    the replies as events.

    The file ends with the two calculi the other files use: a partial one,
    [wp], for invariants (ModelInv.v) and a total one, [twp],
    for functional specifications (ModelRoles.v, ModelSpec.v). *)

From S2P Require Import Prelude Bytes Json.
From stdpp Require Import base gmap strings.
From Stdlib Require Strings.String.

Open Scope Z_scope.

(** ** Names and roles *)

(** The keys of [EnginioString] (enginiostring_p.h). *)
Module EnginioString.
Definition id : string := "id".
Definition objectType : string := "objectType".
Definition pageSize : string := "pageSize".
Definition limit : string := "limit".
Definition offset : string := "offset".
Definition message : string := "message".
Definition results : string := "results".
Definition createdAt : string := "createdAt".
Definition updatedAt : string := "updatedAt".
Definition _synced : string := "_synced".
End EnginioString.

(** [Qt::DisplayRole] and the enum [EnginioModel::Roles], which starts after
    [Qt::UserRole] (256). *)
Definition DisplayRole : Z := 0.
Definition InvalidRole : Z := -1.
Definition SyncedRole : Z := 257.
Definition CreatedAtRole : Z := 258.
Definition UpdatedAtRole : Z := 259.
Definition IdRole : Z := 260.
Definition ObjectTypeRole : Z := 261.
Definition LastRole : Z := 262.

(** [const int EnginioModelPrivate::FullModelReset = -1;] and
    [IncrementalModelUpdate = -2;] *)
Definition FullModelReset : Z := -1.
Definition IncrementalModelUpdate : Z := -2.

(** ** The attached data *)

(** [struct EnginioModelPrivateAttachedData]: [uint ref], [int row], and the
    reply of the create request of a new object. *)
Record AttachedData := mkAttached {
  ref : Z;
  row : Z;
  createReply : option nat
}.

(** The value-initialized [AttachedData] that [QHash] makes for a missing key. *)
Definition noData : AttachedData := mkAttached 0 0 None.

(** [++] and [--] on a 32-bit [uint]. *)
Definition uint_inc (x : Z) : Z := (x + 1) mod 2 ^ 32.
Definition uint_dec (x : Z) : Z := (x - 1) mod 2 ^ 32.

Abbreviation AttachedDataContainer := (gmap string AttachedData).

(** [bool contains(int row) const] *)
Definition contains_row (a : AttachedDataContainer) (r : Z) : bool :=
  existsb (fun p => row p.2 =? r) (map_to_list a).

(** [AttachedData value(int row) const]; [Q_UNREACHABLE] when no entry has
    that row. *)
Definition value_row (a : AttachedDataContainer) (r : Z) : option AttachedData :=
  match filter (fun p => row p.2 = r) (map_to_list a) with
  | p :: _ => Some p.2
  | [] => None
  end.

(** [void updateAllDataAfterRow(const int row)] *)
Definition updateAllDataAfterRow (a : AttachedDataContainer) (r : Z) : AttachedDataContainer :=
  fmap (fun d => if r <? row d then mkAttached (ref d) (row d - 1) (createReply d)
                 else if row d =? r then mkAttached (ref d) (-1) (createReply d)
                 else d) a.

(** [AttachedData ref(const QString &id, int row)]: [operator[]] inserts a
    zeroed entry for a new id. *)
Definition ref_id (a : AttachedDataContainer) (id : string) (r : Z)
    : AttachedDataContainer * AttachedData :=
  let d := default noData (a !! id) in
  let d' := mkAttached (uint_inc (ref d)) r (createReply d) in
  (<[id := d']> a, d').

(** The entry the loop of [ref(int row)] stops at: the first with that row. *)
Definition row_entry (a : AttachedDataContainer) (r : Z) : option (string * AttachedData) :=
  head (filter (fun p => row p.2 = r) (map_to_list a)).

(** [AttachedData ref(int row)]; with no entry of that row the code
    dereferences [end()]. *)
Definition ref_row (a : AttachedDataContainer) (r : Z)
    : option (AttachedDataContainer * AttachedData) :=
  match row_entry a r with
  | Some (id, d) =>
      let d' := mkAttached (uint_inc (ref d)) (row d) (createReply d) in
      Some (<[id := d']> a, d')
  | None => None
  end.

(** [AttachedData deref(const QString &id)]: [take] gives a zeroed value for a
    missing id (the [Q_ASSERT(contains(id))] is compiled out in release
    builds). *)
Definition deref (a : AttachedDataContainer) (id : string) : AttachedDataContainer * AttachedData :=
  let d := default noData (a !! id) in
  let d' := mkAttached (uint_dec (ref d)) (row d) (createReply d) in
  (if ref d' =? 0 then delete id a else <[id := d']> (delete id a), d').

(** ** The model object *)

(** The [EnginioClient] a model is attached to: the pointer (a number) and the
    two settings [execute] checks. *)
Record ClientRef := mkClientRef {
  clientPtr : nat;
  backendId : string;
  backendSecret : string
}.

(** The calls the model makes on its client, and on the replies it made. *)
Inductive Call :=
| CallCreate (object : jobj) (operation : Z)
| CallRemove (object : jobj) (operation : Z)
| CallUpdate (object : jobj) (operation : Z)
| CallQuery (query : jobj) (operation : Z)
| CallDummy (createReply : nat)          (** [new EnginioReply(client, new EnginioDummyReply(createReply))] *)
| CallMarkAsError (msg : string)         (** [_reply->setNetworkReply(new EnginioFakeReply(...))] *)
| CallSwapNetworkReply (ereply : nat).   (** [_reply->swapNetworkReply(ereply)] *)

(** The functors [removeDelayed] and [setDataDelyed] connect to the
    [finished] signal of a create reply ([SwapNetworkReplyForRemove],
    [SwapNetworkReplyForSetData]): the reply handed out, the row's object and
    the temporary id, and for an update the value and the role. *)
Inductive Swap :=
| SwapForRemove (reply : nat) (object : jobj) (tmpId : string)
| SwapForSetData (reply : nat) (object : jobj) (tmpId : string) (value : json) (role : Z).

Definition swap_reply (s : Swap) : nat :=
  match s with SwapForRemove r _ _ | SwapForSetData r _ _ _ _ => r end.
Definition swap_tmpId (s : Swap) : string :=
  match s with SwapForRemove _ _ t | SwapForSetData _ _ t _ _ => t end.

(** The signals of the model ([QAbstractItemModel]'s notifications and its own)
    and its [qWarning] lines. *)
Inductive Signal :=
| BeginResetModel | EndResetModel
| BeginInsertRows (first last : Z) | EndInsertRows
| BeginRemoveRows (first last : Z) | EndRemoveRows
| DataChangedSignal (top bottom : Z) (roles : list Z)
| QueryChangedSignal (query : jobj)
| OperationChangedSignal (operation : Z)
| EnginioChangedSignal (enginio : option nat)   (** the [EnginioClient *] it carries *)
| ModelWarning (msg : string).

(** The fields of [EnginioModelPrivate] (lines 147-165), with the replies
    numbered in the order the client hands them out. *)
Record Model := mkModel {
  query : jobj;                                 (** [_query] *)
  enginio : option ClientRef;                   (** [_enginio] *)
  operation : Z;                                (** [_operation] *)
  dataChanged : gmap nat (Z * jobj);            (** [_dataChanged] *)
  attachedData : AttachedDataContainer;         (** [_attachedData] *)
  latestRequestedOffset : Z;                    (** [_latestRequestedOffset] *)
  canFetchMore : bool;                          (** [_canFetchMore] *)
  rolesCounter : Z;                             (** [_rolesCounter] *)
  roles : gmap Z string;                        (** [_roles] *)
  data : list json;                             (** [_data] *)
  nextReply : nat;                              (** the next reply number *)
  calls : list (nat * Call);                    (** client calls, oldest first *)
  swaps : list (nat * Swap)                     (** functors connected to the [finished]
                                                    signal of a create reply, in order *)
}.

(** The constructor (lines 216-227): no client, [_operation()] is 0. *)
Definition initialModel : Model :=
  mkModel [] None 0 ∅ ∅ 0 false SyncedRole ∅ [] 0 [] [].

(** ** A state, output and failure monad for the model's methods *)

Definition ST (A : Type) := Model -> option (A * Model * list Signal).

Definition ret {A} (x : A) : ST A := fun m => Some (x, m, []).

Definition bind {A B} (c : ST A) (k : A -> ST B) : ST B :=
  fun m => match c m with
           | None => None
           | Some (x, m1, o1) =>
               match k x m1 with
               | None => None
               | Some (y, m2, o2) => Some (y, m2, o1 ++ o2)
               end
           end.

(** The method bodies use stdpp's [x ← c; k] and [c ;; k]. *)
#[export] Instance ST_ret : MRet ST := @ret.
#[export] Instance ST_bind : MBind ST := fun A B k c => bind c k.

Definition gets {A} (f : Model -> A) : ST A := fun m => Some (f m, m, []).
Definition modify (f : Model -> Model) : ST unit := fun m => Some (tt, f m, []).
Definition emit (s : Signal) : ST unit := fun m => Some (tt, m, [s]).
(** Undefined behaviour of the C++ code. *)
Definition undefined {A} : ST A := fun _ => None.
Definition lift {A} (o : option A) : ST A := match o with Some x => ret x | None => undefined end.
Definition when (b : bool) (c : ST unit) : ST unit := if b then c else ret tt.

(** ** Field updates *)

Definition set_query (q : jobj) (m : Model) : Model :=
  mkModel q (enginio m) (operation m) (dataChanged m) (attachedData m) (latestRequestedOffset m)
    (canFetchMore m) (rolesCounter m) (roles m) (data m) (nextReply m) (calls m) (swaps m).
Definition set_enginio (e : option ClientRef) (m : Model) : Model :=
  mkModel (query m) e (operation m) (dataChanged m) (attachedData m) (latestRequestedOffset m)
    (canFetchMore m) (rolesCounter m) (roles m) (data m) (nextReply m) (calls m) (swaps m).
Definition set_operation (op : Z) (m : Model) : Model :=
  mkModel (query m) (enginio m) op (dataChanged m) (attachedData m) (latestRequestedOffset m)
    (canFetchMore m) (rolesCounter m) (roles m) (data m) (nextReply m) (calls m) (swaps m).
Definition set_dataChanged (dc : gmap nat (Z * jobj)) (m : Model) : Model :=
  mkModel (query m) (enginio m) (operation m) dc (attachedData m) (latestRequestedOffset m)
    (canFetchMore m) (rolesCounter m) (roles m) (data m) (nextReply m) (calls m) (swaps m).
Definition set_attachedData (a : AttachedDataContainer) (m : Model) : Model :=
  mkModel (query m) (enginio m) (operation m) (dataChanged m) a (latestRequestedOffset m)
    (canFetchMore m) (rolesCounter m) (roles m) (data m) (nextReply m) (calls m) (swaps m).
Definition set_latestRequestedOffset (n : Z) (m : Model) : Model :=
  mkModel (query m) (enginio m) (operation m) (dataChanged m) (attachedData m) n
    (canFetchMore m) (rolesCounter m) (roles m) (data m) (nextReply m) (calls m) (swaps m).
Definition set_canFetchMore (b : bool) (m : Model) : Model :=
  mkModel (query m) (enginio m) (operation m) (dataChanged m) (attachedData m)
    (latestRequestedOffset m) b (rolesCounter m) (roles m) (data m) (nextReply m) (calls m) (swaps m).
Definition set_roles (cnt : Z) (rs : gmap Z string) (m : Model) : Model :=
  mkModel (query m) (enginio m) (operation m) (dataChanged m) (attachedData m)
    (latestRequestedOffset m) (canFetchMore m) cnt rs (data m) (nextReply m) (calls m) (swaps m).
Definition set_data (d : list json) (m : Model) : Model :=
  mkModel (query m) (enginio m) (operation m) (dataChanged m) (attachedData m)
    (latestRequestedOffset m) (canFetchMore m) (rolesCounter m) (roles m) d (nextReply m) (calls m) (swaps m).
Definition set_swaps (sw : list (nat * Swap)) (m : Model) : Model :=
  mkModel (query m) (enginio m) (operation m) (dataChanged m) (attachedData m)
    (latestRequestedOffset m) (canFetchMore m) (rolesCounter m) (roles m) (data m) (nextReply m) (calls m) sw.
Definition set_calls (cs : list (nat * Call)) (m : Model) : Model :=
  mkModel (query m) (enginio m) (operation m) (dataChanged m) (attachedData m)
    (latestRequestedOffset m) (canFetchMore m) (rolesCounter m) (roles m) (data m) (nextReply m) cs (swaps m).

(** A call on the client ([_enginio->create], [remove], [update], [query]),
    which returns a new reply; through a null [_enginio] it is undefined. *)
Definition clientCall (c : Call) : ST nat :=
  fun m => match enginio m with
           | None => None
           | Some _ =>
               Some (nextReply m,
                     mkModel (query m) (enginio m) (operation m) (dataChanged m) (attachedData m)
                       (latestRequestedOffset m) (canFetchMore m) (rolesCounter m) (roles m) (data m)
                       (S (nextReply m)) (calls m ++ [(nextReply m, c)]) (swaps m), [])
           end.

(** [_dataChanged.insert(ereply, qMakePair(row, object))] *)
Definition track (r : nat) (row : Z) (o : jobj) : ST unit :=
  modify (fun m => set_dataChanged (<[r := (row, o)]> (dataChanged m)) m).

(** ** The methods of [EnginioModelPrivate] *)

(** The text of the warning of line 624; [dq] is the double quote. *)
Definition dq : string := String.String (Ascii.ascii_of_nat 34) String.EmptyString.
Definition syncedWarning : string :=
  "EnginioModel can not be used with objects having " +:+ dq +:+ "_synced" +:+ dq
  +:+ " property. The property will be overriden.".

(** The keys of [firstObject] not yet a role get the next role numbers, in
    the object's key order (the loop of lines 619-627). *)
Fixpoint addRoles (definedRoles : list string) (keys : list string) : ST unit :=
  match keys with
  | [] => ret tt
  | key :: keys =>
      (if existsb (String.eqb key) definedRoles then
         when (String.eqb key EnginioString._synced)
           (emit (ModelWarning syncedWarning))
       else
         modify (fun m => set_roles (rolesCounter m + 1) (<[rolesCounter m := key]> (roles m)) m)) ;;
      addRoles definedRoles keys
  end.

(** [void syncRoles()] *)
Definition syncRoles : ST unit :=
  firstObject ← gets (fun m => toObject (arr_at (data m) 0));
  rs ← gets roles;
  when (map_size rs =? 0)%nat
    (modify (set_roles LastRole
       (<[ObjectTypeRole := EnginioString.objectType]> (<[IdRole := EnginioString.id]>
         (<[UpdatedAtRole := EnginioString.updatedAt]> (<[CreatedAtRole := EnginioString.createdAt]>
           (<[SyncedRole := EnginioString._synced]> rs))))))) ;;
  rs ← gets roles;
  addRoles (map snd (map_to_list rs)) (map fst firstObject).

(** [EnginioReply *append(const QJsonObject &value)]; [uuid] is the text of
    [QUuid::createUuid().toString()]. *)
Definition append (value : jobj) (uuid : string) : ST nat :=
  q ← gets query;
  let '(objectType, q') := obj_index EnginioString.objectType q in
  modify (set_query q') ;;
  let object := obj_insert EnginioString.objectType objectType value in
  op ← gets operation;
  ereply ← clientCall (CallCreate object op);
  let temporaryId := ("tmp" ++ uuid)%string in
  let object := obj_insert EnginioString.id (JStr temporaryId) object in
  r ← gets (fun m => Z.of_nat (length (data m)));
  let d := mkAttached 1 r (Some ereply) in
  (if r =? 0 then
     emit BeginResetModel ;;
     modify (fun m => set_attachedData (<[temporaryId := d]> (attachedData m)) m) ;;
     modify (fun m => set_data (data m ++ [JObj value]) m) ;;
     syncRoles ;;
     track ereply r object ;;
     emit EndResetModel
   else
     emit (BeginInsertRows r r) ;;
     modify (fun m => set_attachedData (<[temporaryId := d]> (attachedData m)) m) ;;
     modify (fun m => set_data (data m ++ [JObj value]) m) ;;
     track ereply r object ;;
     emit EndInsertRows) ;;
  ret ereply.

(** [EnginioReply *removeNow(int row, const QJsonObject &oldObject, const QString &id)] *)
Definition removeNow (r : Z) (oldObject : jobj) (id : string) : ST nat :=
  modify (fun m => set_attachedData (fst (ref_id (attachedData m) id r)) m) ;;
  op ← gets operation;
  ereply ← clientCall (CallRemove oldObject op);
  track ereply r oldObject ;;
  (* QVector<int> roles(1); roles.append(EnginioModel::SyncedRole); *)
  emit (DataChangedSignal r r [0; SyncedRole]) ;;
  ret ereply.

(** What a method returns: no reply ([0]), a reply, or a reply carrying an
    error made up by the model. *)
Inductive Reply :=
| NoReply
| ReplyTo (ereply : nat)
| ErrorReply (msg : string).

(** [void delayedOperation(int row, EnginioReply **newReply, QString *tmpId,
    EnginioReply **createReply)]: the new reply, the temporary id and the
    create reply.  [QMap::value] gives [(0, {})] for a reply not in
    [_dataChanged]; a null [createReply] is dereferenced at line 566. *)
Definition delayedOperation (r : Z) : ST (nat * string * nat) :=
  a ← gets attachedData;
  '(a, d) ← lift (ref_row a r);
  modify (set_attachedData a) ;;
  cr ← lift (createReply d);
  tmpId ← gets (fun m => toString (obj_value EnginioString.id (default (0, []) (dataChanged m !! cr)).2));
  newReply ← clientCall (CallDummy cr);
  ret (newReply, tmpId, cr).

(** [QObject::connect(createReply, &EnginioReply::finished, swapNetworkReply)] *)
Definition connectSwap (cr : nat) (s : Swap) : ST unit :=
  modify (fun m => set_swaps (swaps m ++ [(cr, s)]) m).

(** [EnginioReply *removeDelayed(int row, const QJsonObject &oldObject)] *)
Definition removeDelayed (r : Z) (oldObject : jobj) : ST nat :=
  '(ereply, tmpId, cr) ← delayedOperation r;
  connectSwap cr (SwapForRemove ereply oldObject tmpId) ;;
  ret ereply.

(** [EnginioReply *remove(int row)] *)
Definition remove (r : Z) : ST Reply :=
  oldObject ← gets (fun m => toObject (arr_at (data m) r));
  let '(idv, oldObject) := obj_index EnginioString.id oldObject in
  let id := toString idv in
  if String.eqb id String.EmptyString then ereply ← removeDelayed r oldObject; ret (ReplyTo ereply)
  else ereply ← removeNow r oldObject id; ret (ReplyTo ereply).

(** [EnginioReply *setDataNow(row, value, role, oldObject, id)] *)
Definition setDataNow (r : Z) (value : json) (role : Z) (oldObject : jobj) (id : string) : ST nat :=
  roleName ← gets (fun m => default String.EmptyString (roles m !! role));
  let newObject := obj_insert roleName value oldObject in
  let deltaObject := obj_insert EnginioString.id (JStr id) (obj_insert roleName value []) in
  let '(objectType, newObject) := obj_index EnginioString.objectType newObject in
  let deltaObject := obj_insert EnginioString.objectType objectType deltaObject in
  op ← gets operation;
  ereply ← clientCall (CallUpdate deltaObject op);
  track ereply r oldObject ;;
  modify (fun m => set_attachedData (fst (ref_id (attachedData m) id r)) m) ;;
  d ← gets data;
  d' ← lift (arr_replace d r (JObj newObject));
  modify (set_data d') ;;
  emit (DataChangedSignal r r []) ;;
  ret ereply.

(** [EnginioReply *setDataDelyed(int row, const QVariant &value, int role,
    const QJsonObject &oldObject)] *)
Definition setDataDelyed (r : Z) (value : json) (role : Z) (oldObject : jobj) : ST nat :=
  '(ereply, tmpId, cr) ← delayedOperation r;
  connectSwap cr (SwapForSetData ereply oldObject tmpId value role) ;;
  ret ereply.

(** [EnginioReply *setData(const int row, const QVariant &value, int role)];
    the error reply needs [EnginioClientPrivate::get(_enginio)]. *)
Definition setData (r : Z) (value : json) (role : Z) : ST Reply :=
  if SyncedRole <? role then
    oldObject ← gets (fun m => toObject (arr_at (data m) r));
    let '(idv, oldObject) := obj_index EnginioString.id oldObject in
    let id := toString idv in
    if String.eqb id String.EmptyString then ereply ← setDataDelyed r value role oldObject; ret (ReplyTo ereply)
    else ereply ← setDataNow r value role oldObject id; ret (ReplyTo ereply)
  else
    e ← gets enginio;
    match e with
    | None => undefined
    | Some _ => ret (ErrorReply "EnginioModel: Trying to update an object with unknown role")
    end.

(** ** The functors on a finished create reply *)

(** What a finished [EnginioReply] carries. *)
Record Response := mkResponse {
  resp_reply : nat;             (** which reply *)
  resp_data : jobj;             (** [data()] *)
  resp_backendStatus : Z;       (** [backendStatus()] *)
  resp_networkError : bool      (** [networkError() != QNetworkReply::NoError] *)
}.

(** [EnginioReply::isError()] of a finished reply. *)
Definition isError (resp : Response) : bool := resp_networkError resp.

(** A call on the reply [k] the model made. *)
Definition replyCall (k : nat) (c : Call) : ST unit :=
  modify (fun m => set_calls (calls m ++ [(k, c)]) m).

(** [SwapNetworkReplyBase::markAsError] *)
Definition markAsError (reply : nat) (msg : string) : ST unit :=
  e ← gets enginio;
  match e with None => undefined | Some _ => replyCall reply (CallMarkAsError msg) end.

(** [int getCurrentRow()] *)
Definition getCurrentRow (tmpId : string) : ST Z :=
  a ← gets attachedData;
  let '(a, d) := deref a tmpId in
  modify (set_attachedData a) ;;
  ret (row d).

(** [QString getAndSetCurrentId(EnginioReply *finishedCreateReply)]: the id
    and the functor's object with it. *)
Definition getAndSetCurrentId (resp : Response) (object : jobj) : string * jobj :=
  let id := toString (obj_value EnginioString.id (resp_data resp)) in
  (id, obj_insert EnginioString.id (JStr id) object).

(** [void swapNetworkReply(EnginioReply *ereply)]: [QMap::take] gives
    [(0, {})] for a missing key. *)
Definition swapNetworkReply (reply ereply : nat) : ST unit :=
  dc ← gets dataChanged;
  let data := default (0, []) (dc !! ereply) in
  modify (set_dataChanged (<[reply := data]> (delete ereply dc))) ;;
  replyCall reply (CallSwapNetworkReply ereply).

(** [void SwapNetworkReplyForRemove::operator()(EnginioReply *finishedCreateReply)] *)
Definition swapForRemove (resp : Response) (reply : nat) (object : jobj) (tmpId : string) : ST unit :=
  if isError resp then
    markAsError reply "Dependent create query failed, so object coudl not be removed"
  else
    r ← getCurrentRow tmpId;
    let '(id, object) := getAndSetCurrentId resp object in
    ereply ← removeNow r object id;
    swapNetworkReply reply ereply.

(** [void SwapNetworkReplyForSetData::operator()(EnginioReply *finishedCreateReply)] *)
Definition swapForSetData (resp : Response) (reply : nat) (object : jobj) (tmpId : string)
    (value : json) (role : Z) : ST unit :=
  if isError resp then
    markAsError reply "Dependent create query failed, so object coudl not be updated"
  else
    r ← getCurrentRow tmpId;
    let '(id, object) := getAndSetCurrentId resp object in
    ereply ← setDataNow r value role object id;
    swapNetworkReply reply ereply.

(** The call of a connected functor. *)
Definition runSwap (resp : Response) (s : Swap) : ST unit :=
  match s with
  | SwapForRemove reply object tmpId => swapForRemove resp reply object tmpId
  | SwapForSetData reply object tmpId value role => swapForSetData resp reply object tmpId value role
  end.

(** The functors connected to a reply run in connection order; a finished
    reply does not finish again, so each runs once. *)
Fixpoint runSwaps (resp : Response) (l : list Swap) : ST unit :=
  match l with
  | [] => ret tt
  | s :: l =>
      modify (fun m => set_swaps (filter (fun p => swap_reply p.2 <> swap_reply s) (swaps m)) m) ;;
      runSwap resp s ;;
      runSwaps resp l
  end.

(** [EnginioReply::finished] of the reply [resp_reply resp]. *)
Definition replyFinished (resp : Response) : ST unit :=
  sw ← gets swaps;
  runSwaps resp (map snd (filter (fun p => p.1 = resp_reply resp) sw)).

(** [QHash::key(value, defaultKey)]: the first key holding [value]. *)
Definition role_key (rs : gmap Z string) (name : string) : Z :=
  match filter (fun p => p.2 = name) (map_to_list rs) with
  | p :: _ => p.1
  | [] => InvalidRole
  end.

(** [EnginioReply *setValue(int row, const QString &role, const QVariant &value)] *)
Definition setValue (r : Z) (role : string) (value : json) : ST Reply :=
  key ← gets (fun m => role_key (roles m) role);
  setData r value key.

(** [void execute()] *)
Definition execute : ST unit :=
  e ← gets enginio;
  match e with
  | None => ret tt
  | Some c =>
      if String.eqb (backendId c) String.EmptyString || String.eqb (backendSecret c) String.EmptyString
      then ret tt
      else
        q ← gets query;
        match q with
        | [] => ret tt
        | _ =>
            op ← gets operation;
            ereply ← clientCall (CallQuery q op);
            cfm ← gets canFetchMore;
            when cfm
              (q ← gets query;
               let '(l, q') := obj_index EnginioString.limit q in
               modify (fun m => set_latestRequestedOffset (toDouble l) (set_query q' m))) ;;
            track ereply FullModelReset []
        end
  end.

(** Emitting one of the model's NOTIFY signals [queryChanged],
    [operationChanged] or [enginioChanged]: the constructor connects each to
    a [QueryChanged] functor (lines 224-226), whose [operator()] calls
    [execute] (lines 201-215).  ModelWiring.v derives this from the
    connections. *)
Definition notify (s : Signal) : ST unit :=
  emit s ;;
  execute.

(** [void setQuery(const QJsonObject &query)] *)
Definition setQuery (query : jobj) : ST unit :=
  modify (set_query query) ;;
  (if obj_contains EnginioString.pageSize query then
     let pageSize := toDouble (obj_value EnginioString.pageSize query) in
     q ← gets Model.query;
     let '(l, q) := obj_index EnginioString.limit q in
     let '(o, q) := obj_index EnginioString.offset q in
     modify (set_query q) ;;
     when (negb (toDouble l =? 0))
       (emit (ModelWarning "'limit' parameter can not be used together with model pagining feature, the value will be ignored")) ;;
     when (negb (toDouble o =? 0))
       (emit (ModelWarning "'offset' parameter can not be used together with model pagining feature, the value will be ignored") ;;
        modify (fun m => set_query (obj_remove EnginioString.offset (Model.query m)) m)) ;;
     modify (fun m => set_query (obj_insert EnginioString.limit (JNum pageSize) (Model.query m)) m) ;;
     modify (set_canFetchMore true)
   else modify (set_canFetchMore false)) ;;
  notify (QueryChangedSignal query).

(** [void setOperation(const int operation)] *)
Definition setOperation (op : Z) : ST unit :=
  modify (set_operation op) ;;
  notify (OperationChangedSignal op).

(** The pointer an [EnginioClient *] is. *)
Definition client_ptr (e : option ClientRef) : option nat :=
  match e with Some c => Some (clientPtr c) | None => None end.

(** [void setEnginio(const EnginioClient *enginio)] on the model's fields;
    the connections it makes and breaks are the events [MFinished],
    [MClientDestroyed] and [MClientChanged] of [mhandle], which run while
    this client is [_enginio] (ModelWiring.v models the connections). *)
Definition setEnginio (e : option ClientRef) : ST unit :=
  modify (set_enginio e) ;;
  notify (EnginioChangedSignal (client_ptr e)).

(** [void fetchMore(int row)] *)
Definition fetchMore (r : Z) : ST unit :=
  currentOffset ← gets (fun m => Z.of_nat (length (data m)));
  cfm ← gets canFetchMore;
  latest ← gets latestRequestedOffset;
  if negb cfm || (currentOffset <? latest) then ret tt
  else
    q ← gets query;
    let '(l, q) := obj_index EnginioString.limit q in
    let limit := Z.max (r - currentOffset) (toDouble l) in
    let q := obj_insert EnginioString.limit (JNum limit)
               (obj_insert EnginioString.offset (JNum currentOffset) q) in
    modify (set_latestRequestedOffset (latest + limit)) ;;
    op ← gets operation;
    ereply ← clientCall (CallQuery q op);
    track ereply IncrementalModelUpdate q.

(** [QVariant data(unsigned row, int role)]; [None] is the invalid [QVariant]. *)
Definition data_at (m : Model) (r : Z) (role : Z) : option json :=
  if role =? SyncedRole then Some (JBool (negb (contains_row (attachedData m) r)))
  else if role =? DisplayRole then Some (arr_at (data m) r)
  else
    let object := toObject (arr_at (data m) r) in
    match object with
    | [] => None
    | _ =>
        let roleName := default String.EmptyString (roles m !! role) in
        if String.eqb roleName String.EmptyString then None else Some (obj_value roleName object)
    end.

(** [int rowCount() const] *)
Definition rowCount (m : Model) : Z := Z.of_nat (length (data m)).

(** [QHash<int, QByteArray> roleNames() const]: each name by [toUtf8], which
    is the bytes of the name for the ASCII names the model holds. *)
Definition roleNames (m : Model) : gmap Z (list Z) := bytes_of_string <$> roles m.

(** ** Replies coming back *)

Section Finished.

(** [QDateTime::fromString(a.toString(), Qt::ISODate) <
    QDateTime::fromString(b.toString(), Qt::ISODate)] on two [updatedAt]
    values; Qt's date parsing is not modelled. *)
Variable updatedBefore : json -> json -> bool.

(** The branch of [finishedRequest] for a request on one object (lines
    465-518). *)
Definition finishedObject (resp : Response) (oldValue : jobj) : ST unit :=
  let newValue := resp_data resp in
  let '(oldIdv, oldValue) := obj_index EnginioString.id oldValue in
  let oldId := toString oldIdv in
  a ← gets attachedData;
  let '(a, attached) := deref a oldId in
  modify (set_attachedData a) ;;
  let r := row attached in
  let status404 := resp_backendStatus resp =? 404 in
  let removeOperation := match newValue with [] => true | _ => false end in
  if ((r =? -1) || status404) && (removeOperation || (r =? -1)) then ret tt
  else
    let removeOperation := removeOperation || (r =? -1) || status404 in
    if resp_networkError resp && negb status404 then
      d ← gets data;
      d ← lift (arr_replace d r (JObj oldValue));
      modify (set_data d) ;;
      emit (DataChangedSignal r r [])
    else if removeOperation then
      emit (BeginRemoveRows r r) ;;
      modify (fun m => set_data (arr_removeAt (data m) r) m) ;;
      modify (fun m => set_attachedData (updateAllDataAfterRow (attachedData m) r) m) ;;
      emit EndRemoveRows
    else
      current ← gets (fun m => toObject (arr_at (data m) r));
      let '(newUpdateAt, newValue) := obj_index EnginioString.updatedAt newValue in
      let '(currentUpdateAt, _) := obj_index EnginioString.updatedAt current in
      if updatedBefore newUpdateAt currentUpdateAt then ret tt
      else
        n ← gets (fun m => length (data m));
        d ← gets data;
        d ← lift (arr_replace d r (JObj newValue));
        if (n =? 1)%nat then
          emit BeginResetModel ;; modify (set_data d) ;; syncRoles ;; emit EndResetModel
        else
          modify (set_data d) ;; emit (DataChangedSignal r r []).

(** [void finishedRequest(const EnginioReply *response)] *)
Definition finishedRequest (resp : Response) : ST unit :=
  dc ← gets dataChanged;
  match dc !! resp_reply resp with
  | None => ret tt
  | Some (r, info) =>
      let '(msg, _) := obj_index EnginioString.message (resp_data resp) in
      when (negb (isNull msg)) (emit (ModelWarning ("Enginio: " +:+ toString msg))) ;;
      modify (set_dataChanged (delete (resp_reply resp) dc)) ;;
      if r =? FullModelReset then
        emit BeginResetModel ;;
        modify (set_attachedData ∅) ;;
        modify (set_data (toArray (obj_value EnginioString.results (resp_data resp)))) ;;
        syncRoles ;;
        cfm ← gets canFetchMore;
        n ← gets (fun m => Z.of_nat (length (data m)));
        (if cfm && negb (n =? 0) then
           q ← gets query;
           let '(l, q) := obj_index EnginioString.limit q in
           modify (set_query q) ;; modify (set_canFetchMore (toDouble l <=? n))
         else modify (set_canFetchMore false)) ;;
        emit EndResetModel
      else if r =? IncrementalModelUpdate then
        let results := toArray (obj_value EnginioString.results (resp_data resp)) in
        let offset := toDouble (obj_value EnginioString.offset info) in
        let limit := toDouble (obj_value EnginioString.limit info) in
        let dataCount := Z.of_nat (length results) in
        startingOffset ← gets (fun m => Z.max offset (Z.of_nat (length (data m))));
        emit (BeginInsertRows startingOffset (startingOffset + dataCount - 1)) ;;
        modify (fun m => set_data (data m ++ results) m) ;;
        modify (set_canFetchMore (limit <=? dataCount)) ;;
        emit EndInsertRows
      else finishedObject resp info
  end.

End Finished.

(** ** The public methods of [EnginioModel] *)


(** [void EnginioModel::setEnginio(const EnginioClient *enginio)] *)
Definition model_setEnginio (e : option ClientRef) : ST unit :=
  cur ← gets enginio;
  if decide (client_ptr cur = client_ptr e) then ret tt else setEnginio e.

(** [void EnginioModel::setQuery(const QJsonObject &query)] *)
Definition model_setQuery (q : jobj) : ST unit :=
  cur ← gets query;
  if json_eqb (JObj cur) (JObj q) then ret tt else setQuery q.

(** [void EnginioModel::setOperation(EnginioClient::Operation operation)] *)
Definition model_setOperation (op : Z) : ST unit :=
  cur ← gets operation;
  if op =? cur then ret tt else setOperation op.

(** [EnginioReply *EnginioModel::append(const QJsonObject &value)] *)
Definition model_append (value : jobj) (uuid : string) : ST Reply :=
  e ← gets enginio;
  match e with
  | None => emit (ModelWarning "EnginioModel::append(): Enginio client is not set") ;; ret NoReply
  | Some _ => ereply ← append value uuid; ret (ReplyTo ereply)
  end.

(** [EnginioReply *EnginioModel::remove(int row)] *)
Definition model_remove (r : Z) : ST Reply :=
  e ← gets enginio;
  match e with
  | None => emit (ModelWarning "EnginioModel::remove(): Enginio client is not set") ;; ret NoReply
  | Some _ =>
      n ← gets rowCount;
      if (r <? 0) || (n <=? r) then ret (ErrorReply "EnginioModel::remove: row is out of range")
      else remove r
  end.

(** [EnginioReply *EnginioModel::setProperty(int row, const QString &role, const QVariant &value)] *)
Definition model_setProperty (r : Z) (role : string) (value : json) : ST Reply :=
  e ← gets enginio;
  match e with
  | None => emit (ModelWarning "EnginioModel::setProperty(): Enginio client is not set") ;; ret NoReply
  | Some _ =>
      n ← gets rowCount;
      if (r <? 0) || (n <=? r) then ret (ErrorReply "EnginioModel::setProperty: row is out of range")
      else setValue r role value
  end.

(** [bool EnginioModel::setData(const QModelIndex &index, const QVariant &value, int role)] *)
Definition model_setData (r : Z) (value : json) (role : Z) : ST bool :=
  n ← gets rowCount;
  if n <=? r then ret false else _ ← setData r value role; ret true.

(** [QVariant EnginioModel::data(const QModelIndex &index, int role) const] *)
Definition model_data (m : Model) (r : Z) (role : Z) : option json :=
  if (r <? 0) || (rowCount m <=? r) then None else data_at m r role.

(** [EnginioClient *EnginioModel::enginio() const], which returns
    [d->enginio()], the field [_enginio]. *)
Definition model_enginio (m : Model) : option ClientRef := enginio m.

(** [QJsonObject EnginioModel::query()]: [d->query()], the field [_query]
    (after [setQuery] rewrote a paged query). *)
Definition model_query (m : Model) : jobj := query m.

(** [EnginioClient::Operation EnginioModel::operation() const]. *)
Definition model_operation (m : Model) : Z := operation m.

(** [int EnginioModel::rowCount(const QModelIndex &parent) const] *)
Definition model_rowCount (m : Model) : Z := rowCount m.

(** [QHash<int, QByteArray> EnginioModel::roleNames() const] *)
Definition model_roleNames (m : Model) : gmap Z (list Z) := roleNames m.

(** [bool EnginioModel::canFetchMore(const QModelIndex &parent) const] and
    [EnginioModelPrivate::canFetchMore]. *)
Definition model_canFetchMore (m : Model) : bool := canFetchMore m.

(** [Qt::ItemFlags EnginioModel::flags(const QModelIndex &index) const]: the
    flags of [QAbstractListModel] with [Qt::ItemIsEnabled] (32),
    [Qt::ItemIsSelectable] (1) and [Qt::ItemIsEditable] (2). *)
Definition model_flags (baseFlags : Z) : Z := Z.lor (Z.lor (Z.lor baseFlags 32) 1) 2.

(** ** Events *)

(** The calls a view or an application makes, and the client's signals. *)
Inductive MEvent :=
| MSetEnginio (e : option ClientRef)
| MClientChanged (c : ClientRef)     (** [backendIdChanged] or [backendSecretChanged] *)
| MClientDestroyed (client : nat)    (** [QObject::destroyed] of a client *)
| MSetQuery (q : jobj)
| MSetOperation (op : Z)
| MAppend (value : jobj) (uuid : string)
| MRemove (row : Z)
| MSetProperty (row : Z) (role : string) (value : json)
| MSetData (row : Z) (value : json) (role : Z)
| MFetchMore                         (** [fetchMore(QModelIndex())]: row -1 *)
| MFinished (client : nat) (resp : Response)  (** [EnginioClient::finished] of a client *)
| MReplyFinished (resp : Response).  (** [EnginioReply::finished] of the reply *)

Definition mhandle (updatedBefore : json -> json -> bool) (ev : MEvent) : ST unit :=
  match ev with
  | MSetEnginio e => model_setEnginio e
  | MClientChanged c =>
      cur ← gets enginio;
      if decide (client_ptr cur = Some (clientPtr c)) then modify (set_enginio (Some c)) ;; execute
      else ret tt
  | MClientDestroyed client =>
      cur ← gets enginio;
      if decide (client_ptr cur = Some client) then setEnginio None else ret tt
  | MSetQuery q => model_setQuery q
  | MSetOperation op => model_setOperation op
  | MAppend value uuid => _ ← model_append value uuid; ret tt
  | MRemove r => _ ← model_remove r; ret tt
  | MSetProperty r role value => _ ← model_setProperty r role value; ret tt
  | MSetData r value role => _ ← model_setData r value role; ret tt
  | MFetchMore => fetchMore (-1)
  | MFinished client resp =>
      cur ← gets enginio;
      if decide (client_ptr cur = Some client) then finishedRequest updatedBefore resp else ret tt
  | MReplyFinished resp => replyFinished resp
  end.

(** A run of events, stopping at undefined behaviour. *)
Fixpoint mrun (updatedBefore : json -> json -> bool) (evs : list MEvent) (m : Model)
    : option (Model * list Signal) :=
  match evs with
  | [] => Some (m, [])
  | ev :: evs =>
      match mhandle updatedBefore ev m with
      | None => None
      | Some (_, m1, o1) =>
          match mrun updatedBefore evs m1 with
          | Some (m2, o2) => Some (m2, o1 ++ o2)
          | None => None
          end
      end
  end.

(** ** Weakest preconditions of the methods *)

Definition wp {A} (c : ST A) (Q : A -> Model -> list Signal -> Prop) (m : Model) : Prop :=
  match c m with Some (x, m', o) => Q x m' o | None => True end.

Lemma wp_bind {A B} (c : ST A) (k : A -> ST B) Q m :
  wp c (fun x m1 o1 => wp (k x) (fun y m2 o2 => Q y m2 (o1 ++ o2)) m1) m -> wp (c ≫= k) Q m.
Proof.
  unfold wp, mbind, ST_bind, bind. destruct (c m) as [[[x m1] o1]|]; [|auto].
  destruct (k x m1) as [[[y m2] o2]|]; auto.
Qed.

Lemma wp_ret {A} (x : A) Q m : Q x m [] -> wp (mret x) Q m.
Proof. auto. Qed.

Lemma wp_gets {A} (f : Model -> A) Q m : Q (f m) m [] -> wp (gets f) Q m.
Proof. auto. Qed.

Lemma wp_modify f Q m : Q tt (f m) [] -> wp (modify f) Q m.
Proof. auto. Qed.

Lemma wp_emit s Q m : Q tt m [s] -> wp (emit s) Q m.
Proof. auto. Qed.

Lemma wp_lift {A} (o : option A) Q m :
  (forall x, o = Some x -> Q x m []) -> wp (lift o) Q m.
Proof. unfold wp, lift. destruct o; intros H; [apply H; reflexivity | exact I]. Qed.

Lemma wp_undefined {A} (Q : A -> Model -> list Signal -> Prop) m : wp undefined Q m.
Proof. exact I. Qed.

Lemma wp_when (b : bool) (c : ST unit) (Q : unit -> Model -> list Signal -> Prop) (m : Model) :
  (if b then wp c Q m else Q tt m []) -> wp (when b c) Q m.
Proof. destruct b; auto. Qed.

Lemma wp_clientCall c Q m :
  Q (nextReply m)
    (mkModel (query m) (enginio m) (operation m) (dataChanged m) (attachedData m)
       (latestRequestedOffset m) (canFetchMore m) (rolesCounter m) (roles m) (data m)
       (S (nextReply m)) (calls m ++ [(nextReply m, c)]) (swaps m)) [] ->
  wp (clientCall c) Q m.
Proof. unfold wp, clientCall. destruct (enginio m); auto. Qed.

Lemma wp_track k r o Q m :
  Q tt (set_dataChanged (<[k := (r, o)]> (dataChanged m)) m) [] -> wp (track k r o) Q m.
Proof. auto. Qed.

Lemma wp_conseq {A} (c : ST A) (P Q : A -> Model -> list Signal -> Prop) m :
  (forall x m' o, P x m' o -> Q x m' o) -> wp c P m -> wp c Q m.
Proof. unfold wp. destruct (c m) as [[[x m'] o]|]; auto. Qed.

(** Steps through the primitives of a method body. *)
Ltac wp_step :=
  match goal with
  | |- wp (mbind _ _) _ _ => apply wp_bind
  | |- wp (mret _) _ _ => apply wp_ret
  | |- wp (ret _) _ _ => apply wp_ret
  | |- wp (gets _) _ _ => apply wp_gets
  | |- wp (modify _) _ _ => apply wp_modify
  | |- wp (emit _) _ _ => apply wp_emit
  | |- wp (clientCall _) _ _ => apply wp_clientCall
  | |- wp (track _ _ _) _ _ => apply wp_track
  | |- wp (lift _) _ _ => apply wp_lift; intros ? ?
  | |- wp undefined _ _ => apply wp_undefined
  | |- wp (when _ _) _ _ => apply wp_when
  | |- wp (match ?p with pair _ _ => _ end) _ _ => destruct p eqn:?
  | |- wp (if ?b then _ else _) _ _ => destruct b eqn:?
  | |- wp (match ?x with Some _ => _ | None => _ end) _ _ => destruct x eqn:?
  | |- wp (match ?x with [] => _ | _ :: _ => _ end) _ _ => destruct x eqn:?
  | |- if ?b then _ else _ => destruct b eqn:?
  | |- _ => progress cbv beta
  end.
Ltac wp_tac := repeat wp_step.

(** [syncRoles] changes the roles and nothing else. *)
Lemma addRoles_frame defined keys m :
  exists cnt rs o, addRoles defined keys m = Some (tt, set_roles cnt rs m, o).
Proof.
  revert m; induction keys as [|key keys IH]; intros m.
  - exists (rolesCounter m), (roles m), []. destruct m; reflexivity.
  - simpl. unfold mbind, ST_bind, bind.
    destruct (existsb (String.eqb key) defined).
    + destruct (String.eqb key EnginioString._synced); simpl;
        destruct (IH m) as (cnt & rs & o & ->); eauto.
    + simpl. destruct (IH (set_roles (rolesCounter m + 1) (<[rolesCounter m:=key]> (roles m)) m))
        as (cnt & rs & o & ->). exists cnt, rs, o. reflexivity.
Qed.

Lemma wp_addRoles defined keys Q m :
  (forall cnt rs o, Q tt (set_roles cnt rs m) o) -> wp (addRoles defined keys) Q m.
Proof.
  intros H. destruct (addRoles_frame defined keys m) as (cnt & rs & o & E).
  unfold wp. rewrite E. apply H.
Qed.

Lemma wp_syncRoles Q m :
  (forall cnt rs o, Q tt (set_roles cnt rs m) o) -> wp syncRoles Q m.
Proof. intros H. unfold syncRoles. wp_tac; apply wp_addRoles; intros; apply H. Qed.

Lemma syncRoles_frame m : exists cnt rs o, syncRoles m = Some (tt, set_roles cnt rs m, o).
Proof.
  unfold syncRoles, mbind, ST_bind, bind, gets, when, modify. simpl.
  destruct (map_size (roles m) =? 0)%nat; simpl.
  - match goal with |- context [addRoles ?d ?k ?m1] =>
      destruct (addRoles_frame d k m1) as (cnt & rs & o & ->) end.
    exists cnt, rs, o. destruct m; reflexivity.
  - match goal with |- context [addRoles ?d ?k ?m1] =>
      destruct (addRoles_frame d k m1) as (cnt & rs & o & ->) end.
    exists cnt, rs, o. reflexivity.
Qed.

(** ** Total correctness: the method returns, and its result satisfies [Q] *)

Definition twp {A} (c : ST A) (Q : A -> Model -> list Signal -> Prop) (m : Model) : Prop :=
  match c m with Some (x, m', o) => Q x m' o | None => False end.

Lemma twp_bind {A B} (c : ST A) (k : A -> ST B) Q m :
  twp c (fun x m1 o1 => twp (k x) (fun y m2 o2 => Q y m2 (o1 ++ o2)) m1) m -> twp (c ≫= k) Q m.
Proof.
  unfold twp, mbind, ST_bind, bind. destruct (c m) as [[[x m1] o1]|]; [|auto].
  destruct (k x m1) as [[[y m2] o2]|]; auto.
Qed.

Lemma twp_ret {A} (x : A) Q m : Q x m [] -> twp (mret x) Q m.
Proof. auto. Qed.

Lemma twp_gets {A} (f : Model -> A) Q m : Q (f m) m [] -> twp (gets f) Q m.
Proof. auto. Qed.

Lemma twp_modify f Q m : Q tt (f m) [] -> twp (modify f) Q m.
Proof. auto. Qed.

Lemma twp_emit s Q m : Q tt m [s] -> twp (emit s) Q m.
Proof. auto. Qed.

Lemma twp_lift {A} (o : option A) x Q m : o = Some x -> Q x m [] -> twp (lift o) Q m.
Proof. intros -> H. exact H. Qed.

Lemma twp_when (b : bool) (c : ST unit) (Q : unit -> Model -> list Signal -> Prop) (m : Model) :
  (if b then twp c Q m else Q tt m []) -> twp (when b c) Q m.
Proof. destruct b; auto. Qed.

Lemma twp_clientCall c Q m :
  enginio m <> None ->
  Q (nextReply m)
    (mkModel (query m) (enginio m) (operation m) (dataChanged m) (attachedData m)
       (latestRequestedOffset m) (canFetchMore m) (rolesCounter m) (roles m) (data m)
       (S (nextReply m)) (calls m ++ [(nextReply m, c)]) (swaps m)) [] ->
  twp (clientCall c) Q m.
Proof. unfold twp, clientCall. destruct (enginio m); [auto | congruence]. Qed.

Lemma twp_track k r o Q m :
  Q tt (set_dataChanged (<[k := (r, o)]> (dataChanged m)) m) [] -> twp (track k r o) Q m.
Proof. auto. Qed.

Lemma twp_syncRoles Q m :
  (forall cnt rs o, Q tt (set_roles cnt rs m) o) -> twp syncRoles Q m.
Proof. intros H. destruct (syncRoles_frame m) as (cnt & rs & o & E). unfold twp. rewrite E. apply H. Qed.

Lemma twp_conseq {A} (c : ST A) (P Q : A -> Model -> list Signal -> Prop) m :
  (forall x m' o, P x m' o -> Q x m' o) -> twp c P m -> twp c Q m.
Proof. unfold twp. destruct (c m) as [[[x m'] o]|]; auto. Qed.

Ltac twp_step :=
  match goal with
  | |- twp (mbind _ _) _ _ => apply twp_bind
  | |- twp (mret _) _ _ => apply twp_ret
  | |- twp (ret _) _ _ => apply twp_ret
  | |- twp (gets _) _ _ => apply twp_gets
  | |- twp (modify _) _ _ => apply twp_modify
  | |- twp (emit _) _ _ => apply twp_emit
  | |- twp (clientCall _) _ _ => apply twp_clientCall; [simpl in *; congruence|]
  | |- twp (track _ _ _) _ _ => apply twp_track
  | |- twp syncRoles _ _ => apply twp_syncRoles; intros ? ? ?
  | |- twp (when _ _) _ _ => apply twp_when
  | |- twp (match ?p with pair _ _ => _ end) _ _ => destruct p eqn:?
  | |- twp (if ?b then _ else _) _ _ => destruct b eqn:?
  | |- twp (match ?x with Some _ => _ | None => _ end) _ _ => destruct x eqn:?
  | |- twp (match ?x with [] => _ | _ :: _ => _ end) _ _ => destruct x eqn:?
  | |- if ?b then _ else _ => destruct b eqn:?
  | |- _ => progress cbv beta
  end.
Ltac twp_tac := repeat twp_step.

