(* ===== verification/ModelInv.v ===== *)
(** The reference counts of [EnginioModel]: the invariant [model_inv] that
    ties each [AttachedDataContainer] entry's [uint ref] to the requests and
    waiting functors on its object, the reachable states [mreachable], and
    the proof that every event of [mhandle] keeps the invariant. *)

From S2P Require Import Prelude.
From stdpp Require Import base gmap strings.
From S2P Require Import Json Model.
From Stdlib Require Strings.String.

Open Scope Z_scope.

(** ** The reference counts *)

(** A pending request on the object [id]: not a query (rows -1 and -2), and
    the object it was made for has that id. *)
Definition item_req (id : string) (e : Z * jobj) : Prop :=
  e.1 <> FullModelReset /\ e.1 <> IncrementalModelUpdate /\
  toString (obj_value EnginioString.id e.2) = id.

#[export] Instance item_req_dec id e : Decision (item_req id e).
Proof. unfold item_req. apply _. Defined.

Definition pendingIn (dc : gmap nat (Z * jobj)) (id : string) : nat :=
  size (filter (fun kv : nat * (Z * jobj) => item_req id kv.2) dc).

Definition pending (m : Model) (id : string) : nat := pendingIn (dataChanged m) id.

Definition ref_of (a : AttachedDataContainer) (id : string) : Z :=
  default 0 (ref <$> a !! id).

(** The functors waiting for a create reply that hold a reference on [id]. *)
Definition delayedIn (sw : list (nat * Swap)) (id : string) : nat :=
  length (List.filter (fun p => String.eqb (swap_tmpId p.2) id) sw).

Definition delayed (m : Model) (id : string) : nat := delayedIn (swaps m) id.

(** The reply a waiting functor handed out is not yet in [_dataChanged], and
    no two functors hold the same reply. *)
Definition swaps_fresh (m : Model) : Prop :=
  (forall cr s, In (cr, s) (swaps m) ->
     dataChanged m !! swap_reply s = None /\ (swap_reply s < nextReply m)%nat) /\
  NoDup (map (fun p => swap_reply p.2) (swaps m)).

(** The count of an object is the number of its pending requests and of the
    functors waiting to use it (as a [uint]); every pending reply number was
    handed out; every attached row is -1 (removed) or a row of [_data]; the
    waiting functors' replies are fresh. *)
Definition model_inv (m : Model) : Prop :=
  (forall id, ref_of (attachedData m) id = Z.of_nat (pending m id + delayed m id) mod 2 ^ 32) /\
  (forall k e, dataChanged m !! k = Some e -> (k < nextReply m)%nat) /\
  (forall id d, attachedData m !! id = Some d -> -1 <= row d < Z.of_nat (length (data m))) /\
  swaps_fresh m.

(** [QUuid::createUuid()] gives a fresh temporary id. *)
Definition fresh_tmp_id (m : Model) (tmp : string) : Prop :=
  attachedData m !! tmp = None /\ pending m tmp = 0%nat /\ delayed m tmp = 0%nat.

Definition fresh_tmp (m : Model) (uuid : string) : Prop := fresh_tmp_id m ("tmp" +:+ uuid).

(** The reply of a query that resets the model arrives when no request on an
    object is pending and no functor waits. *)
Definition reset_quiet (m : Model) (resp : Response) : Prop :=
  forall r info, dataChanged m !! resp_reply resp = Some (r, info) -> r = FullModelReset ->
  (forall id, pending m id = 0%nat) /\ swaps m = [].

(** A delayed operation on row [r] (its object has no id) finds the entry of
    that row, and the create request of the entry names the same temporary
    id. *)
Definition delayed_ok (m : Model) (r : Z) : Prop :=
  toString (obj_value EnginioString.id (toObject (arr_at (data m) r))) = String.EmptyString ->
  forall x d cr, row_entry (attachedData m) r = Some (x, d) -> createReply d = Some cr ->
  toString (obj_value EnginioString.id (default (0, []) (dataChanged m !! cr)).2) = x.

Definition event_row (ev : MEvent) : option Z :=
  match ev with
  | MRemove r | MSetProperty r _ _ | MSetData r _ _ => Some r
  | _ => None
  end.

(** The functors waiting for [resp] see a successful create, and the row of
    their object is still in [_data]. *)
Definition swap_ready (m : Model) (resp : Response) : Prop :=
  forall s, In (resp_reply resp, s) (swaps m) ->
  isError resp = false /\ exists d, attachedData m !! swap_tmpId s = Some d /\ 0 <= row d.

Definition outstanding (m : Model) : nat := (size (dataChanged m) + length (swaps m))%nat.

Inductive mreachable (updatedBefore : json -> json -> bool) : Model -> Prop :=
| mreach_init : mreachable updatedBefore initialModel
| mreach_step m ev x m' o :
    mreachable updatedBefore m ->
    (forall value uuid, ev = MAppend value uuid -> fresh_tmp m uuid) ->
    (forall client resp, ev = MFinished client resp -> reset_quiet m resp) ->
    (forall r, event_row ev = Some r -> delayed_ok m r) ->
    (forall resp, ev = MReplyFinished resp -> swap_ready m resp) ->
    Z.of_nat (outstanding m) < 2 ^ 32 - 1 ->
    mhandle updatedBefore ev m = Some (x, m', o) ->
    mreachable updatedBefore m'.

(** ** Counting pending requests *)

Lemma pendingIn_insert dc k e id :
  dc !! k = None ->
  pendingIn (<[k := e]> dc) id = (pendingIn dc id + if bool_decide (item_req id e) then 1 else 0)%nat.
Proof.
  intros Hk. unfold pendingIn. case_bool_decide.
  - rewrite map_filter_insert_True by done.
    rewrite map_size_insert_None by (apply map_lookup_filter_None_2; auto). lia.
  - rewrite map_filter_insert_False by done. rewrite delete_id by done. lia.
Qed.

Lemma pendingIn_delete dc k e id :
  dc !! k = Some e ->
  pendingIn dc id = (pendingIn (delete k dc) id + if bool_decide (item_req id e) then 1 else 0)%nat.
Proof.
  intros Hk. unfold pendingIn. rewrite map_filter_delete. case_bool_decide.
  - assert (Hf : filter (fun kv : nat * (Z * jobj) => item_req id kv.2) dc !! k = Some e)
      by (apply map_lookup_filter_Some; auto).
    rewrite <- (insert_delete_id _ _ _ Hf) at 1.
    rewrite map_size_insert_None by apply lookup_delete_eq. lia.
  - rewrite delete_id; [lia|].
    apply map_lookup_filter_None_2. right. intros x Hx. simplify_eq. done.
Qed.

Lemma pendingIn_empty id : pendingIn ∅ id = 0%nat.
Proof. unfold pendingIn. rewrite map_filter_empty. apply map_size_empty. Qed.

(** ** Reference counts of the container *)

Lemma ref_of_insert a id d id' :
  ref_of (<[id := d]> a) id' = if decide (id = id') then ref d else ref_of a id'.
Proof.
  unfold ref_of. rewrite lookup_insert. destruct (decide (id = id')); reflexivity.
Qed.

Lemma ref_of_delete a id id' :
  ref_of (delete id a) id' = if decide (id = id') then 0 else ref_of a id'.
Proof.
  unfold ref_of. rewrite lookup_delete. destruct (decide (id = id')); reflexivity.
Qed.

Lemma ref_id_ref a id r id' :
  ref_of (fst (ref_id a id r)) id' = if decide (id = id') then uint_inc (ref_of a id) else ref_of a id'.
Proof.
  unfold ref_id. simpl. rewrite ref_of_insert. unfold ref_of.
  destruct (decide (id = id')); [|reflexivity]. simpl. destruct (a !! id); reflexivity.
Qed.

Lemma deref_ref a id id' :
  ref_of (fst (deref a id)) id' = if decide (id = id') then uint_dec (ref_of a id) else ref_of a id'.
Proof.
  unfold deref. simpl. destruct (uint_dec (ref (default noData (a !! id))) =? 0) eqn:E.
  - rewrite ref_of_delete. destruct (decide (id = id')); [|reflexivity].
    apply Z.eqb_eq in E. rewrite <- E. unfold ref_of. destruct (a !! id); reflexivity.
  - rewrite ref_of_insert, ref_of_delete. destruct (decide (id = id')); [|reflexivity].
    unfold ref_of. destruct (a !! id); reflexivity.
Qed.

Lemma updateAll_ref a r id : ref_of (updateAllDataAfterRow a r) id = ref_of a id.
Proof.
  unfold ref_of, updateAllDataAfterRow. rewrite lookup_fmap.
  destruct (a !! id) as [d|]; [|reflexivity]. simpl. case_ifs; reflexivity.
Qed.

Lemma uint_inc_mod n : uint_inc (Z.of_nat n mod 2 ^ 32) = Z.of_nat (S n) mod 2 ^ 32.
Proof. unfold uint_inc. rewrite Z.add_mod_idemp_l by lia. f_equal. lia. Qed.

Lemma uint_dec_mod n : uint_dec (Z.of_nat (S n) mod 2 ^ 32) = Z.of_nat n mod 2 ^ 32.
Proof.
  unfold uint_dec. rewrite Zminus_mod_idemp_l. f_equal. lia.
Qed.

Lemma uint_inc_count n n' : n' = S n -> uint_inc (Z.of_nat n mod 2 ^ 32) = Z.of_nat n' mod 2 ^ 32.
Proof. intros ->. apply uint_inc_mod. Qed.

Lemma uint_dec_count n n' : n = S n' -> uint_dec (Z.of_nat n mod 2 ^ 32) = Z.of_nat n' mod 2 ^ 32.
Proof. intros ->. apply uint_dec_mod. Qed.

(** ** The waiting functors *)

Lemma swaps_fresh_frame m m' :
  swaps_fresh m -> dataChanged m' = dataChanged m -> nextReply m' = nextReply m ->
  swaps m' = swaps m -> swaps_fresh m'.
Proof. unfold swaps_fresh. intros H -> -> ->. exact H. Qed.

(** A request under the next reply number. *)
Lemma swaps_fresh_add m m' e :
  swaps_fresh m -> dataChanged m' = <[nextReply m := e]> (dataChanged m) ->
  nextReply m' = S (nextReply m) -> swaps m' = swaps m -> swaps_fresh m'.
Proof.
  intros [Hs Hnd] Hdc Hn Hsw. split; [|rewrite Hsw; exact Hnd].
  intros cr sw Hin. rewrite Hsw in Hin. destruct (Hs cr sw Hin) as [H1 H2].
  rewrite Hdc, Hn, lookup_insert. destruct (decide (nextReply m = swap_reply sw)); [lia|]. split; [exact H1 | lia].
Qed.

Lemma swaps_fresh_del m m' k :
  swaps_fresh m -> dataChanged m' = delete k (dataChanged m) ->
  nextReply m' = nextReply m -> swaps m' = swaps m -> swaps_fresh m'.
Proof.
  intros [Hs Hnd] Hdc Hn Hsw. split; [|rewrite Hsw; exact Hnd].
  intros cr sw Hin. rewrite Hsw in Hin. destruct (Hs cr sw Hin) as [H1 H2].
  rewrite Hdc, Hn, lookup_delete. destruct (decide (k = swap_reply sw)); split; auto.
Qed.

(** ** The invariant through the methods *)

Lemma inv_frame m m' :
  model_inv m -> data m' = data m -> attachedData m' = attachedData m ->
  dataChanged m' = dataChanged m -> nextReply m' = nextReply m -> swaps m' = swaps m -> model_inv m'.
Proof. unfold model_inv, pending, delayed, swaps_fresh. intros H -> -> -> -> ->. exact H. Qed.

Lemma fresh_reply m : model_inv m -> dataChanged m !! nextReply m = None.
Proof.
  intros (_ & Hf & _). destruct (dataChanged m !! nextReply m) eqn:E; [|reflexivity].
  apply Hf in E. lia.
Qed.

(** A query request ([execute], [fetchMore]) counts for no object. *)
Lemma inv_add_query m m1 e :
  model_inv m -> data m1 = data m -> attachedData m1 = attachedData m ->
  dataChanged m1 = dataChanged m -> nextReply m1 = S (nextReply m) -> swaps m1 = swaps m ->
  e.1 = FullModelReset \/ e.1 = IncrementalModelUpdate ->
  model_inv (set_dataChanged (<[nextReply m := e]> (dataChanged m1)) m1).
Proof.
  intros Hinv Hd Ha Hdc Hn Hs He. pose proof (fresh_reply m Hinv) as Hk.
  destruct Hinv as (Hr & Hf & Hrows & Hsw). split; [|split; [|split]].
  - intros id. unfold pending, delayed. simpl. rewrite Ha, Hdc, Hs, pendingIn_insert by exact Hk.
    rewrite bool_decide_false by (unfold item_req; tauto). rewrite Nat.add_0_r. apply Hr.
  - intros k e' Hk'. simpl in Hk' |- *. rewrite Hdc, lookup_insert in Hk'. rewrite Hn.
    destruct (decide (nextReply m = k)); [lia|]. apply Hf in Hk'. lia.
  - simpl. rewrite Ha, Hd. exact Hrows.
  - apply (swaps_fresh_add m _ e Hsw); simpl; congruence.
Qed.

(** A method keeps the invariant. *)
Definition keeps {A} (c : ST A) : Prop :=
  forall m (Q : A -> Model -> list Signal -> Prop),
    model_inv m -> (forall x m' o, model_inv m' -> Q x m' o) -> wp c Q m.

Ltac frame_inv Hinv := apply (inv_frame _ _ Hinv); reflexivity.

Lemma execute_keeps : keeps execute.
Proof.
  intros m Q Hinv HQ. unfold execute. wp_tac; apply HQ; try exact Hinv.
  all: eapply inv_add_query; eauto; simpl; auto.
Qed.

Lemma fetchMore_keeps r : keeps (fetchMore r).
Proof.
  intros m Q Hinv HQ. unfold fetchMore. wp_tac; apply HQ; try exact Hinv.
  eapply inv_add_query; eauto; simpl; auto.
Qed.

Lemma setQuery_keeps q : keeps (setQuery q).
Proof.
  intros m Q Hinv HQ. unfold setQuery, notify. wp_tac.
  all: apply execute_keeps; [frame_inv Hinv | intros; apply HQ; assumption].
Qed.

Lemma setOperation_keeps op : keeps (setOperation op).
Proof.
  intros m Q Hinv HQ. unfold setOperation, notify. wp_tac.
  apply execute_keeps; [frame_inv Hinv | intros; apply HQ; assumption].
Qed.

Lemma setEnginio_keeps e : keeps (setEnginio e).
Proof.
  intros m Q Hinv HQ. unfold setEnginio, notify. wp_tac.
  apply execute_keeps; [frame_inv Hinv | intros; apply HQ; assumption].
Qed.

(** ** Requests on one object *)

(** A request on object [id] under a reply [k] not yet pending. *)
Lemma inv_add_item_at m m2 k r o id :
  model_inv m -> toString (obj_value EnginioString.id o) = id ->
  0 <= r < Z.of_nat (length (data m)) ->
  dataChanged m !! k = None -> (k < nextReply m2)%nat -> (nextReply m <= nextReply m2)%nat ->
  (forall cr s, In (cr, s) (swaps m) -> swap_reply s <> k) ->
  dataChanged m2 = <[k := (r, o)]> (dataChanged m) ->
  attachedData m2 = fst (ref_id (attachedData m) id r) ->
  length (data m2) = length (data m) -> swaps m2 = swaps m ->
  model_inv m2.
Proof.
  intros Hinv Hid Hr Hk Hk2 Hn Hsk Hdc Ha Hl Hs.
  destruct Hinv as (Hrc & Hf & Hrows & [Hsf Hnd]). split; [|split; [|split; [|split]]].
  - intros id'. unfold pending, delayed. rewrite Ha, Hdc, Hs, ref_id_ref, pendingIn_insert by exact Hk.
    destruct (decide (id = id')) as [<-|Hne].
    + rewrite bool_decide_true by (unfold item_req; simpl; unfold FullModelReset, IncrementalModelUpdate; split; [lia | split; [lia | exact Hid]]).
      rewrite Hrc. apply uint_inc_count. unfold pending, delayed. lia.
    + rewrite bool_decide_false by (unfold item_req; simpl; intros (_ & _ & E); congruence).
      rewrite Nat.add_0_r. apply Hrc.
  - intros k' e He. rewrite Hdc, lookup_insert in He.
    destruct (decide (k = k')) as [<-|]; [exact Hk2|]. apply Hf in He. lia.
  - intros id' d Hd. rewrite Ha in Hd. simpl in Hd. rewrite lookup_insert in Hd. rewrite Hl.
    destruct (decide (id = id')); [inv Hd; simpl; lia | eauto].
  - intros cr s Hin. rewrite Hs in Hin. destruct (Hsf _ _ Hin) as [H1 H2].
    rewrite Hdc, lookup_insert_ne by (apply not_eq_sym, (Hsk _ _ Hin)). split; [exact H1 | lia].
  - rewrite Hs. exact Hnd.
Qed.

Lemma inv_add_item m m2 r o id :
  model_inv m -> toString (obj_value EnginioString.id o) = id ->
  0 <= r < Z.of_nat (length (data m)) ->
  dataChanged m2 = <[nextReply m := (r, o)]> (dataChanged m) ->
  nextReply m2 = S (nextReply m) ->
  attachedData m2 = fst (ref_id (attachedData m) id r) ->
  length (data m2) = length (data m) -> swaps m2 = swaps m ->
  model_inv m2.
Proof.
  intros Hinv Hid Hr Hdc Hn Ha Hl Hs.
  apply (inv_add_item_at m m2 (nextReply m) r o id); auto; try lia.
  - apply fresh_reply, Hinv.
  - intros cr s Hin. destruct Hinv as (_ & _ & _ & [Hsf _]). destruct (Hsf _ _ Hin). lia.
Qed.

Lemma removeNow_keeps r o id m Q :
  model_inv m -> 0 <= r < Z.of_nat (length (data m)) -> toString (obj_value EnginioString.id o) = id ->
  (forall x m' out, model_inv m' -> Q x m' out) -> wp (removeNow r o id) Q m.
Proof.
  intros Hinv Hr Hid HQ. unfold removeNow. wp_tac. apply HQ.
  eapply (inv_add_item m); eauto; reflexivity.
Qed.

Lemma setDataNow_keeps r v role o id m Q :
  model_inv m -> 0 <= r < Z.of_nat (length (data m)) -> toString (obj_value EnginioString.id o) = id ->
  (forall x m' out, model_inv m' -> Q x m' out) -> wp (setDataNow r v role o id) Q m.
Proof.
  intros Hinv Hr Hid HQ. unfold setDataNow. wp_tac. apply HQ.
  eapply (inv_add_item m); eauto; simpl; try reflexivity.
  eapply arr_replace_length; eassumption.
Qed.

(** ** Delayed operations *)

Lemma row_entry_lookup a r x d : row_entry a r = Some (x, d) -> a !! x = Some d /\ row d = r.
Proof.
  unfold row_entry. intros H. apply head_Some_elem_of in H.
  apply list_elem_of_filter in H as [Hr Hin]. apply elem_of_map_to_list in Hin. auto.
Qed.

Lemma ref_row_some a r a' d' :
  ref_row a r = Some (a', d') ->
  exists x d, row_entry a r = Some (x, d) /\
    a' = <[x := mkAttached (uint_inc (ref d)) (row d) (createReply d)]> a /\
    d' = mkAttached (uint_inc (ref d)) (row d) (createReply d).
Proof.
  unfold ref_row. destruct (row_entry a r) as [[x d]|]; [|discriminate].
  intros H. inv H. eauto.
Qed.

Lemma delayedIn_app sw cr s id :
  delayedIn (sw ++ [(cr, s)]) id = (delayedIn sw id + if String.eqb (swap_tmpId s) id then 1 else 0)%nat.
Proof. unfold delayedIn. rewrite List.filter_app, length_app. simpl. destruct (String.eqb _ _); simpl; lia. Qed.

(** The entry of the row gets one more reference and a functor holding it
    waits under the next reply number. *)
Lemma inv_connect m m2 x d cr s :
  model_inv m -> attachedData m !! x = Some d -> swap_reply s = nextReply m -> swap_tmpId s = x ->
  data m2 = data m ->
  attachedData m2 = <[x := mkAttached (uint_inc (ref d)) (row d) (createReply d)]> (attachedData m) ->
  dataChanged m2 = dataChanged m -> nextReply m2 = S (nextReply m) -> swaps m2 = swaps m ++ [(cr, s)] ->
  model_inv m2.
Proof.
  intros Hinv Hx Hsr Hst Hd Ha Hdc Hn Hs. pose proof (fresh_reply m Hinv) as Hk.
  destruct Hinv as (Hrc & Hf & Hrows & [Hsf Hnd]). split; [|split; [|split; [|split]]].
  - intros id. unfold pending, delayed. rewrite Ha, Hdc, Hs, ref_of_insert, delayedIn_app, Hst.
    destruct (decide (x = id)) as [<-|Hne].
    + rewrite String.eqb_refl. specialize (Hrc x). unfold ref_of in Hrc. rewrite Hx in Hrc.
      simpl in Hrc. rewrite Hrc. apply uint_inc_count. unfold pending, delayed. lia.
    + rewrite (proj2 (String.eqb_neq x id) Hne), Nat.add_0_r. apply Hrc.
  - intros k e He. rewrite Hdc in He. rewrite Hn. apply Hf in He. lia.
  - intros y d' Hd'. rewrite Ha, lookup_insert in Hd'. rewrite Hd.
    destruct (decide (x = y)) as [<-|]; [inv Hd'; simpl; apply (Hrows _ _ Hx) | eauto].
  - intros cr' s' Hin. rewrite Hs in Hin. apply in_app_or in Hin as [Hin|[Heq|[]]].
    + destruct (Hsf _ _ Hin). rewrite Hdc, Hn. split; [assumption | lia].
    + inv Heq. rewrite Hdc, Hn, Hsr. split; [exact Hk | lia].
  - rewrite Hs, map_app. simpl. apply NoDup_app. split; [exact Hnd|]. split; [|apply NoDup_singleton].
    intros y Hy Hy2. apply list_elem_of_In, in_map_iff in Hy as [[cr' s'] [<- Hin]].
    apply list_elem_of_singleton in Hy2. destruct (Hsf _ _ Hin). simpl in *. lia.
Qed.

(** The temporary id [delayedOperation] reads for a create reply. *)
Definition tmp_of (m : Model) (cr : nat) : string :=
  toString (obj_value EnginioString.id (default (0, []) (dataChanged m !! cr)).2).

Lemma wp_delayedOperation r m Q :
  (forall x d cr m2, row_entry (attachedData m) r = Some (x, d) -> createReply d = Some cr ->
     data m2 = data m ->
     attachedData m2 = <[x := mkAttached (uint_inc (ref d)) (row d) (createReply d)]> (attachedData m) ->
     dataChanged m2 = dataChanged m -> nextReply m2 = S (nextReply m) -> swaps m2 = swaps m ->
     Q (nextReply m, tmp_of m cr, cr) m2 []) ->
  wp (delayedOperation r) Q m.
Proof.
  intros HQ. unfold delayedOperation. wp_tac.
  match goal with
  | H : ref_row _ _ = Some (?g, ?a) |- _ =>
      destruct (ref_row_some _ _ _ _ H) as (x1 & d & He & Hg & Ha); subst g a
  end.
  simpl. apply (HQ x1 d); auto.
Qed.

Lemma delayed_keeps r m (mk : nat -> string -> Swap) Q :
  model_inv m -> (forall e t, swap_reply (mk e t) = e /\ swap_tmpId (mk e t) = t) ->
  (forall x d cr, row_entry (attachedData m) r = Some (x, d) -> createReply d = Some cr -> tmp_of m cr = x) ->
  (forall x m' out, model_inv m' -> Q x m' out) ->
  wp ('(ereply, tmpId, cr) ← delayedOperation r; connectSwap cr (mk ereply tmpId) ;; mret ereply) Q m.
Proof.
  intros Hinv Hmk Hok HQ. apply wp_bind, wp_delayedOperation.
  intros x d cr m2 He Hc Hd Ha Hdc Hn Hs. cbv beta. wp_tac. apply HQ.
  destruct (row_entry_lookup _ _ _ _ He) as [Hx _]. destruct (Hmk (nextReply m) (tmp_of m cr)) as [E1 E2].
  apply (inv_connect m _ x d cr (mk (nextReply m) (tmp_of m cr)) Hinv Hx); simpl; try congruence.
  rewrite E2. eauto.
Qed.

(** A row whose object has an id is a row of [_data]. *)
Lemma id_in_range m r j o :
  obj_index EnginioString.id (toObject (arr_at (data m) r)) = (j, o) ->
  String.eqb (toString j) String.EmptyString = false -> 0 <= r < Z.of_nat (length (data m)).
Proof.
  intros Hj Hne. destruct (decide (0 <= r < Z.of_nat (length (data m)))) as [Hr|Hr]; [exact Hr|].
  rewrite arr_at_out in Hj by exact Hr. simpl in Hj. injection Hj as <- _. discriminate.
Qed.

Lemma id_of_row m r j o :
  obj_index EnginioString.id (toObject (arr_at (data m) r)) = (j, o) ->
  toString (obj_value EnginioString.id o) = toString j /\
  toString (obj_value EnginioString.id (toObject (arr_at (data m) r))) = toString j.
Proof.
  intros Hj. pose proof (obj_index_id EnginioString.id (toObject (arr_at (data m) r))) as E1.
  pose proof (obj_index_fst EnginioString.id (toObject (arr_at (data m) r))) as E2.
  rewrite Hj in E1, E2. auto.
Qed.

Lemma remove_keeps r m Q :
  model_inv m -> delayed_ok m r ->
  (forall x m' out, model_inv m' -> Q x m' out) -> wp (remove r) Q m.
Proof.
  intros Hinv Hok HQ. unfold remove. wp_tac; destruct (id_of_row _ _ _ _ Heqp) as [E1 E2].
  - unfold removeDelayed. apply (delayed_keeps r m (fun e t => SwapForRemove e j0 t)); auto.
    + apply Hok. rewrite E2. apply String.eqb_eq, Heqb.
    + intros. wp_tac. apply HQ. assumption.
  - apply removeNow_keeps; eauto using id_in_range.
    intros. wp_tac. apply HQ. assumption.
Qed.

Lemma setData_keeps r v role m Q :
  model_inv m -> delayed_ok m r ->
  (forall x m' out, model_inv m' -> Q x m' out) -> wp (setData r v role) Q m.
Proof.
  intros Hinv Hok HQ. unfold setData. wp_tac; try (apply HQ; exact Hinv).
  all: destruct (id_of_row _ _ _ _ Heqp) as [E1 E2].
  - unfold setDataDelyed. apply (delayed_keeps r m (fun e t => SwapForSetData e j0 t v role)); auto.
    + apply Hok. rewrite E2. apply String.eqb_eq, Heqb0.
    + intros. wp_tac. apply HQ. assumption.
  - apply setDataNow_keeps; eauto using id_in_range.
    intros. wp_tac. apply HQ. assumption.
Qed.

Lemma setValue_keeps r role v m Q :
  model_inv m -> delayed_ok m r ->
  (forall x m' out, model_inv m' -> Q x m' out) -> wp (setValue r role v) Q m.
Proof. intros Hinv Hok HQ. unfold setValue. wp_tac. apply setData_keeps; assumption. Qed.

(** A new object under its temporary id. *)
Lemma inv_add_tmp m m2 tmp o c :
  model_inv m -> fresh_tmp_id m tmp -> toString (obj_value EnginioString.id o) = tmp ->
  dataChanged m2 = <[nextReply m := (Z.of_nat (length (data m)), o)]> (dataChanged m) ->
  nextReply m2 = S (nextReply m) ->
  attachedData m2 = <[tmp := mkAttached 1 (Z.of_nat (length (data m))) c]> (attachedData m) ->
  length (data m2) = S (length (data m)) -> swaps m2 = swaps m ->
  model_inv m2.
Proof.
  intros Hinv (Ha & Hp & Hdl) Hid Hdc Hn Hat Hl Hs. pose proof (fresh_reply m Hinv) as Hk.
  destruct Hinv as (Hrc & Hf & Hrows & Hsw). split; [|split; [|split]].
  - intros id'. unfold pending, delayed. rewrite Hdc, Hat, Hs, ref_of_insert, pendingIn_insert by exact Hk.
    destruct (decide (tmp = id')) as [<-|Hne].
    + rewrite bool_decide_true by (unfold item_req; simpl; unfold FullModelReset, IncrementalModelUpdate; split; [lia | split; [lia | exact Hid]]).
      unfold pending, delayed in Hp, Hdl. rewrite Hp, Hdl. reflexivity.
    + rewrite bool_decide_false by (unfold item_req; simpl; intros (_ & _ & E); congruence).
      rewrite Nat.add_0_r. apply Hrc.
  - intros k e He. rewrite Hdc, lookup_insert in He. rewrite Hn.
    destruct (decide (nextReply m = k)); [lia|]. apply Hf in He. lia.
  - intros id' d Hd. rewrite Hat, lookup_insert in Hd. rewrite Hl.
    destruct (decide (tmp = id')); [inv Hd; simpl; lia|]. apply Hrows in Hd. lia.
  - exact (swaps_fresh_add m _ _ Hsw Hdc Hn Hs).
Qed.

Lemma append_keeps value uuid m Q :
  model_inv m -> fresh_tmp m uuid ->
  (forall x m' out, model_inv m' -> Q x m' out) -> wp (append value uuid) Q m.
Proof.
  intros Hinv Hfr HQ. unfold append. wp_tac.
  - apply wp_syncRoles. intros. wp_tac. apply HQ.
    eapply (inv_add_tmp m); eauto; try reflexivity.
    + rewrite obj_value_insert_same. reflexivity.
    + simpl. rewrite length_app. simpl. lia.
  - apply HQ. eapply (inv_add_tmp m); eauto; try reflexivity.
    + rewrite obj_value_insert_same. reflexivity.
    + simpl. rewrite length_app. simpl. lia.
Qed.

(** ** Replies *)

Lemma deref_present a id d0 id' d :
  a !! id = Some d0 -> fst (deref a id) !! id' = Some d -> exists d1, a !! id' = Some d1 /\ row d = row d1.
Proof.
  intros H0. unfold deref. rewrite H0. simpl. destruct (_ =? 0).
  - rewrite lookup_delete. destruct (decide (id = id')); [discriminate|]. eauto.
  - rewrite lookup_insert, lookup_delete. destruct (decide (id = id')) as [<-|]; [|eauto].
    intros H. inv H. eauto.
Qed.

Lemma pendingIn_le dc id : (pendingIn dc id <= size dc)%nat.
Proof. unfold pendingIn. apply map_size_filter. Qed.

Lemma delayedIn_le sw id : (delayedIn sw id <= length sw)%nat.
Proof. unfold delayedIn. apply List.filter_length_le. Qed.

Lemma count_le m id : (pending m id + delayed m id <= outstanding m)%nat.
Proof.
  unfold pending, delayed, outstanding.
  pose proof (pendingIn_le (dataChanged m) id). pose proof (delayedIn_le (swaps m) id). lia.
Qed.

(** The state between [_dataChanged.take(response)] (or the disconnection of
    a functor) and [deref]: the count of [id0] still includes the request
    answered. *)
Definition inv_except (m : Model) (id0 : string) : Prop :=
  (forall id, ref_of (attachedData m) id =
              Z.of_nat (pending m id + delayed m id + if decide (id = id0) then 1 else 0) mod 2 ^ 32) /\
  (forall k e, dataChanged m !! k = Some e -> (k < nextReply m)%nat) /\
  (forall id d, attachedData m !! id = Some d -> -1 <= row d < Z.of_nat (length (data m))) /\
  swaps_fresh m.

Lemma inv_except_present m id0 :
  inv_except m id0 -> Z.of_nat (outstanding m) < 2 ^ 32 - 1 ->
  exists d0, attachedData m !! id0 = Some d0.
Proof.
  intros (Hrc & _) Hsz. specialize (Hrc id0). rewrite decide_True in Hrc by reflexivity.
  pose proof (count_le m id0). rewrite Z.mod_small in Hrc by lia.
  unfold ref_of in Hrc. destruct (attachedData m !! id0) as [d0|]; [eauto|]. simpl in Hrc. lia.
Qed.

(** [deref] of the answered object restores the invariant. *)
Lemma inv_deref m id0 :
  inv_except m id0 -> Z.of_nat (outstanding m) < 2 ^ 32 - 1 ->
  model_inv (set_attachedData (fst (deref (attachedData m) id0)) m) /\
  -1 <= row (snd (deref (attachedData m) id0)) < Z.of_nat (length (data m)).
Proof.
  intros Hex Hsz. destruct (inv_except_present m id0 Hex Hsz) as [d0 Hd0].
  destruct Hex as (Hrc & Hf & Hrows & Hsw). split; [split; [|split; [|split]]|].
  - intros id. unfold set_attachedData. cbn [attachedData dataChanged swaps]. unfold pending, delayed in *.
    cbn [dataChanged swaps]. rewrite deref_ref. specialize (Hrc id).
    destruct (decide (id0 = id)) as [<-|Hne].
    + rewrite Hrc, decide_True by reflexivity. apply uint_dec_count. lia.
    + rewrite Hrc, decide_False by congruence. rewrite Nat.add_0_r. reflexivity.
  - exact Hf.
  - intros id d Hd. unfold set_attachedData in Hd. cbn [attachedData] in Hd.
    destruct (deref_present _ _ _ _ _ Hd0 Hd) as (d1 & Hd1 & ->).
    apply (Hrows _ _ Hd1).
  - exact Hsw.
  - unfold deref. rewrite Hd0. simpl. apply (Hrows _ _ Hd0).
Qed.

Lemma inv_replace m r v d :
  model_inv m -> arr_replace (data m) r v = Some d -> model_inv (set_data d m).
Proof.
  intros (Hrc & Hf & Hrows & Hsw) H. apply arr_replace_length in H.
  split; [exact Hrc | split; [exact Hf | split; [|exact Hsw]]].
  intros id x Hx. simpl. rewrite H. apply (Hrows _ _ Hx).
Qed.

Lemma length_removeAt l r :
  length (arr_removeAt l r) =
    if (0 <=? r) && (r <? Z.of_nat (length l)) then (length l - 1)%nat else length l.
Proof.
  unfold arr_removeAt. destruct (_ && _) eqn:E; [|reflexivity].
  apply andb_true_iff in E as [E1 E2]. zbool.
  rewrite length_delete; [reflexivity | apply lookup_lt_is_Some_2; lia].
Qed.

(** Removing row [r] and renumbering the attached rows. *)
Lemma inv_remove m r :
  model_inv m -> 0 <= r ->
  model_inv (set_attachedData (updateAllDataAfterRow (attachedData m) r)
               (set_data (arr_removeAt (data m) r) m)).
Proof.
  intros (Hrc & Hf & Hrows & Hsw) Hr. split; [|split; [|split]].
  - intros id. simpl. rewrite updateAll_ref. apply Hrc.
  - exact Hf.
  - intros id d Hd. simpl in Hd |- *. unfold updateAllDataAfterRow in Hd.
    rewrite lookup_fmap in Hd. destruct (attachedData m !! id) as [d0|] eqn:E; [|discriminate].
    simpl in Hd. inv Hd. specialize (Hrows _ _ E). rewrite length_removeAt.
    destruct (r <? row d0) eqn:E1; [|destruct (row d0 =? r) eqn:E2]; simpl;
      destruct (0 <=? r) eqn:E3; destruct (r <? Z.of_nat (length (data m))) eqn:E4; simpl;
      zbool; lia.
  - exact Hsw.
Qed.

Lemma finishedObject_keeps ub resp info m Q :
  inv_except m (toString (obj_value EnginioString.id info)) ->
  Z.of_nat (outstanding m) < 2 ^ 32 - 1 ->
  (forall x m' out, model_inv m' -> Q x m' out) -> wp (finishedObject ub resp info) Q m.
Proof.
  intros Hex Hsz HQ. unfold finishedObject.
  destruct (obj_index EnginioString.id info) as [j oldValue] eqn:Heqp.
  apply wp_bind, wp_gets. cbv beta.
  assert (Hid : toString j = toString (obj_value EnginioString.id info))
    by (rewrite <- obj_index_fst, Heqp; reflexivity).
  rewrite Hid.
  destruct (inv_deref m _ Hex Hsz) as [Hm1 Hrow].
  destruct (deref (attachedData m) _) as [g a] eqn:Heqp0. simpl in Hm1, Hrow.
  wp_tac; try (apply HQ; exact Hm1); try (apply HQ; eapply inv_replace; [exact Hm1 | eassumption]).
  - apply HQ. apply (inv_remove _ _ Hm1). simpl.
    destruct (row a =? -1) eqn:E; [rewrite orb_true_r, andb_true_r in Heqb; discriminate|].
    zbool. lia.
  - apply wp_syncRoles. intros. wp_tac. apply HQ.
    match goal with
    | H : arr_replace _ _ _ = Some _ |- _ => apply (inv_frame _ _ (inv_replace _ _ _ _ Hm1 H)); reflexivity
    end.
Qed.

Lemma inv_delete_item m k r info :
  model_inv m -> dataChanged m !! k = Some (r, info) ->
  r <> FullModelReset -> r <> IncrementalModelUpdate ->
  inv_except (set_dataChanged (delete k (dataChanged m)) m) (toString (obj_value EnginioString.id info)).
Proof.
  intros (Hrc & Hf & Hrows & Hsw) Hk H1 H2. split; [|split; [|split]].
  - intros id. simpl. rewrite (Hrc id). unfold pending, delayed. simpl.
    rewrite (pendingIn_delete _ _ _ id Hk). do 2 f_equal.
    unfold item_req. simpl. destruct (decide (id = _)) as [->|Hne].
    + rewrite bool_decide_true; [lia|]. auto.
    + rewrite bool_decide_false; [lia|]. intros (_ & _ & E). congruence.
  - intros k' e He. simpl in He. rewrite lookup_delete in He.
    destruct (decide (k = k')); [discriminate|]. eauto.
  - exact Hrows.
  - apply (swaps_fresh_del m _ k Hsw); reflexivity.
Qed.

Lemma inv_delete_query m k r info :
  model_inv m -> dataChanged m !! k = Some (r, info) ->
  r = FullModelReset \/ r = IncrementalModelUpdate ->
  model_inv (set_dataChanged (delete k (dataChanged m)) m).
Proof.
  intros (Hrc & Hf & Hrows & Hsw) Hk Hr. split; [|split; [|split]].
  - intros id. simpl. rewrite (Hrc id). unfold pending, delayed. simpl.
    rewrite (pendingIn_delete _ _ _ id Hk). rewrite bool_decide_false by (unfold item_req; simpl; tauto).
    rewrite Nat.add_0_r. reflexivity.
  - intros k' e He. simpl in He. rewrite lookup_delete in He.
    destruct (decide (k = k')); [discriminate|]. eauto.
  - exact Hrows.
  - apply (swaps_fresh_del m _ k Hsw); reflexivity.
Qed.

Lemma inv_grow m l : model_inv m -> model_inv (set_data (data m ++ l) m).
Proof.
  intros (Hrc & Hf & Hrows & Hsw). split; [exact Hrc | split; [exact Hf | split; [|exact Hsw]]].
  intros id d Hd. simpl. rewrite length_app. apply Hrows in Hd. lia.
Qed.

(** With no object request pending and no functor waiting, clearing the
    attached data keeps the invariant, whatever [_data] becomes. *)
Lemma inv_cleared m k info :
  model_inv m -> dataChanged m !! k = Some (FullModelReset, info) ->
  (forall id, pending m id = 0%nat) -> swaps m = [] ->
  forall d, model_inv (set_data d (set_attachedData ∅ (set_dataChanged (delete k (dataChanged m)) m))).
Proof.
  intros (_ & Hf & _ & Hsw) Hk Hq Hs d. split; [|split; [|split]].
  - intros id. unfold pending, delayed. simpl. unfold ref_of. rewrite lookup_empty, Hs. simpl.
    specialize (Hq id). unfold pending in Hq. rewrite (pendingIn_delete _ _ _ id Hk) in Hq.
    replace (pendingIn (delete k (dataChanged m)) id) with 0%nat by lia. reflexivity.
  - intros k' e He. simpl in He. rewrite lookup_delete in He.
    destruct (decide (k = k')); [discriminate|]. eauto.
  - intros id x Hx. simpl in Hx. rewrite lookup_empty in Hx. discriminate.
  - apply (swaps_fresh_del m _ k Hsw); reflexivity.
Qed.

Lemma outstanding_delete m k e :
  dataChanged m !! k = Some e ->
  outstanding (set_dataChanged (delete k (dataChanged m)) m) = (outstanding m - 1)%nat.
Proof.
  intros Hk. unfold outstanding. simpl. rewrite map_size_delete, Hk.
  assert (size (dataChanged m) <> 0%nat)
    by (intros E; apply map_size_empty_inv in E; rewrite E, lookup_empty in Hk; discriminate).
  lia.
Qed.

Lemma finishedRequest_keeps ub resp m Q :
  model_inv m -> reset_quiet m resp -> Z.of_nat (outstanding m) < 2 ^ 32 - 1 ->
  (forall x m' out, model_inv m' -> Q x m' out) -> wp (finishedRequest ub resp) Q m.
Proof.
  intros Hinv Hquiet Hsz HQ. unfold finishedRequest. apply wp_bind, wp_gets. cbv beta.
  destruct (dataChanged m !! resp_reply resp) as [[r info]|] eqn:Hk; [|apply wp_ret, HQ, Hinv].
  assert (Hsz' : Z.of_nat (outstanding (set_dataChanged (delete (resp_reply resp) (dataChanged m)) m)) < 2 ^ 32 - 1)
    by (rewrite (outstanding_delete _ _ _ Hk); lia).
  wp_tac.
  all: lazymatch goal with
       | |- wp syncRoles _ _ =>
           zbool; try subst r;
           apply wp_syncRoles; intros; wp_tac; apply HQ;
           destruct (Hquiet _ _ Hk eq_refl) as [Hq0 Hs0];
           apply (inv_frame _ _ (inv_cleared m _ info Hinv Hk Hq0 Hs0
                  (toArray (obj_value EnginioString.results (resp_data resp))))); reflexivity
       | |- wp (finishedObject _ _ _) _ _ =>
           zbool; apply finishedObject_keeps;
           [ apply (inv_delete_item m _ r info Hinv Hk); auto
           | exact Hsz'
           | intros; apply HQ; assumption ]
       | |- _ =>
           zbool; try subst r; apply HQ;
           apply (inv_frame _ _ (inv_grow _ (toArray (obj_value EnginioString.results (resp_data resp)))
                                    (inv_delete_query m _ _ info Hinv Hk ltac:(auto))));
           reflexivity
       end.
Qed.

(** ** The functors on a finished create reply *)

Lemma filter_all {A} (P : A -> Prop) `{forall x, Decision (P x)} (l : list A) :
  (forall x, In x l -> P x) -> filter P l = l.
Proof.
  induction l as [|x l IH]; intros Hall; [reflexivity|].
  rewrite filter_cons_True by (apply Hall; left; reflexivity). f_equal. apply IH. intros y Hy. apply Hall. right. exact Hy.
Qed.

Lemma NoDup_map_filter {A B} (f : A -> B) (P : A -> Prop) `{forall x, Decision (P x)} (l : list A) :
  NoDup (map f l) -> NoDup (map f (filter P l)).
Proof.
  induction l as [|x l IH]; simpl; intros Hnd; [constructor|].
  inversion Hnd as [|? ? Hni Hnd']; subst. destruct (decide (P x)).
  2: rewrite filter_cons_False by assumption; auto.
  rewrite filter_cons_True by assumption. simpl. constructor; auto.
  intros Hin. apply Hni. apply list_elem_of_In in Hin. apply list_elem_of_In.
  apply in_map_iff in Hin as [y [Hy Hin]]. apply in_map_iff. exists y. split; [exact Hy|].
  apply list_elem_of_In in Hin. apply list_elem_of_filter in Hin as [_ Hin]. apply list_elem_of_In, Hin.
Qed.

(** Disconnecting the one functor that holds reply [swap_reply s]. *)
Lemma swaps_remove_one sw k s :
  NoDup (map (fun p => swap_reply p.2) sw) -> In (k, s) sw ->
  length sw = S (length (filter (fun p : nat * Swap => swap_reply p.2 <> swap_reply s) sw)) /\
  forall id, delayedIn sw id =
    (delayedIn (filter (fun p : nat * Swap => swap_reply p.2 <> swap_reply s) sw) id +
     if String.eqb (swap_tmpId s) id then 1 else 0)%nat.
Proof.
  induction sw as [|[k' s'] sw IH]; intros Hnd Hin; [destruct Hin|].
  simpl in Hnd. inversion Hnd as [|? ? Hni Hnd']; subst.
  destruct Hin as [Heq|Hin].
  - injection Heq as Hk Hs. subst k s. rewrite filter_cons_False by tauto.
    rewrite filter_all.
    2: { intros [k2 s2] Hin2 Heq2. apply Hni. apply list_elem_of_In, in_map_iff.
         exists (k2, s2). simpl. auto. }
    split; [reflexivity|]. intros id. unfold delayedIn. simpl.
    destruct (String.eqb (swap_tmpId s') id); simpl; lia.
  - assert (Hne : swap_reply s' <> swap_reply s).
    { intros E. apply Hni. rewrite E. apply list_elem_of_In, in_map_iff. exists (k, s). auto. }
    rewrite filter_cons_True by exact Hne. destruct (IH Hnd' Hin) as [IH1 IH2].
    split; [simpl; lia|]. intros id. specialize (IH2 id). unfold delayedIn in *. simpl.
    destruct (String.eqb (swap_tmpId s') id); simpl; lia.
Qed.

Lemma swaps_fresh_filter m m' (P : nat * Swap -> Prop) `{forall x, Decision (P x)} :
  swaps_fresh m -> dataChanged m' = dataChanged m -> nextReply m' = nextReply m ->
  swaps m' = filter P (swaps m) -> swaps_fresh m'.
Proof.
  intros [Hs Hnd] Hdc Hn Hsw. split.
  - intros cr s Hin. rewrite Hsw in Hin. apply list_elem_of_In, list_elem_of_filter in Hin as [_ Hin].
    apply list_elem_of_In in Hin. rewrite Hdc, Hn. eauto.
  - rewrite Hsw. apply NoDup_map_filter, Hnd.
Qed.

Lemma delayedIn_pos sw k s : In (k, s) sw -> (1 <= delayedIn sw (swap_tmpId s))%nat.
Proof.
  unfold delayedIn. induction sw as [|p sw IH]; [intros []|]. intros [->|Hin]; simpl.
  - rewrite String.eqb_refl. simpl. lia.
  - destruct (String.eqb _ _); simpl; [lia | apply IH, Hin].
Qed.

Lemma ref_id_lookup a id r y d' :
  fst (ref_id a id r) !! y = Some d' -> (y = id /\ row d' = r) \/ a !! y = Some d'.
Proof.
  unfold ref_id. simpl. rewrite lookup_insert.
  destruct (decide (id = y)) as [<-|]; [intros H; inv H; left; auto | right; auto].
Qed.

(** One functor, after its disconnection: the request it makes takes the
    reply it handed out, so one object request more is pending. *)
Lemma runSwap_keeps resp s m Q :
  inv_except m (swap_tmpId s) -> Z.of_nat (S (outstanding m)) < 2 ^ 32 - 1 ->
  isError resp = false ->
  (forall d, attachedData m !! swap_tmpId s = Some d -> 0 <= row d) ->
  (forall cr s', In (cr, s') (swaps m) -> swap_reply s' <> swap_reply s) ->
  dataChanged m !! swap_reply s = None -> (swap_reply s < nextReply m)%nat ->
  (forall x m' out, model_inv m' -> swaps m' = swaps m -> outstanding m' = S (outstanding m) ->
     (forall y d', attachedData m' !! y = Some d' ->
        0 <= row d' \/ exists d, attachedData m !! y = Some d /\ row d = row d') ->
     Q x m' out) ->
  wp (runSwap resp s) Q m.
Proof.
  intros Hex Hsz Herr Hrow Hsk Hk Hkn HQ.
  destruct (inv_except_present m _ Hex ltac:(lia)) as [d0 Hd0].
  destruct (inv_deref m _ Hex ltac:(lia)) as [Hm2 _].
  assert (Hr0 : row (snd (deref (attachedData m) (swap_tmpId s))) = row d0)
    by (unfold deref; rewrite Hd0; reflexivity).
  pose proof (Hrow d0 Hd0) as Hpos. pose proof Hex as (_ & _ & Hrows & _).
  pose proof (Hrows _ _ Hd0) as Hrng. pose proof (fresh_reply _ Hm2) as Hfr. simpl in Hfr.
  destruct s as [reply object tmpId | reply object tmpId value role]; cbn [swap_tmpId swap_reply] in *;
    unfold runSwap, swapForRemove, swapForSetData, getCurrentRow, getAndSetCurrentId, removeNow, setDataNow,
      swapNetworkReply, replyCall;
    rewrite Herr; wp_tac;
    match goal with H : deref _ _ = (_, _) |- _ => try rewrite H in Hm2; try rewrite H in Hr0 end;
    simpl in Hm2, Hr0;
    apply HQ; simpl; try reflexivity.
  all: try (rewrite lookup_insert_eq, delete_insert_id by exact Hfr).
  - eapply (inv_add_item_at _ _ reply (row a)
      (obj_insert EnginioString.id (JStr (toString (obj_value EnginioString.id (resp_data resp)))) object)
      (toString (obj_value EnginioString.id (resp_data resp)))); [exact Hm2 | rewrite obj_value_insert_same; reflexivity | simpl; lia
      | exact Hk | simpl; lia | simpl; lia | exact Hsk | reflexivity | reflexivity | reflexivity | reflexivity].
  - unfold outstanding. simpl. rewrite map_size_insert_None by exact Hk. lia.
  - intros y d' Hd'. apply ref_id_lookup in Hd' as [[-> ->]|Hd']; [left; lia|].
    right. match goal with H : deref _ _ = (?g, _) |- _ =>
      assert (Hg : g = fst (deref (attachedData m) tmpId)) by (rewrite H; reflexivity) end.
    subst. destruct (deref_present _ _ _ _ _ Hd0 Hd') as (d1 & Hd1 & E). eauto.
  - eapply (inv_add_item_at _ _ reply (row a)
      (obj_insert EnginioString.id (JStr (toString (obj_value EnginioString.id (resp_data resp)))) object)
      (toString (obj_value EnginioString.id (resp_data resp)))); [exact Hm2 | rewrite obj_value_insert_same; reflexivity | simpl; lia
      | exact Hk | simpl; lia | simpl; lia | exact Hsk | reflexivity | reflexivity
      | simpl; eapply arr_replace_length; eassumption | reflexivity].
  - unfold outstanding. simpl. rewrite map_size_insert_None by exact Hk. lia.
  - intros y d' Hd'. apply ref_id_lookup in Hd' as [[-> ->]|Hd']; [left; lia|].
    right. match goal with H : deref _ _ = (?g, _) |- _ =>
      assert (Hg : g = fst (deref (attachedData m) tmpId)) by (rewrite H; reflexivity) end.
    subst. destruct (deref_present _ _ _ _ _ Hd0 Hd') as (d1 & Hd1 & E). eauto.
Qed.

(** ** The public methods and the events *)

(** The functors connected to a finished create reply, in order. *)
Lemma runSwaps_keeps resp l m Q :
  model_inv m -> Z.of_nat (outstanding m) < 2 ^ 32 - 1 -> isError resp = false ->
  NoDup (map swap_reply l) ->
  (forall s, In s l -> In (resp_reply resp, s) (swaps m)) ->
  (forall s d, In s l -> attachedData m !! swap_tmpId s = Some d -> 0 <= row d) ->
  (forall x m' out, model_inv m' -> Q x m' out) -> wp (runSwaps resp l) Q m.
Proof.
  revert m Q. induction l as [|s l IH]; intros m Q Hinv Hsz Herr Hnd Hin Hrow HQ; simpl.
  - apply wp_ret, HQ, Hinv.
  - inversion Hnd as [|? ? Hni Hnd']; subst.
    apply wp_bind, wp_modify. cbv beta. apply wp_bind.
    pose proof Hinv as (Hrc & Hf & Hrows & Hsw). pose proof Hsw as [Hsf Hnds].
    pose proof (Hin s (or_introl eq_refl)) as Hs.
    destruct (swaps_remove_one (swaps m) _ s Hnds Hs) as [Hlen Hdl].
    destruct (Hsf _ _ Hs) as [Hk Hkn].
    apply runSwap_keeps; cbn [swaps dataChanged nextReply attachedData set_swaps]; auto.
    + split; [|split; [|split]]; cbn [swaps dataChanged nextReply attachedData data set_swaps].
      * intros id. rewrite (Hrc id). unfold pending, delayed. simpl. rewrite (Hdl id). f_equal. f_equal.
        destruct (decide (id = swap_tmpId s)) as [->|Hne].
        -- rewrite String.eqb_refl. lia.
        -- rewrite (proj2 (String.eqb_neq _ _)) by congruence. lia.
      * exact Hf.
      * exact Hrows.
      * apply (swaps_fresh_filter m _ (fun p : nat * Swap => swap_reply p.2 <> swap_reply s) Hsw); reflexivity.
    + unfold outstanding in *. simpl. lia.
    + intros d Hd. exact (Hrow s d (or_introl eq_refl) Hd).
    + intros cr s' Hin'. apply list_elem_of_In, list_elem_of_filter in Hin' as [H _]. exact H.
    + intros x m' out Hm' Hs' Ho' Hr'. apply IH; auto.
      * rewrite Ho'. unfold outstanding in *. simpl. lia.
      * intros s'' Hin''. rewrite Hs'. simpl. apply list_elem_of_In, list_elem_of_filter. split.
        -- intros E. apply Hni. rewrite <- E. apply list_elem_of_In, in_map, Hin''.
        -- apply list_elem_of_In, Hin. right. exact Hin''.
      * intros s'' d' Hin'' Hd'. destruct (Hr' _ _ Hd') as [H|(d & Hd & Heq)]; [exact H|].
        rewrite <- Heq. exact (Hrow s'' d (or_intror Hin'') Hd).
Qed.

Lemma replyFinished_keeps resp m Q :
  model_inv m -> swap_ready m resp -> Z.of_nat (outstanding m) < 2 ^ 32 - 1 ->
  (forall x m' out, model_inv m' -> Q x m' out) -> wp (replyFinished resp) Q m.
Proof.
  intros Hinv Hready Hsz HQ. unfold replyFinished. apply wp_bind, wp_gets. cbv beta.
  assert (Hl : forall s, In s (map snd (filter (fun p : nat * Swap => p.1 = resp_reply resp) (swaps m))) ->
                 In (resp_reply resp, s) (swaps m)).
  { intros s Hs. apply in_map_iff in Hs as [[k s'] [Hs' Hin]]. simpl in Hs'. subst s'.
    apply list_elem_of_In, list_elem_of_filter in Hin as [Hk Hin]. simpl in Hk. subst k.
    apply list_elem_of_In, Hin. }
  destruct (map snd _) as [|s0 l0] eqn:El; [apply wp_ret, HQ, Hinv|].
  destruct (Hready s0 (Hl s0 (or_introl eq_refl))) as [Herr _].
  apply runSwaps_keeps; auto.
  - rewrite <- El, map_map. apply NoDup_map_filter. destruct Hinv as (_ & _ & _ & [_ Hnd]). exact Hnd.
  - intros s d Hs Hd. destruct (Hready s (Hl s Hs)) as [_ (d' & Hd' & Hr)]. congruence.
Qed.

(** ** The public methods and the events *)

Lemma model_remove_keeps r m Q :
  model_inv m -> delayed_ok m r ->
  (forall x m' out, model_inv m' -> Q x m' out) -> wp (model_remove r) Q m.
Proof.
  intros Hinv Hok HQ. unfold model_remove. wp_tac; try (apply HQ; exact Hinv).
  apply remove_keeps; auto.
Qed.

Lemma model_setProperty_keeps r role v m Q :
  model_inv m -> delayed_ok m r ->
  (forall x m' out, model_inv m' -> Q x m' out) -> wp (model_setProperty r role v) Q m.
Proof.
  intros Hinv Hok HQ. unfold model_setProperty. wp_tac; try (apply HQ; exact Hinv).
  apply setValue_keeps; auto.
Qed.

Lemma model_setData_keeps r v role m Q :
  model_inv m -> delayed_ok m r ->
  (forall x m' out, model_inv m' -> Q x m' out) -> wp (model_setData r v role) Q m.
Proof.
  intros Hinv Hok HQ. unfold model_setData. wp_tac; try (apply HQ; exact Hinv).
  apply setData_keeps; auto. intros. wp_tac. apply HQ. assumption.
Qed.

Lemma mhandle_keeps ub ev m Q :
  model_inv m ->
  (forall value uuid, ev = MAppend value uuid -> fresh_tmp m uuid) ->
  (forall client resp, ev = MFinished client resp -> reset_quiet m resp) ->
  (forall r, event_row ev = Some r -> delayed_ok m r) ->
  (forall resp, ev = MReplyFinished resp -> swap_ready m resp) ->
  Z.of_nat (outstanding m) < 2 ^ 32 - 1 ->
  (forall x m' out, model_inv m' -> Q x m' out) -> wp (mhandle ub ev) Q m.
Proof.
  intros Hinv Hfr Hq Hrow Hready Hsz HQ.
  assert (Hsz' : Z.of_nat (size (dataChanged m)) < 2 ^ 32 - 1) by (unfold outstanding in Hsz; lia).
  destruct ev as [e|c|cl|q|op|value uuid|r|r role v|r v role| |cl resp|resp]; simpl.
  - unfold model_setEnginio. wp_tac; [apply HQ; exact Hinv | apply setEnginio_keeps; auto].
  - wp_tac; [|apply HQ; exact Hinv]. apply execute_keeps; [frame_inv Hinv | auto].
  - wp_tac; [apply setEnginio_keeps; auto | apply HQ; exact Hinv].
  - unfold model_setQuery. wp_tac; [apply HQ; exact Hinv | apply setQuery_keeps; auto].
  - unfold model_setOperation. wp_tac; [apply HQ; exact Hinv | apply setOperation_keeps; auto].
  - unfold model_append. wp_tac; try (apply HQ; exact Hinv).
    apply append_keeps; [exact Hinv | eapply Hfr; reflexivity |]. intros. wp_tac. wp_tac. apply HQ. assumption.
  - wp_tac. apply model_remove_keeps; auto. intros. wp_tac. apply HQ. assumption.
  - wp_tac. apply model_setProperty_keeps; auto. intros. wp_tac. apply HQ. assumption.
  - wp_tac. apply model_setData_keeps; auto. intros. wp_tac. apply HQ. assumption.
  - apply fetchMore_keeps; auto.
  - wp_tac; [apply finishedRequest_keeps; eauto | apply HQ; exact Hinv].
  - apply replyFinished_keeps; auto.
Qed.

Lemma mreachable_model_inv ub m : mreachable ub m -> model_inv m.
Proof.
  induction 1 as [|m ev x m' o _ IH Hfr Hq Hrow Hready Hsz Hstep].
  - split; [|split; [|split; [|split]]].
    + intros id. reflexivity.
    + intros k e H. simpl in H. rewrite lookup_empty in H. discriminate.
    + intros id d H. simpl in H. rewrite lookup_empty in H. discriminate.
    + intros cr s [].
    + constructor.
  - pose proof (mhandle_keeps ub ev m (fun _ m' _ => model_inv m') IH Hfr Hq Hrow Hready Hsz ltac:(auto)) as W.
    unfold wp in W. rewrite Hstep in W. exact W.
Qed.

(** C18: in every state the model reaches through the calls of its users and
    the replies of the backend (temporary ids fresh; fewer than 2^32 - 1
    requests and waiting functors; no resetting query reply while an object
    request is pending or a functor waits; a delayed operation finds the
    entry of its row under the temporary id its create request names; a
    create reply that functors wait for succeeds, and their row is still in
    [_data]; without these conditions the count can break, see
    ModelDelayed.v), the [uint ref] of every id in [_attachedData] is the number of
    pending requests on that object plus the functors waiting to use it,
    every pending reply was handed out, every attached row is -1 (removed)
    or a row of [_data], and the replies the functors handed out are
    distinct and not yet pending. *)
Theorem model_refcounts ub m : mreachable ub m -> model_inv m.
Proof. exact (mreachable_model_inv ub m). Qed.

