(* ===== verification/ModelRoles.v ===== *)
(** The roles of [EnginioModel] ([syncRoles], [roleNames], [data]): the
    model gives the static roles [SyncedRole] .. [ObjectTypeRole] their
    names once, then numbers each new property name of the first object from
    [_rolesCounter] up.  The invariant [roles_wf] says the roles are numbered
    from [SyncedRole], below the counter, with [SyncedRole] named [_synced]
    once any role exists; [syncRoles] keeps it, and the role it assigns to a
    property of the first row reads that property back through [data]. *)

From S2P Require Import Prelude.
From stdpp Require Import base gmap strings.
From S2P Require Import Bytes Json Model.
From Stdlib Require Strings.String.

Open Scope Z_scope.

(** ** The invariant *)

Definition roles_below (rs : gmap Z string) (lo hi : Z) : Prop :=
  forall r n, rs !! r = Some n -> lo <= r < hi.

Definition roles_wf (m : Model) : Prop :=
  (roles m = ∅ /\ rolesCounter m = SyncedRole) \/
  (roles m !! SyncedRole = Some EnginioString._synced /\ roles_below (roles m) SyncedRole (rolesCounter m)).

(** ** [role_key] *)

Lemma role_key_lookup rs k r : rs !! r = Some k -> rs !! role_key rs k = Some k.
Proof.
  intros Hr. unfold role_key.
  destruct (filter (fun p => p.2 = k) (map_to_list rs)) as [|[r' k'] l] eqn:E.
  - assert (Hin : (r, k) ∈ filter (fun p => p.2 = k) (map_to_list rs)).
    { apply list_elem_of_filter. split; [reflexivity | apply elem_of_map_to_list, Hr]. }
    rewrite E in Hin. inversion Hin.
  - assert (Hin : (r', k') ∈ filter (fun p => p.2 = k) (map_to_list rs)) by (rewrite E; left).
    apply list_elem_of_filter in Hin as [Hk Hin]. simpl in Hk. subst k'.
    apply elem_of_map_to_list in Hin. exact Hin.
Qed.

(** ** The loop of [syncRoles] *)

(** [addRoles] keeps the roles it started with, numbers the new ones from
    the counter up, and names every key that was not already a name. *)
Lemma addRoles_post defined keys m lo :
  lo <= rolesCounter m -> roles_below (roles m) lo (rolesCounter m) ->
  twp (addRoles defined keys)
    (fun _ m' _ =>
       m' = set_roles (rolesCounter m') (roles m') m /\
       rolesCounter m <= rolesCounter m' /\
       roles_below (roles m') lo (rolesCounter m') /\
       (forall r n, roles m !! r = Some n -> roles m' !! r = Some n) /\
       (forall k, In k keys -> existsb (String.eqb k) defined = false ->
                  exists r, roles m' !! r = Some k))
    m.
Proof.
  revert m. induction keys as [|key keys IH]; intros m Hlo Hb.
  - apply twp_ret. split; [destruct m; reflexivity|]. split; [lia|].
    split; [exact Hb|]. split; [auto | intros k []].
  - simpl. apply twp_bind. destruct (existsb (String.eqb key) defined) eqn:Ed.
    + apply twp_when.
      assert (Hkeep : twp (addRoles defined keys)
                (fun _ m' _ =>
                   m' = set_roles (rolesCounter m') (roles m') m /\
                   rolesCounter m <= rolesCounter m' /\
                   roles_below (roles m') lo (rolesCounter m') /\
                   (forall r n, roles m !! r = Some n -> roles m' !! r = Some n) /\
                   (forall k, In k (key :: keys) -> existsb (String.eqb k) defined = false ->
                              exists r, roles m' !! r = Some k)) m).
      { eapply twp_conseq; [|apply IH; assumption].
        intros x m' o (E & Hc & Hb' & Hk & Hn). repeat (split; [assumption|]).
        intros k [<-|Hin] Hd; [congruence | apply Hn; assumption]. }
      destruct (String.eqb key EnginioString._synced); [apply twp_emit|]; exact Hkeep.
    + apply twp_modify. cbn.
      set (m1 := set_roles (rolesCounter m + 1) (<[rolesCounter m := key]> (roles m)) m).
      assert (Hb1 : roles_below (roles m1) lo (rolesCounter m1)).
      { intros r n Hr. simpl in Hr. destruct (decide (r = rolesCounter m)) as [->|Hne].
        - simpl. lia.
        - rewrite lookup_insert_ne in Hr by congruence. apply Hb in Hr. simpl. lia. }
      eapply twp_conseq; [|apply (IH m1); [simpl; lia | exact Hb1]].
      intros x m' o (E & Hc & Hb' & Hk & Hn). simpl in Hc.
      split; [rewrite E; destruct m; reflexivity|]. split; [lia|]. split; [exact Hb'|].
      split.
      * intros r n Hr. apply Hk. simpl. rewrite lookup_insert_ne; [exact Hr|].
        apply Hb in Hr. lia.
      * intros k [<-|Hin] Hd.
        -- exists (rolesCounter m). apply Hk. simpl. apply lookup_insert_eq.
        -- apply Hn; assumption.
Qed.

Lemma obj_contains_keys k o : obj_contains k o = true -> In k (map fst o).
Proof.
  unfold obj_contains. intros [[k' v] [Hin Hk]]%existsb_exists. apply String.eqb_eq in Hk.
  simpl in Hk. subst k'. apply in_map_iff. exists (k, v). auto.
Qed.

Lemma existsb_role_names (rs : gmap Z string) k :
  existsb (String.eqb k) (map snd (map_to_list rs)) = true -> exists r, rs !! r = Some k.
Proof.
  intros [x [Hin Hk]]%existsb_exists. apply String.eqb_eq in Hk. subst x.
  apply in_map_iff in Hin as [[r n] [Hn Hin]]. simpl in Hn. subst n.
  exists r. apply elem_of_map_to_list, list_elem_of_In, Hin.
Qed.

(** The loop of [syncRoles] once the static roles are there. *)
Lemma addRoles_sync m m1 keys :
  m1 = set_roles (rolesCounter m1) (roles m1) m ->
  roles m1 !! SyncedRole = Some EnginioString._synced ->
  roles_below (roles m1) SyncedRole (rolesCounter m1) ->
  twp (rs ← gets roles; addRoles (map snd (map_to_list rs)) keys)
    (fun _ m' _ =>
       m' = set_roles (rolesCounter m') (roles m') m /\ roles_wf m' /\
       forall k, In k keys -> exists r, roles m' !! r = Some k)
    m1.
Proof.
  intros E1 Hs Hb. apply twp_bind, twp_gets.
  assert (Hlo : SyncedRole <= rolesCounter m1) by (apply Hb in Hs; lia).
  eapply twp_conseq; [|apply (addRoles_post _ keys m1 SyncedRole Hlo Hb)].
  intros x m' o (E & _ & Hb' & Hk & Hn). split; [|split].
  - rewrite E, E1. destruct m; reflexivity.
  - right. split; [apply Hk, Hs | exact Hb'].
  - intros k Hin. destruct (existsb (String.eqb k) (map snd (map_to_list (roles m1)))) eqn:Ed.
    + destruct (existsb_role_names _ _ Ed) as [r Hr]. exists r. apply Hk, Hr.
    + apply Hn; assumption.
Qed.

(** The static roles [syncRoles] names when there is no role yet. *)
Lemma static_roles_below rs :
  rs = ∅ ->
  roles_below (<[ObjectTypeRole := EnginioString.objectType]> (<[IdRole := EnginioString.id]>
    (<[UpdatedAtRole := EnginioString.updatedAt]> (<[CreatedAtRole := EnginioString.createdAt]>
      (<[SyncedRole := EnginioString._synced]> rs))))) SyncedRole LastRole.
Proof.
  intros -> r n Hr. rewrite !lookup_insert_Some, lookup_empty in Hr.
  unfold ObjectTypeRole, IdRole, UpdatedAtRole, CreatedAtRole, SyncedRole, LastRole in *.
  intuition (subst; lia || discriminate).
Qed.

(** [syncRoles] returns, keeps [roles_wf], changes only the roles, and every
    key of the first object becomes the name of some role. *)
Lemma syncRoles_post m :
  roles_wf m ->
  twp syncRoles
    (fun _ m' _ =>
       m' = set_roles (rolesCounter m') (roles m') m /\ roles_wf m' /\
       forall k, obj_contains k (toObject (arr_at (data m) 0)) = true ->
                 exists r, roles m' !! r = Some k)
    m.
Proof.
  intros Hwf. unfold syncRoles. apply twp_bind, twp_gets, twp_bind, twp_gets, twp_bind, twp_when.
  destruct (map_size (roles m) =? 0)%nat eqn:Es; apply Nat.eqb_eq in Es || apply Nat.eqb_neq in Es.
  - destruct Hwf as [[He Hc]|[Hs _]].
    + apply twp_modify. cbv beta.
      eapply twp_conseq; [|apply addRoles_sync; [reflexivity | simpl; rewrite He; reflexivity | apply static_roles_below, He]].
      intros x m' o (E & Hw & Hk). split; [rewrite E; destruct m; reflexivity|]. split; [exact Hw|].
      intros k Hin. apply Hk, obj_contains_keys, Hin.
    + apply map_size_empty_iff in Es. rewrite Es, lookup_empty in Hs. discriminate.
  - destruct Hwf as [[He _]|[Hs Hb]].
    + exfalso. apply Es, map_size_empty_iff, He.
    + eapply twp_conseq; [|apply (addRoles_sync m m); [destruct m; reflexivity | exact Hs | exact Hb]].
      intros x m' o (E & Hw & Hk). split; [exact E|]. split; [exact Hw|].
      intros k Hin. apply Hk, obj_contains_keys, Hin.
Qed.

(** The object read from an empty [_data] is empty. *)
Lemma first_object_rows m k :
  obj_contains k (toObject (arr_at (data m) 0)) = true -> 0 < rowCount m.
Proof.
  intros H. unfold rowCount. destruct (Z.ltb_spec 0 (Z.of_nat (length (data m)))) as [|Hle]; [assumption|].
  rewrite arr_at_out in H by lia. discriminate.
Qed.

(** Once a role exists, [roles_wf] is its second case. *)
Lemma roles_wf_named m r k :
  roles_wf m -> roles m !! r = Some k ->
  roles m !! SyncedRole = Some EnginioString._synced /\ SyncedRole <= r < rolesCounter m.
Proof.
  intros [[He _]|[Hs Hb]] Hr.
  - rewrite He, lookup_empty in Hr. discriminate.
  - split; [exact Hs | apply (Hb r k Hr)].
Qed.

(** C21: the role [syncRoles] gives a property of the first object is the
    one [roleNames] lists under that name and [setProperty] looks up by
    it ([role_key]), and [data] of row 0 under that role is the property's
    value, for every property but [_synced] (whose role is [SyncedRole],
    read as the sync flag) and the empty name. *)
Theorem syncRoles_roundtrip m k :
  roles_wf m -> obj_contains k (toObject (arr_at (data m) 0)) = true ->
  k <> EnginioString._synced -> k <> String.EmptyString ->
  twp syncRoles
    (fun _ m' _ =>
       SyncedRole < role_key (roles m') k /\
       model_roleNames m' !! role_key (roles m') k = Some (bytes_of_string k) /\
       model_data m' 0 (role_key (roles m') k) = Some (obj_value k (toObject (arr_at (data m) 0))))
    m.
Proof.
  intros Hwf Hc Hns Hne. eapply twp_conseq; [|apply syncRoles_post, Hwf].
  intros x m' o (E & Hw & Hk). destruct (Hk k Hc) as [r0 Hr0].
  pose proof (role_key_lookup _ _ _ Hr0) as Hr.
  destruct (roles_wf_named m' _ _ Hw Hr) as [Hs Hlo].
  assert (Hsy : role_key (roles m') k <> SyncedRole) by (intros Heq; rewrite Heq, Hs in Hr; congruence).
  split; [lia|]. split.
  - unfold model_roleNames, roleNames. rewrite lookup_fmap, Hr. reflexivity.
  - pose proof (first_object_rows m k Hc) as Hrows.
    unfold model_data, data_at. rewrite E. cbn [data roles attachedData set_roles].
    unfold rowCount in *.
    simpl. rewrite (proj2 (Z.eqb_neq _ _) Hsy).
    destruct (Z.eqb_spec (role_key (roles m') k) DisplayRole) as [Hd|_]; [unfold DisplayRole, SyncedRole in *; lia|].
    rewrite Hr. simpl. rewrite (proj2 (String.eqb_neq _ _) Hne).
    destruct (toObject (arr_at (data m) 0)) eqn:Eo; [discriminate|].
    destruct (Z.leb_spec (Z.of_nat (length (data m))) 0); [lia | reflexivity].
Qed.

Module RolesWitnesses.

(** A model holding one object and no roles yet, as after the first reset. *)
Definition firstRow : jobj := [("id", JStr "a"); ("title", JStr "x")].
Definition unsynced : Model := set_data [JObj firstRow] initialModel.

Lemma syncRoles_roundtrip_witness :
  roles_wf unsynced /\ obj_contains "title" firstRow = true /\
  twp syncRoles
    (fun _ m' _ => model_data m' 0 (role_key (roles m') "title") = Some (JStr "x")) unsynced.
Proof.
  assert (Hw : roles_wf unsynced) by (left; split; reflexivity).
  split; [exact Hw|]. split; [reflexivity|].
  eapply twp_conseq; [|exact (syncRoles_roundtrip unsynced "title" Hw eq_refl ltac:(discriminate) ltac:(discriminate))].
  intros x m' o (_ & _ & H). exact H.
Defined.

End RolesWitnesses.
