(* ===== verification/ModelSpec.v ===== *)
(** Functional specifications of the public methods of [EnginioModel]
    ([append], [remove], [fetchMore], [setQuery], [setData]), a decidable
    checker that builds [mreachable] for concrete runs, and the sample runs
    the witnesses of this file and of ModelDelayed.v start from. *)

From S2P Require Import Prelude.
From stdpp Require Import base gmap strings.
From S2P Require Import Json Model ModelInv.
From Stdlib Require Strings.String.

Open Scope Z_scope.

(** ** Functional specifications *)

Lemma contains_row_spec a r :
  contains_row a r = true <-> exists id d, a !! id = Some d /\ row d = r.
Proof.
  unfold contains_row. rewrite existsb_exists. split.
  - intros [[id d] [Hin Hr]]. apply Z.eqb_eq in Hr.
    exists id, d. split; [apply elem_of_map_to_list, list_elem_of_In, Hin | exact Hr].
  - intros (id & d & Hd & Hr). exists (id, d).
    split; [apply list_elem_of_In, elem_of_map_to_list, Hd | apply Z.eqb_eq, Hr].
Qed.

(** The row of an attached entry reads as unsynced. *)
Lemma model_data_unsynced m id d r :
  attachedData m !! id = Some d -> row d = r -> 0 <= r < rowCount m ->
  model_data m r SyncedRole = Some (JBool false).
Proof.
  intros Hd <- Hr. unfold model_data, data_at.
  replace ((row d <? 0) || (rowCount m <=? row d)) with false by (symmetry; apply orb_false_iff; split; zbool; lia).
  rewrite Z.eqb_refl. do 2 f_equal. replace (contains_row _ _) with true; [reflexivity|].
  symmetry. apply contains_row_spec. eauto.
Qed.

(** [EnginioModel::append] on a model with a client returns the reply of
    the create request it makes, appends [value] as the last row, which then
    reads as unsynced, and the create request carries the query's
    [objectType] (Null when the query has none). *)
Theorem append_spec value uuid m c :
  enginio m = Some c ->
  twp (model_append value uuid)
    (fun x m' o =>
       x = ReplyTo (nextReply m) /\
       data m' = data m ++ [JObj value] /\
       model_data m' (Z.of_nat (length (data m))) SyncedRole = Some (JBool false) /\
       calls m' = calls m ++ [(nextReply m, CallCreate (obj_insert EnginioString.objectType
                                 (fst (obj_index EnginioString.objectType (query m))) value) (operation m))])
    m.
Proof.
  intros Hc. unfold model_append, append. twp_tac; try congruence.
  all: repeat split; simpl; try reflexivity.
  all: eapply model_data_unsynced;
    [simpl; apply lookup_insert_eq | reflexivity | unfold rowCount; simpl; rewrite length_app; simpl; lia].
Qed.

(** A row whose object has a non-empty id is a row of [_data]. *)
Lemma id_nonempty_in_range m r :
  toString (obj_value EnginioString.id (toObject (arr_at (data m) r))) <> String.EmptyString ->
  0 <= r < rowCount m.
Proof.
  intros Hid. unfold rowCount. destruct (decide (0 <= r < Z.of_nat (length (data m)))) as [H|H]; [exact H|].
  rewrite arr_at_out in Hid by exact H. simpl in Hid. congruence.
Qed.

(** [EnginioModel::remove] of a row whose object has an id returns the
    reply of the remove request it sends for that object, keeps the row
    until the reply arrives but reads it as unsynced, records the request
    for the row, and emits [dataChanged] for the roles [0] and [SyncedRole]
    ([QVector<int> roles(1)] holds a 0 before [SyncedRole] is appended). *)
Theorem remove_spec r m c :
  enginio m = Some c ->
  toString (obj_value EnginioString.id (toObject (arr_at (data m) r))) <> String.EmptyString ->
  twp (model_remove r)
    (fun x m' out =>
       x = ReplyTo (nextReply m) /\
       out = [DataChangedSignal r r [DisplayRole; SyncedRole]] /\
       data m' = data m /\
       model_data m' r SyncedRole = Some (JBool false) /\
       calls m' = calls m ++ [(nextReply m, CallRemove (toObject (arr_at (data m) r)) (operation m))] /\
       dataChanged m' !! nextReply m = Some (r, toObject (arr_at (data m) r)))
    m.
Proof.
  intros Hc Hid. pose proof (id_nonempty_in_range m r Hid) as Hr.
  unfold model_remove, remove, removeNow. twp_tac; try congruence.
  - apply orb_true_iff in Heqb. zbool. lia.
  - rewrite obj_index_present in Heqp by exact Hid. inv Heqp.
    apply String.eqb_eq in Heqb0. congruence.
  - rewrite obj_index_present in Heqp by exact Hid. inv Heqp.
    repeat split; simpl; try reflexivity.
    + eapply model_data_unsynced; [apply lookup_insert_eq | reflexivity | exact Hr].
    + apply lookup_insert_eq.
Qed.

(** The state [EnginioModel::remove] leaves for a row whose object has an id. *)
Lemma remove_post r m c :
  enginio m = Some c ->
  toString (obj_value EnginioString.id (toObject (arr_at (data m) r))) <> String.EmptyString ->
  twp (model_remove r)
    (fun _ m' out =>
       out = [DataChangedSignal r r [DisplayRole; SyncedRole]] /\
       data m' = data m /\ nextReply m' = S (nextReply m) /\ enginio m' = enginio m /\
       attachedData m' = fst (ref_id (attachedData m)
                                (toString (obj_value EnginioString.id (toObject (arr_at (data m) r)))) r) /\
       dataChanged m' = <[nextReply m := (r, toObject (arr_at (data m) r))]> (dataChanged m))
    m.
Proof.
  intros Hc Hid. pose proof (id_nonempty_in_range m r Hid) as Hr.
  unfold model_remove, remove, removeNow. twp_tac; try congruence.
  - apply orb_true_iff in Heqb. zbool. lia.
  - rewrite obj_index_present in Heqp by exact Hid. inv Heqp.
    apply String.eqb_eq in Heqb0. congruence.
  - rewrite obj_index_present in Heqp by exact Hid. inv Heqp. simpl. repeat split; congruence.
Qed.

(** A reference taken on a fresh id and released again leaves the container
    as it was. *)
Lemma deref_ref_fresh a id r :
  a !! id = None -> deref (fst (ref_id a id r)) id = (a, mkAttached 0 r None).
Proof.
  intros H. unfold deref, ref_id. simpl. rewrite H, lookup_insert_eq. simpl.
  rewrite delete_insert_id by exact H. reflexivity.
Qed.

(** Runs [finishedObject] on the reply of a request on the object [o] with
    an id ([Hid]), whose entry ([Ha]) was taken fresh ([Hnone]), and drops
    the branches of a query reply and of a removed row. *)
Ltac finished_object_run Hid Ha Hnone :=
  twp_tac;
  cbn [resp_data resp_backendStatus resp_networkError resp_reply attachedData data dataChanged
       set_dataChanged set_attachedData] in *;
  repeat match goal with
  | H : obj_index EnginioString.id _ = _ |- _ => rewrite (obj_index_present _ _ Hid) in H; injection H as <- <-
  | H : deref _ _ = _ |- _ => rewrite Ha, deref_ref_fresh in H by exact Hnone; injection H as <- <-
  end;
  unfold FullModelReset, IncrementalModelUpdate in *; simpl in *; zbool; try lia; try discriminate.

(** C23: a remove and its reply refine the removal of a row from a list: for
    a row holding an object with an id and nothing attached, [remove]
    followed by the reply of its request (status other than 404) either
    commits, removing the row from [_data] and moving the later rows' entries
    up by one, or, on a network error, restores [_data] and the attached data
    exactly; either way no request is left pending. *)
Theorem remove_reply_outcome ub r o m c status err :
  model_inv m -> enginio m = Some c -> arr_at (data m) r = JObj o ->
  toString (obj_value EnginioString.id o) <> String.EmptyString ->
  attachedData m !! toString (obj_value EnginioString.id o) = None -> status <> 404 ->
  twp (_ ← model_remove r; finishedRequest ub (mkResponse (nextReply m) [] status err))
    (fun _ m' out =>
       dataChanged m' = dataChanged m /\
       if err then
         data m' = data m /\ attachedData m' = attachedData m /\
         out = [DataChangedSignal r r [DisplayRole; SyncedRole]; DataChangedSignal r r []]
       else
         data m' = arr_removeAt (data m) r /\
         attachedData m' = updateAllDataAfterRow (attachedData m) r /\
         out = [DataChangedSignal r r [DisplayRole; SyncedRole]; BeginRemoveRows r r; EndRemoveRows])
    m.
Proof.
  intros Hinv Hc Harr Hid Hnone H404.
  assert (Hid' : toString (obj_value EnginioString.id (toObject (arr_at (data m) r))) <> String.EmptyString)
    by (rewrite Harr; exact Hid).
  pose proof (id_nonempty_in_range m r Hid') as Hr. pose proof (fresh_reply m Hinv) as Hfresh.
  apply twp_bind. eapply twp_conseq; [|apply (remove_post r m c Hc Hid')].
  intros x m1 o1 (Ho1 & Hd & Hn & He & Ha & Hdc). rewrite Harr in Ha, Hdc. change (toObject (JObj o)) with o in Ha, Hdc.
  unfold finishedRequest. apply twp_bind, twp_gets. cbv beta. simpl resp_reply.
  rewrite Hdc, lookup_insert_eq.
  assert (Emsg : obj_index EnginioString.message [] = (JNull, [(EnginioString.message, JNull)]))
    by reflexivity.
  cbv iota beta. unfold finishedObject. finished_object_run Hid Ha Hnone;
    repeat match goal with
    | H : obj_index EnginioString.message [] = _ |- _ => rewrite Emsg in H; injection H as <- <-
    end; simpl in *; try discriminate; destruct err; simpl in *; try discriminate;
    repeat match goal with
    | H : negb _ = false |- _ => apply negb_false_iff in H
    | H : negb _ = true |- _ => apply negb_true_iff in H
    end; zbool; try lia; subst o1; rewrite ?Hd.
  - apply (twp_lift _ _ _ _ (arr_replace_same _ _ _ Harr)). twp_tac. simpl.
    rewrite delete_insert_id by exact Hfresh. repeat split.
  - rewrite delete_insert_id by exact Hfresh. repeat split.
Qed.

Lemma offset_ne_limit : EnginioString.offset <> EnginioString.limit.
Proof. unfold EnginioString.offset, EnginioString.limit. discriminate. Qed.

(** [fetchMore] sends nothing while the model cannot fetch more or the
    last requested page has not arrived; otherwise it sends one query, a
    copy of [_query] with [offset] the row count and [limit] the larger of
    [row - rowCount] and the query's limit, records it as an incremental
    update, and moves [_latestRequestedOffset] on by that limit, leaving
    [_query] unchanged. *)
Theorem fetchMore_spec r m c :
  enginio m = Some c ->
  twp (fetchMore r)
    (fun _ m' o =>
       o = [] /\
       if negb (canFetchMore m) || (rowCount m <? latestRequestedOffset m) then m' = m
       else
         let limit := Z.max (r - rowCount m) (toDouble (obj_value EnginioString.limit (query m))) in
         query m' = query m /\ data m' = data m /\ attachedData m' = attachedData m /\
         latestRequestedOffset m' = latestRequestedOffset m + limit /\
         exists q, calls m' = calls m ++ [(nextReply m, CallQuery q (operation m))] /\
           dataChanged m' = <[nextReply m := (IncrementalModelUpdate, q)]> (dataChanged m) /\
           obj_value EnginioString.offset q = JNum (rowCount m) /\
           obj_value EnginioString.limit q = JNum limit /\
           (forall k, k <> EnginioString.offset -> k <> EnginioString.limit ->
                      obj_value k q = obj_value k (query m)))
    m.
Proof.
  intros Hc. unfold fetchMore, rowCount. twp_tac; (split; [reflexivity|]); cbv iota; [destruct m; reflexivity|].
  simpl. rewrite <- (toDouble_obj_index EnginioString.limit (query m)), Heqp. simpl.
  repeat split; try reflexivity. eexists. split; [reflexivity|]. split; [reflexivity|].
  split; [|split].
  - rewrite obj_value_insert_other by exact offset_ne_limit. apply obj_value_insert_same.
  - apply obj_value_insert_same.
  - intros k H1 H2. rewrite !obj_value_insert_other by assumption.
    change j0 with (snd (j, j0)). rewrite <- Heqp. apply obj_index_other, H2.
Qed.

(** C26: [setQuery] with a [pageSize] and neither [limit] nor [offset] turns
    paging on and sends the query with [limit] set to the page size and the
    other keys of [query]; reading [offset] with [operator[]] leaves an
    [offset] of [null] in [_query] and in the request. *)
Theorem setQuery_paging q m c :
  enginio m = Some c -> backendId c <> String.EmptyString -> backendSecret c <> String.EmptyString ->
  obj_contains EnginioString.pageSize q = true ->
  obj_contains EnginioString.limit q = false -> obj_contains EnginioString.offset q = false ->
  twp (setQuery q)
    (fun _ m' o =>
       o = [QueryChangedSignal q] /\
       canFetchMore m' = true /\
       obj_value EnginioString.limit (query m') = JNum (toDouble (obj_value EnginioString.pageSize q)) /\
       obj_contains EnginioString.offset (query m') = true /\
       obj_value EnginioString.offset (query m') = JNull /\
       (forall k, k <> EnginioString.limit -> k <> EnginioString.offset ->
                  obj_value k (query m') = obj_value k q) /\
       latestRequestedOffset m' = toDouble (obj_value EnginioString.pageSize q) /\
       calls m' = calls m ++ [(nextReply m, CallQuery (query m') (operation m))])
    m.
Proof.
  intros Hc Hid Hsec Hps Hl Ho.
  assert (E1 : obj_index EnginioString.limit q = (JNull, obj_insert EnginioString.limit JNull q))
    by (unfold obj_index; rewrite Hl; reflexivity).
  assert (E2 : obj_index EnginioString.offset (obj_insert EnginioString.limit JNull q) =
               (JNull, obj_insert EnginioString.offset JNull (obj_insert EnginioString.limit JNull q)))
    by (unfold obj_index; rewrite obj_contains_insert, Ho; reflexivity).
  assert (Hb : (String.eqb (backendId c) String.EmptyString || String.eqb (backendSecret c) String.EmptyString) = false)
    by (apply orb_false_iff; split; apply String.eqb_neq; assumption).
  unfold setQuery, notify, execute. twp_tac; simpl in *;
    repeat match goal with
    | H : obj_index EnginioString.limit q = _ |- _ => rewrite E1 in H; inv H
    | H : obj_index EnginioString.offset (obj_insert EnginioString.limit JNull q) = _ |- _ =>
        rewrite E2 in H; inv H
    | H : obj_index ?k (obj_insert ?k ?v ?o) = _ |- _ => rewrite obj_index_insert_same in H; inv H
    | H : enginio m = _ |- _ => tryif constr_eq H Hc then fail else (rewrite Hc in H; inv H)
    | H : obj_insert _ _ _ = [] |- _ => destruct (obj_insert_nonempty _ _ _ H)
    end; simpl in *; try discriminate; try congruence.
  repeat split.
  - apply obj_value_insert_same.
  - rewrite !obj_contains_insert. reflexivity.
  - rewrite obj_value_insert_other by exact offset_ne_limit. apply obj_value_insert_same.
  - intros k H1 H2. rewrite !obj_value_insert_other by assumption. reflexivity.
  - rewrite <- Heqj3. reflexivity.
Qed.

(** C33: [EnginioModel::setData] checks only [row >= rowCount()], so an
    invalid index (row -1) with a role above [SyncedRole] reads an undefined
    object without id and takes the delayed path; unless some removed row's
    entry has that row, [ref(int row)] dereferences [end()]. *)
Theorem setData_invalid_row r value role m :
  r < 0 -> SyncedRole < role -> row_entry (attachedData m) r = None ->
  model_setData r value role m = None.
Proof.
  intros Hr Hrole He.
  unfold model_setData, setData, setDataDelyed, delayedOperation, ref_row.
  unfold mbind, ST_bind, bind, gets, lift, ret, undefined. cbn beta iota.
  replace (rowCount m <=? r) with false by (symmetry; apply Z.leb_gt; unfold rowCount; lia).
  replace (SyncedRole <? role) with true by (symmetry; apply Z.ltb_lt; exact Hrole).
  rewrite arr_at_out by lia. cbn. rewrite He. reflexivity.
Qed.

(** C25: [fetchMore] and the reply of its page refine appending to a list:
    when the model can fetch more and the last page has arrived, the page's
    results are appended after the existing rows, announced as inserted
    rows from the old row count, no request stays pending, and paging goes
    on exactly when the page is full (as many results as the limit asked). *)
Theorem fetchMore_page ub m c results :
  enginio m = Some c -> dataChanged m !! nextReply m = None ->
  canFetchMore m = true -> latestRequestedOffset m <= rowCount m ->
  twp (fetchMore (-1) ;; finishedRequest ub (mkResponse (nextReply m) [("results", JArr results)] 200 false))
    (fun _ m' out =>
       data m' = data m ++ results /\ dataChanged m' = dataChanged m /\
       canFetchMore m' =
         (Z.max (-1 - rowCount m) (toDouble (obj_value EnginioString.limit (query m)))
            <=? Z.of_nat (length results)) /\
       out = [BeginInsertRows (rowCount m) (rowCount m + Z.of_nat (length results) - 1); EndInsertRows])
    m.
Proof.
  intros Hc Hfresh Hcfm Hlat.
  assert (Emsg : obj_index EnginioString.message [("results", JArr results)] =
                 (JNull, [(EnginioString.message, JNull); ("results", JArr results)])) by reflexivity.
  unfold fetchMore, finishedRequest. twp_tac;
  cbn [resp_data resp_reply resp_backendStatus resp_networkError dataChanged data canFetchMore query
       latestRequestedOffset set_dataChanged set_latestRequestedOffset set_data set_canFetchMore
       set_query set_attachedData set_roles nextReply enginio operation attachedData] in *;
  repeat match goal with
  | H : <[?k:=?v]> _ !! ?k = _ |- _ => rewrite lookup_insert_eq in H; inv H
  | H : obj_index EnginioString.message [("results", JArr results)] = _ |- _ =>
      rewrite Emsg in H; injection H as <- <-
  | H : (_, _) = (_, _) |- _ => inv H
  | H : (_ || _) = true |- _ => apply orb_true_iff in H as [H|H]
  end; rewrite ?Hcfm in *; unfold FullModelReset, IncrementalModelUpdate in *; simpl in *; zbool;
  unfold rowCount in *; try lia; try discriminate; try congruence.
  pose proof (toDouble_obj_index EnginioString.limit (query m)) as El. rewrite Heqp in El. simpl in El.
  rewrite obj_value_insert_same, obj_value_insert_other, obj_value_insert_same by exact offset_ne_limit.
  rewrite delete_insert_id by exact Hfresh. simpl. rewrite El, Z.max_id. repeat split.
Qed.

(** The object [setDataNow] writes to the row: the new property and the
    [objectType] that [newObject[objectType]] reads (inserting [null] when
    absent). *)
Definition edited (m : Model) (name : string) (value : json) (o : jobj) : jobj :=
  snd (obj_index EnginioString.objectType
         (obj_insert (default String.EmptyString (roles m !! role_key (roles m) name)) value o)).

(** The state [EnginioModel::setProperty] leaves for a row whose object has
    an id, on a property with a custom role. *)
Lemma setProperty_post r name value o m c :
  enginio m = Some c -> arr_at (data m) r = JObj o ->
  toString (obj_value EnginioString.id o) <> String.EmptyString ->
  SyncedRole < role_key (roles m) name ->
  twp (model_setProperty r name value)
    (fun _ m' out =>
       arr_replace (data m) r (JObj (edited m name value o)) = Some (data m') /\
       nextReply m' = S (nextReply m) /\ enginio m' = enginio m /\
       attachedData m' = fst (ref_id (attachedData m) (toString (obj_value EnginioString.id o)) r) /\
       dataChanged m' = <[nextReply m := (r, o)]> (dataChanged m) /\
       out = [DataChangedSignal r r []])
    m.
Proof.
  intros Hc Harr Hid Hrole.
  assert (Hid' : toString (obj_value EnginioString.id (toObject (arr_at (data m) r))) <> String.EmptyString)
    by (rewrite Harr; exact Hid).
  pose proof (id_nonempty_in_range m r Hid') as Hr.
  unfold model_setProperty, setValue, setData, setDataNow. twp_tac; try congruence.
  - apply orb_true_iff in Heqb. unfold rowCount in *. zbool. lia.
  - rewrite obj_index_present in Heqp by exact Hid'. inv Heqp. apply String.eqb_eq in Heqb1. congruence.
  - rewrite obj_index_present in Heqp by exact Hid'. inv Heqp. rewrite Harr in *.
    change (toObject (JObj o)) with o in *.
    assert (Ed : edited m name value o = j2) by (unfold edited; rewrite Heqp0; reflexivity).
    destruct (arr_replace (data m) r (JObj j2)) as [d'|] eqn:Er.
    + eapply twp_lift; [exact Er|]. twp_tac. rewrite Ed. repeat split; simpl; first [exact Er | congruence].
    + exfalso. unfold arr_replace in Er. unfold rowCount in Hr.
      assert (Hin : ((0 <=? r) && (r <? Z.of_nat (length (data m)))) = true)
        by (apply andb_true_iff; split; [apply Z.leb_le | apply Z.ltb_lt]; lia).
      rewrite Hin in Er. discriminate.
  - rewrite orb_false_iff in Heqb. unfold rowCount in *. zbool. lia.
Qed.

(** C24: an update and its reply refine the replacement of an element of a
    list: for a row holding an object with an id and nothing attached,
    [setProperty] of a property with a custom role followed by the reply of
    its update (a non-empty object, status other than 404) restores the row
    on a network error; otherwise the row becomes the server's object
    (with [updatedAt] read by [operator[]]), or keeps the local edit when
    the reply is older than it.  The attached data and the pending requests
    are as before. *)
Theorem setProperty_reply_outcome ub r name value o m c status err srv :
  model_inv m -> enginio m = Some c -> arr_at (data m) r = JObj o ->
  toString (obj_value EnginioString.id o) <> String.EmptyString ->
  attachedData m !! toString (obj_value EnginioString.id o) = None ->
  SyncedRole < role_key (roles m) name -> status <> 404 -> srv <> [] ->
  twp (_ ← model_setProperty r name value; finishedRequest ub (mkResponse (nextReply m) srv status err))
    (fun _ m' _ =>
       dataChanged m' = dataChanged m /\ attachedData m' = attachedData m /\
       if err then data m' = data m
       else if ub (fst (obj_index EnginioString.updatedAt srv))
                  (fst (obj_index EnginioString.updatedAt (edited m name value o)))
       then arr_replace (data m) r (JObj (edited m name value o)) = Some (data m')
       else arr_replace (data m) r (JObj (snd (obj_index EnginioString.updatedAt srv))) = Some (data m'))
    m.
Proof.
  intros Hinv Hc Harr Hid Hnone Hrole H404 Hsrv. pose proof (fresh_reply m Hinv) as Hfresh.
  assert (Hid' : toString (obj_value EnginioString.id (toObject (arr_at (data m) r))) <> String.EmptyString)
    by (rewrite Harr; exact Hid).
  pose proof (id_nonempty_in_range m r Hid') as Hr.
  apply twp_bind. eapply twp_conseq; [|apply (setProperty_post r name value o m c Hc Harr Hid Hrole)].
  intros x m1 o1 (Hd & Hn & He & Ha & Hdc & Ho1).
  unfold finishedRequest. apply twp_bind, twp_gets. cbv beta. simpl resp_reply.
  rewrite Hdc, lookup_insert_eq. cbv iota beta. unfold finishedObject.
  destruct srv as [|p srv']; [congruence|]. finished_object_run Hid Ha Hnone.
  all: try (rewrite (arr_replace_replace _ _ _ _ _ Hd), (arr_replace_same _ _ _ Harr);
            eapply twp_lift; [reflexivity|]; twp_tac).
  all: try (rewrite (arr_replace_replace _ _ _ _ _ Hd);
            match goal with |- twp (lift (arr_replace _ _ ?v)) _ _ =>
              destruct (arr_replace (data m) r v) as [d2|] eqn:Er2;
              [eapply twp_lift; [reflexivity|]; twp_tac
              | exfalso; exact (arr_replace_defined _ _ _ _ _ Hd Er2)] end).
  all: repeat match goal with
    | H : obj_index EnginioString.updatedAt (toObject (arr_at _ _)) = _ |- _ =>
        rewrite (arr_replace_at _ _ _ _ Hd) in H; cbn [toObject] in H
    | H : obj_index EnginioString.updatedAt ?x = _ |- context [obj_index EnginioString.updatedAt ?x] =>
        rewrite H
    | H : ?e = true |- context [if ?e then _ else _] => rewrite H
    | H : ?e = false |- context [if ?e then _ else _] => rewrite H
    end; simpl; rewrite ?delete_insert_id by exact Hfresh.
  all: (split; [reflexivity|]); (split; [reflexivity|]); destruct err; simpl in *; try discriminate;
    repeat match goal with
    | H : negb _ = false |- _ => apply negb_false_iff in H
    | H : negb _ = true |- _ => apply negb_true_iff in H
    | H : ?e = true |- context [if ?e then _ else _] => rewrite H
    | H : ?e = false |- context [if ?e then _ else _] => rewrite H
    end; zbool; try lia; first [reflexivity | exact Hd | assumption].
Qed.

(** ** Setting the query again *)

(** With a [pageSize], [setQuery] always stores a [limit], announces the
    query it was given and, with a usable client and a non-empty query,
    sends the stored query. *)
Lemma setQuery_pageSize_post q m :
  obj_contains EnginioString.pageSize q = true ->
  twp (setQuery q)
    (fun _ m' o =>
       In (QueryChangedSignal q) o /\ obj_contains EnginioString.limit (query m') = true /\
       (forall c, enginio m = Some c -> backendId c <> String.EmptyString ->
                  backendSecret c <> String.EmptyString ->
                  calls m' = calls m ++ [(nextReply m, CallQuery (query m') (operation m))]))
    m.
Proof.
  intros Hps. unfold setQuery, notify, execute. twp_tac; simpl in *;
    repeat match goal with
    | H : obj_insert _ _ _ = [] |- _ => destruct (obj_insert_nonempty _ _ _ H)
    | H : obj_index ?k (obj_insert ?k ?v ?o) = _ |- _ => rewrite obj_index_insert_same in H; inv H
    end; try discriminate.
  all: (split; [tauto|]); (split; [rewrite ?obj_contains_insert, ?String.eqb_refl; reflexivity|]).
  all: intros c0 Hc Hid Hsec; rewrite Hc in *;
    repeat match goal with
    | H : Some _ = None |- _ => discriminate H
    | H : Some _ = Some _ |- _ => inv H
    | H : (_ || _) = true |- _ => apply orb_true_iff in H as [H|H]; apply String.eqb_eq in H; congruence
    | H : _ = _ :: _ |- _ => rewrite <- H
    end; reflexivity.
Qed.

(** [EnginioModel::setQuery] ignores a query equal, as a map of keys to
    values, to the one it holds: [QJsonObject::operator==] on the sorted
    objects is equality of their maps, so nothing is emitted, sent or
    changed. *)
Theorem setQuery_same_map q m :
  obj_sorted q = true -> obj_sorted (query m) = true -> obj_map q = obj_map (query m) ->
  model_setQuery q m = Some (tt, m, []).
Proof.
  intros Hq Hm E. unfold model_setQuery, mbind, ST_bind, bind, gets.
  rewrite (proj2 (obj_eqb_map _ _ Hm Hq) (eq_sym E)). reflexivity.
Qed.

(** C27: [EnginioModel::setQuery] compares the new query with [_query], which
    [setQuery] rewrote when the query has a [pageSize] (a [limit] added, an
    [offset] of [null]): setting the same paged query a second time is not
    recognised, so [queryChanged] is emitted again and, with a usable
    client, the query is sent again and the model reset. *)
Theorem setQuery_paged_repeats q m :
  json_eqb (JObj (query m)) (JObj q) = false ->
  obj_contains EnginioString.pageSize q = true -> obj_contains EnginioString.limit q = false ->
  twp (model_setQuery q)
    (fun _ m1 _ =>
       twp (model_setQuery q)
         (fun _ m2 o2 =>
            In (QueryChangedSignal q) o2 /\
            (forall c, enginio m1 = Some c -> backendId c <> String.EmptyString ->
                       backendSecret c <> String.EmptyString ->
                       calls m2 = calls m1 ++ [(nextReply m1, CallQuery (query m2) (operation m1))]))
         m1)
    m.
Proof.
  intros Hne Hps Hl. unfold model_setQuery. apply twp_bind, twp_gets. cbv beta. rewrite Hne.
  eapply twp_conseq; [|apply (setQuery_pageSize_post q m Hps)].
  intros _ m1 _ (_ & Hlim & _). apply twp_bind, twp_gets. cbv beta.
  destruct (json_eqb (JObj (query m1)) (JObj q)) eqn:E.
  - apply json_eqb_spec in E. injection E as E. rewrite E in Hlim. congruence.
  - eapply twp_conseq; [|apply (setQuery_pageSize_post q m1 Hps)].
    intros _ m2 o2 (Hin & _ & Hc). split; [exact Hin | exact Hc].
Qed.

(** ** Concrete runs *)

(** Only query requests are pending and no functor waits. *)
Definition queries_only (m : Model) : bool :=
  bool_decide (map_Forall (fun _ (e : Z * jobj) => e.1 = FullModelReset \/ e.1 = IncrementalModelUpdate)
                 (dataChanged m)) &&
  match swaps m with [] => true | _ => false end.

Definition delayed_okb (m : Model) (r : Z) : bool :=
  negb (String.eqb (toString (obj_value EnginioString.id (toObject (arr_at (data m) r)))) String.EmptyString) ||
  match row_entry (attachedData m) r with
  | Some (x, d) => match createReply d with Some cr => String.eqb (tmp_of m cr) x | None => true end
  | None => true
  end.

Definition swap_readyb (m : Model) (resp : Response) : bool :=
  forallb (fun p : nat * Swap =>
             negb (Nat.eqb p.1 (resp_reply resp)) ||
             (negb (isError resp) &&
              match attachedData m !! swap_tmpId p.2 with Some d => 0 <=? row d | None => false end))
    (swaps m).

(** The side conditions of [mreach_step], decided. *)
Definition step_ok (ev : MEvent) (m : Model) : bool :=
  match ev with
  | MAppend _ uuid =>
      bool_decide (attachedData m !! ("tmp" +:+ uuid) = None) &&
      bool_decide (pending m ("tmp" +:+ uuid) = 0%nat) && bool_decide (delayed m ("tmp" +:+ uuid) = 0%nat)
  | MFinished _ resp =>
      match dataChanged m !! resp_reply resp with
      | Some (r, _) => if r =? FullModelReset then queries_only m else true
      | None => true
      end
  | MReplyFinished resp => swap_readyb m resp
  | MRemove r | MSetProperty r _ _ | MSetData r _ _ => delayed_okb m r
  | _ => true
  end && bool_decide (Z.of_nat (outstanding m) < 2 ^ 32 - 1).

Fixpoint mrun_ok (ub : json -> json -> bool) (evs : list MEvent) (m : Model) : bool :=
  match evs with
  | [] => true
  | ev :: evs =>
      step_ok ev m && match mhandle ub ev m with Some (_, m1, _) => mrun_ok ub evs m1 | None => false end
  end.

Lemma queries_only_quiet m resp : queries_only m = true -> reset_quiet m resp.
Proof.
  unfold queries_only. intros H. apply andb_true_iff in H as [Hq Hs].
  rewrite bool_decide_eq_true in Hq. intros r info _ _. split.
  - intros id. unfold pending, pendingIn. apply map_size_empty_iff, map_empty_filter.
    intros k e Hk (H1 & H2 & _). destruct (Hq k e Hk); contradiction.
  - destruct (swaps m); [reflexivity | discriminate].
Qed.

Lemma delayed_okb_spec m r : delayed_okb m r = true -> delayed_ok m r.
Proof.
  unfold delayed_okb, delayed_ok. intros H Hid x d cr He Hc.
  rewrite Hid, String.eqb_refl in H. simpl in H. rewrite He, Hc in H.
  apply String.eqb_eq, H.
Qed.

Lemma swap_readyb_spec m resp : swap_readyb m resp = true -> swap_ready m resp.
Proof.
  unfold swap_readyb, swap_ready. rewrite forallb_forall. intros H s Hin.
  specialize (H _ Hin). simpl in H. rewrite Nat.eqb_refl in H. simpl in H.
  apply andb_true_iff in H as [He Hd]. split; [destruct (isError resp); [discriminate | reflexivity]|].
  destruct (attachedData m !! swap_tmpId s) as [d|]; [|discriminate]. zbool. eauto.
Qed.

Lemma step_ok_spec ev m :
  step_ok ev m = true ->
  (forall value uuid, ev = MAppend value uuid -> fresh_tmp m uuid) /\
  (forall client resp, ev = MFinished client resp -> reset_quiet m resp) /\
  (forall r, event_row ev = Some r -> delayed_ok m r) /\
  (forall resp, ev = MReplyFinished resp -> swap_ready m resp) /\
  Z.of_nat (outstanding m) < 2 ^ 32 - 1.
Proof.
  unfold step_ok. intros H. apply andb_true_iff in H as [H Hsz]. apply bool_decide_eq_true in Hsz.
  split; [|split; [|split; [|split; [|exact Hsz]]]].
  - intros value uuid ->. apply andb_true_iff in H as [H H3]. apply andb_true_iff in H as [H1 H2].
    apply bool_decide_eq_true in H1, H2, H3. repeat split; assumption.
  - intros cl resp ->. intros r info Hk Hr. rewrite Hk, Hr in H. simpl in H.
    exact (queries_only_quiet _ resp H r info Hk Hr).
  - intros r Hr. destruct ev; simpl in Hr; try discriminate; inv Hr; apply delayed_okb_spec, H.
  - intros resp ->. apply swap_readyb_spec, H.
Qed.

Lemma mreachable_run ub evs m m' o :
  mreachable ub m -> mrun_ok ub evs m = true -> mrun ub evs m = Some (m', o) -> mreachable ub m'.
Proof.
  revert m o; induction evs as [|ev evs IH]; intros m o Hr Hok Hrun.
  - simpl in Hrun. inv Hrun. exact Hr.
  - simpl in Hok, Hrun. apply andb_true_iff in Hok as [Hs Hok].
    destruct (step_ok_spec ev m Hs) as (Hfr & Hq & Hrow & Hready & Hsz).
    destruct (mhandle ub ev m) as [[[x m1] o1]|] eqn:E; [|discriminate].
    destruct (mrun ub evs m1) as [[m2 o2]|] eqn:E2; [|discriminate]. inv Hrun.
    eapply IH; [eapply mreach_step; eauto | exact Hok | exact E2].
Qed.

(** ** Sample runs *)

Module Scenario.

(** [updatedAt] comparisons never report a stale value. *)
Definition never_before (a b : json) : bool := false.

Definition client : ClientRef := mkClientRef 1 "app" "secret".
Definition todos : jobj := [("objectType", JStr "objects.todo")].
Definition itemA : jobj := [("id", JStr "a"); ("title", JStr "x")].
Definition itemB : jobj := [("id", JStr "b"); ("objectType", JStr "objects.todo"); ("title", JStr "y")].

(** Connect, load one object (reply 0), append a second one (create reply 1). *)
Definition loaded : list MEvent :=
  [MSetEnginio (Some client); MSetQuery todos;
   MFinished 1 (mkResponse 0 [("results", JArr [JObj itemA])] 200 false);
   MAppend [("title", JStr "y")] "U"].

Definition create_ok : Response := mkResponse 1 itemB 201 false.
Definition create_failed : Response := mkResponse 1 [] 500 true.

(** The object is removed while its create request is pending; the create
    reply's two [finished] signals come in either order, then the reply of
    the remove (reply 2, handed out by [removeDelayed]). *)
Definition remove_then_create (clientFirst : bool) : list MEvent :=
  loaded ++ [MRemove 1] ++
  (if clientFirst then [MFinished 1 create_ok; MReplyFinished create_ok]
   else [MReplyFinished create_ok; MFinished 1 create_ok]) ++
  [MFinished 1 (mkResponse 2 [] 200 false)].

(** The model a run of [evs] from [initialModel] ends in. *)
Definition final (evs : list MEvent) : Model * list Signal :=
  default (initialModel, []) (mrun never_before evs initialModel).

End Scenario.

Module ModelWitnesses.

Definition paged : jobj := Scenario.todos ++ [("pageSize", JNum 2)].
Definition withClient : Model := fst (Scenario.final [MSetEnginio (Some Scenario.client)]).
Definition loadedModel : Model := fst (Scenario.final Scenario.loaded).
Definition pagedModel : Model :=
  fst (Scenario.final [MSetEnginio (Some Scenario.client); MSetQuery paged;
                       MFinished 1 (mkResponse 0 [("results", JArr [JObj Scenario.itemA; JObj Scenario.itemB])] 200 false)]).

Lemma append_spec_witness :
  enginio loadedModel = Some Scenario.client /\
  twp (model_append [("title", JStr "z")] "V") (fun x _ _ => x = ReplyTo 2) loadedModel.
Proof.
  split; [vm_compute; reflexivity|].
  eapply twp_conseq; [|apply (append_spec [("title", JStr "z")] "V" loadedModel Scenario.client); vm_compute; reflexivity].
  intros x m' o (Hx & _). rewrite Hx. reflexivity.
Defined.

Lemma remove_spec_witness :
  enginio loadedModel = Some Scenario.client /\
  toString (obj_value EnginioString.id (toObject (arr_at (data loadedModel) 0))) <> String.EmptyString /\
  twp (model_remove 0) (fun _ _ out => out = [DataChangedSignal 0 0 [DisplayRole; SyncedRole]]) loadedModel.
Proof.
  split; [vm_compute; reflexivity|]. split; [vm_compute; discriminate|].
  eapply twp_conseq; [|apply (remove_spec 0 loadedModel Scenario.client); vm_compute; [reflexivity | discriminate]].
  intros x m' o (_ & Ho & _). exact Ho.
Defined.

Lemma fetchMore_spec_witness :
  enginio pagedModel = Some Scenario.client /\
  twp (fetchMore (-1)) (fun _ m' _ => latestRequestedOffset m' = 4) pagedModel.
Proof.
  split; [vm_compute; reflexivity|].
  eapply twp_conseq; [|apply (fetchMore_spec (-1) pagedModel Scenario.client); vm_compute; reflexivity].
  intros x m' o (_ & H).
  assert (E : negb (canFetchMore pagedModel) || (rowCount pagedModel <? latestRequestedOffset pagedModel) = false)
    by (vm_compute; reflexivity).
  rewrite E in H. destruct H as (_ & _ & _ & H & _). rewrite H. vm_compute. reflexivity.
Defined.

Lemma setQuery_paging_witness :
  enginio withClient = Some Scenario.client /\
  twp (setQuery paged) (fun _ m' _ => obj_value EnginioString.offset (query m') = JNull) withClient.
Proof.
  split; [vm_compute; reflexivity|].
  eapply twp_conseq; [|apply (setQuery_paging paged withClient Scenario.client); vm_compute;
                        solve [reflexivity | discriminate]].
  intros x m' o (_ & _ & _ & _ & H & _). exact H.
Defined.

Lemma model_refcounts_witness :
  mreachable Scenario.never_before (fst (Scenario.final (Scenario.remove_then_create false))) /\
  model_inv (fst (Scenario.final (Scenario.remove_then_create false))).
Proof.
  assert (H : mreachable Scenario.never_before (fst (Scenario.final (Scenario.remove_then_create false)))).
  { apply (mreachable_run _ (Scenario.remove_then_create false) initialModel _
             (snd (Scenario.final (Scenario.remove_then_create false))));
      [apply mreach_init | vm_compute; reflexivity | vm_compute; reflexivity]. }
  split; [exact H | apply (model_refcounts _ _ H)].
Defined.

Lemma setData_invalid_row_witness :
  -1 < 0 /\ SyncedRole < CreatedAtRole /\ row_entry (attachedData loadedModel) (-1) = None /\
  model_setData (-1) (JStr "v") CreatedAtRole loadedModel = None.
Proof.
  split; [lia|]. split; [unfold SyncedRole, CreatedAtRole; lia|]. split; [vm_compute; reflexivity|].
  apply setData_invalid_row; [lia | unfold SyncedRole, CreatedAtRole; lia | vm_compute; reflexivity].
Defined.

Lemma setQuery_same_map_witness :
  obj_sorted Scenario.todos = true /\ obj_sorted (query loadedModel) = true /\
  obj_map Scenario.todos = obj_map (query loadedModel) /\
  model_setQuery Scenario.todos loadedModel = Some (tt, loadedModel, []).
Proof.
  assert (H1 : obj_sorted Scenario.todos = true) by reflexivity.
  assert (H2 : obj_sorted (query loadedModel) = true) by (vm_compute; reflexivity).
  assert (H3 : obj_map Scenario.todos = obj_map (query loadedModel)) by (vm_compute; reflexivity).
  split; [exact H1|]. split; [exact H2|]. split; [exact H3|].
  exact (setQuery_same_map Scenario.todos loadedModel H1 H2 H3).
Defined.

Lemma setQuery_paged_repeats_witness :
  json_eqb (JObj (query withClient)) (JObj paged) = false /\
  obj_contains EnginioString.pageSize paged = true /\ obj_contains EnginioString.limit paged = false /\
  twp (model_setQuery paged)
    (fun _ m1 _ => twp (model_setQuery paged) (fun _ _ o2 => In (QueryChangedSignal paged) o2) m1)
    withClient.
Proof.
  assert (H1 : json_eqb (JObj (query withClient)) (JObj paged) = false) by (vm_compute; reflexivity).
  assert (H2 : obj_contains EnginioString.pageSize paged = true) by reflexivity.
  assert (H3 : obj_contains EnginioString.limit paged = false) by reflexivity.
  split; [exact H1|]. split; [exact H2|]. split; [exact H3|].
  eapply twp_conseq; [|exact (setQuery_paged_repeats paged withClient H1 H2 H3)].
  intros x m1 o1 H. eapply twp_conseq; [|exact H]. intros y m2 o2 [Hin _]. exact Hin.
Defined.

Lemma loaded_inv : model_inv loadedModel.
Proof.
  apply (mreachable_model_inv Scenario.never_before).
  apply (mreachable_run _ Scenario.loaded initialModel _ (snd (Scenario.final Scenario.loaded)));
    [apply mreach_init | vm_compute; reflexivity | vm_compute; reflexivity].
Qed.

Lemma remove_reply_outcome_witness :
  model_inv loadedModel /\ enginio loadedModel = Some Scenario.client /\
  arr_at (data loadedModel) 0 = JObj Scenario.itemA /\
  toString (obj_value EnginioString.id Scenario.itemA) <> String.EmptyString /\
  attachedData loadedModel !! toString (obj_value EnginioString.id Scenario.itemA) = None /\
  200 <> 404 /\
  twp (_ ← model_remove 0; finishedRequest Scenario.never_before (mkResponse (nextReply loadedModel) [] 200 false))
    (fun _ m' _ => data m' = arr_removeAt (data loadedModel) 0) loadedModel.
Proof.
  assert (H2 : enginio loadedModel = Some Scenario.client) by (vm_compute; reflexivity).
  assert (H3 : arr_at (data loadedModel) 0 = JObj Scenario.itemA) by (vm_compute; reflexivity).
  assert (H4 : toString (obj_value EnginioString.id Scenario.itemA) <> String.EmptyString) by discriminate.
  assert (H5 : attachedData loadedModel !! toString (obj_value EnginioString.id Scenario.itemA) = None)
    by (vm_compute; reflexivity).
  assert (H6 : 200 <> 404) by discriminate.
  split; [exact loaded_inv|]. split; [exact H2|]. split; [exact H3|]. split; [exact H4|].
  split; [exact H5|]. split; [exact H6|].
  eapply twp_conseq;
    [|exact (remove_reply_outcome Scenario.never_before 0 Scenario.itemA loadedModel Scenario.client 200 false
               loaded_inv H2 H3 H4 H5 H6)].
  intros x m' o (_ & Hd & _). exact Hd.
Defined.

(** A short second page ends the paging. *)
Lemma fetchMore_page_witness :
  enginio pagedModel = Some Scenario.client /\ dataChanged pagedModel !! nextReply pagedModel = None /\
  canFetchMore pagedModel = true /\ latestRequestedOffset pagedModel <= rowCount pagedModel /\
  twp (fetchMore (-1) ;;
       finishedRequest Scenario.never_before
         (mkResponse (nextReply pagedModel) [("results", JArr [JObj [("id", JStr "c")]])] 200 false))
    (fun _ m' _ => canFetchMore m' = false) pagedModel.
Proof.
  assert (H1 : enginio pagedModel = Some Scenario.client) by (vm_compute; reflexivity).
  assert (H2 : dataChanged pagedModel !! nextReply pagedModel = None) by (vm_compute; reflexivity).
  assert (H3 : canFetchMore pagedModel = true) by (vm_compute; reflexivity).
  assert (H4 : latestRequestedOffset pagedModel <= rowCount pagedModel) by (vm_compute; discriminate).
  split; [exact H1|]. split; [exact H2|]. split; [exact H3|]. split; [exact H4|].
  eapply twp_conseq;
    [|exact (fetchMore_page Scenario.never_before pagedModel Scenario.client [JObj [("id", JStr "c")]] H1 H2 H3 H4)].
  intros x m' o (_ & _ & Hf & _). rewrite Hf. vm_compute. reflexivity.
Defined.

(** The server's copy of an edited row. *)
Definition serverCopy : jobj := [("id", JStr "a"); ("title", JStr "z"); ("updatedAt", JStr "2")].

Lemma setProperty_reply_outcome_witness :
  model_inv loadedModel /\ enginio loadedModel = Some Scenario.client /\
  arr_at (data loadedModel) 0 = JObj Scenario.itemA /\
  toString (obj_value EnginioString.id Scenario.itemA) <> String.EmptyString /\
  attachedData loadedModel !! toString (obj_value EnginioString.id Scenario.itemA) = None /\
  SyncedRole < role_key (roles loadedModel) "title" /\ 200 <> 404 /\ serverCopy <> [] /\
  twp (_ ← model_setProperty 0 "title" (JStr "z");
       finishedRequest Scenario.never_before (mkResponse (nextReply loadedModel) serverCopy 200 false))
    (fun _ m' _ => arr_replace (data loadedModel) 0 (JObj serverCopy) = Some (data m')) loadedModel.
Proof.
  assert (H2 : enginio loadedModel = Some Scenario.client) by (vm_compute; reflexivity).
  assert (H3 : arr_at (data loadedModel) 0 = JObj Scenario.itemA) by (vm_compute; reflexivity).
  assert (H4 : toString (obj_value EnginioString.id Scenario.itemA) <> String.EmptyString) by discriminate.
  assert (H5 : attachedData loadedModel !! toString (obj_value EnginioString.id Scenario.itemA) = None)
    by (vm_compute; reflexivity).
  assert (H6 : SyncedRole < role_key (roles loadedModel) "title") by (vm_compute; reflexivity).
  assert (H7 : 200 <> 404) by discriminate.
  assert (H8 : serverCopy <> []) by discriminate.
  do 8 (split; [assumption || exact loaded_inv|]).
  eapply twp_conseq;
    [|exact (setProperty_reply_outcome Scenario.never_before 0 "title" (JStr "z") Scenario.itemA loadedModel
               Scenario.client 200 false serverCopy loaded_inv H2 H3 H4 H5 H6 H7 H8)].
  intros x m' o (_ & _ & H). exact H.
Defined.

End ModelWitnesses.

