(* ===== verification/ModelDelayed.v ===== *)
(** Replies to requests on single objects and the deferred operations of
    [EnginioModel]: the functional effect of [finishedRequest] on a failed,
    an updating, a removing and a resetting reply; [append], [remove] of a
    row whose create request is pending ([removeDelayed]) and the
    [SwapNetworkReplyForRemove] functor as state transformers; and, for
    every model and object, the runs in which a create request meets a
    reset, a failure or a deferred remove. *)

From S2P Require Import Prelude.
From stdpp Require Import base gmap strings.
From S2P Require Import Json Model ModelInv ModelSpec.
From Stdlib Require Strings.String.

Open Scope Z_scope.

(** Releasing the last reference of an entry removes it. *)
Lemma deref_last a id r cr :
  a !! id = Some (mkAttached 1 r cr) -> deref a id = (delete id a, mkAttached 0 r cr).
Proof. intros H. unfold deref. rewrite H. reflexivity. Qed.

(** With [id] the only entry on row [r], the row reads as synced once the
    entry is gone. *)
Lemma synced_after_delete m id r :
  (forall id' d, attachedData m !! id' = Some d -> row d = r -> id' = id) ->
  contains_row (delete id (attachedData m)) r = false.
Proof.
  intros Honly. apply not_true_iff_false. rewrite contains_row_spec.
  intros (id' & d & Hd & Hr). apply lookup_delete_Some in Hd as [Hne Hd].
  exact (Hne (eq_sym (Honly _ _ Hd Hr))).
Qed.

Lemma arr_replace_in l i v :
  0 <= i < Z.of_nat (length l) -> arr_replace l i v = Some (<[Z.to_nat i := v]> l).
Proof. intros H. unfold arr_replace. replace ((0 <=? i) && _) with true by (symmetry; zbool; lia). reflexivity. Qed.

Lemma arr_at_insert l i v :
  0 <= i < Z.of_nat (length l) -> arr_at (<[Z.to_nat i := v]> l) i = v.
Proof.
  intros H. unfold arr_at. rewrite length_insert.
  replace ((0 <=? i) && _) with true by (symmetry; zbool; lia).
  rewrite nth_lookup, list_lookup_insert_eq by lia. reflexivity.
Qed.

Lemma arr_removeAt_last l x v :
  arr_removeAt (<[length l := v]> (l ++ [x])) (Z.of_nat (length l)) = l.
Proof.
  unfold arr_removeAt. rewrite length_insert, length_app. simpl.
  replace ((0 <=? _) && _) with true
    by (symmetry; apply andb_true_iff; split; [apply Z.leb_le | apply Z.ltb_lt]; lia).
  rewrite Nat2Z.id, insert_app_r_alt, Nat.sub_diag by lia. simpl.
  rewrite delete_middle. apply app_nil_r.
Qed.

(** [updateAllDataAfterRow] past every attached row changes nothing. *)
Lemma updateAll_below (a : AttachedDataContainer) r :
  (forall id d, a !! id = Some d -> row d < r) -> updateAllDataAfterRow a r = a.
Proof.
  intros Hb. apply map_eq. intros i. unfold updateAllDataAfterRow. rewrite lookup_fmap.
  destruct (a !! i) as [d|] eqn:E; [|reflexivity]. simpl. specialize (Hb i d E).
  replace (r <? row d) with false by (symmetry; zbool; lia).
  replace (row d =? r) with false by (symmetry; zbool; lia). reflexivity.
Qed.

Lemma attached_create_then_functor (a : AttachedDataContainer) tmp sid r n :
  a !! tmp = None -> a !! sid = None -> sid <> tmp ->
  fst (ref_id (fst (deref (fst (deref (<[tmp := mkAttached (uint_inc 1) r (Some n)]> a) tmp)) tmp)) sid r)
  = <[sid := mkAttached 1 r None]> a.
Proof.
  intros Ht Hs Hne. unfold deref, ref_id. simpl.
  rewrite lookup_insert_eq. simpl. rewrite lookup_insert_eq. simpl.
  rewrite delete_insert_eq, delete_insert_id by exact Ht. rewrite delete_id by exact Ht.
  rewrite Hs. reflexivity.
Qed.

Ltac lookup_simpl :=
  repeat first [ rewrite lookup_insert_eq | rewrite lookup_insert_ne by lia
               | rewrite lookup_delete_eq | rewrite lookup_delete_ne by lia ].

Ltac map_simpl Ht Hs :=
  repeat first [ rewrite lookup_insert_eq | rewrite lookup_insert_ne by congruence
               | rewrite lookup_delete_eq | rewrite lookup_delete_ne by congruence
               | rewrite Hs | rewrite Ht | progress simpl ].

(** After the functor, the temporary id's entry holds the create request's
    reference only. *)
Lemma functor_entry (a : AttachedDataContainer) tmp sid r n :
  sid <> tmp ->
  fst (ref_id (fst (deref (<[tmp := mkAttached (uint_inc 1) r (Some n)]> a) tmp)) sid r) !! tmp
  = Some (mkAttached 1 r (Some n)).
Proof.
  intros Hne. unfold deref, ref_id. simpl. rewrite lookup_insert_eq. simpl.
  rewrite lookup_insert_ne by congruence. apply lookup_insert_eq.
Qed.

Lemma attached_functor_then_create (a : AttachedDataContainer) tmp sid r n :
  a !! tmp = None -> a !! sid = None -> sid <> tmp ->
  fst (deref (fst (ref_id (fst (deref (<[tmp := mkAttached (uint_inc 1) r (Some n)]> a) tmp)) sid r)) tmp)
  = <[sid := mkAttached 1 r None]> a.
Proof.
  intros Ht Hs Hne. unfold deref, ref_id. map_simpl Ht Hs.
  apply map_eq. intros i. destruct (decide (i = sid)) as [->|Hi]; [map_simpl Ht Hs; reflexivity|].
  destruct (decide (i = tmp)) as [->|Hi']; map_simpl Ht Hs; reflexivity.
Qed.

Lemma deref_row a id d : a !! id = Some d -> row (snd (deref a id)) = row d.
Proof. intros H. unfold deref. rewrite H. reflexivity. Qed.

(** Runs [finishedRequest] on the reply [resp] of a request on the object
    [obj] with id [tmp]: the reply is one of [_dataChanged] ([Hk]), [Hder]
    gives the row [deref] reads, and the network error flag ([Herr]) and a
    status other than 404 ([H404]) are known. *)
Ltac item_reply Hk Hid Htmp Hder Hrep Herr H404 :=
  match type of Hid with obj_value EnginioString.id ?obj = JStr ?tmp =>
  match type of Hder with row (snd (deref (attachedData ?m) _)) = _ =>
  let Hoid := fresh "Hoid" in
  assert (Hoid : obj_index EnginioString.id obj = (JStr tmp, obj))
    by (rewrite obj_index_present; rewrite Hid; [reflexivity | exact Htmp]);
  let g := fresh "g" in let a := fresh "a" in let Ed := fresh "Ed" in
  destruct (deref (attachedData m) tmp) as [g a] eqn:Ed;
  let Hra := fresh "Hra" in
  assert (Hra := Hder); simpl snd in Hra;
  unfold finishedRequest; apply twp_bind, twp_gets; cbv beta; rewrite Hrep, Hk; cbv iota beta;
  let msg := fresh "msg" in let x := fresh "x" in
  destruct (obj_index EnginioString.message (resp_data _)) as [msg x];
  apply twp_bind; apply twp_when;
  unfold FullModelReset, IncrementalModelUpdate, finishedObject;
  rewrite Hoid; simpl toString;
  replace (resp_backendStatus _ =? 404) with false by (symmetry; apply Z.eqb_neq; exact H404);
  rewrite Herr;
  twp_tac; cbn [set_attachedData set_dataChanged attachedData dataChanged data resp_data] in *;
    rewrite ?Ed in *;
    repeat match goal with H : (_, _) = (_, _) |- _ => injection H as <- <- end;
    rewrite ?Hra in *; zbool; try lia
  end end.

Section Finished.
Variable ub : json -> json -> bool.

(** The reply of a request on the object [obj] (id [tmp]) that failed on
    the network with a status other than 404: the entry loses a reference
    and the row gets [obj] back. *)
Lemma finished_failed_post m k r obj tmp d resp :
  dataChanged m !! k = Some (r, obj) -> obj_value EnginioString.id obj = JStr tmp ->
  tmp <> String.EmptyString -> attachedData m !! tmp = Some d -> row d = r ->
  0 <= r < rowCount m ->
  resp_reply resp = k -> resp_networkError resp = true -> resp_backendStatus resp <> 404 ->
  twp (finishedRequest ub resp)
    (fun _ m' o =>
       m' = set_data (<[Z.to_nat r := JObj obj]> (data m))
              (set_attachedData (fst (deref (attachedData m) tmp))
                 (set_dataChanged (delete k (dataChanged m)) m)) /\
       last o = Some (DataChangedSignal r r []))
    m.
Proof.
  intros Hk Hid Htmp Ha Hrow Hr Hrep Herr H404.
  pose proof (deref_row _ _ _ Ha) as Hder. rewrite Hrow in Hder.
  item_reply Hk Hid Htmp Hder Hrep Herr H404.
  all: apply (twp_lift _ _ _ _ (arr_replace_in _ _ _ Hr)); twp_tac; split; reflexivity.
Qed.

(** The successful reply of an update or create request (the server's
    object, not empty): the entry loses a reference, the row may take the
    server's object ([updatedAt] permitting), nothing else changes but the
    roles. *)
Lemma finished_update_post m k r0 r obj tmp resp :
  dataChanged m !! k = Some (r0, obj) -> 0 <= r0 -> obj_value EnginioString.id obj = JStr tmp ->
  tmp <> String.EmptyString -> row (snd (deref (attachedData m) tmp)) = r ->
  0 <= r < rowCount m ->
  resp_reply resp = k -> resp_networkError resp = false -> resp_backendStatus resp <> 404 ->
  resp_data resp <> [] ->
  twp (finishedRequest ub resp)
    (fun _ m' _ =>
       data m' = (if ub (fst (obj_index EnginioString.updatedAt (resp_data resp)))
                        (fst (obj_index EnginioString.updatedAt (toObject (arr_at (data m) r))))
                  then data m
                  else <[Z.to_nat r := JObj (snd (obj_index EnginioString.updatedAt (resp_data resp)))]> (data m)) /\
       attachedData m' = fst (deref (attachedData m) tmp) /\
       dataChanged m' = delete k (dataChanged m) /\
       swaps m' = swaps m /\ calls m' = calls m /\ nextReply m' = nextReply m /\
       enginio m' = enginio m /\ operation m' = operation m)
    m.
Proof.
  intros Hk Hr0 Hid Htmp Hder Hr Hrep Herr H404 Hne.
  item_reply Hk Hid Htmp Hder Hrep Herr H404.
  all: try (destruct (resp_data resp) eqn:?; [congruence | simpl in *; zbool; try lia; discriminate]).
  all: try (apply (twp_lift _ _ _ _ (arr_replace_in _ _ _ Hr)); twp_tac).
  all: repeat match goal with H : obj_index _ _ = (_, _) |- _ => rewrite H end; simpl fst; simpl snd.
  all: repeat match goal with H : ub _ _ = _ |- _ => rewrite H end.
  all: cbn; repeat split; reflexivity.
Qed.

(** The reply of a query that resets the model: [_attachedData] is cleared
    and [_data] becomes the reply's [results]. *)
Lemma finished_reset_post m k info resp :
  dataChanged m !! k = Some (FullModelReset, info) -> resp_reply resp = k ->
  twp (finishedRequest ub resp)
    (fun _ m' _ =>
       attachedData m' = ∅ /\
       data m' = toArray (obj_value EnginioString.results (resp_data resp)) /\
       dataChanged m' = delete k (dataChanged m))
    m.
Proof.
  intros Hk Hrep. unfold finishedRequest. apply twp_bind, twp_gets. cbv beta. rewrite Hrep, Hk. cbv iota beta.
  destruct (obj_index EnginioString.message (resp_data resp)) as [msg x].
  rewrite Z.eqb_refl. twp_tac; cbn; repeat split.
Qed.

(** C29: when the reply of a query that resets the model arrives while a
    create request is pending, and the create's reply comes after it, the
    model overwrites the wrong row: the reset has cleared [_attachedData],
    so [deref] of the temporary id yields a zeroed entry, the row read from
    it is 0, and the server's object of the create replaces the first object
    of the query's results (whatever row the create was for), while the
    temporary id's [uint ref] wraps around to 2^32 - 1 and row 0 reads as
    unsynced. *)
Theorem reset_overwrites_created_row m kq info kc r objC tmp respQ respC x xs :
  dataChanged m !! kq = Some (FullModelReset, info) -> resp_reply respQ = kq ->
  toArray (obj_value EnginioString.results (resp_data respQ)) = x :: xs ->
  dataChanged m !! kc = Some (r, objC) -> 0 <= r -> kc <> kq -> obj_value EnginioString.id objC = JStr tmp ->
  tmp <> String.EmptyString ->
  resp_reply respC = kc -> resp_networkError respC = false -> resp_backendStatus respC <> 404 ->
  resp_data respC <> [] ->
  ub (fst (obj_index EnginioString.updatedAt (resp_data respC)))
     (fst (obj_index EnginioString.updatedAt (toObject x))) = false ->
  twp (finishedRequest ub respQ ;; finishedRequest ub respC)
    (fun _ m' _ =>
       data m' = JObj (snd (obj_index EnginioString.updatedAt (resp_data respC))) :: xs /\
       attachedData m' = {[tmp := mkAttached (2 ^ 32 - 1) 0 None]} /\
       dataChanged m' = delete kc (delete kq (dataChanged m)) /\
       model_data m' 0 SyncedRole = Some (JBool false))
    m.
Proof.
  intros HkQ HrepQ Hres HkC Hr Hne Hid Htmp HrepC HerrC H404C HneC Hub.
  apply twp_bind. eapply twp_conseq; [|exact (finished_reset_post m kq info respQ HkQ HrepQ)].
  intros _ m1 _ (Ha1 & Hd1 & Hdc1).
  eapply twp_conseq; [|apply (finished_update_post m1 kc r 0 objC tmp respC)];
    [| rewrite Hdc1, lookup_delete_ne by congruence; exact HkC | exact Hr | exact Hid | exact Htmp
     | rewrite Ha1; reflexivity | unfold rowCount; rewrite Hd1, Hres; simpl; lia
     | exact HrepC | exact HerrC | exact H404C | exact HneC].
  intros _ m' _ (Hd & Ha & Hdc & _).
  rewrite Hd1, Hres in Hd. change (arr_at (x :: xs) 0) with x in Hd. rewrite Hub in Hd. simpl in Hd.
  assert (Ha' : attachedData m' = {[tmp := mkAttached (2 ^ 32 - 1) 0 None]})
    by (rewrite Ha, Ha1; reflexivity).
  split; [exact Hd|]. split; [exact Ha'|]. split; [rewrite Hdc, Hdc1; reflexivity|].
  eapply model_data_unsynced; [rewrite Ha'; apply lookup_singleton_eq | reflexivity |].
  unfold rowCount. rewrite Hd. simpl. lia.
Qed.

(** Whichever way the [updatedAt] comparison goes, the row holds some value. *)
Lemma update_data_insert (b : bool) (l : list json) r v :
  0 <= r < Z.of_nat (length l) ->
  exists v', (if b then l else <[Z.to_nat r := v]> l) = <[Z.to_nat r := v']> l.
Proof.
  intros Hr. destruct b; [|eauto].
  destruct (lookup_lt_is_Some_2 l (Z.to_nat r)) as [v' Hv]; [lia|].
  exists v'. symmetry. apply list_insert_id, Hv.
Qed.

(** The successful reply of a remove request (an empty object): the entry
    loses a reference, the row goes and the later rows' entries move up. *)
Lemma finished_removed_post m k r obj id d resp :
  dataChanged m !! k = Some (r, obj) -> obj_value EnginioString.id obj = JStr id ->
  id <> String.EmptyString -> attachedData m !! id = Some d -> row d = r ->
  0 <= r < rowCount m ->
  resp_reply resp = k -> resp_networkError resp = false -> resp_backendStatus resp <> 404 ->
  resp_data resp = [] ->
  twp (finishedRequest ub resp)
    (fun _ m' _ =>
       m' = set_attachedData (updateAllDataAfterRow (fst (deref (attachedData m) id)) r)
              (set_data (arr_removeAt (data m) r)
                 (set_dataChanged (delete k (dataChanged m)) m)))
    m.
Proof.
  intros Hk Hid Htmp Ha Hrow Hr Hrep Herr H404 Hempty.
  pose proof (deref_row _ _ _ Ha) as Hder. rewrite Hrow in Hder.
  item_reply Hk Hid Htmp Hder Hrep Herr H404.
  all: rewrite ?Hempty in *; simpl in *; try discriminate; try lia.
  all: reflexivity.
Qed.

(** A row whose only entry is [tmp] reads its object back and as synced once
    the entry is gone. *)
Lemma model_data_restored m r obj tmp :
  (forall id d, attachedData m !! id = Some d -> row d = r -> id = tmp) -> 0 <= r < rowCount m ->
  let m' := set_data (<[Z.to_nat r := JObj obj]> (data m)) (set_attachedData (delete tmp (attachedData m)) m) in
  model_data m' r DisplayRole = Some (JObj obj) /\ model_data m' r SyncedRole = Some (JBool true).
Proof.
  intros Honly Hr. unfold model_data, rowCount, data_at, DisplayRole, SyncedRole; cbn.
  rewrite length_insert, arr_at_insert by exact Hr.
  replace ((r <? 0) || _) with false by (symmetry; unfold rowCount in Hr; zbool; lia).
  rewrite (synced_after_delete m tmp r Honly). split; reflexivity.
Qed.

(** C30: a failed create is not rolled back: when the reply of the create
    request of an appended row ([_dataChanged] holds the object with its
    temporary id, the id's entry holds one reference) fails on the network
    with a status other than 404, [finishedRequest] writes the object with
    the temporary id back into the row and drops the entry: the row stays
    in the model, holding an object the server does not have, and reads as
    synced. *)
Theorem failed_create_kept m k r obj tmp resp :
  dataChanged m !! k = Some (r, obj) -> obj_value EnginioString.id obj = JStr tmp ->
  tmp <> String.EmptyString -> attachedData m !! tmp = Some (mkAttached 1 r (Some k)) ->
  (forall id d, attachedData m !! id = Some d -> row d = r -> id = tmp) ->
  0 <= r < rowCount m ->
  resp_reply resp = k -> resp_networkError resp = true -> resp_backendStatus resp <> 404 ->
  twp (finishedRequest ub resp)
    (fun _ m' o =>
       data m' = <[Z.to_nat r := JObj obj]> (data m) /\
       attachedData m' = delete tmp (attachedData m) /\
       dataChanged m' = delete k (dataChanged m) /\
       last o = Some (DataChangedSignal r r []) /\
       model_data m' r DisplayRole = Some (JObj obj) /\
       model_data m' r SyncedRole = Some (JBool true))
    m.
Proof.
  intros Hk Hid Htmp Ha Honly Hr Hrep Herr H404.
  eapply twp_conseq; [|exact (finished_failed_post m k r obj tmp _ resp Hk Hid Htmp Ha eq_refl Hr Hrep Herr H404)].
  intros _ m' o [-> Ho]. rewrite (deref_last _ _ _ _ Ha).
  destruct (model_data_restored m r obj tmp Honly Hr) as [H1 H2].
  repeat split; assumption.
Qed.
End Finished.

(** The whole state [append] leaves. *)
Lemma append_post value uuid m c :
  enginio m = Some c ->
  let n := nextReply m in
  let r := Z.of_nat (length (data m)) in
  let object := obj_insert EnginioString.objectType
                  (fst (obj_index EnginioString.objectType (query m))) value in
  let tmp := ("tmp" +:+ uuid)%string in
  twp (model_append value uuid)
    (fun x m' o =>
       x = ReplyTo n /\ data m' = data m ++ [JObj value] /\
       attachedData m' = <[tmp := mkAttached 1 r (Some n)]> (attachedData m) /\
       dataChanged m' = <[n := (r, obj_insert EnginioString.id (JStr tmp) object)]> (dataChanged m) /\
       nextReply m' = S n /\ calls m' = calls m ++ [(n, CallCreate object (operation m))] /\
       swaps m' = swaps m /\ enginio m' = enginio m /\ operation m' = operation m)
    m.
Proof.
  intros Hc. cbv zeta. unfold model_append, append.
  destruct (obj_index EnginioString.objectType (query m)) as [ot q'] eqn:Eq. simpl fst.
  twp_tac; try congruence; simpl in *; rewrite ?Eq in *; simpl in *; try congruence.
  all: repeat match goal with H : (_, _) = (_, _) |- _ => injection H as <- <- end.
  all: repeat split; assumption.
Qed.

(** The entry [ref(int row)] finds when only one entry has that row. *)
Lemma row_entry_unique a id d r :
  a !! id = Some d -> row d = r -> (forall id' d', a !! id' = Some d' -> row d' = r -> id' = id) ->
  row_entry a r = Some (id, d).
Proof.
  intros Hd Hr Honly. unfold row_entry.
  assert (Hin : (id, d) ∈ filter (fun p : string * AttachedData => row p.2 = r) (map_to_list a))
    by (apply list_elem_of_filter; split; [exact Hr | apply elem_of_map_to_list, Hd]).
  destruct (filter _ _) as [|[id' d'] l] eqn:E; [apply not_elem_of_nil in Hin; contradiction|].
  simpl. assert (Hh : (id', d') ∈ filter (fun p : string * AttachedData => row p.2 = r) (map_to_list a))
    by (rewrite E; left).
  apply list_elem_of_filter in Hh as [Hr' Hin']. apply elem_of_map_to_list in Hin'. simpl in Hr'.
  pose proof (Honly _ _ Hin' Hr') as ->. rewrite Hd in Hin'. inv Hin'. reflexivity.
Qed.

(** [remove] of a row whose object has no id yet: [removeDelayed] takes a
    reference on the row's entry, hands out a dummy reply on the create
    reply, and connects the functor that will send the remove. *)
Lemma remove_delayed_post r m c tmp d k :
  enginio m = Some c -> 0 <= r < rowCount m ->
  toString (obj_value EnginioString.id (toObject (arr_at (data m) r))) = String.EmptyString ->
  row_entry (attachedData m) r = Some (tmp, d) -> createReply d = Some k ->
  twp (model_remove r)
    (fun x m' o =>
       x = ReplyTo (nextReply m) /\ o = [] /\ data m' = data m /\
       attachedData m' = <[tmp := mkAttached (uint_inc (ref d)) (row d) (Some k)]> (attachedData m) /\
       dataChanged m' = dataChanged m /\ nextReply m' = S (nextReply m) /\
       calls m' = calls m ++ [(nextReply m, CallDummy k)] /\
       swaps m' = swaps m ++ [(k, SwapForRemove (nextReply m)
                                   (snd (obj_index EnginioString.id (toObject (arr_at (data m) r))))
                                   (tmp_of m k))] /\
       enginio m' = enginio m /\ operation m' = operation m)
    m.
Proof.
  intros Hc Hr Hid He Hk.
  unfold model_remove, remove, removeDelayed, delayedOperation, ref_row, connectSwap.
  replace ((r <? 0) || (rowCount m <=? r)) with false by (symmetry; zbool; lia).
  destruct (obj_index EnginioString.id (toObject (arr_at (data m) r))) as [idv o] eqn:Eo.
  assert (Hidv : toString idv = String.EmptyString)
    by (rewrite <- Hid, <- obj_index_fst, Eo; reflexivity).
  twp_tac; try congruence; simpl in *; rewrite ?He, ?Hk in *; simpl in *; try congruence;
    try (zbool; lia).
  all: repeat match goal with H : obj_index _ _ = _ |- _ => rewrite Eo in H; injection H as <- <- end.
  all: rewrite ?Hidv in *; simpl in *; try discriminate.
  all: repeat (apply twp_ret || twp_step); simpl in *; rewrite ?Hk in *; simpl in *; try congruence.
  all: rewrite ?Hidv in *; simpl in *; try discriminate.
  all: repeat match goal with H : Some _ = Some _ |- _ => injection H as <- end.
  all: repeat match goal with H : (_, _) = (_, _) |- _ => injection H as <- <- end.
  all: simpl in *; rewrite ?Hk in *; repeat split; try congruence.
  all: rewrite Hidv in *; discriminate.
Qed.

(** [EnginioReply::finished] of a reply exactly one functor waits for. *)
Lemma replyFinished_one resp m s Q :
  filter (fun p => p.1 = resp_reply resp) (swaps m) = [(resp_reply resp, s)] ->
  twp (runSwap resp s) (fun _ m' o => Q tt m' o)
    (set_swaps (filter (fun p => swap_reply p.2 <> swap_reply s) (swaps m)) m) ->
  twp (replyFinished resp) Q m.
Proof.
  intros Hf H. unfold replyFinished. apply twp_bind, twp_gets. cbv beta. rewrite Hf. simpl.
  apply twp_bind, twp_modify, twp_bind. eapply twp_conseq; [|exact H].
  intros [] m' o Hq. apply twp_ret. rewrite !app_nil_r. exact Hq.
Qed.

(** [SwapNetworkReplyForRemove] on a successful create reply: the row is
    read from the temporary id's entry (releasing the reference
    [removeDelayed] took), the server's id goes into the functor's object,
    [removeNow] sends the remove request, and the request is moved to the
    reply handed out. *)
Lemma swapForRemove_ok resp reply obj tmp m c d :
  enginio m = Some c -> isError resp = false -> attachedData m !! tmp = Some d ->
  let sid := toString (obj_value EnginioString.id (resp_data resp)) in
  let obj' := obj_insert EnginioString.id (JStr sid) obj in
  twp (swapForRemove resp reply obj tmp)
    (fun _ m' o =>
       o = [DataChangedSignal (row d) (row d) [0; SyncedRole]] /\ data m' = data m /\
       attachedData m' = fst (ref_id (fst (deref (attachedData m) tmp)) sid (row d)) /\
       dataChanged m' = <[reply := (row d, obj')]> (delete (nextReply m) (dataChanged m)) /\
       nextReply m' = S (nextReply m) /\ swaps m' = swaps m /\
       calls m' = calls m ++ [(nextReply m, CallRemove obj' (operation m));
                              (reply, CallSwapNetworkReply (nextReply m))] /\
       enginio m' = enginio m /\ operation m' = operation m)
    m.
Proof.
  intros Hc Herr Hd. cbv zeta.
  unfold swapForRemove, getCurrentRow, removeNow, swapNetworkReply, replyCall, getAndSetCurrentId.
  rewrite Herr. destruct (deref (attachedData m) tmp) as [g a] eqn:Ed.
  assert (Hra : row a = row d) by (unfold deref in Ed; rewrite Hd in Ed; inv Ed; reflexivity).
  twp_tac; try congruence; simpl in *.
  all: repeat match goal with H : (_, _) = (_, _) |- _ => injection H as <- <- end.
  all: simpl; rewrite ?lookup_insert_eq, ?delete_insert_eq, <- ?app_assoc, ?Hra; simpl.
  all: repeat split; try congruence.
Qed.

(** [SwapNetworkReplyForRemove] on a failed create reply only marks the reply
    handed out as failed. *)
Lemma swapForRemove_error resp reply obj tmp m c :
  enginio m = Some c -> isError resp = true ->
  twp (swapForRemove resp reply obj tmp)
    (fun _ m' o => o = [] /\
       m' = set_calls (calls m ++ [(reply, CallMarkAsError
              "Dependent create query failed, so object coudl not be removed")]) m)
    m.
Proof.
  intros Hc Herr. unfold swapForRemove, markAsError, replyCall. rewrite Herr.
  twp_tac; try congruence. split; reflexivity.
Qed.

Lemma filter_none {A} (P : A -> Prop) `{forall x, Decision (P x)} (l : list A) :
  (forall x, In x l -> ~ P x) -> filter P l = [].
Proof.
  induction l as [|x l IH]; intros Hno; [reflexivity|].
  rewrite filter_cons_False by (apply Hno; left; reflexivity). apply IH. intros y Hy. apply Hno. right. exact Hy.
Qed.

Lemma arr_at_last l v : arr_at (l ++ [v]) (Z.of_nat (length l)) = v.
Proof.
  unfold arr_at. rewrite length_app. simpl.
  replace ((0 <=? _) && _) with true
    by (symmetry; apply andb_true_iff; split; [apply Z.leb_le | apply Z.ltb_lt]; lia).
  rewrite Nat2Z.id, app_nth2, Nat.sub_diag by lia. reflexivity.
Qed.

(** After [append], the new row's entry is the only one on that row. *)
Lemma appended_row_entry m tmp d :
  model_inv m -> row d = Z.of_nat (length (data m)) ->
  row_entry (<[tmp := d]> (attachedData m)) (Z.of_nat (length (data m))) = Some (tmp, d).
Proof.
  intros (_ & _ & Hrows & _) Hr. apply row_entry_unique; [apply lookup_insert_eq | exact Hr |].
  intros id' d' Hd' Hr'. rewrite lookup_insert in Hd'.
  destruct (decide (tmp = id')) as [->|]; [reflexivity|]. apply Hrows in Hd'. lia.
Qed.

(** [append] of an object without id, then [remove] of its row while the
    create request is pending: the row's entry holds two references, and a
    [SwapNetworkReplyForRemove] waits for the create reply. *)
Lemma append_remove_then {A} m c value uuid (k : ST A) (P : Model -> Prop) :
  model_inv m -> enginio m = Some c ->
  toString (obj_value EnginioString.id value) = String.EmptyString ->
  let n := nextReply m in
  let r := Z.of_nat (length (data m)) in
  let tmp := ("tmp" +:+ uuid)%string in
  let object := obj_insert EnginioString.objectType
                  (fst (obj_index EnginioString.objectType (query m))) value in
  (forall m2,
     data m2 = data m ++ [JObj value] ->
     attachedData m2 = <[tmp := mkAttached (uint_inc 1) r (Some n)]> (attachedData m) ->
     dataChanged m2 = <[n := (r, obj_insert EnginioString.id (JStr tmp) object)]> (dataChanged m) ->
     nextReply m2 = S (S n) ->
     calls m2 = calls m ++ [(n, CallCreate object (operation m)); (S n, CallDummy n)] ->
     swaps m2 = swaps m ++ [(n, SwapForRemove (S n) (snd (obj_index EnginioString.id value)) tmp)] ->
     enginio m2 = enginio m -> operation m2 = operation m ->
     twp k (fun _ m' _ => P m') m2) ->
  twp (_ ← model_append value uuid; _ ← model_remove r; k) (fun _ m' _ => P m') m.
Proof.
  intros Hinv Hc Hid. cbv zeta. intros Hk.
  set (r := Z.of_nat (length (data m))). set (tmp := ("tmp" +:+ uuid)%string). fold r tmp in Hk.
  apply twp_bind. eapply twp_conseq; [|apply (append_post value uuid m c Hc)].
  intros x m1 o1 (_ & Hd1 & Ha1 & Hdc1 & Hn1 & Hcl1 & Hs1 & He1 & Hop1). fold r tmp in Ha1, Hdc1.
  assert (Harr : arr_at (data m1) r = JObj value) by (rewrite Hd1; apply arr_at_last).
  assert (Htmp : tmp_of m1 (nextReply m) = tmp)
    by (unfold tmp_of; rewrite Hdc1, lookup_insert_eq; simpl; rewrite obj_value_insert_same; reflexivity).
  apply twp_bind. eapply twp_conseq;
    [|apply (remove_delayed_post r m1 c tmp (mkAttached 1 r (Some (nextReply m))) (nextReply m))];
    [| congruence | unfold rowCount; rewrite Hd1, length_app; simpl; lia
     | rewrite Harr; exact Hid | rewrite Ha1; apply appended_row_entry; [exact Hinv | reflexivity]
     | reflexivity].
  intros y m2 o2 (_ & _ & Hd2 & Ha2 & Hdc2 & Hn2 & Hcl2 & Hs2 & He2 & Hop2).
  rewrite Harr, Htmp, Hn1 in Hs2. simpl toObject in Hs2.
  eapply twp_conseq; [|apply Hk]; [intros; assumption | congruence | | congruence | congruence | | | congruence | congruence].
  - rewrite Ha2, Ha1. apply insert_insert_eq.
  - rewrite Hcl2, Hcl1, Hn1, <- app_assoc. reflexivity.
  - rewrite Hs2, Hs1. reflexivity.
Qed.

Lemma obj_contains_objectType_index_id o :
  obj_contains EnginioString.objectType (snd (obj_index EnginioString.id o)) =
  obj_contains EnginioString.objectType o.
Proof. unfold obj_index. destruct (obj_contains _ o); [reflexivity|]. apply obj_contains_insert. Qed.

(** C32: the remove request a deferred remove sends lacks the [objectType]
    the create request had: after [append] of an object without id and
    [remove] of its row while the create request is pending, the successful
    create reply makes [SwapNetworkReplyForRemove] send [remove] for the
    row's object as [append] stored it in [_data] (the user's value, not the
    object with the query's [objectType]) with the server's id added, so the
    create request always carries an [objectType] and the remove request
    only when the user's value had one. *)
Theorem delayed_remove_drops_objectType m c value uuid resp :
  model_inv m -> enginio m = Some c ->
  toString (obj_value EnginioString.id value) = String.EmptyString ->
  (forall p, In p (swaps m) -> p.1 <> nextReply m) ->
  resp_reply resp = nextReply m -> isError resp = false ->
  let n := nextReply m in
  let object := obj_insert EnginioString.objectType
                  (fst (obj_index EnginioString.objectType (query m))) value in
  let removed := obj_insert EnginioString.id (JStr (toString (obj_value EnginioString.id (resp_data resp))))
                   (snd (obj_index EnginioString.id value)) in
  twp (_ ← model_append value uuid; _ ← model_remove (Z.of_nat (length (data m))); replyFinished resp)
    (fun _ m' _ =>
       calls m' = calls m ++ [(n, CallCreate object (operation m)); (S n, CallDummy n);
                              (S (S n), CallRemove removed (operation m));
                              (S n, CallSwapNetworkReply (S (S n)))] /\
       obj_contains EnginioString.objectType object = true /\
       obj_contains EnginioString.objectType removed = obj_contains EnginioString.objectType value)
    m.
Proof.
  intros Hinv Hc Hid Hsw Hrep Herr. cbv zeta.
  apply (append_remove_then m c value uuid); [exact Hinv | exact Hc | exact Hid|].
  intros m2 Hd2 Ha2 Hdc2 Hn2 Hcl2 Hs2 He2 Hop2.
  apply (replyFinished_one resp m2 (SwapForRemove (S (nextReply m)) (snd (obj_index EnginioString.id value))
                                      ("tmp" +:+ uuid))).
  { rewrite Hs2, filter_app, Hrep, filter_none by (intros p Hp; apply Hsw, Hp).
    simpl. rewrite filter_cons_True by reflexivity. reflexivity. }
  eapply twp_conseq; [|apply (swapForRemove_ok resp _ _ _ _ c)];
    [| simpl; congruence | exact Herr | simpl; rewrite Ha2; apply lookup_insert_eq].
  intros z m3 o3 (_ & _ & _ & _ & Hn3 & _ & Hcl3 & _ & Hop3). cbn [calls set_swaps nextReply operation] in *.
  split; [|split].
  - rewrite Hcl3, Hcl2, Hn2, Hop2, <- !app_assoc. reflexivity.
  - rewrite obj_contains_insert, String.eqb_refl. reflexivity.
  - rewrite obj_contains_insert. apply obj_contains_objectType_index_id.
Qed.

Lemma delayedIn_filter (P : nat * Swap -> Prop) `{forall x, Decision (P x)} sw id :
  (delayedIn (filter P sw) id <= delayedIn sw id)%nat.
Proof.
  unfold delayedIn. induction sw as [|p sw IH]; [simpl; lia|].
  destruct (decide (P p)); [rewrite filter_cons_True by assumption | rewrite filter_cons_False by assumption];
    simpl; destruct (String.eqb _ _); simpl; lia.
Qed.

Lemma tmp_nonempty uuid : ("tmp" +:+ uuid)%string <> String.EmptyString.
Proof. discriminate. Qed.

(** ** A create request with a deferred remove *)

(** The state after [append] of an object without id and [remove] of its
    row (see [append_remove_then]), and what the replies of the create
    request and of the remove do to it. *)
Section PendingCreate.
Variable ub : json -> json -> bool.
Variables (m : Model) (c : ClientRef) (value : jobj) (uuid : string) (m2 : Model).
Hypothesis Hinv : model_inv m.
Hypothesis Hc : enginio m = Some c.
Hypothesis Hsw : forall p, In p (swaps m) -> p.1 <> nextReply m.

Local Abbreviation n := (nextReply m).
Local Abbreviation r := (Z.of_nat (length (data m))).
Local Abbreviation tmp := ("tmp" +:+ uuid)%string.
Local Abbreviation object := (obj_insert EnginioString.objectType
                            (fst (obj_index EnginioString.objectType (query m))) value).
Local Abbreviation objC := (obj_insert EnginioString.id (JStr tmp) object).
Local Abbreviation s := (SwapForRemove (S n) (snd (obj_index EnginioString.id value)) tmp).
Local Abbreviation P := (fun p : nat * Swap => swap_reply p.2 <> swap_reply s).
Local Abbreviation failed := "Dependent create query failed, so object coudl not be removed"%string.

Hypothesis Hd2 : data m2 = data m ++ [JObj value].
Hypothesis Ha2 : attachedData m2 = <[tmp := mkAttached (uint_inc 1) r (Some n)]> (attachedData m).
Hypothesis Hdc2 : dataChanged m2 = <[n := (r, objC)]> (dataChanged m).
Hypothesis Hn2 : nextReply m2 = S (S n).
Hypothesis Hcl2 : calls m2 = calls m ++ [(n, CallCreate object (operation m)); (S n, CallDummy n)].
Hypothesis Hs2 : swaps m2 = swaps m ++ [(n, s)].
Hypothesis He2 : enginio m2 = enginio m.
Hypothesis Hop2 : operation m2 = operation m.

Lemma pending_filter resp m3 :
  resp_reply resp = n -> swaps m3 = swaps m2 ->
  filter (fun p => p.1 = resp_reply resp) (swaps m3) = [(resp_reply resp, s)].
Proof.
  intros Hrep ->. rewrite Hs2, filter_app, Hrep, filter_none by (intros p Hp; apply Hsw, Hp).
  simpl. rewrite filter_cons_True by reflexivity. reflexivity.
Qed.

Lemma pending_row : 0 <= r < rowCount m2.
Proof. unfold rowCount. rewrite Hd2, length_app. simpl. lia. Qed.

Lemma pending_request : dataChanged m2 !! n = Some (r, objC).
Proof. rewrite Hdc2. apply lookup_insert_eq. Qed.

Lemma pending_entry : attachedData m2 !! tmp = Some (mkAttached (uint_inc 1) r (Some n)).
Proof. rewrite Ha2. apply lookup_insert_eq. Qed.

Lemma pending_drop_functor :
  filter P (swaps m2) = filter P (swaps m).
Proof.
  rewrite Hs2, filter_app, (filter_singleton_False _ (n, s) []) by (intros Hne; apply Hne; reflexivity).
  apply app_nil_r.
Qed.

(** Both [finished] signals of a failed create reply have run: the entry
    keeps the reference [removeDelayed] took, with nothing left to release
    it. *)
Lemma failed_final m4 :
  fresh_tmp m uuid ->
  attachedData m4 = fst (deref (attachedData m2) tmp) ->
  dataChanged m4 = delete n (dataChanged m2) ->
  swaps m4 = filter P (swaps m2) ->
  data m4 = <[Z.to_nat r := JObj objC]> (data m2) ->
  calls m4 = calls m2 ++ [(S n, CallMarkAsError failed)] ->
  attachedData m4 !! tmp = Some (mkAttached 1 r (Some n)) /\
  pending m4 tmp = 0%nat /\ delayed m4 tmp = 0%nat /\ ~ model_inv m4 /\
  model_data m4 r SyncedRole = Some (JBool false) /\
  calls m4 = calls m ++ [(n, CallCreate object (operation m)); (S n, CallDummy n); (S n, CallMarkAsError failed)].
Proof.
  intros (Hfa & Hfp & Hfd) Ha4 Hdc4 Hs4 Hd4 Hcl4.
  assert (Hlook : attachedData m4 !! tmp = Some (mkAttached 1 r (Some n)))
    by (rewrite Ha4; unfold deref; rewrite pending_entry; simpl; apply lookup_insert_eq).
  assert (Hp : pending m4 tmp = 0%nat)
    by (unfold pending; rewrite Hdc4, Hdc2, delete_insert_id by exact (fresh_reply m Hinv); exact Hfp).
  assert (Hdl : delayed m4 tmp = 0%nat).
  { unfold delayed. rewrite Hs4, pending_drop_functor.
    pose proof (delayedIn_filter P (swaps m) tmp). unfold delayed in Hfd. lia. }
  split; [exact Hlook|]. split; [exact Hp|]. split; [exact Hdl|]. split; [|split].
  - intros [Hrc _]. specialize (Hrc tmp). unfold ref_of in Hrc. rewrite Hlook, Hp, Hdl in Hrc.
    simpl in Hrc. discriminate.
  - eapply model_data_unsynced; [exact Hlook | reflexivity |].
    unfold rowCount. rewrite Hd4, length_insert, Hd2, length_app. simpl. lia.
  - rewrite Hcl4, Hcl2, <- !app_assoc. reflexivity.
Qed.

(** A failed create reply, its two [finished] signals in either order. *)
Lemma failed_replies_post resp (clientFirst : bool) :
  fresh_tmp m uuid ->
  resp_reply resp = n -> resp_networkError resp = true -> resp_backendStatus resp <> 404 ->
  twp (if clientFirst then finishedRequest ub resp ;; replyFinished resp
       else replyFinished resp ;; finishedRequest ub resp)
    (fun _ m4 _ =>
       attachedData m4 !! tmp = Some (mkAttached 1 r (Some n)) /\
       pending m4 tmp = 0%nat /\ delayed m4 tmp = 0%nat /\ ~ model_inv m4 /\
       model_data m4 r SyncedRole = Some (JBool false) /\
       calls m4 = calls m ++ [(n, CallCreate object (operation m)); (S n, CallDummy n);
                              (S n, CallMarkAsError failed)])
    m2.
Proof.
  intros Hfresh Hrep Herr H404.
  assert (Hdc : dataChanged m2 !! resp_reply resp = Some (r, objC)) by (rewrite Hrep; exact pending_request).
  destruct clientFirst; apply twp_bind.
  - eapply twp_conseq; [|apply (finished_failed_post ub m2 (resp_reply resp) r objC tmp (mkAttached (uint_inc 1) r (Some n)) resp Hdc)];
      [| apply obj_value_insert_same | apply tmp_nonempty | exact pending_entry | reflexivity
       | exact pending_row | reflexivity | exact Herr | exact H404].
    intros _ m3 _ [-> _].
    apply (replyFinished_one resp _ s); [apply pending_filter; [exact Hrep | reflexivity]|].
    eapply twp_conseq; [|apply (swapForRemove_error resp _ _ tmp _ c); [simpl; congruence | exact Herr]].
    intros _ m4 _ [_ ->]. apply failed_final; try reflexivity; [exact Hfresh | simpl; rewrite Hrep; reflexivity].
  - apply (replyFinished_one resp _ s); [apply pending_filter; [exact Hrep | reflexivity]|].
    eapply twp_conseq; [|apply (swapForRemove_error resp _ _ tmp _ c); [simpl; congruence | exact Herr]].
    intros _ m3 _ [_ ->].
    eapply twp_conseq; [|apply (finished_failed_post ub _ (resp_reply resp) r objC tmp (mkAttached (uint_inc 1) r (Some n)) resp)];
      [| exact Hdc | apply obj_value_insert_same | apply tmp_nonempty | exact pending_entry | reflexivity
       | exact pending_row | reflexivity | exact Herr | exact H404].
    intros _ m4 _ [-> _]. apply failed_final; try reflexivity; [exact Hfresh | simpl; rewrite Hrep; reflexivity].
Qed.

Section Created.
Variable respC : Response.
Local Abbreviation sid := (toString (obj_value EnginioString.id (resp_data respC))).
Local Abbreviation removed := (obj_insert EnginioString.id (JStr sid) (snd (obj_index EnginioString.id value))).
Hypothesis HrepC : resp_reply respC = n.
Hypothesis HerrC : isError respC = false.
Hypothesis H404C : resp_backendStatus respC <> 404.
Hypothesis HneC : resp_data respC <> [].
Hypothesis Hsid : sid <> String.EmptyString.
Hypothesis Hsidt : sid <> tmp.
Hypothesis Hfa : attachedData m !! tmp = None.
Hypothesis Hsida : attachedData m !! sid = None.

Lemma request_free k : (n <= k)%nat -> dataChanged m !! k = None.
Proof.
  intros Hk. destruct (dataChanged m !! k) eqn:E; [|reflexivity].
  destruct Hinv as (_ & Hkeys & _). apply Hkeys in E. lia.
Qed.

Lemma updated_row l (b : bool) v :
  l = (if b then data m2 else <[Z.to_nat r := v]> (data m2)) ->
  exists v, l = <[length (data m) := v]> (data m ++ [JObj value]).
Proof.
  intros ->. destruct (update_data_insert b (data m2) r v pending_row) as [v' ->].
  exists v'. rewrite Hd2, Nat2Z.id. reflexivity.
Qed.

(** A successful create reply, its two [finished] signals in either order:
    the remove request is sent for the server's id and moved to the reply
    [removeDelayed] handed out; the temporary id's entry is gone. *)
Lemma created_replies_post (clientFirst : bool) :
  twp (if clientFirst then finishedRequest ub respC ;; replyFinished respC
       else replyFinished respC ;; finishedRequest ub respC)
    (fun _ m4 _ =>
       (exists v, data m4 = <[length (data m) := v]> (data m ++ [JObj value])) /\
       attachedData m4 = <[sid := mkAttached 1 r None]> (attachedData m) /\
       dataChanged m4 = <[S n := (r, removed)]> (dataChanged m) /\
       swaps m4 = filter P (swaps m2) /\
       calls m4 = calls m2 ++ [(S (S n), CallRemove removed (operation m)); (S n, CallSwapNetworkReply (S (S n)))])
    m2.
Proof.
  destruct clientFirst; apply twp_bind.
  - eapply twp_conseq; [|apply (finished_update_post ub m2 n r r objC tmp respC pending_request)];
      [| lia | apply obj_value_insert_same | apply tmp_nonempty
       | rewrite (deref_row _ _ _ pending_entry); reflexivity
       | exact pending_row | exact HrepC | exact HerrC | exact H404C | exact HneC].
    intros _ m3 _ (Hd3 & Ha3 & Hdc3 & Hs3 & Hcl3 & Hn3 & He3 & Hop3).
    apply (replyFinished_one respC _ s); [apply pending_filter; [exact HrepC | exact Hs3]|].
    eapply twp_conseq; [|apply (swapForRemove_ok respC _ _ tmp _ c (mkAttached 1 r (Some n)))];
      [| simpl; congruence | exact HerrC
       | simpl; rewrite Ha3, Ha2; unfold deref; rewrite lookup_insert_eq; apply lookup_insert_eq].
    intros _ m4 _ (_ & Hd4 & Ha4 & Hdc4 & Hn4 & Hs4 & Hcl4 & _).
    cbn [data attachedData dataChanged swaps calls nextReply operation set_swaps row] in *.
    split; [|split; [|split; [|split]]].
    + rewrite Hd4. exact (updated_row _ _ _ Hd3).
    + rewrite Ha4, Ha3, Ha2. apply attached_create_then_functor; assumption.
    + rewrite Hdc4, Hn3, Hn2, Hdc3, Hdc2. apply map_eq. intros i.
      destruct (decide (i = S n)) as [->|Hi1]; [lookup_simpl; reflexivity|].
      destruct (decide (i = n)) as [->|Hi2]; [lookup_simpl; symmetry; apply request_free; lia|].
      destruct (decide (i = S (S n))) as [->|Hi3]; lookup_simpl; [symmetry; apply request_free; lia | reflexivity].
    + rewrite Hs4, Hs3. reflexivity.
    + rewrite Hcl4, Hcl3, Hn3, Hn2, Hop3, Hop2. reflexivity.
  - apply (replyFinished_one respC _ s); [apply pending_filter; [exact HrepC | reflexivity]|].
    eapply twp_conseq; [|apply (swapForRemove_ok respC _ _ tmp _ c (mkAttached (uint_inc 1) r (Some n)))];
      [| simpl; congruence | exact HerrC | exact pending_entry].
    intros _ m3 _ (_ & Hd3 & Ha3 & Hdc3 & Hn3 & Hs3 & Hcl3 & _ & Hop3).
    cbn [data attachedData dataChanged swaps calls nextReply operation set_swaps row] in *.
    eapply twp_conseq; [|apply (finished_update_post ub m3 n r r objC tmp respC)];
      [| rewrite Hdc3, Hn2, lookup_insert_ne, lookup_delete_ne by lia; exact pending_request | lia
       | apply obj_value_insert_same | apply tmp_nonempty
       | rewrite Ha3, Ha2, (deref_row _ _ _ (functor_entry _ _ _ _ _ Hsidt)); reflexivity
       | unfold rowCount; rewrite Hd3; exact pending_row | exact HrepC | exact HerrC | exact H404C | exact HneC].
    intros _ m4 _ (Hd4 & Ha4 & Hdc4 & Hs4 & Hcl4 & _).
    split; [|split; [|split; [|split]]].
    + rewrite Hd3 in Hd4. exact (updated_row _ _ _ Hd4).
    + rewrite Ha4, Ha3, Ha2. apply attached_functor_then_create; assumption.
    + rewrite Hdc4, Hdc3, Hn2, Hdc2. apply map_eq. intros i.
      destruct (decide (i = S n)) as [->|Hi1]; [lookup_simpl; reflexivity|].
      destruct (decide (i = n)) as [->|Hi2]; [lookup_simpl; symmetry; apply request_free; lia|].
      destruct (decide (i = S (S n))) as [->|Hi3]; lookup_simpl; [symmetry; apply request_free; lia | reflexivity].
    + rewrite Hs4, Hs3. reflexivity.
    + rewrite Hcl4, Hcl3, Hn2, Hop2. reflexivity.
Qed.

(** The reply of the remove request, once it has been sent for the server's
    id: the row and every trace of the object are gone. *)
Lemma removed_reply_post respR m4 :
  resp_reply respR = S n -> isError respR = false -> resp_backendStatus respR <> 404 ->
  resp_data respR = [] ->
  (exists v, data m4 = <[length (data m) := v]> (data m ++ [JObj value])) ->
  attachedData m4 = <[sid := mkAttached 1 r None]> (attachedData m) ->
  dataChanged m4 = <[S n := (r, removed)]> (dataChanged m) ->
  swaps m4 = filter P (swaps m2) ->
  twp (finishedRequest ub respR)
    (fun _ m5 _ =>
       data m5 = data m /\ attachedData m5 = attachedData m /\ dataChanged m5 = dataChanged m /\
       swaps m5 = swaps m /\ calls m5 = calls m4)
    m4.
Proof.
  intros HrepR HerrR H404R HemR [v Hd4] Ha4 Hdc4 Hs4.
  pose proof Hinv as (_ & _ & Hrows & [Hswf _]).
  eapply twp_conseq; [|apply (finished_removed_post ub m4 (S n) r removed sid (mkAttached 1 r None) respR)];
    [| rewrite Hdc4; apply lookup_insert_eq | apply obj_value_insert_same | exact Hsid
     | rewrite Ha4; apply lookup_insert_eq | reflexivity
     | unfold rowCount; rewrite Hd4, length_insert, length_app; simpl; lia
     | exact HrepR | exact HerrR | exact H404R | exact HemR].
  intros _ m5 _ ->. cbn. repeat split.
  - rewrite Hd4. apply arr_removeAt_last.
  - rewrite Ha4. unfold deref. rewrite lookup_insert_eq. simpl.
    rewrite delete_insert_eq, delete_id by exact Hsida. apply updateAll_below.
    intros id d Hd. specialize (Hrows _ _ Hd). lia.
  - rewrite Hdc4, delete_insert_eq. apply delete_id, request_free. lia.
  - rewrite Hs4, pending_drop_functor. apply filter_all. intros [cr s'] Hin.
    destruct (Hswf _ _ Hin) as [_ Hlt]. simpl. lia.
Qed.

End Created.
End PendingCreate.

(** C31: the model gives up on a row whose create request failed: when
    both [finished] signals of a failed create reply (network error, status
    other than 404) have run, in either order, on a row appended and then
    removed while its create request was pending, the temporary id's entry
    keeps the reference [removeDelayed] took ([uint ref] 1) although no
    request is pending and no functor waits on it, so the reference count
    invariant [model_inv] no longer holds, the row reads as unsynced for
    good, and instead of the remove request the reply handed out is only
    marked as failed. *)
Theorem failed_create_leaks_ref ub m c value uuid resp (clientFirst : bool) :
  model_inv m -> enginio m = Some c -> fresh_tmp m uuid ->
  toString (obj_value EnginioString.id value) = String.EmptyString ->
  (forall p, In p (swaps m) -> p.1 <> nextReply m) ->
  resp_reply resp = nextReply m -> resp_networkError resp = true -> resp_backendStatus resp <> 404 ->
  let n := nextReply m in
  let r := Z.of_nat (length (data m)) in
  let tmp := ("tmp" +:+ uuid)%string in
  twp (_ ← model_append value uuid; _ ← model_remove r;
       if clientFirst then finishedRequest ub resp ;; replyFinished resp
       else replyFinished resp ;; finishedRequest ub resp)
    (fun _ m' _ =>
       attachedData m' !! tmp = Some (mkAttached 1 r (Some n)) /\
       pending m' tmp = 0%nat /\ delayed m' tmp = 0%nat /\ ~ model_inv m' /\
       model_data m' r SyncedRole = Some (JBool false) /\
       calls m' = calls m ++ [(n, CallCreate (obj_insert EnginioString.objectType
                                   (fst (obj_index EnginioString.objectType (query m))) value) (operation m));
                              (S n, CallDummy n);
                              (S n, CallMarkAsError "Dependent create query failed, so object coudl not be removed")])
    m.
Proof.
  intros Hinv Hc Hfresh Hid Hsw Hrep Herr H404. cbv zeta.
  apply (append_remove_then m c value uuid); [exact Hinv | exact Hc | exact Hid|].
  intros m2 Hd2 Ha2 Hdc2 Hn2 Hcl2 Hs2 He2 Hop2.
  eapply failed_replies_post; eassumption.
Qed.

(** C22: a remove of a row whose create request is pending, once the create
    reply ([finished] signals in either order) and the remove's reply have
    succeeded, leaves the model as it was before the append: the same
    [_data], [_attachedData], [_dataChanged] and functors; the client saw
    the create request, the dummy reply [removeDelayed] hands out, the
    remove request for the object with the server's id, and the swap of
    that request onto the reply handed out. *)
Theorem remove_pending_create ub m c value uuid respC respR (clientFirst : bool) :
  model_inv m -> enginio m = Some c -> fresh_tmp m uuid ->
  toString (obj_value EnginioString.id value) = String.EmptyString ->
  (forall p, In p (swaps m) -> p.1 <> nextReply m) ->
  let n := nextReply m in
  let r := Z.of_nat (length (data m)) in
  let tmp := ("tmp" +:+ uuid)%string in
  let sid := toString (obj_value EnginioString.id (resp_data respC)) in
  resp_reply respC = n -> isError respC = false -> resp_backendStatus respC <> 404 ->
  resp_data respC <> [] -> sid <> String.EmptyString -> sid <> tmp -> attachedData m !! sid = None ->
  resp_reply respR = S n -> isError respR = false -> resp_backendStatus respR <> 404 ->
  resp_data respR = [] ->
  let object := obj_insert EnginioString.objectType
                  (fst (obj_index EnginioString.objectType (query m))) value in
  let removed := obj_insert EnginioString.id (JStr sid) (snd (obj_index EnginioString.id value)) in
  twp (_ ← model_append value uuid; _ ← model_remove r;
       _ ← (if clientFirst then finishedRequest ub respC ;; replyFinished respC
            else replyFinished respC ;; finishedRequest ub respC);
       finishedRequest ub respR)
    (fun _ m' _ =>
       data m' = data m /\ attachedData m' = attachedData m /\ dataChanged m' = dataChanged m /\
       swaps m' = swaps m /\
       calls m' = calls m ++ [(n, CallCreate object (operation m)); (S n, CallDummy n);
                              (S (S n), CallRemove removed (operation m));
                              (S n, CallSwapNetworkReply (S (S n)))])
    m.
Proof.
  intros Hinv Hc (Hfa & Hfp & Hfd) Hid Hsw. cbv zeta.
  intros HrepC HerrC H404C HneC Hsid Hsidt Hsida HrepR HerrR H404R HemR.
  apply (append_remove_then m c value uuid); [exact Hinv | exact Hc | exact Hid|].
  intros m2 Hd2 Ha2 Hdc2 Hn2 Hcl2 Hs2 He2 Hop2.
  apply twp_bind.
  eapply twp_conseq; [|eapply created_replies_post; eassumption].
  intros _ m4 _ (Hd4 & Ha4 & Hdc4 & Hs4 & Hcl4).
  eapply twp_conseq; [|eapply removed_reply_post; eassumption].
  intros _ m5 _ (H1 & H2 & H3 & H4 & H5). repeat split; try assumption.
  rewrite H5, Hcl4, Hcl2, <- !app_assoc. reflexivity.
Qed.

Module DelayedWitnesses.
Import Scenario ModelWitnesses.

(** The model after one object was loaded (reply 0), before the append. *)
Definition queried : Model :=
  fst (final [MSetEnginio (Some client); MSetQuery todos;
              MFinished 1 (mkResponse 0 [("results", JArr [JObj itemA])] 200 false)]).

Definition newItem : jobj := [("title", JStr "y")].

Lemma queried_inv : model_inv queried.
Proof.
  apply (mreachable_model_inv never_before).
  apply (mreachable_run _ [MSetEnginio (Some client); MSetQuery todos;
              MFinished 1 (mkResponse 0 [("results", JArr [JObj itemA])] 200 false)] initialModel _
           (snd (final [MSetEnginio (Some client); MSetQuery todos;
              MFinished 1 (mkResponse 0 [("results", JArr [JObj itemA])] 200 false)])));
    [apply mreach_init | vm_compute; reflexivity | vm_compute; reflexivity].
Qed.

Lemma queried_fresh : fresh_tmp queried "U".
Proof. split; [|split]; vm_compute; reflexivity. Qed.

Lemma no_swaps : forall p, In p (swaps queried) -> p.1 <> nextReply queried.
Proof. vm_compute. intros p []. Qed.

Lemma failed_create_kept_witness :
  dataChanged loadedModel !! 1%nat =
    Some (1, [("id", JStr "tmpU"); ("objectType", JStr "objects.todo"); ("title", JStr "y")]) /\
  twp (finishedRequest never_before create_failed)
    (fun _ m' _ => model_data m' 1 SyncedRole = Some (JBool true)) loadedModel.
Proof.
  split; [vm_compute; reflexivity|].
  assert (Ha : attachedData loadedModel = {["tmpU" := mkAttached 1 1 (Some 1%nat)]}) by (vm_compute; reflexivity).
  eapply twp_conseq; [|apply (failed_create_kept never_before loadedModel 1%nat 1
                               [("id", JStr "tmpU"); ("objectType", JStr "objects.todo"); ("title", JStr "y")]
                               "tmpU" create_failed)];
    [| vm_compute; reflexivity | reflexivity | discriminate | rewrite Ha; apply lookup_singleton_eq
     | | split; [lia | vm_compute; reflexivity] | reflexivity | reflexivity | discriminate].
  - intros _ m' _ (_ & _ & _ & _ & _ & H). exact H.
  - intros id d Hd _. rewrite Ha in Hd. apply lookup_singleton_Some in Hd as [<- _]. reflexivity.
Defined.

Lemma delayed_remove_drops_objectType_witness :
  model_inv queried /\
  twp (_ ← model_append newItem "U"; _ ← model_remove (Z.of_nat (length (data queried))); replyFinished create_ok)
    (fun _ m' _ => In (3%nat, CallRemove [("id", JStr "b"); ("title", JStr "y")] 0) (calls m')) queried.
Proof.
  split; [exact queried_inv|].
  eapply twp_conseq; [|apply (delayed_remove_drops_objectType queried client newItem "U" create_ok)];
    [| exact queried_inv | vm_compute; reflexivity | reflexivity | exact no_swaps | vm_compute; reflexivity
     | reflexivity].
  intros _ m' _ (Hcalls & _ & _). rewrite Hcalls. vm_compute. auto 10.
Defined.

Lemma failed_create_leaks_ref_witness :
  model_inv queried /\ fresh_tmp queried "U" /\
  twp (_ ← model_append newItem "U"; _ ← model_remove (Z.of_nat (length (data queried)));
       finishedRequest never_before create_failed ;; replyFinished create_failed)
    (fun _ m' _ => ~ model_inv m') queried.
Proof.
  split; [exact queried_inv|]. split; [exact queried_fresh|].
  eapply twp_conseq; [|apply (failed_create_leaks_ref never_before queried client newItem "U" create_failed true)];
    [| exact queried_inv | vm_compute; reflexivity | exact queried_fresh | reflexivity | exact no_swaps
     | vm_compute; reflexivity | reflexivity | discriminate].
  intros _ m' _ (_ & _ & _ & H & _). exact H.
Defined.

Definition remove_ok : Response := mkResponse 2 [] 200 false.

Lemma remove_pending_create_witness :
  model_inv queried /\
  twp (_ ← model_append newItem "U"; _ ← model_remove (Z.of_nat (length (data queried)));
       _ ← (replyFinished create_ok ;; finishedRequest never_before create_ok);
       finishedRequest never_before remove_ok)
    (fun _ m' _ => data m' = data queried /\ attachedData m' = attachedData queried) queried.
Proof.
  split; [exact queried_inv|].
  eapply twp_conseq; [|apply (remove_pending_create never_before queried client newItem "U" create_ok remove_ok false)];
    [| exact queried_inv | vm_compute; reflexivity | exact queried_fresh | reflexivity | exact no_swaps
     | vm_compute; reflexivity | reflexivity | discriminate | discriminate | discriminate | discriminate
     | vm_compute; reflexivity | vm_compute; reflexivity | reflexivity | discriminate | reflexivity].
  intros _ m' _ (H1 & H2 & _). split; assumption.
Defined.

(** A new query (reply 2) issued while the create (reply 1) is pending. *)
Definition requeried : Model := fst (final (loaded ++ [MSetQuery (todos ++ [("limit", JNum 5)])])).

Lemma reset_overwrites_created_row_witness :
  dataChanged requeried !! 2%nat = Some (FullModelReset, []) /\
  twp (finishedRequest never_before (mkResponse 2 [("results", JArr [JObj itemA])] 200 false) ;;
       finishedRequest never_before create_ok)
    (fun _ m' _ => attachedData m' = {["tmpU" := mkAttached (2 ^ 32 - 1) 0 None]}) requeried.
Proof.
  split; [vm_compute; reflexivity|].
  eapply twp_conseq; [|apply (reset_overwrites_created_row never_before requeried 2%nat [] 1%nat 1
                               [("id", JStr "tmpU"); ("objectType", JStr "objects.todo"); ("title", JStr "y")]
                               "tmpU" (mkResponse 2 [("results", JArr [JObj itemA])] 200 false) create_ok
                               (JObj itemA) [])];
    [| vm_compute; reflexivity | reflexivity | reflexivity | vm_compute; reflexivity | lia | discriminate
     | reflexivity | discriminate | reflexivity | reflexivity | discriminate | discriminate | reflexivity].
  intros _ m' _ (_ & H & _). exact H.
Defined.

End DelayedWitnesses.
