(* ===== verification/ModelWiring.v ===== *)
(** The signal-slot wiring of [EnginioModel] (enginiomodel.cpp).  The
    private class holds the functor classes [EnginioDestroyed],
    [FinishedRequest] and [QueryChanged] (lines 166-215); its constructor
    connects the model's three NOTIFY signals to [QueryChanged] (lines
    224-226), and [setEnginio] drops the connections it made to the old
    client and makes four to the new one (lines 240-255).  Here the
    connections are state, Qt's emission runs the functors connected to a
    signal in the order of connection, and [whandle] is the model driven
    through them.  The theorems show that [mhandle] of Model.v, which
    delivers a client's signals while that client is [_enginio], is this
    wired model: the connections are always those of the current client,
    and a run of events gives the same states and signals. *)

From S2P Require Import Prelude.
From stdpp Require Import base gmap strings.
From S2P Require Import Json Model.
From Stdlib Require Strings.String.

Open Scope Z_scope.

(** ** No method but [setEnginio] changes [_enginio] *)

(** [c] keeps the model's client. *)
Definition keeps_client {A} (c : ST A) : Prop :=
  forall m (Q : A -> Model -> list Signal -> Prop),
    (forall x m' o, enginio m' = enginio m -> Q x m' o) -> wp c Q m.

(** Runs a method body; [call] applies the lemmas of its callees. *)
Ltac kc_tac call :=
  let HQ := fresh "HQ" in
  intros ? ? HQ;
  repeat (wp_step || (apply wp_syncRoles; intros) ||
          (call; let E := fresh "E" in intros ? ? ? E));
  try (apply HQ; simpl in *; congruence).

Lemma execute_kc : keeps_client execute.
Proof. unfold execute. kc_tac fail. Qed.

Lemma notify_kc s : keeps_client (notify s).
Proof. unfold notify. kc_tac ltac:(apply execute_kc). Qed.

Lemma fetchMore_kc r : keeps_client (fetchMore r).
Proof. unfold fetchMore. kc_tac fail. Qed.

Lemma setQuery_kc q : keeps_client (setQuery q).
Proof. unfold setQuery. kc_tac ltac:(apply notify_kc). Qed.

Lemma setOperation_kc op : keeps_client (setOperation op).
Proof. unfold setOperation. kc_tac ltac:(apply notify_kc). Qed.

Lemma append_kc value uuid : keeps_client (append value uuid).
Proof. unfold append. kc_tac fail. Qed.

Lemma remove_kc r : keeps_client (remove r).
Proof. unfold remove, removeNow, removeDelayed, delayedOperation, connectSwap. kc_tac fail. Qed.

Lemma setData_kc r v role : keeps_client (setData r v role).
Proof. unfold setData, setDataNow, setDataDelyed, delayedOperation, connectSwap. kc_tac fail. Qed.

Lemma finishedRequest_kc ub resp : keeps_client (finishedRequest ub resp).
Proof. unfold finishedRequest, finishedObject. kc_tac fail. Qed.

Lemma runSwaps_kc resp l : keeps_client (runSwaps resp l).
Proof.
  induction l as [|s l IH]; simpl.
  - intros m Q HQ. apply wp_ret, HQ. reflexivity.
  - unfold runSwap, swapForRemove, swapForSetData, markAsError, getCurrentRow, swapNetworkReply,
      replyCall, removeNow, setDataNow.
    destruct s; kc_tac ltac:(apply IH).
Qed.

(** ** Connections *)

(** The functor classes of [EnginioModelPrivate] (lines 166-215). *)
Inductive Slot := EnginioDestroyed | FinishedRequest | QueryChanged.

(** The signals of an [EnginioClient] the model connects to. *)
Inductive ClientSig := Finished | Destroyed | BackendIdChanged | BackendSecretChanged.

(** A [QMetaObject::Connection] from a signal of a client (its pointer) to a
    functor of this model. *)
Record Connection := mkConnection {
  conn_sender : nat;
  conn_signal : ClientSig;
  conn_slot : Slot
}.

#[export] Instance Slot_eq_dec : EqDecision Slot.
Proof. solve_decision. Defined.
#[export] Instance ClientSig_eq_dec : EqDecision ClientSig.
Proof. solve_decision. Defined.
#[export] Instance Connection_eq_dec : EqDecision Connection.
Proof. solve_decision. Defined.

(** The four connections [setEnginio] makes to a client (lines 248-251). *)
Definition client_connections (client : nat) : list Connection :=
  [mkConnection client Finished FinishedRequest;
   mkConnection client Destroyed EnginioDestroyed;
   mkConnection client BackendIdChanged QueryChanged;
   mkConnection client BackendSecretChanged QueryChanged].

(** An emission of a client's signal, with its argument. *)
Inductive Emission :=
| EFinished (resp : Response)
| EDestroyed
| EBackendIdChanged
| EBackendSecretChanged.

Definition emission_signal (ev : Emission) : ClientSig :=
  match ev with
  | EFinished _ => Finished
  | EDestroyed => Destroyed
  | EBackendIdChanged => BackendIdChanged
  | EBackendSecretChanged => BackendSecretChanged
  end.

(** ** The model with its connections *)

(** The model and [_connections]. *)
Record WModel := mkWModel {
  wmodel : Model;
  connections : list Connection
}.

Definition WST (A : Type) := WModel -> option (A * WModel * list Signal).

Definition wret {A} (x : A) : WST A := fun w => Some (x, w, []).

Definition wbind {A B} (c : WST A) (k : A -> WST B) : WST B :=
  fun w => match c w with
           | None => None
           | Some (x, w1, o1) =>
               match k x w1 with
               | None => None
               | Some (y, w2, o2) => Some (y, w2, o1 ++ o2)
               end
           end.

#[export] Instance WST_ret : MRet WST := @wret.
#[export] Instance WST_bind : MBind WST := fun A B k c => wbind c k.

(** A method of the model's fields. *)
Definition wlift {A} (c : ST A) : WST A :=
  fun w => match c (wmodel w) with
           | Some (x, m, o) => Some (x, mkWModel m (connections w), o)
           | None => None
           end.

Definition wclient : WST (option ClientRef) := fun w => Some (enginio (wmodel w), w, []).

Definition wconnections : WST (list Connection) := fun w => Some (connections w, w, []).

Definition set_connections (cs : list Connection) : WST unit :=
  fun w => Some (tt, mkWModel (wmodel w) cs, []).

(** [void setEnginio(const EnginioClient *enginio)] (lines 240-255):
    disconnect and forget the connections to the old client, store the
    new one, connect to it, then [emit enginioChanged]. *)
Definition wsetEnginio (e : option ClientRef) : WST unit :=
  cur ← wclient;
  (match cur with Some _ => set_connections [] | None => mret tt end) ;;
  wlift (modify (set_enginio e)) ;;
  (match e with
   | Some c => cs ← wconnections; set_connections (cs ++ client_connections (clientPtr c))
   | None => mret tt
   end) ;;
  wlift (notify (EnginioChangedSignal (client_ptr e))).

(** The functors' [operator()]: [EnginioDestroyed] calls [setEnginio(0)]
    (lines 176-179), [FinishedRequest] calls [finishedRequest] (lines
    192-195), [QueryChanged] calls [execute] (lines 210-213). *)
Definition call_slot (updatedBefore : json -> json -> bool) (sl : Slot) (ev : Emission) : WST unit :=
  match sl, ev with
  | EnginioDestroyed, _ => wsetEnginio None
  | FinishedRequest, EFinished resp => wlift (finishedRequest updatedBefore resp)
  | FinishedRequest, _ => mret tt
  | QueryChanged, _ => wlift execute
  end.

(** Qt's emission: each connection of the signal, in the order of
    connection, still connected when its turn comes. *)
Fixpoint run_connections (updatedBefore : json -> json -> bool) (ev : Emission)
    (l : list Connection) : WST unit :=
  match l with
  | [] => mret tt
  | cn :: l =>
      cs ← wconnections;
      (if decide (cn ∈ cs) then call_slot updatedBefore (conn_slot cn) ev else mret tt) ;;
      run_connections updatedBefore ev l
  end.

Definition emit_client (updatedBefore : json -> json -> bool) (client : nat) (ev : Emission) : WST unit :=
  cs ← wconnections;
  run_connections updatedBefore ev
    (filter (fun cn => conn_sender cn = client /\ conn_signal cn = emission_signal ev) cs).

(** The events of Model.v, the client's signals delivered through the
    connections.  A change of the client's settings is seen through the
    model's pointer to it before [backendIdChanged] (or
    [backendSecretChanged]) is emitted. *)
Definition whandle (updatedBefore : json -> json -> bool) (ev : MEvent) : WST unit :=
  match ev with
  | MSetEnginio e =>
      cur ← wclient;
      if decide (client_ptr cur = client_ptr e) then mret tt else wsetEnginio e
  | MClientChanged c =>
      wlift (modify (fun m => if decide (client_ptr (enginio m) = Some (clientPtr c))
                              then set_enginio (Some c) m else m)) ;;
      emit_client updatedBefore (clientPtr c) EBackendIdChanged
  | MClientDestroyed client => emit_client updatedBefore client EDestroyed
  | MFinished client resp => emit_client updatedBefore client (EFinished resp)
  | _ => wlift (mhandle updatedBefore ev)
  end.

Fixpoint wrun (updatedBefore : json -> json -> bool) (evs : list MEvent) (w : WModel)
    : option (WModel * list Signal) :=
  match evs with
  | [] => Some (w, [])
  | ev :: evs =>
      match whandle updatedBefore ev w with
      | None => None
      | Some (_, w1, o1) =>
          match wrun updatedBefore evs w1 with
          | Some (w2, o2) => Some (w2, o1 ++ o2)
          | None => None
          end
      end
  end.

(** [~EnginioModelPrivate()] (lines 229-233): every connection to the
    client is broken. *)
Definition destroyModel : WST unit := set_connections [].

(** The connections of a model whose client is [e]. *)
Definition connections_of (e : option ClientRef) : list Connection :=
  match e with Some c => client_connections (clientPtr c) | None => [] end.

Definition wired (m : Model) : WModel := mkWModel m (connections_of (enginio m)).

Definition wired_result {A} (r : option (A * Model * list Signal)) : option (A * WModel * list Signal) :=
  match r with Some (x, m', o) => Some (x, wired m', o) | None => None end.

(** ** The connections are those of the current client *)

Lemma wlift_wired {A} (c : ST A) m :
  keeps_client c -> wlift c (wired m) = wired_result (c m).
Proof.
  intros Hc. pose proof (Hc m (fun _ m' _ => enginio m' = enginio m) (fun _ _ _ E => E)) as H.
  unfold wp in H. unfold wlift, wired_result, wired. simpl.
  destruct (c m) as [[[x m'] o]|]; [rewrite H|]; reflexivity.
Qed.

Lemma mhandle_kc ub ev :
  (forall e, ev <> MSetEnginio e) -> (forall c, ev <> MClientChanged c) ->
  (forall n, ev <> MClientDestroyed n) -> keeps_client (mhandle ub ev).
Proof.
  intros H1 H2 H3. destruct ev; try solve [exfalso; eapply H1; reflexivity | exfalso; eapply H2; reflexivity
    | exfalso; eapply H3; reflexivity]; simpl;
    unfold model_setQuery, model_setOperation, model_append, model_remove, model_setProperty,
      setValue, model_setData, replyFinished.
  all: kc_tac ltac:(first [ apply setQuery_kc | apply setOperation_kc | apply append_kc
                          | apply remove_kc | apply setData_kc | apply fetchMore_kc
                          | apply finishedRequest_kc | apply runSwaps_kc ]).
Qed.

Lemma wlift_at {A} (c : ST A) m cs :
  keeps_client c -> cs = connections_of (enginio m) -> wlift c (mkWModel m cs) = wired_result (c m).
Proof. intros Hc ->. apply wlift_wired, Hc. Qed.

Lemma wlift_modify f w : wlift (modify f) w = Some (tt, mkWModel (f (wmodel w)) (connections w), []).
Proof. reflexivity. Qed.

Lemma wsetEnginio_wired e m : wsetEnginio e (wired m) = wired_result (setEnginio e m).
Proof.
  pose proof (notify_kc (EnginioChangedSignal (client_ptr e)) (set_enginio e m) (fun _ m' _ => enginio m' = e)
                (fun _ _ _ E => E)) as H.
  unfold wp in H. unfold wsetEnginio, setEnginio, wired_result, wired.
  unfold mbind, WST_bind, ST_bind, mret, WST_ret, ST_ret, wbind, bind, wclient, wconnections,
    set_connections, wret, modify, wlift. simpl.
  destruct (enginio m), e; simpl;
    destruct (notify (EnginioChangedSignal _) _) as [[[x m'] o]|]; simpl; rewrite ?H; reflexivity.
Qed.

(** The functor connected to a signal of the current client. *)
Definition slot_of (s : ClientSig) : Slot :=
  match s with
  | Finished => FinishedRequest
  | Destroyed => EnginioDestroyed
  | BackendIdChanged | BackendSecretChanged => QueryChanged
  end.

(** Emitting a signal of a client runs the functor connected to it when
    the client is the model's, and nothing otherwise. *)
Lemma emit_client_wired ub client ev m :
  emit_client ub client ev (wired m) =
  if decide (client_ptr (enginio m) = Some client)
  then match call_slot ub (slot_of (emission_signal ev)) ev (wired m) with
       | Some (x, w, o) => Some (x, w, o ++ [])
       | None => None
       end
  else Some (tt, wired m, []).
Proof.
  unfold emit_client, wired, mbind, WST_bind, wbind, wconnections. destruct (enginio m) as [c|] eqn:Em; simpl.
  - unfold client_connections.
    destruct (decide (clientPtr c = client)) as [<-|Hne];
      [rewrite decide_True by reflexivity | rewrite decide_False by congruence];
      destruct ev; simpl;
      repeat first [ rewrite filter_cons_True by (simpl; intuition congruence)
                   | rewrite filter_cons_False by (simpl; intuition congruence) ].
    all: rewrite ?filter_nil; simpl run_connections; unfold mbind, WST_bind, mret, WST_ret, wbind, wconnections, wret;
      simpl; rewrite ?decide_True by (apply list_elem_of_In; simpl; tauto); simpl.
    all: first [ destruct (wlift _ _) as [[[[] ?] ?]|]
               | destruct (wsetEnginio _ _) as [[[[] ?] ?]|] | idtac ]; reflexivity.
  - destruct ev; reflexivity.
Qed.

Lemma wired_result_app {A} (r : option (A * Model * list Signal)) :
  match wired_result r with Some (x, w, o) => Some (x, w, o ++ []) | None => None end = wired_result r.
Proof. destruct r as [[[x m] o]|]; simpl; rewrite ?app_nil_r; reflexivity. Qed.

Lemma connections_of_ptr e e' : client_ptr e = client_ptr e' -> connections_of e = connections_of e'.
Proof. destruct e, e'; simpl; congruence. Qed.

(** Every event of Model.v, delivered through the connections, does what
    [mhandle] does and leaves the connections of the new client. *)
Lemma whandle_wired ub ev m : whandle ub ev (wired m) = wired_result (mhandle ub ev m).
Proof.
  destruct ev as [e|c|n| | | | | | | |n resp|resp]; simpl whandle;
    try (apply wlift_wired, mhandle_kc; congruence); simpl mhandle.
  - unfold model_setEnginio, mbind, WST_bind, ST_bind, wbind, bind, wclient, gets. simpl.
    destruct (decide _); [reflexivity|]. rewrite wsetEnginio_wired.
    destruct (setEnginio e m) as [[[x m'] o]|]; reflexivity.
  - unfold mbind, WST_bind, wbind. rewrite wlift_modify. unfold ST_bind, bind, gets, modify, ret. simpl wmodel.
    destruct (decide (client_ptr (enginio m) = Some (clientPtr c))) as [E|E].
    + change (connections (wired m)) with (connections_of (enginio m)).
      rewrite (connections_of_ptr (enginio m) (Some c)) by exact E.
      change (mkWModel _ (connections_of (Some c))) with (wired (set_enginio (Some c) m)).
      rewrite emit_client_wired, decide_True by reflexivity. simpl call_slot.
      rewrite wlift_wired by apply execute_kc. rewrite wired_result_app.
      destruct (execute _) as [[[x m'] o]|]; reflexivity.
    + change (mkWModel m (connections (wired m))) with (wired m).
      rewrite emit_client_wired, decide_False by exact E. reflexivity.
  - rewrite emit_client_wired. unfold mbind, ST_bind, bind, gets, ret.
    destruct (decide _); [|reflexivity]. simpl call_slot. rewrite wsetEnginio_wired, wired_result_app.
    destruct (setEnginio None m) as [[[x m'] o]|]; reflexivity.
  - rewrite emit_client_wired. unfold mbind, ST_bind, bind, gets, ret.
    destruct (decide _); [|reflexivity]. simpl call_slot.
    rewrite wlift_wired by apply finishedRequest_kc. rewrite wired_result_app.
    destruct (finishedRequest ub resp m) as [[[x m'] o]|]; reflexivity.
Qed.

(** C19: the signal-slot wiring of the model refines to [mhandle]: from any
    model holding the connections of its client, a run of events in which
    the client's signals reach the model only through the connections
    [setEnginio] made (and broke) gives the same states and signals as the
    run of [mhandle], and after it the connections are again exactly the
    four to the current client, or none without one. *)
Theorem wrun_wired ub evs m :
  wrun ub evs (wired m) =
  match mrun ub evs m with Some (m', o) => Some (wired m', o) | None => None end.
Proof.
  revert m. induction evs as [|ev evs IH]; intros m; simpl; [reflexivity|].
  rewrite whandle_wired. destruct (mhandle ub ev m) as [[[x m1] o1]|]; simpl; [|reflexivity].
  rewrite IH. destruct (mrun ub evs m1) as [[m2 o2]|]; reflexivity.
Qed.

(** After the model's destructor no signal of any client reaches it. *)
Lemma destroyed_model_deaf ub client ev w :
  (destroyModel ;; emit_client ub client ev) w = Some (tt, mkWModel (wmodel w) [], []).
Proof. reflexivity. Qed.
