(* ===== verification/ModelProperties.v ===== *)
(** The properties [EnginioModel] declares for QML and for its users:
    [Q_PROPERTY(EnginioClient *enginio READ enginio WRITE setEnginio NOTIFY
    enginioChanged)] and [Q_PROPERTY(QJsonObject query READ query WRITE
    setQuery NOTIFY queryChanged)] in enginiomodel.h (lines 52-53), and the
    [operation] property documented in enginiomodel.cpp (lines 797-812).
    A property is a record of its READ accessor, its WRITE accessor, the
    comparison the accessor makes before writing, and its NOTIFY signal.
    Qt documents the contract a property keeps for its bindings: writing the
    value it holds changes nothing, and writing another value makes READ
    give it and emits NOTIFY once, carrying the new value.  The record
    [PropertyLaws] states that contract; the [enginio] and [operation]
    properties keep it for every value, and the [query] property keeps it
    exactly for the queries without a [pageSize]: for a paged query the
    value READ gives back is the rewritten query while the NOTIFY signal
    carries the query that was written. *)

From S2P Require Import Prelude.
From stdpp Require Import base gmap strings.
From S2P Require Import Json Model.

Open Scope Z_scope.

Module ModelProperties.

(** ** Properties and their contract *)

(** [Q_PROPERTY(T name READ read WRITE write NOTIFY notify)], with the
    comparison [same] the WRITE accessor makes before changing anything. *)
Record QProperty (V : Type) := mkQProperty {
  prop_read : Model -> V;
  prop_write : V -> ST unit;
  prop_same : V -> V -> bool;
  prop_notify : V -> Signal
}.
Arguments mkQProperty {V}.
Arguments prop_read {V}.
Arguments prop_write {V}.
Arguments prop_same {V}.
Arguments prop_notify {V}.

(** The contract of a property on the values [dom] admits. *)
Record PropertyLaws {V} (dom : V -> Prop) (p : QProperty V) : Prop := {
  write_same : forall v m, prop_same p (prop_read p m) v = true -> prop_write p v m = Some (tt, m, []);
  write_changed : forall v m, dom v -> prop_same p (prop_read p m) v = false ->
    exists m', prop_write p v m = Some (tt, m', [prop_notify p (prop_read p m')]) /\
               prop_same p (prop_read p m') v = true
}.

(** [Q_PROPERTY(EnginioClient *enginio READ enginio WRITE setEnginio NOTIFY
    enginioChanged)]: clients compare as pointers. *)
Definition enginio_property : QProperty (option ClientRef) :=
  mkQProperty model_enginio model_setEnginio
    (fun a b => bool_decide (client_ptr a = client_ptr b))
    (fun e => EnginioChangedSignal (client_ptr e)).

(** [Q_PROPERTY(QJsonObject query READ query WRITE setQuery NOTIFY
    queryChanged)]: objects compare with [QJsonObject::operator==]. *)
Definition query_property : QProperty jobj :=
  mkQProperty model_query model_setQuery (fun a b => json_eqb (JObj a) (JObj b)) QueryChangedSignal.

(** [\property EnginioModel::operation]: [operation()], [setOperation],
    [operationChanged]. *)
Definition operation_property : QProperty Z :=
  mkQProperty model_operation model_setOperation Z.eqb OperationChangedSignal.

(** ** What [execute] leaves *)

(** [execute], run by the [QueryChanged] functor of every NOTIFY signal,
    returns, emits nothing, keeps the client and the operation, and changes
    the query only through [operator[]("limit")] while paging. *)
Lemma execute_frame m :
  exists m', execute m = Some (tt, m', []) /\ enginio m' = enginio m /\ operation m' = operation m /\
    (query m' = query m \/ (canFetchMore m = true /\ query m' = snd (obj_index EnginioString.limit (query m)))).
Proof.
  assert (H : twp execute (fun x m' o => x = tt /\ o = [] /\ enginio m' = enginio m /\ operation m' = operation m /\
    (query m' = query m \/ (canFetchMore m = true /\ query m' = snd (obj_index EnginioString.limit (query m))))) m).
  { unfold execute. twp_tac; simpl; repeat split; auto.
    right. split; [assumption|].
    simpl in Heqp0. rewrite <- Heqj, Heqp0. reflexivity. }
  unfold twp in H. destruct (execute m) as [[[[] m'] o]|]; [|contradiction].
  destruct H as (_ & -> & H). exists m'. auto.
Qed.

Lemma notify_frame s m :
  exists m', notify s m = Some (tt, m', [s]) /\ enginio m' = enginio m /\ operation m' = operation m /\
    (query m' = query m \/ (canFetchMore m = true /\ query m' = snd (obj_index EnginioString.limit (query m)))).
Proof.
  destruct (execute_frame m) as (m' & E & H). exists m'. unfold notify, mbind, ST_bind, bind, emit.
  simpl. rewrite E. auto.
Qed.

(** The state and signals of a write that goes through: the field is set,
    then the NOTIFY signal runs [execute]. *)
Lemma set_then_notify (f : Model -> Model) s m :
  exists m', (modify f ;; notify s) m = Some (tt, m', [s]) /\ enginio m' = enginio (f m) /\
    operation m' = operation (f m) /\
    (query m' = query (f m) \/
     (canFetchMore (f m) = true /\ query m' = snd (obj_index EnginioString.limit (query (f m))))).
Proof.
  destruct (notify_frame s (f m)) as (m' & E & H). exists m'.
  unfold mbind, ST_bind, bind, modify. rewrite E. auto.
Qed.

Ltac write_tac := unfold mbind, ST_bind, bind, gets, ret; cbn -[setEnginio setQuery setOperation json_eqb].

(** The [enginio] property keeps Qt's contract for every client:
    setting the client it holds (as a pointer) does nothing, and setting
    another one makes [enginio()] return it and emits [enginioChanged] once,
    with the new client. *)
Theorem enginio_property_laws : PropertyLaws (fun _ => True) enginio_property.
Proof.
  split; cbn [prop_read prop_write prop_same prop_notify enginio_property].
  - intros v m H%bool_decide_eq_true. unfold model_setEnginio, model_enginio in *. write_tac.
    rewrite decide_True by exact H. reflexivity.
  - intros v m _ H%bool_decide_eq_false. unfold model_setEnginio, model_enginio in *. write_tac.
    rewrite decide_False by exact H.
    destruct (set_then_notify (set_enginio v) (EnginioChangedSignal (client_ptr v)) m) as (m' & E & He & _).
    exists m'. unfold setEnginio. rewrite E, He. split; [reflexivity | apply bool_decide_eq_true; reflexivity].
Qed.

(** The [operation] property keeps Qt's contract for every operation. *)
Theorem operation_property_laws : PropertyLaws (fun _ => True) operation_property.
Proof.
  split; cbn [prop_read prop_write prop_same prop_notify operation_property].
  - intros v m H. unfold model_setOperation, model_operation in *. write_tac.
    rewrite Z.eqb_sym, H. reflexivity.
  - intros v m _ H. unfold model_setOperation, model_operation in *. write_tac.
    rewrite Z.eqb_sym, H.
    destruct (set_then_notify (set_operation v) (OperationChangedSignal v) m) as (m' & E & _ & Ho & _).
    exists m'. unfold setOperation. rewrite E, Ho. split; [reflexivity | apply Z.eqb_refl].
Qed.

Lemma twp_notify s Q m :
  (forall m', enginio m' = enginio m -> operation m' = operation m ->
     (query m' = query m \/ (canFetchMore m = true /\ query m' = snd (obj_index EnginioString.limit (query m)))) ->
     Q tt m' [s]) ->
  twp (notify s) Q m.
Proof. intros H. destruct (notify_frame s m) as (m' & E & H1 & H2 & H3). unfold twp. rewrite E. auto. Qed.

Lemma obj_index_contains k o : obj_contains k (snd (obj_index k o)) = true.
Proof.
  unfold obj_index. destruct (obj_contains k o) eqn:E; [exact E|]. simpl.
  rewrite obj_contains_insert, String.eqb_refl. reflexivity.
Qed.

(** [setQuery] of a query with a [pageSize] leaves a query holding a
    [limit], and [queryChanged] is its last signal. *)
Lemma setQuery_paged_limit q m :
  obj_contains EnginioString.pageSize q = true ->
  twp (setQuery q) (fun _ m' o => obj_contains EnginioString.limit (query m') = true /\
                                  last o = Some (QueryChangedSignal q)) m.
Proof.
  intros Hp. unfold setQuery. rewrite Hp.
  twp_tac; apply twp_notify; intros m' _ _ Hq.
  all: split; [|rewrite <- ?app_assoc; reflexivity].
  all: destruct Hq as [->|[_ ->]]; simpl;
    rewrite ?obj_index_contains, ?obj_contains_insert, ?String.eqb_refl; reflexivity.
Qed.

Lemma json_eqb_obj_refl o : json_eqb (JObj o) (JObj o) = true.
Proof. apply json_eqb_spec. reflexivity. Qed.

Lemma query_property_unpaged : PropertyLaws (fun q => obj_contains EnginioString.pageSize q = false) query_property.
Proof.
  split; cbn [prop_read prop_write prop_same prop_notify query_property].
  - intros v m H. unfold model_setQuery, model_query in *. write_tac. rewrite H. reflexivity.
  - intros v m Hd H. unfold model_setQuery, model_query in *. write_tac. rewrite H.
    unfold setQuery. rewrite Hd.
    destruct (notify_frame (QueryChangedSignal v) (set_canFetchMore false (set_query v m))) as (m' & E & _ & _ & Hq).
    exists m'. unfold mbind, ST_bind, bind, modify. rewrite E.
    destruct Hq as [Hq|[Hc _]]; [|discriminate]. rewrite Hq. split; [reflexivity | apply json_eqb_obj_refl].
Qed.

(** The WRITE of a paged query without a [limit] that differs from the held
    one: [queryChanged] carries the query written, and [query()] then holds
    another object (the written one with a [limit]). *)
Lemma query_property_paged_write q m :
  obj_contains EnginioString.pageSize q = true -> obj_contains EnginioString.limit q = false ->
  json_eqb (JObj (query m)) (JObj q) = false ->
  exists m' o, model_setQuery q m = Some (tt, m', o) /\ last o = Some (QueryChangedSignal q) /\
    obj_contains EnginioString.limit (query m') = true /\ query m' <> q.
Proof.
  intros Hp Hl Hne. pose proof (setQuery_paged_limit q m Hp) as H. unfold twp in H.
  unfold model_setQuery. write_tac. rewrite Hne.
  destruct (setQuery q m) as [[[[] m'] o]|]; [|contradiction]. destruct H as [H1 H2].
  exists m', o. repeat split; [assumption | assumption|]. intros E. rewrite E, Hl in H1. discriminate.
Qed.

(** C28: the [query] property keeps Qt's contract exactly on the queries
    without a [pageSize].  Writing a paged query without a [limit] breaks it:
    [query()] then returns the query rewritten with a [limit], while the
    [queryChanged] signal of the write carries the query as written, so a
    binding that compares the notified value with [query()] sees them
    differ. *)
Theorem query_property_contract q m :
  PropertyLaws (fun q => obj_contains EnginioString.pageSize q = false) query_property /\
  (obj_contains EnginioString.pageSize q = true -> obj_contains EnginioString.limit q = false ->
   json_eqb (JObj (model_query m)) (JObj q) = false ->
   exists m' o, prop_write query_property q m = Some (tt, m', o) /\
     last o = Some (QueryChangedSignal q) /\ prop_read query_property m' <> q /\
     prop_notify query_property (prop_read query_property m') <> QueryChangedSignal q).
Proof.
  split; [exact query_property_unpaged|]. intros Hp Hl Hne.
  destruct (query_property_paged_write q m Hp Hl Hne) as (m' & o & E & Hlast & _ & Hq).
  exists m', o. cbn [prop_read prop_write prop_notify query_property]. unfold model_query.
  repeat split; [assumption | assumption | assumption |]. intros [= E']. exact (Hq E').
Qed.

(** So the [query] property does not keep the contract on every value. *)
Corollary query_property_not_lawful : ~ PropertyLaws (fun _ => True) query_property.
Proof.
  intros [_ Hc]. set (q := [(EnginioString.pageSize, JNum 10)]).
  destruct (Hc q initialModel I eq_refl) as (m' & E & Hs).
  destruct (query_property_paged_write q initialModel eq_refl eq_refl eq_refl) as (m'' & o & E' & _ & Hl & Hq).
  cbn [prop_write query_property] in E. rewrite E' in E. injection E as <- _.
  apply Hq. cbn [prop_same prop_read query_property model_query] in Hs. apply json_eqb_spec in Hs. unfold model_query in Hs. injection Hs as Hs. exact Hs.
Qed.

(** C20: the properties of the model keep Qt's contract: the [enginio] and
    [operation] properties on every value, the [query] property on every
    query without a [pageSize]. *)
Theorem model_property_laws :
  PropertyLaws (fun _ => True) enginio_property /\ PropertyLaws (fun _ => True) operation_property /\
  PropertyLaws (fun q => obj_contains EnginioString.pageSize q = false) query_property.
Proof. split; [|split]; [apply enginio_property_laws | apply operation_property_laws | apply query_property_unpaged]. Qed.

End ModelProperties.

Module PropertyWitnesses.
Import ModelProperties.

Definition paged : jobj := [(EnginioString.pageSize, JNum 10)].

Lemma query_property_contract_witness :
  obj_contains EnginioString.pageSize paged = true /\ obj_contains EnginioString.limit paged = false /\
  json_eqb (JObj (model_query initialModel)) (JObj paged) = false /\
  exists m' o, prop_write query_property paged initialModel = Some (tt, m', o) /\
    last o = Some (QueryChangedSignal paged) /\ prop_read query_property m' <> paged /\
    prop_notify query_property (prop_read query_property m') <> QueryChangedSignal paged.
Proof.
  do 3 (split; [reflexivity|]).
  apply (proj2 (query_property_contract paged initialModel)); reflexivity.
Defined.

End PropertyWitnesses.
