(* ===== verification/Identity.v ===== *)
(** [EnginioAuthentication] (enginioidentity.cpp): the identity an
    [EnginioClient] uses to log in with a user name and a password.  The
    private fields [_user], [_pass] and [_token] and the [_enginio] pointer of
    [EnginioIdentity] form the record [Auth], together with the identify
    requests sent through the client and the replies a
    [SessionSetterFunctor] is connected to.  Methods are functions returning
    the new state and the signals emitted; [None] is undefined behaviour (the
    identify request through a null client).  [QJsonDocument::fromJson(...).object()]
    is a section variable, instantiated with the model of Qt's parser in
    [Messages].  The calls and the
    [finished] signals of the identify replies are the events [AEvent] of a
    reachability relation [areachable], whose states keep [auth_inv]. *)

From S2P Require Import Prelude Bytes Json.
From stdpp Require Import base strings.
From Stdlib Require Strings.String.

Open Scope Z_scope.

Module Identity.

(** The signals of [EnginioAuthentication]. *)
Inductive ASignal :=
| UserChanged (s : string)
| SessionTokenReceived (token : list Z).

Record Auth := mkAuth {
  _user : string;                    (** [d_ptr->_user] *)
  _pass : string;                    (** [d_ptr->_pass] *)
  _token : list Z;                   (** [d_ptr->_token] *)
  _enginio : option nat;             (** [EnginioIdentity::_enginio] *)
  nextReply : nat;                   (** the next reply number of the client *)
  identifies : list (nat * jobj);    (** [EnginioClientPrivate::identify] requests *)
  setters : list nat                 (** replies a [SessionSetterFunctor] waits on *)
}.

(** The constructor (lines 100-104), with the client's pointer. *)
Definition initialAuth (client : option nat) : Auth := mkAuth String.EmptyString String.EmptyString [] client 0 [] [].

Definition set_user (u : string) (a : Auth) : Auth :=
  mkAuth u (_pass a) (_token a) (_enginio a) (nextReply a) (identifies a) (setters a).
Definition set_pass (p : string) (a : Auth) : Auth :=
  mkAuth (_user a) p (_token a) (_enginio a) (nextReply a) (identifies a) (setters a).
Definition set_token (t : list Z) (a : Auth) : Auth :=
  mkAuth (_user a) (_pass a) t (_enginio a) (nextReply a) (identifies a) (setters a).
Definition set_setters (l : list nat) (a : Auth) : Auth :=
  mkAuth (_user a) (_pass a) (_token a) (_enginio a) (nextReply a) (identifies a) l.

(** [void setUser(const QString &user)] *)
Definition setUser (user : string) (a : Auth) : Auth * list ASignal :=
  if String.eqb (_user a) user then (a, []) else (set_user user a, [UserChanged user]).

(** [void setPassword(const QString &password)] *)
Definition setPassword (password : string) (a : Auth) : Auth * list ASignal :=
  if String.eqb (_pass a) password then (a, []) else (set_pass password a, [UserChanged password]).

(** [QString user() const] and [QString password() const] *)
Definition user (a : Auth) : string := _user a.
Definition password (a : Auth) : string := _pass a.

(** [IdentifyFunctor::operator()]: the request [{username, password}] and the
    connection of a [SessionSetterFunctor] to its reply. *)
Definition identify (a : Auth) : option (Auth * list ASignal) :=
  match _enginio a with
  | None => None
  | Some _ =>
      let data := obj_insert "password" (JStr (_pass a)) (obj_insert "username" (JStr (_user a)) []) in
      Some (mkAuth (_user a) (_pass a) (_token a) (_enginio a) (S (nextReply a))
              (identifies a ++ [(nextReply a, data)]) (setters a ++ [nextReply a]), [])
  end.

(** [void prepareSessionToken()] *)
Definition prepareSessionToken (a : Auth) : option (Auth * list ASignal) := identify a.

(** [EnginioIdentity], the base class the client holds an identity by: its
    virtual [prepareSessionToken()], which [EnginioAuthentication]
    overrides. *)
Class EnginioIdentity (S : Type) := {
  identity_prepareSessionToken : S -> option (S * list ASignal)
}.

(** [void EnginioIdentity::prepareSessionToken()]: by default there is
    nothing to do. *)
Definition base_prepareSessionToken (s : unit) : option (unit * list ASignal) := Some (s, []).

#[export] Instance base_identity : EnginioIdentity unit := {
  identity_prepareSessionToken := base_prepareSessionToken
}.

#[export] Instance authentication_identity : EnginioIdentity Auth := {
  identity_prepareSessionToken := prepareSessionToken
}.

Section Session.

(** [QJsonDocument::fromJson(data).object()]: an empty object when [data] is
    not a JSON object. *)
Variable parseObject : list Z -> jobj.

(** [SessionSetterFunctor::operator()] on the reply [k] with body [b]
    ([reply->readAll()]); [toLatin1] of an ASCII string is its bytes. *)
Definition sessionSetter (k : nat) (b : list Z) (a : Auth) : Auth * list ASignal :=
  let a := set_token b a in
  let message := parseObject b in
  let token := bytes_of_string (toString (obj_value "sessionToken" message)) in
  let a := set_token token a in
  (set_setters (List.filter (fun k' => negb (Nat.eqb k' k)) (setters a)) a, [SessionTokenReceived token]).

(** [QNetworkReply::finished] of reply [k]: the functor connected to it runs
    once. *)
Definition setterFinished (k : nat) (b : list Z) (a : Auth) : Auth * list ASignal :=
  if existsb (Nat.eqb k) (setters a) then sessionSetter k b a else (a, []).

(** [QByteArray sessionToken()]: with no token, [prepareSessionToken] and a
    nested [QEventLoop] until [sessionTokenReceived]; the loop is taken to
    deliver the [finished] of the reply just requested, with body [b]. *)
Definition sessionToken (b : list Z) (a : Auth) : option (list Z * Auth * list ASignal) :=
  match _token a with
  | [] =>
      match prepareSessionToken a with
      | None => None
      | Some (a1, o1) =>
          let '(a2, o2) := setterFinished (nextReply a) b a1 in
          Some (_token a2, a2, o1 ++ o2)
      end
  | _ :: _ => Some (_token a, a, [])
  end.

(** The reply [k] is waited on, and the session token its body carries. *)
Definition token_of (b : list Z) : list Z :=
  bytes_of_string (toString (obj_value "sessionToken" (parseObject b))).

(** The calls on an [EnginioAuthentication] and the [finished] signals of
    the replies it waits on; [ASessionToken] is a call of [sessionToken()]
    whose nested event loop delivers the body [b]. *)
Inductive AEvent :=
| ASetUser (u : string)
| ASetPassword (p : string)
| APrepare
| AFinished (k : nat) (b : list Z)
| ASessionToken (b : list Z).

Definition ahandle (ev : AEvent) (a : Auth) : option (Auth * list ASignal) :=
  match ev with
  | ASetUser u => Some (setUser u a)
  | ASetPassword p => Some (setPassword p a)
  | APrepare => prepareSessionToken a
  | AFinished k b => Some (setterFinished k b a)
  | ASessionToken b =>
      match sessionToken b a with Some (_, a', o) => Some (a', o) | None => None end
  end.

(** The states an identity reaches from its construction. *)
Inductive areachable : Auth -> Prop :=
| areach_init client : areachable (initialAuth client)
| areach_step a ev a' o : areachable a -> ahandle ev a = Some (a', o) -> areachable a'.

(** The token is a byte array, the functors wait on distinct identify
    replies, and every identify request has a reply number handed out. *)
Definition auth_inv (a : Auth) : Prop :=
  bytes_ok (_token a) = true /\ NoDup (setters a) /\
  (forall k, In k (setters a) -> exists d, In (k, d) (identifies a)) /\
  (forall k d, In (k, d) (identifies a) -> (k < nextReply a)%nat).

Lemma replyFinished_waited k b a :
  In k (setters a) ->
  setterFinished k b a =
    (set_setters (List.filter (fun k' => negb (Nat.eqb k' k)) (setters a)) (set_token (token_of b) a),
     [SessionTokenReceived (token_of b)]).
Proof.
  intros Hin. unfold setterFinished. replace (existsb (Nat.eqb k) (setters a)) with true.
  - reflexivity.
  - symmetry. apply existsb_exists. exists k. split; [exact Hin | apply Nat.eqb_refl].
Qed.

Lemma filter_removes (l : list nat) k : ~ In k (List.filter (fun k' => negb (Nat.eqb k' k)) l).
Proof.
  intros Hin. apply filter_In in Hin as [_ H]. rewrite Nat.eqb_refl in H. discriminate.
Qed.

(** When the reply of an identify request finishes, the token becomes the
    Latin-1 bytes of the reply's [sessionToken] string, the raw body
    assigned first is overwritten, [sessionTokenReceived] carries the token,
    and the functor does not run again; a body without a [sessionToken]
    string leaves an empty token, which is still announced. *)
Theorem session_token_from_reply k b a :
  In k (setters a) ->
  let '(a', o) := setterFinished k b a in
  _token a' = token_of b /\ o = [SessionTokenReceived (token_of b)] /\ ~ In k (setters a') /\
  _user a' = _user a /\ _pass a' = _pass a /\
  (forall t, obj_value "sessionToken" (parseObject b) = JStr t -> _token a' = bytes_of_string t) /\
  ((forall t, obj_value "sessionToken" (parseObject b) <> JStr t) -> _token a' = []).
Proof.
  intros Hin. rewrite (replyFinished_waited k b a Hin). cbn.
  repeat split; try reflexivity.
  - apply filter_removes.
  - intros t Ht. unfold token_of. rewrite Ht. reflexivity.
  - intros Hnot. unfold token_of. destruct (obj_value "sessionToken" (parseObject b)); try reflexivity.
    exfalso. eapply Hnot. reflexivity.
Qed.

(** C34: [sessionToken] returns a token it holds without a request; with none
    and a client set, it sends exactly one identify request with the user
    name and password and returns the token of the reply, so a reply without
    a session token gives an empty result and the next call asks again. *)
Theorem sessionToken_spec b a c :
  _enginio a = Some c ->
  match sessionToken b a with
  | Some (t, a', o) =>
      match _token a with
      | [] =>
          identifies a' = identifies a ++
            [(nextReply a, [("password", JStr (_pass a)); ("username", JStr (_user a))])] /\
          t = token_of b /\ _token a' = t /\ o = [SessionTokenReceived t] /\
          ~ In (nextReply a) (setters a') /\ nextReply a' = S (nextReply a)
      | _ :: _ => t = _token a /\ a' = a /\ o = []
      end
  | None => False
  end.
Proof.
  intros Hc. unfold sessionToken, prepareSessionToken, identify. rewrite Hc.
  destruct (_token a) as [|x l] eqn:Et; [|repeat split].
  rewrite replyFinished_waited by (apply in_or_app; right; left; reflexivity).
  cbn. repeat split. apply filter_removes.
Qed.

(** ** The invariant *)

Lemma auth_inv_identify a a' o : auth_inv a -> identify a = Some (a', o) -> auth_inv a'.
Proof.
  intros (Hb & Hnd & Hs & Hi) E. unfold identify in E. destruct (_enginio a); inv E.
  split; [exact Hb|]. split; [|split].
  - simpl. apply NoDup_app. split; [exact Hnd|]. split; [|apply NoDup_singleton].
    intros k Hk Hin. apply list_elem_of_singleton in Hin. subst k.
    apply list_elem_of_In in Hk. destruct (Hs _ Hk) as [d Hd]. apply Hi in Hd. lia.
  - intros k Hk. simpl in Hk. apply in_app_or in Hk as [Hk|[<-|[]]].
    + destruct (Hs _ Hk) as [d Hd]. exists d. apply in_or_app. left. exact Hd.
    + eexists. apply in_or_app. right. left. reflexivity.
  - intros k d Hk. simpl in Hk. apply in_app_or in Hk as [Hk|[E|[]]].
    + apply Hi in Hk. simpl. lia.
    + inv E. simpl. lia.
Qed.

Lemma auth_inv_setterFinished k b a : auth_inv a -> auth_inv (setterFinished k b a).1.
Proof.
  intros Hinv. unfold setterFinished. destruct (existsb (Nat.eqb k) (setters a)); [|exact Hinv].
  destruct Hinv as (_ & Hnd & Hs & Hi). split; [apply bytes_of_string_ok|]. split; [|split].
  - simpl. apply NoDup_ListNoDup, List.NoDup_filter, NoDup_ListNoDup, Hnd.
  - intros k' Hk'. apply filter_In in Hk' as [Hk' _]. apply Hs, Hk'.
  - exact Hi.
Qed.

Lemma auth_inv_step ev a a' o : auth_inv a -> ahandle ev a = Some (a', o) -> auth_inv a'.
Proof.
  intros Hinv E. destruct ev as [u|p| |k b|b]; simpl in E.
  - unfold setUser in E. destruct (String.eqb (_user a) u); inv E; [exact Hinv|].
    destruct Hinv as (? & ? & ? & ?). split; auto.
  - unfold setPassword in E. destruct (String.eqb (_pass a) p); inv E; [exact Hinv|].
    destruct Hinv as (? & ? & ? & ?). split; auto.
  - exact (auth_inv_identify a a' o Hinv E).
  - injection E as E. pose proof (auth_inv_setterFinished k b a Hinv) as H. rewrite E in H. exact H.
  - unfold sessionToken in E. destruct (_token a); [|inv E; exact Hinv].
    destruct (prepareSessionToken a) as [[a1 o1]|] eqn:E1; [|discriminate].
    destruct (setterFinished (nextReply a) b a1) as [a2 o2] eqn:E2. inv E.
    pose proof (auth_inv_setterFinished (nextReply a) b a1 (auth_inv_identify a a1 o1 Hinv E1)) as H.
    rewrite E2 in H. exact H.
Qed.

(** In every state an [EnginioAuthentication] reaches, whatever the
    replies contain, the session token is a byte array ([QByteArray]), each
    identify reply has at most one [SessionSetterFunctor] waiting on it, and
    the functors wait only on identify requests the identity has sent, each
    under a reply number handed out. *)
Lemma auth_reachable_inv a :
  areachable a ->
  bytes_ok (_token a) = true /\ NoDup (setters a) /\
  (forall k, In k (setters a) -> exists d, In (k, d) (identifies a)) /\
  (forall k d, In (k, d) (identifies a) -> (k < nextReply a)%nat).
Proof.
  induction 1 as [client|a ev a' o _ IH E].
  - split; [reflexivity|]. split; [constructor|]. split; [intros k []|intros k d []].
  - exact (auth_inv_step ev a a' o IH E).
Qed.

End Session.

(** [setPassword] announces the new password with [userChanged], the
    signal of the user name: after setting a new user and a new password,
    the last [userChanged] carries the password while [user()] is the user. *)
Theorem password_reported_as_user u p a :
  _user a <> u -> _pass a <> p ->
  let '(a1, o1) := setUser u a in
  let '(a2, o2) := setPassword p a1 in
  user a2 = u /\ password a2 = p /\ o1 ++ o2 = [UserChanged u; UserChanged p].
Proof.
  intros Hu Hp. unfold setUser, setPassword.
  rewrite (proj2 (String.eqb_neq _ _) Hu). cbn. rewrite (proj2 (String.eqb_neq _ _) Hp). cbn.
  repeat split.
Qed.

End Identity.

(** Concrete applications of the theorems above. *)
Module IdentityWitnesses.
Import Identity.
Local Open Scope nat_scope.

(** A reply body whose parse carries a session token, and one whose parse
    does not ([{"error": ...}]). *)
Definition ok_body : list Z := bytes_of_string "ok".
Definition parse_ok (b : list Z) : jobj :=
  if decide (b = ok_body) then [("sessionToken", JStr "tok")] else [("error", JStr "denied")].

Definition logged_in : Auth := mkAuth "alice" "pw" [] (Some 1%nat) 4%nat [] [].
Definition requested : Auth := fst (default (logged_in, []) (identify logged_in)).

Lemma session_token_from_reply_witness :
  In 4 (setters requested) /\
  (let '(a', o) := setterFinished parse_ok 4 ok_body requested in
   _token a' = token_of parse_ok ok_body /\ o = [SessionTokenReceived (token_of parse_ok ok_body)] /\
   ~ In 4 (setters a') /\ _user a' = "alice" /\ _pass a' = "pw" /\
   (forall t, obj_value "sessionToken" (parse_ok ok_body) = JStr t -> _token a' = bytes_of_string t) /\
   ((forall t, obj_value "sessionToken" (parse_ok ok_body) <> JStr t) -> _token a' = [])).
Proof.
  split; [vm_compute; left; reflexivity|].
  exact (session_token_from_reply parse_ok 4 ok_body requested ltac:(vm_compute; left; reflexivity)).
Defined.

Lemma sessionToken_spec_witness :
  _enginio logged_in = Some 1%nat /\
  match sessionToken parse_ok ok_body logged_in with
  | Some (t, a', o) =>
      identifies a' = [(4, [("password", JStr "pw"); ("username", JStr "alice")])] /\
      t = bytes_of_string "tok" /\ _token a' = t /\ o = [SessionTokenReceived t] /\
      ~ In 4 (setters a') /\ nextReply a' = 5
  | None => False
  end.
Proof.
  split; [reflexivity|].
  exact (sessionToken_spec parse_ok ok_body logged_in 1%nat eq_refl).
Defined.

Lemma password_reported_as_user_witness :
  "alice" <> "bob" /\ "pw" <> "secret" /\
  (let '(a1, o1) := setUser "bob" logged_in in
   let '(a2, o2) := setPassword "secret" a1 in
   _user a2 = "bob" /\ _pass a2 = "secret" /\ o1 ++ o2 = [UserChanged "bob"; UserChanged "secret"]).
Proof.
  split; [discriminate|split; [discriminate|]].
  exact (password_reported_as_user "bob" "secret" logged_in ltac:(discriminate) ltac:(discriminate)).
Defined.

End IdentityWitnesses.
