(* ===== verification/ObjectOperation.v ===== *)
(** The declarations of enginioobjectoperation_p.h: the enumeration
    [Enginio::ObjectOperationType] with the values C++ gives its
    enumerators, and the data members of [EnginioObjectOperationPrivate].
    The methods the class declares ([requestPath], [doRequest],
    [handleResults]) are defined outside the repository's sources, so only
    the data is modelled: the enumeration with its integer values, decidable
    equality and an encoding into the integers that [static_cast] inverts. *)

From S2P Require Import Prelude.
From stdpp Require Import base countable strings.

Open Scope Z_scope.

Module ObjectOperation.

(** [enum ObjectOperationType { NullObjectOperation = 0, CreateObjectOperation,
    ReadObjectOperation, UpdateObjectOperation, RemoveObjectOperation }] *)
Inductive ObjectOperationType :=
| NullObjectOperation
| CreateObjectOperation
| ReadObjectOperation
| UpdateObjectOperation
| RemoveObjectOperation.

(** The value of each enumerator: [0] for the first, then one more than the
    previous. *)
Definition operation_type_value (t : ObjectOperationType) : Z :=
  match t with
  | NullObjectOperation => 0
  | CreateObjectOperation => 1
  | ReadObjectOperation => 2
  | UpdateObjectOperation => 3
  | RemoveObjectOperation => 4
  end.

(** [static_cast<Enginio::ObjectOperationType>(n)] on the values of the
    enumeration. *)
Definition operation_type_of_value (n : Z) : option ObjectOperationType :=
  if n =? 0 then Some NullObjectOperation
  else if n =? 1 then Some CreateObjectOperation
  else if n =? 2 then Some ReadObjectOperation
  else if n =? 3 then Some UpdateObjectOperation
  else if n =? 4 then Some RemoveObjectOperation
  else None.

(** The data members of [EnginioObjectOperationPrivate]; pointers are
    object numbers, [QPointer<EnginioObjectModel>] is null ([None]) once
    the model is destroyed, and a [QModelIndex] is a row and a column. *)
Record EnginioObjectOperationPrivate := mkObjectOperationPrivate {
  m_type : ObjectOperationType;
  m_object : option nat;
  m_objectId : string;
  m_objectType : string;
  m_objectOwned : bool;
  m_model : option nat;
  m_modelIndex : option (Z * Z)
}.

#[export] Instance ObjectOperationType_eq_dec : EqDecision ObjectOperationType.
Proof. solve_decision. Defined.

Lemma operation_type_value_inv t : operation_type_of_value (operation_type_value t) = Some t.
Proof. destruct t; reflexivity. Qed.

Lemma operation_type_value_range t : 0 <= operation_type_value t <= 4.
Proof. destruct t; simpl; lia. Qed.

#[export] Instance ObjectOperationType_countable : Countable ObjectOperationType.
Proof.
  apply (inj_countable operation_type_value operation_type_of_value).
  apply operation_type_value_inv.
Defined.

(** The enumerators are told apart by their values. *)
Lemma operation_type_value_inj t t' : operation_type_value t = operation_type_value t' -> t = t'.
Proof.
  intros E. apply (f_equal operation_type_of_value) in E.
  rewrite !operation_type_value_inv in E. congruence.
Qed.

End ObjectOperation.
