(* ===== verification/Messages.v ===== *)
(** The JSON messages at the edges of the client: the objects
    [EnginioBackendConnection] emits with [dataReceived] for the text
    messages its decoder reassembles ([QJsonDocument::fromJson] on the
    message's bytes, enginiobackendconnection.cpp line 294) and the session token
    [EnginioAuthentication] reads from an identify reply
    (enginioidentity.cpp line 67).  The decoder ([Decoder], [Frames]), the
    identity ([Identity]) and the JSON text ([JsonText]) are composed here:
    the theorems follow an object from the bytes of a frame, split in any
    way across socket reads, to the collaborator that receives it. *)

From S2P Require Import Prelude Bytes Json JsonText Handshake Decoder Frames Connection Identity.
From stdpp Require Import base strings.
From Stdlib Require Strings.String.

Open Scope Z_scope.

Import Loop Chunking Identity.

Module Messages.

(** [emit dataReceived(QJsonDocument::fromJson(_applicationData).object())]:
    the object carried by the signal for a text message [p]; [None] where
    the parser's answer is outside the model. *)
Definition dataReceivedObject (p : list Z) : option jobj := documentObject (fromJson p).

(** The objects the receivers of [dataReceived] get from a run of the
    decoder, in order. *)
Definition received (os : list Output) : list (option jobj) :=
  flat_map (fun o => match o with DataReceived p => [dataReceivedObject p] | _ => [] end) os.

(** [QJsonDocument::fromJson(data).object()] in the [SessionSetterFunctor],
    as the identity's parameter; a document the model does not represent
    gives the empty object. *)
Definition sessionObject (b : list Z) : jobj :=
  match documentObject (fromJson b) with Some o => o | None => [] end.

(** The text frame carrying a whole message. *)
Definition text_frame (p : list Z) : Frame := mkFrame true TextFrameOp p.

(** ** Lemmas *)

Lemma at_frame_boundary_decoding c : at_frame_boundary c = true -> decodingb c = true.
Proof.
  intros (Ho & Hs & _)%boundary_spec. unfold decodingb. rewrite Ho, Hs. reflexivity.
Qed.

Lemma toJson_nonempty o : toJson o <> [].
Proof. discriminate. Qed.

(** The text frames of a stream of objects. *)
Definition json_frames (os : list jobj) : list Frame := map (fun o => text_frame (toJson o)) os.

Lemma messages_json_frames os :
  messages [] (json_frames os) = (map (fun o => DataReceived (toJson o)) os, MOpen []).
Proof. induction os as [|o os IH]; [reflexivity|]. simpl. rewrite IH. reflexivity. Qed.

Lemma json_frames_ok os :
  Forall (fun o => Z.of_nat (length (toJson o)) < 65536) os -> forallb frame_ok (json_frames os) = true.
Proof.
  induction 1 as [|o os Ho _ IH]; [reflexivity|]. simpl. rewrite IH, andb_true_r.
  unfold frame_ok, text_frame. cbn [fr_opcode fr_payload].
  rewrite (valueToJson_bytes (JObj o) : bytes_ok (toJson o) = true), (proj2 (Z.ltb_lt _ _) Ho). reflexivity.
Qed.

Lemma json_frames_last os : last_payload_nonempty (json_frames os) = true.
Proof.
  induction os as [|o [|o' os] IH]; [reflexivity | reflexivity|]. exact IH.
Qed.

Lemma received_json os :
  Forall (fun o => document_ok o = true) os -> received (map (fun o => DataReceived (toJson o)) os) = map Some os.
Proof.
  induction 1 as [|o os Ho _ IH]; [reflexivity|]. simpl. unfold dataReceivedObject.
  rewrite fromJson_toJson_ok by exact Ho. simpl. f_equal. exact IH.
Qed.

Lemma received_app os1 os2 : received (os1 ++ os2) = received os1 ++ received os2.
Proof. apply flat_map_app. Qed.

(** ** Composition *)

(** C3: a stream of well-formed objects nested at most 1024 deep, each
    written as JSON text and sent as one text frame, their bytes split in
    any way across the socket reads, reaches the receivers of [dataReceived] as the same objects, in
    order, each exactly once; the decoder ends between frames with nothing
    buffered. *)
Theorem json_message_chunks c os d ds :
  at_frame_boundary c = true -> rx (tcpSocket c) = [] -> applicationData c = [] ->
  Forall (fun o => document_ok o = true /\ Z.of_nat (length (toJson o)) < 65536) os ->
  d ++ concat ds = concat (map (fun o => encode_frame (text_frame (toJson o))) os) ->
  let '(c', out) := deliver_chunks (d :: ds) c in
  out = map (fun o => DataReceived (toJson o)) os /\ received out = map Some os /\
  rx (tcpSocket c') = [] /\ at_frame_boundary c' = true.
Proof.
  intros Hb Hrx Had Hos Hd.
  rewrite deliver_chunks_concat, Hd by (apply at_frame_boundary_decoding, Hb).
  replace (concat (map (fun o => encode_frame (text_frame (toJson o))) os))
    with (concat (map encode_frame (json_frames os))) by (unfold json_frames; rewrite map_map; reflexivity).
  pose proof (frames_refine c (json_frames os) Hb Hrx
                (json_frames_ok os (Forall_impl _ _ _ Hos (fun o H => proj2 H))) (json_frames_last os)) as H.
  destruct (deliver _ c) as [c' out]. rewrite Had, messages_json_frames in H. simpl in H.
  destruct H as (-> & Hs & Hrx' & Hbd). split; [reflexivity|]. split.
  - apply received_json. eapply Forall_impl; [exact Hos | intros o [Hw _]; exact Hw].
  - split; [exact Hrx'|]. apply Hbd. unfold msg_state in Hs. destruct (sock_open _); [reflexivity | discriminate].
Qed.

(** C11: a text message that is not a JSON document (its first byte, after
    a byte order mark and blanks, opens neither an object nor an array)
    reaches the receivers of [dataReceived] as the empty object: the same
    signal as for the message [{}], so the receivers cannot tell a
    malformed message from an empty one. *)
Theorem invalid_json_message_empty c p :
  at_frame_boundary c = true -> rx (tcpSocket c) = [] -> applicationData c = [] ->
  bytes_ok p = true -> p <> [] -> Z.of_nat (length p) < 65536 ->
  match eatSpace (eatBOM p) with x :: _ => x <> 91 /\ x <> 123 | [] => True end ->
  received (snd (deliver (encode_frame (text_frame p)) c)) = [Some []] /\
  received (snd (deliver (encode_frame (text_frame (toJson []))) c)) = [Some []].
Proof.
  intros Hb Hrx Had Hp Hne Hlen Hdoc. unfold text_frame.
  rewrite (text_frame_roundtrip c p Hb Hrx Hp Hne Hlen),
    (text_frame_roundtrip c (toJson []) Hb Hrx eq_refl (toJson_nonempty []) eq_refl), Had.
  simpl. unfold dataReceivedObject. rewrite fromJson_not_document by exact Hdoc. split; reflexivity.
Qed.

(** C35: the identity reads its session token from a reply whose body is a
    well-formed JSON object nested at most 1024 deep: the token is the [sessionToken] string of the
    object, and the same token is signalled; a body that is not a JSON
    document leaves an empty token and signals it. *)
Theorem session_token_json k o t b a :
  In k (setters a) ->
  document_ok o = true -> obj_value "sessionToken" o = JStr t ->
  match eatSpace (eatBOM b) with x :: _ => x <> 91 /\ x <> 123 | [] => True end ->
  setterFinished sessionObject k (toJson o) a =
    (set_setters (List.filter (fun k' => negb (Nat.eqb k' k)) (setters a))
       (set_token (bytes_of_string t) a), [SessionTokenReceived (bytes_of_string t)]) /\
  _token (fst (setterFinished sessionObject k b a)) = [] /\
  snd (setterFinished sessionObject k b a) = [SessionTokenReceived []].
Proof.
  intros Hin Hwf Ht Hdoc. rewrite !replyFinished_waited by exact Hin.
  unfold token_of, sessionObject. rewrite fromJson_toJson_ok, fromJson_not_document by assumption.
  simpl. rewrite Ht. repeat split; reflexivity.
Qed.

End Messages.

Module MessageWitnesses.
Import Messages Witnesses IdentityWitnesses.

Definition update : jobj := [("event"%string, JStr "update"); ("id"%string, JNum 42)].
Definition html : list Z := bytes_of_string "<html>".

Definition updates : list jobj := [update; [("event"%string, JStr "delete")]].
Definition updates_bytes : list Z :=
  concat (map (fun o => encode_frame (text_frame (toJson o))) updates).

Lemma json_message_chunks_witness :
  at_frame_boundary connected = true /\ rx (tcpSocket connected) = [] /\ applicationData connected = [] /\
  Forall (fun o => document_ok o = true /\ Z.of_nat (length (toJson o)) < 65536) updates /\
  firstn 3 updates_bytes ++ concat [skipn 3 updates_bytes] =
    concat (map (fun o => encode_frame (text_frame (toJson o))) updates) /\
  let '(c', out) := deliver_chunks [firstn 3 updates_bytes; skipn 3 updates_bytes] connected in
  out = map (fun o => DataReceived (toJson o)) updates /\ received out = map Some updates /\
  rx (tcpSocket c') = [] /\ at_frame_boundary c' = true.
Proof.
  assert (Hf : Forall (fun o => document_ok o = true /\ Z.of_nat (length (toJson o)) < 65536) updates)
    by (repeat constructor; vm_compute; reflexivity).
  do 3 (split; [vm_compute; reflexivity|]). split; [exact Hf|]. split; [vm_compute; reflexivity|].
  apply json_message_chunks; first [exact Hf | vm_compute; reflexivity].
Defined.

Lemma invalid_json_message_empty_witness :
  at_frame_boundary connected = true /\ rx (tcpSocket connected) = [] /\ applicationData connected = [] /\
  bytes_ok html = true /\ html <> [] /\ Z.of_nat (length html) < 65536 /\
  match eatSpace (eatBOM html) with x :: _ => x <> 91 /\ x <> 123 | [] => True end /\
  received (snd (deliver (encode_frame (text_frame html)) connected)) = [Some []] /\
  received (snd (deliver (encode_frame (text_frame (toJson []))) connected)) = [Some []].
Proof.
  assert (Hd : match eatSpace (eatBOM html) with x :: _ => x <> 91 /\ x <> 123 | [] => True end)
    by (vm_compute; split; discriminate).
  do 7 (split; [first [vm_compute; reflexivity | discriminate | exact Hd]|]).
  apply invalid_json_message_empty; first [vm_compute; reflexivity | discriminate | exact Hd].
Defined.

Lemma session_token_json_witness :
  In 4%nat (setters requested) /\ document_ok [("sessionToken"%string, JStr "abc")] = true /\
  obj_value "sessionToken" [("sessionToken"%string, JStr "abc")] = JStr "abc" /\
  match eatSpace (eatBOM html) with x :: _ => x <> 91 /\ x <> 123 | [] => True end /\
  (setterFinished sessionObject 4 (toJson [("sessionToken"%string, JStr "abc")]) requested =
    (set_setters (List.filter (fun k' => negb (Nat.eqb k' 4)) (setters requested))
       (set_token (bytes_of_string "abc") requested), [SessionTokenReceived (bytes_of_string "abc")]) /\
   _token (fst (setterFinished sessionObject 4 html requested)) = [] /\
   snd (setterFinished sessionObject 4 html requested) = [SessionTokenReceived []]).
Proof.
  assert (Hd : match eatSpace (eatBOM html) with x :: _ => x <> 91 /\ x <> 123 | [] => True end)
    by (vm_compute; split; discriminate).
  assert (Hin : In 4%nat (setters requested)) by (vm_compute; left; reflexivity).
  split; [exact Hin|]. split; [reflexivity|]. split; [reflexivity|]. split; [exact Hd|].
  apply session_token_json; [exact Hin | reflexivity | reflexivity | exact Hd].
Defined.

End MessageWitnesses.
